(** * Kairo backend: the ingestion and deduplication pipeline

    A shallow embedding of the background pipeline of the Kairo backend
    (Flask + MongoDB + Gmail/Calendar/Drive + Gemini) and the proofs of its
    specified properties.

    Modelling conventions.
    - Python values are the inductive [value]; a [dict] is an association
      list in insertion order, looked up by its first binding, as a Python
      dict built by [json.loads] or by a dict literal behaves.
    - Text is a Rocq [string]; each character stands for one code point
      below 256, and the character classes ([str.isspace], [str.lower],
      the regular expression classes) are the ones Python gives to these
      code points.
    - An [ObjectId] is a number; [str(oid)] followed by [ObjectId(...)] is
      the identity, so the identifiers the services pass around as text are
      carried as [oid] directly.
    - Code that can raise returns a [result]; code that touches the
      database runs in the monad [M], which threads the [World] and keeps
      the effects made before an exception, as Python does.
    - The external collaborators (the MongoDB server clock, [json.loads],
      the Gmail, Calendar, Drive and Gemini clients) are the fields of
      [Env]; every theorem holds for all of them. *)

From Stdlib Require Import ZArith NArith List String Ascii Bool Lia Floats.
Import ListNotations.

Set Implicit Arguments.

Open Scope string_scope.
Open Scope list_scope.

(* ------------------------------------------------------------------ *)
(** * Exceptions and results                                            *)
(* ------------------------------------------------------------------ *)

Inductive exn_class : Type :=
| JSONDecodeError | ValueError | TypeError | AttributeError | KeyError
| DuplicateKeyError | WriteError | InvalidId | HttpError | Exception_.

(** An exception with the text [str(e)] gives. *)
Record exn : Type := mkExn { exn_cls : exn_class; exn_str : string }.

Inductive result (A : Type) : Type :=
| Ok (a : A)
| Raise (e : exn).
Arguments Ok {A} a.
Arguments Raise {A} e.

Definition result_bind {A B} (r : result A) (k : A -> result B) : result B :=
  match r with Ok a => k a | Raise e => Raise e end.

Declare Scope result_scope.
Delimit Scope result_scope with result.
Notation "x <-? r ;; k" := (result_bind r (fun x => k))
  (at level 61, r at next level, right associativity) : result_scope.

(** [for x in l: ...] over a fallible body, collecting the results. *)
Fixpoint result_map {A B} (f : A -> result B) (l : list A) : result (list B) :=
  match l with
  | [] => Ok []
  | x :: l' =>
      match f x with
      | Raise e => Raise e
      | Ok y => match result_map f l' with
                | Raise e => Raise e
                | Ok ys => Ok (y :: ys)
                end
      end
  end.

(* ------------------------------------------------------------------ *)
(** * Python values                                                     *)
(* ------------------------------------------------------------------ *)

Definition oid := N.

Record datetime : Type := mkDatetime {
  year : Z; month : Z; day : Z;
  hour : Z; minute : Z; second : Z; microsecond : Z
}.

#[warnings="-register-all"]
Inductive value : Type :=
| VNone
| VBool (b : bool)
| VInt (z : Z)
| VFloat (f : float)
| VStr (s : string)
| VList (l : list value)
| VDict (d : list (string * value))
| VDatetime (t : datetime)
| VObjectId (o : oid).

(** A document of the store, and every Python dict with text keys. *)
Definition dict := list (string * value).

(** [bool(v)]. *)
Definition truthy (v : value) : bool :=
  match v with
  | VNone => false
  | VBool b => b
  | VInt z => negb (Z.eqb z 0)
  | VFloat f => negb (PrimFloat.eqb f PrimFloat.zero)
  | VStr s => negb (String.eqb s EmptyString)
  | VList l => match l with [] => false | _ => true end
  | VDict d => match d with [] => false | _ => true end
  | VDatetime _ => true
  | VObjectId _ => true
  end.

Module Dict.

(** [d.get(k)], [None] standing for an absent key. *)
Fixpoint lookup (k : string) (d : dict) : option value :=
  match d with
  | [] => None
  | (k', v) :: d' => if String.eqb k k' then Some v else lookup k d'
  end.

(** [d.get(k, default)]. *)
Definition get (k : string) (default : value) (d : dict) : value :=
  match lookup k d with Some v => v | None => default end.

(** [d[k]]. *)
Definition item (k : string) (d : dict) : result value :=
  match lookup k d with
  | Some v => Ok v
  | None => Raise (mkExn KeyError k)
  end.

(** [d[k] = v]: an existing key keeps its place, a new one goes last. *)
Fixpoint set (k : string) (v : value) (d : dict) : dict :=
  match d with
  | [] => [(k, v)]
  | (k', v') :: d' =>
      if String.eqb k k' then (k', v) :: d' else (k', v') :: set k v d'
  end.

(** [d.update(u)], also MongoDB's [$set] of top-level fields. *)
Definition update (u : dict) (d : dict) : dict :=
  fold_left (fun acc kv => set (fst kv) (snd kv) acc) u d.

Definition mem (k : string) (d : dict) : bool :=
  match lookup k d with Some _ => true | None => false end.

End Dict.

(** [v.get(k)] on an arbitrary value: only a dict has the method. *)
Definition py_get (v : value) (k : string) (default : value) : result value :=
  match v with
  | VDict d => Ok (Dict.get k default d)
  | _ => Raise (mkExn AttributeError "object has no attribute 'get'")
  end.

(** [v[k]] with a text key. *)
Definition py_item (v : value) (k : string) : result value :=
  match v with
  | VDict d => Dict.item k d
  | _ => Raise (mkExn TypeError "indices must be integers")
  end.

(** [v[k] = x] with a text key. *)
Definition py_setitem (v : value) (k : string) (x : value) : result value :=
  match v with
  | VDict d => Ok (VDict (Dict.set k x d))
  | _ => Raise (mkExn TypeError "object does not support item assignment")
  end.

(* ------------------------------------------------------------------ *)
(** * Text                                                              *)
(* ------------------------------------------------------------------ *)

Module Text.

Definition code (c : ascii) : N := N_of_ascii c.

(** [str.isspace] and the class [\s] on code points below 256. *)
Definition isspace (c : ascii) : bool :=
  let n := code c in
  ((9 <=? n) && (n <=? 13) || (28 <=? n) && (n <=? 32)
   || (n =? 133) || (n =? 160))%N.

(** The class [\d] on code points below 256. *)
Definition isdigit (c : ascii) : bool :=
  let n := code c in ((48 <=? n) && (n <=? 57))%N.

(** [str.lower] on one code point below 256. *)
Definition lower_char (c : ascii) : ascii :=
  let n := code c in
  if ((65 <=? n) && (n <=? 90)
      || (192 <=? n) && (n <=? 222) && negb (n =? 215))%N
  then ascii_of_N (n + 32) else c.

Fixpoint lower (s : string) : string :=
  match s with
  | EmptyString => EmptyString
  | String c s' => String (lower_char c) (lower s')
  end.

Fixpoint lstrip (s : string) : string :=
  match s with
  | String c s' => if isspace c then lstrip s' else s
  | EmptyString => EmptyString
  end.

Fixpoint rev_append (s acc : string) : string :=
  match s with
  | EmptyString => acc
  | String c s' => rev_append s' (String c acc)
  end.

Definition rev (s : string) : string := rev_append s EmptyString.

Definition rstrip (s : string) : string := rev (lstrip (rev s)).

(** [s.strip()]. *)
Definition strip (s : string) : string := rstrip (lstrip s).

(** [s[len(p):]] when [s.startswith(p)]. *)
Fixpoint drop_prefix (p s : string) : option string :=
  match p, s with
  | EmptyString, _ => Some s
  | String a p', String b s' =>
      if Ascii.eqb a b then drop_prefix p' s' else None
  | String _ _, EmptyString => None
  end.

(** [sub in s]. *)
Fixpoint contains (sub s : string) : bool :=
  match drop_prefix sub s with
  | Some _ => true
  | None => match s with
            | EmptyString => false
            | String _ s' => contains sub s'
            end
  end.

(** [s[:n]]. *)
Fixpoint take (n : nat) (s : string) : string :=
  match n, s with
  | S n', String c s' => String c (take n' s')
  | _, _ => EmptyString
  end.

(** [s.replace('Z', '+00:00')]. *)
Fixpoint replace_Z (s : string) : string :=
  match s with
  | EmptyString => EmptyString
  | String c s' =>
      if Ascii.eqb c "Z"%char then String.append "+00:00" (replace_Z s')
      else String c (replace_Z s')
  end.

(** [re.sub('^' + fence + '\s*', '', s)]: a fence at the very start goes,
    with the white space after it. *)
Definition sub_leading (fence s : string) : string :=
  match drop_prefix fence s with
  | Some rest => lstrip rest
  | None => s
  end.

(** [re.sub(r'\s*```$', '', s)]: [$] is the end of the text, or the place
    before a line feed that ends it; the match starts at the leftmost
    place it can, so the white space before the fence goes with it. *)
Definition sub_trailing_fence (s : string) : string :=
  match rev s with
  | String "`" (String "`" (String "`" r)) => rev (lstrip r)
  | String "010" (String "`" (String "`" (String "`" r))) =>
      rev (String "010" (lstrip r))
  | _ => s
  end.

End Text.

(* ------------------------------------------------------------------ *)
(** * Dates: [datetime.strptime(s, '%Y-%m-%d')]                         *)
(* ------------------------------------------------------------------ *)

Module Strptime.

Definition digit (c : ascii) : option Z :=
  if Text.isdigit c then Some (Z.of_N (Text.code c) - 48)%Z else None.

Definition digit_in (lo hi : Z) (c : ascii) : option Z :=
  match digit c with
  | Some d => if ((lo <=? d) && (d <=? hi))%Z then Some d else None
  | None => None
  end.

(** [%Y] is [\d\d\d\d]. *)
Definition year_field (s : string) : option (Z * string) :=
  match s with
  | String a (String b (String c (String d r))) =>
      match digit a, digit b, digit c, digit d with
      | Some a, Some b, Some c, Some d =>
          Some (1000 * a + 100 * b + 10 * c + d, r)%Z
      | _, _, _, _ => None
      end
  | _ => None
  end.

Definition dash (s : string) : option string :=
  match s with
  | String "-" r => Some r
  | _ => None
  end.

(** [%m] is [1[0-2]|0[1-9]|[1-9]]; the [-] of the format follows it, and
    the matcher falls back to the next alternative when it does not. *)
Definition month_field (s : string) : option (Z * string) :=
  let two :=
    match s with
    | String a (String b r) =>
        match a, digit_in 0 2 b, digit_in 1 9 b, dash r with
        | "1"%char, Some d, _, Some r' => Some (10 + d, r')%Z
        | "0"%char, _, Some d, Some r' => Some (d, r')
        | _, _, _, _ => None
        end
    | _ => None
    end in
  match two with
  | Some x => Some x
  | None =>
      match s with
      | String a r =>
          match digit_in 1 9 a, dash r with
          | Some d, Some r' => Some (d, r')
          | _, _ => None
          end
      | EmptyString => None
      end
  end.

(** [%d] is [3[0-1]|[1-2]\d|0[1-9]|[1-9]| [1-9]], the last field of the
    format: the first alternative that matches is kept. *)
Definition day_field (s : string) : option (Z * string) :=
  let two :=
    match s with
    | String a (String b r) =>
        match a with
        | "3"%char =>
            match digit_in 0 1 b with Some d => Some (30 + d, r)%Z | None => None end
        | "1"%char =>
            match digit b with Some d => Some (10 + d, r)%Z | None => None end
        | "2"%char =>
            match digit b with Some d => Some (20 + d, r)%Z | None => None end
        | "0"%char =>
            match digit_in 1 9 b with Some d => Some (d, r) | None => None end
        | _ => None
        end
    | _ => None
    end in
  match two with
  | Some x => Some x
  | None =>
      match s with
      | String a r =>
          match digit_in 1 9 a with
          | Some d => Some (d, r)
          | None =>
              match a, r with
              | " "%char, String b r' =>
                  match digit_in 1 9 b with
                  | Some d => Some (d, r')
                  | None => None
                  end
              | _, _ => None
              end
          end
      | EmptyString => None
      end
  end.

Definition is_leap (y : Z) : bool :=
  ((y mod 4 =? 0) && (negb (y mod 100 =? 0) || (y mod 400 =? 0)))%Z.

Definition days_in_month (y m : Z) : Z :=
  (if m =? 2 then (if is_leap y then 29 else 28)
   else if (m =? 4) || (m =? 6) || (m =? 9) || (m =? 11) then 30
   else 31)%Z.

(** The date the constructor [datetime(y, m, d)] accepts. *)
Definition valid_date (y m d : Z) : bool :=
  ((1 <=? y) && (y <=? 9999) && (1 <=? m) && (m <=? 12)
   && (1 <=? d) && (d <=? days_in_month y m))%Z.

Definition value_error : exn :=
  mkExn ValueError "time data does not match format '%Y-%m-%d'".

(** [datetime.strptime(s, '%Y-%m-%d')] on a text: the three fields, no
    data left over, and a day that exists. *)
Definition strptime_ymd (s : string) : result datetime :=
  match year_field s with
  | None => Raise value_error
  | Some (y, r1) =>
      match dash r1 with
      | None => Raise value_error
      | Some r2 =>
          match month_field r2 with
          | None => Raise value_error
          | Some (m, r3) =>
              match day_field r3 with
              | Some (d, EmptyString) =>
                  if valid_date y m d
                  then Ok (mkDatetime y m d 0 0 0 0)
                  else Raise value_error
              | _ => Raise value_error
              end
          end
      end
  end.

(** [datetime.strptime(v, '%Y-%m-%d')] on any value: anything but a text
    is a [TypeError]. *)
Definition strptime (v : value) : result datetime :=
  match v with
  | VStr s => strptime_ymd s
  | _ => Raise (mkExn TypeError "strptime() argument 1 must be str")
  end.

End Strptime.

(** The handler [except ValueError]. *)
Definition is_value_error (e : exn) : bool :=
  match exn_cls e with
  | ValueError | JSONDecodeError => true
  | _ => false
  end.

(* ------------------------------------------------------------------ *)
(** * The external collaborators                                        *)
(* ------------------------------------------------------------------ *)

(** A message as the Gmail API returns it: [message['id']], the name and
    value of each entry of [message['payload']['headers']], the text
    [_get_email_body] decodes from the payload, and [threadId]. *)
Record gmail_message : Type := mkMessage {
  msg_id : string;
  msg_headers : list (string * string);
  msg_body : string;
  msg_thread_id : value
}.

(** The collaborators and the standard-library functions the code calls
    and this development does not define. Every call of a collaborator is
    numbered by the [ticks] of the world it is made in, so that two calls
    with the same arguments may answer differently. A service instance is
    the credentials it was built from. *)
Record Env : Type := mkEnv {
  utcnow_at : nat -> datetime;
  json_loads : string -> result value;
  fromisoformat : string -> result datetime;
  (* [t - timedelta(seconds=n)] *)
  datetime_minus_seconds : datetime -> Z -> datetime;
  (* Gemini *)
  GeminiService_new : nat -> result unit;
  generate_content : string -> nat -> result string;
  build_extraction_prompt : string -> string -> string;
  build_summary_prompt : value -> string -> string -> string;
  (* Gmail *)
  GmailService_new : value -> nat -> result unit;
  gmail_get_emails_since : value -> value -> nat -> result (list gmail_message);
  (* Calendar *)
  CalendarService_new : value -> nat -> result unit;
  calendar_get_past_meet_events : value -> nat -> result (list dict);
  (* Drive *)
  DriveService_new : value -> nat -> result unit;
  drive_find_meeting_recording : value -> value -> value -> nat -> option dict;
  drive_get_document_text : value -> value -> nat -> option string
}.

(* ------------------------------------------------------------------ *)
(** * The document store                                                *)
(* ------------------------------------------------------------------ *)

Inductive collection : Type :=
| users | tasks | processed_emails | meetings
| meeting_transcripts | meeting_summaries.

Definition collection_eqb (a b : collection) : bool :=
  match a, b with
  | users, users | tasks, tasks | processed_emails, processed_emails
  | meetings, meetings | meeting_transcripts, meeting_transcripts
  | meeting_summaries, meeting_summaries => true
  | _, _ => false
  end.

Definition datetime_eqb (a b : datetime) : bool :=
  ((year a =? year b) && (month a =? month b) && (day a =? day b)
   && (hour a =? hour b) && (minute a =? minute b)
   && (second a =? second b) && (microsecond a =? microsecond b))%Z.

(** Equality of stored values, as an equality match of the store compares
    the texts and ObjectIds this code queries by. *)
Fixpoint value_eqb (a b : value) {struct a} : bool :=
  match a, b with
  | VNone, VNone => true
  | VBool x, VBool y => Bool.eqb x y
  | VInt x, VInt y => Z.eqb x y
  | VFloat x, VFloat y => PrimFloat.eqb x y
  | VStr x, VStr y => String.eqb x y
  | VList x, VList y =>
      (fix go (l1 l2 : list value) {struct l1} : bool :=
         match l1, l2 with
         | [], [] => true
         | u :: l1', v :: l2' => value_eqb u v && go l1' l2'
         | _, _ => false
         end) x y
  | VDict x, VDict y =>
      (fix go (l1 l2 : list (string * value)) {struct l1} : bool :=
         match l1, l2 with
         | [], [] => true
         | (k1, u) :: l1', (k2, v) :: l2' =>
             String.eqb k1 k2 && value_eqb u v && go l1' l2'
         | _, _ => false
         end) x y
  | VDatetime x, VDatetime y => datetime_eqb x y
  | VObjectId x, VObjectId y => N.eqb x y
  | _, _ => false
  end.

(** An index: [create_index(keys, unique=...)]. *)
Record index : Type := mkIndex {
  ix_collection : collection;
  ix_keys : list string;
  ix_unique : bool
}.

(** A write the code made on the store, kept in the order of the calls. *)
Inductive event : Type :=
| EvInsert (c : collection) (d : dict)
| EvUpdate (c : collection) (query : dict) (changes : dict)
| EvSetTaskId (query : dict) (idx : nat) (task : oid) (now : datetime).

Record World : Type := mkWorld {
  db : collection -> list dict;
  indexes : list index;
  next_oid : oid;
  ticks : nat;
  trace : list event;
  (** [meeting_polling_service.gemini_service] is set. *)
  gemini_service : bool
}.

(** The computations on the world: the result, and the world the call
    leaves, also when it raises. *)
Definition M (A : Type) : Type := World -> result A * World.

Definition ret {A} (a : A) : M A := fun w => (Ok a, w).
Definition raise {A} (e : exn) : M A := fun w => (Raise e, w).
Definition lift {A} (r : result A) : M A := fun w => (r, w).

Definition bind {A B} (m : M A) (k : A -> M B) : M B :=
  fun w => match m w with
           | (Ok a, w') => k a w'
           | (Raise e, w') => (Raise e, w')
           end.

(** [try: m  except Exception as e: h e]. *)
Definition try_except {A} (m : M A) (h : exn -> M A) : M A :=
  fun w => match m w with
           | (Ok a, w') => (Ok a, w')
           | (Raise e, w') => h e w'
           end.

Declare Scope M_scope.
Delimit Scope M_scope with M.
Notation "x <- m ;; k" := (bind m (fun x => k))
  (at level 61, m at next level, right associativity) : M_scope.
Notation "m ;;; k" := (bind m (fun _ => k))
  (at level 61, right associativity) : M_scope.
Open Scope M_scope.

(** A call of a collaborator: it takes the number of the call. *)
Definition call {A} (f : nat -> result A) : M A :=
  fun w => (f (ticks w),
            mkWorld (db w) (indexes w) (next_oid w) (S (ticks w)) (trace w)
                    (gemini_service w)).

(** [datetime.utcnow()]. *)
Definition utcnow (env : Env) : M datetime :=
  call (fun n => Ok (utcnow_at env n)).

(** [for x in l: body] with the local variables of the loop in [acc]. *)
Fixpoint for_each {A S} (l : list A) (body : A -> S -> M S) (acc : S) : M S :=
  match l with
  | [] => ret acc
  | x :: l' => acc' <- body x acc ;; for_each l' body acc'
  end.

Module Store.

(** The value a query or an index sees at a field: null when absent. *)
Definition field (k : string) (d : dict) : value := Dict.get k VNone d.

(** An equality query [{k1: v1, ...}]. *)
Definition matches (query d : dict) : bool :=
  forallb (fun kv => value_eqb (field (fst kv) d) (snd kv)) query.

Definition key_of (keys : list string) (d : dict) : list value :=
  map (fun k => field k d) keys.

Fixpoint keys_eqb (a b : list value) : bool :=
  match a, b with
  | [], [] => true
  | u :: a', v :: b' => value_eqb u v && keys_eqb a' b'
  | _, _ => false
  end.

(** Some unique index of [c] already holds the key of [d]. *)
Definition violates (w : World) (c : collection) (d : dict) : bool :=
  existsb (fun ix =>
             ix_unique ix && collection_eqb (ix_collection ix) c
             && existsb (fun d' => keys_eqb (key_of (ix_keys ix) d')
                                            (key_of (ix_keys ix) d))
                        (db w c))
          (indexes w).

Fixpoint update_first (p : dict -> bool) (f : dict -> dict)
         (docs : list dict) : list dict :=
  match docs with
  | [] => []
  | d :: docs' => if p d then f d :: docs' else d :: update_first p f docs'
  end.

(** [$set] of [action_items.<idx>.task_id] in an array: the element at
    [idx] gets the field; an array too short is filled with nulls. *)
Fixpoint set_task_id_at (idx : nat) (task : oid) (l : list value)
  : result (list value) :=
  match idx, l with
  | O, VDict d :: l' => Ok (VDict (Dict.set "task_id" (VObjectId task) d) :: l')
  | O, [] => Ok [VDict [("task_id", VObjectId task)]]
  | O, _ :: _ => Raise (mkExn WriteError "Cannot create field in element")
  | S n, x :: l' =>
      match set_task_id_at n task l' with
      | Ok l'' => Ok (x :: l'')
      | Raise e => Raise e
      end
  | S n, [] =>
      match set_task_id_at n task [] with
      | Ok l'' => Ok (VNone :: l'')
      | Raise e => Raise e
      end
  end.

(** [{'$set': {'action_items.<idx>.task_id': task, 'updated_at': now}}]
    on one summary. The summaries this code stores hold a list at
    [action_items]; the path through anything else is refused here. *)
Definition set_task_id (idx : nat) (task : oid) (now : datetime) (d : dict)
  : result dict :=
  match Dict.lookup "action_items" d with
  | Some (VList l) =>
      match set_task_id_at idx task l with
      | Ok l' => Ok (Dict.set "updated_at" (VDatetime now)
                              (Dict.set "action_items" (VList l') d))
      | Raise e => Raise e
      end
  | _ => Raise (mkExn WriteError "Cannot create field in element")
  end.

(** What a write does to the collections. *)
Definition apply_event (e : event) (dbf : collection -> list dict)
  : collection -> list dict :=
  match e with
  | EvInsert c d =>
      fun c' => if collection_eqb c' c then dbf c ++ [d] else dbf c'
  | EvUpdate c query changes =>
      fun c' => if collection_eqb c' c
                then update_first (matches query) (Dict.update changes) (dbf c)
                else dbf c'
  | EvSetTaskId query idx task now =>
      fun c' => if collection_eqb c' meeting_summaries
                then update_first (matches query)
                       (fun d => match set_task_id idx task now d with
                                 | Ok d' => d'
                                 | Raise _ => d
                                 end)
                       (dbf meeting_summaries)
                else dbf c'
  end.

(** The world after a write. *)
Definition commit (e : event) (w : World) : World :=
  mkWorld (apply_event e (db w)) (indexes w) (next_oid w) (ticks w)
          (trace w ++ [e]) (gemini_service w).

(** [db.c.find_one(query)]. *)
Definition find_one (c : collection) (query : dict) : M (option dict) :=
  fun w => (Ok (find (matches query) (db w c)), w).

(** [db.c.insert_one(d)]: the store gives the document its [_id]; a
    unique index that already holds its key refuses it. *)
Definition insert_one (c : collection) (d : dict) : M oid :=
  fun w =>
    if violates w c d
    then (Raise (mkExn DuplicateKeyError "E11000 duplicate key error"), w)
    else
      let o := next_oid w in
      (Ok o, commit (EvInsert c (Dict.set "_id" (VObjectId o) d))
                    (mkWorld (db w) (indexes w) (N.succ o) (ticks w)
                             (trace w) (gemini_service w))).

(** [db.c.update_one(query, {'$set': changes})] for top-level fields
    that belong to no unique index. *)
Definition update_one (c : collection) (query changes : dict) : M unit :=
  fun w => (Ok tt, commit (EvUpdate c query changes) w).

(** [db.meeting_summaries.update_one(query, {'$set': {...}})] with the
    path of a task id: refused when the path cannot be made. *)
Definition update_task_id_one (query : dict) (idx : nat) (task : oid)
           (now : datetime) : M unit :=
  fun w =>
    match find (matches query) (db w meeting_summaries) with
    | None => (Ok tt, w)
    | Some d =>
        match set_task_id idx task now d with
        | Raise e => (Raise e, w)
        | Ok _ => (Ok tt, commit (EvSetTaskId query idx task now) w)
        end
    end.

(** [list(db.c.find(filter))] for a filter given as a test on the
    document: the documents that pass, in the order of the store. *)
Definition find_where (c : collection) (p : dict -> bool) : M (list dict) :=
  fun w => (Ok (filter p (db w c)), w).

(** [db.c.count_documents(query)]. *)
Definition count_documents (c : collection) (query : dict) : M Z :=
  fun w => (Ok (Z.of_nat (List.length (filter (matches query) (db w c)))), w).

(** The filter [{k: {'$ne': None, '$exists': True}}]: the field is there
    and is not null. *)
Definition set_and_not_null (k : string) (d : dict) : bool :=
  match Dict.lookup k d with
  | Some v => negb (value_eqb v VNone)
  | None => false
  end.

(** [cursor.skip(skip).limit(limit)] on the documents a cursor yields:
    a negative skip is refused by the driver; a limit of 0 is no limit,
    and a negative limit is read as its absolute value. *)
Definition skip_limit (skip limit : Z) (docs : list dict) : result (list dict) :=
  if (skip <? 0)%Z then Raise (mkExn ValueError "The 'skip' parameter must be >= 0")
  else
    let rest := skipn (Z.to_nat skip) docs in
    Ok (if (limit =? 0)%Z then rest else firstn (Z.abs_nat limit) rest).

(** [(total + per_page - 1) // per_page]; the [ZeroDivisionError] of a
    page size of 0 is an [Exception] like any other to its callers. *)
Definition page_count (total per_page : Z) : result Z :=
  if (per_page =? 0)%Z
  then Raise (mkExn Exception_ "integer division or modulo by zero")
  else Ok ((total + per_page - 1) / per_page)%Z.

End Store.

(** [str(d['_id'])], the text the services pass on as an id. A document
    read from the store holds an ObjectId there. *)
Definition doc_id (d : dict) : result oid :=
  match Dict.lookup "_id" d with
  | Some (VObjectId o) => Ok o
  | Some _ => Raise (mkExn InvalidId "not a valid ObjectId")
  | None => Raise (mkExn KeyError "_id")
  end.

(** [x if x else None] and [x or default]. *)
Definition py_or (v default : value) : value :=
  if truthy v then v else default.

Definition oid_or_none (o : option oid) : value :=
  match o with Some x => VObjectId x | None => VNone end.

(** [for x in v]. *)
Definition py_iter (v : value) : result (list value) :=
  match v with
  | VList l => Ok l
  | VDict d => Ok (map (fun kv => VStr (fst kv)) d)
  | VStr s => Ok (map (fun c => VStr (String c EmptyString)) (list_ascii_of_string s))
  | _ => Raise (mkExn TypeError "object is not iterable")
  end.

(** [field in v] for a text [field]. *)
Definition py_contains (field : string) (v : value) : result bool :=
  match v with
  | VDict d => Ok (Dict.mem field d)
  | VList l => Ok (existsb (fun x => match x with
                                     | VStr s => String.eqb s field
                                     | _ => false
                                     end) l)
  | VStr s => Ok (Text.contains field s)
  | _ => Raise (mkExn TypeError "argument is not iterable")
  end.

(* ------------------------------------------------------------------ *)
(** * app/models                                                        *)
(* ------------------------------------------------------------------ *)

Module User.

Definition find_by_id (user_id : oid) : M (option dict) :=
  Store.find_one users [("_id", VObjectId user_id)].

Definition update (env : Env) (user_id : oid) (update_data : dict)
  : M (option dict) :=
  now <- utcnow env ;;
  let update_data := Dict.set "updated_at" (VDatetime now) update_data in
  Store.update_one users [("_id", VObjectId user_id)] update_data ;;;
  find_by_id user_id.

Definition update_last_email_check (env : Env) (user_id : oid)
  : M (option dict) :=
  now <- utcnow env ;;
  update env user_id [("last_email_check", VDatetime now)].

Definition update_last_meeting_check (env : Env) (user_id : oid)
  : M (option dict) :=
  now <- utcnow env ;;
  update env user_id [("last_meeting_check", VDatetime now)].

Definition create (env : Env) (email name picture google_id role : value)
  : M dict :=
  created_at <- utcnow env ;;
  updated_at <- utcnow env ;;
  let user :=
    [ ("email", email);
      ("name", name);
      ("picture", picture);
      ("google_id", google_id);
      ("role", role);
      ("gmail_refresh_token", VNone);
      ("calendar_tokens", VNone);
      ("drive_tokens", VNone);
      ("last_email_check", VNone);
      ("last_meeting_check", VNone);
      ("created_at", VDatetime created_at);
      ("updated_at", VDatetime updated_at) ] in
  o <- Store.insert_one users user ;;
  ret (Dict.set "_id" (VObjectId o) user).

Definition find_by_email (email : value) : M (option dict) :=
  Store.find_one users [("email", email)].

Definition find_by_google_id (google_id : value) : M (option dict) :=
  Store.find_one users [("google_id", google_id)].

Definition update_refresh_token (env : Env) (user_id : oid)
           (refresh_token : value) : M (option dict) :=
  update env user_id [("gmail_refresh_token", refresh_token)].

Definition update_role (env : Env) (user_id : oid) (role : value)
  : M (option dict) :=
  update env user_id [("role", role)].

Definition update_calendar_tokens (env : Env) (user_id : oid) (tokens : value)
  : M (option dict) :=
  update env user_id [("calendar_tokens", tokens)].

Definition update_drive_tokens (env : Env) (user_id : oid) (tokens : value)
  : M (option dict) :=
  update env user_id [("drive_tokens", tokens)].

Definition get_users_with_gmail_tokens : M (list dict) :=
  Store.find_where users (Store.set_and_not_null "gmail_refresh_token").

Definition get_users_with_calendar_tokens : M (list dict) :=
  Store.find_where users (Store.set_and_not_null "calendar_tokens").

End User.

Module ProcessedEmail.

Definition mark_as_processed (env : Env) (email_id : string) (user_id : oid)
           (tasks_created : Z) : M dict :=
  now <- utcnow env ;;
  let processed_email :=
    [ ("email_id", VStr email_id);
      ("user_id", VObjectId user_id);
      ("tasks_created", VInt tasks_created);
      ("processed_at", VDatetime now) ] in
  o <- Store.insert_one processed_emails processed_email ;;
  ret (Dict.set "_id" (VObjectId o) processed_email).

Definition is_processed (email_id : string) (user_id : oid) : M bool :=
  r <- Store.find_one processed_emails
         [("email_id", VStr email_id); ("user_id", VObjectId user_id)] ;;
  ret (match r with Some _ => true | None => false end).

Definition get_processed_count (user_id : oid) : M Z :=
  Store.count_documents processed_emails [("user_id", VObjectId user_id)].

End ProcessedEmail.

Module Task.

(** The keyword arguments of [Task.create], with their defaults. *)
Record args : Type := mkArgs {
  title : value;
  description : value;
  priority : value;
  deadline : value;
  assigned_to : option oid;
  created_by : option oid;
  status : value;
  email_id : value;
  sender_email : value;
  labels : value;
  source_type : value;
  meeting_id : option oid;
  meeting_title : value;
  meeting_date : value;
  user_email : value
}.

Definition defaults (title description : value) : args :=
  mkArgs title description (VStr "medium") VNone None None (VStr "pending")
         VNone VNone VNone (VStr "manual") None VNone VNone VNone.

Definition create (env : Env) (a : args) : M dict :=
  created_at <- utcnow env ;;
  updated_at <- utcnow env ;;
  let task :=
    [ ("title", title a);
      ("description", py_or (description a) (VStr ""));
      ("priority", priority a);
      ("status", status a);
      ("deadline", deadline a);
      ("assigned_to", oid_or_none (assigned_to a));
      ("created_by", oid_or_none (created_by a));
      ("email_id", email_id a);
      ("sender_email", sender_email a);
      ("user_email", user_email a);
      ("labels", py_or (labels a) (VList []));
      ("source_type", source_type a);
      ("meeting_id", oid_or_none (meeting_id a));
      ("meeting_title", meeting_title a);
      ("meeting_date", meeting_date a);
      ("created_at", VDatetime created_at);
      ("updated_at", VDatetime updated_at) ] in
  o <- Store.insert_one tasks task ;;
  ret (Dict.set "_id" (VObjectId o) task).

(** What [get_all] returns: the documents of the page, and the dict
    [pagination]. *)
Record listing : Type := mkListing {
  listed : list dict;
  pagination : dict
}.

(** [Task.get_all(query, page, per_page)]. The query is given as the
    test it makes on a document, and [sorted] is the order the server
    gives to the matching documents for [.sort('created_at', -1)]. *)
Definition get_all (sorted : list dict -> list dict) (query : dict -> bool)
           (page per_page : Z) : M listing :=
  let skip := ((page - 1) * per_page)%Z in
  found <- Store.find_where tasks query ;;
  page_tasks <- lift (Store.skip_limit skip per_page (sorted found)) ;;
  matching <- Store.find_where tasks query ;;
  let total := Z.of_nat (List.length matching) in
  pages <- lift (Store.page_count total per_page) ;;
  ret (mkListing page_tasks
                 [ ("page", VInt page);
                   ("per_page", VInt per_page);
                   ("total", VInt total);
                   ("pages", VInt pages) ]).

(** The query [get_user_tasks] builds: the tasks assigned to the user;
    when the user has an address, those that carry it in [user_email]
    or have no such field; and the optional filters that are given. *)
Definition user_query (user_id : oid) (user_email status priority source_type : value)
           (d : dict) : bool :=
  Store.matches [("assigned_to", VObjectId user_id)] d
  && (if truthy user_email
      then value_eqb (Store.field "user_email" d) user_email
           || negb (Dict.mem "user_email" d)
      else true)
  && (if truthy status then value_eqb (Store.field "status" d) status else true)
  && (if truthy priority then value_eqb (Store.field "priority" d) priority else true)
  && (if truthy source_type
      then value_eqb (Store.field "source_type" d) source_type else true).

Definition get_user_tasks (sorted : list dict -> list dict) (user_id : oid)
           (status priority source_type : value) (page per_page : Z)
  : M listing :=
  user <- User.find_by_id user_id ;;
  let user_email :=
    match user with
    | Some u => if truthy (VDict u) then Dict.get "email" VNone u else VNone
    | None => VNone
    end in
  get_all sorted (user_query user_id user_email status priority source_type)
          page per_page.

End Task.

Module Meeting.

Definition create (env : Env) (calendar_event_id : value) (user_id : oid)
           (title description start_time end_time attendees meet_link : value)
  : M dict :=
  created_at <- utcnow env ;;
  updated_at <- utcnow env ;;
  let meeting :=
    [ ("calendar_event_id", calendar_event_id);
      ("user_id", VObjectId user_id);
      ("title", title);
      ("description", py_or description (VStr ""));
      ("start_time", start_time);
      ("end_time", end_time);
      ("attendees", py_or attendees (VList []));
      ("meet_link", meet_link);
      ("recording_url", VStr "");
      ("recording_id", VStr "");
      ("processing_status", VStr "pending");
      ("processed_at", VNone);
      ("error_message", VNone);
      ("created_at", VDatetime created_at);
      ("updated_at", VDatetime updated_at) ] in
  o <- Store.insert_one meetings meeting ;;
  ret (Dict.set "_id" (VObjectId o) meeting).

Definition find_by_id (meeting_id : oid) : M (option dict) :=
  Store.find_one meetings [("_id", VObjectId meeting_id)].

Definition find_by_calendar_event_id (calendar_event_id : value)
           (user_id : oid) : M (option dict) :=
  Store.find_one meetings
    [("calendar_event_id", calendar_event_id); ("user_id", VObjectId user_id)].

(** The fields [update_status] sets. *)
Definition update_data (status : value) (now : datetime)
           (processed_at error_message : value) : dict :=
  let d := [ ("processing_status", status); ("updated_at", VDatetime now) ] in
  let d := if truthy processed_at
           then Dict.set "processed_at" processed_at d else d in
  if truthy error_message
  then Dict.set "error_message" error_message d else d.

Definition update_status (env : Env) (meeting_id : oid) (status : value)
           (processed_at error_message : value) : M (option dict) :=
  now <- utcnow env ;;
  Store.update_one meetings [("_id", VObjectId meeting_id)]
                   (update_data status now processed_at error_message) ;;;
  find_by_id meeting_id.

(** What [get_user_meetings] returns: the documents of the page, and the
    dict [pagination]. *)
Record listing : Type := mkListing {
  listed : list dict;
  pagination : dict
}.

(** The query [get_user_meetings] builds: the meetings of the user, and
    of the status when one is given. *)
Definition user_query (user_id : oid) (status : value) (d : dict) : bool :=
  Store.matches [("user_id", VObjectId user_id)] d
  && (if truthy status
      then value_eqb (Store.field "processing_status" d) status else true).

(** [Meeting.get_user_meetings(user_id, status, page, per_page)];
    [sorted] is the order the server gives to the matching documents for
    [.sort('start_time', -1)]. *)
Definition get_user_meetings (sorted : list dict -> list dict) (user_id : oid)
           (status : value) (page per_page : Z) : M listing :=
  let query := user_query user_id status in
  let skip := ((page - 1) * per_page)%Z in
  found <- Store.find_where meetings query ;;
  page_meetings <- lift (Store.skip_limit skip per_page (sorted found)) ;;
  matching <- Store.find_where meetings query ;;
  let total := Z.of_nat (List.length matching) in
  pages <- (if (total >? 0)%Z then lift (Store.page_count total per_page)
            else ret 0%Z) ;;
  ret (mkListing page_meetings
                 [ ("page", VInt page);
                   ("per_page", VInt per_page);
                   ("total", VInt total);
                   ("pages", VInt pages) ]).

End Meeting.

Module MeetingTranscript.

Definition create (env : Env) (meeting_id user_id : oid)
           (transcript_text transcript_segments language confidence : value)
  : M dict :=
  created_at <- utcnow env ;;
  updated_at <- utcnow env ;;
  let transcript :=
    [ ("meeting_id", VObjectId meeting_id);
      ("user_id", VObjectId user_id);
      ("transcript_text", transcript_text);
      ("transcript_segments", py_or transcript_segments (VList []));
      ("language", language);
      ("confidence", confidence);
      ("created_at", VDatetime created_at);
      ("updated_at", VDatetime updated_at) ] in
  o <- Store.insert_one meeting_transcripts transcript ;;
  ret (Dict.set "_id" (VObjectId o) transcript).

End MeetingTranscript.

Module MeetingSummary.

Definition create (env : Env) (meeting_id user_id : oid)
           (summary key_points decisions_made action_items
            participants_mentioned topics_discussed next_meeting : value)
  : M dict :=
  created_at <- utcnow env ;;
  updated_at <- utcnow env ;;
  let summary_doc :=
    [ ("meeting_id", VObjectId meeting_id);
      ("user_id", VObjectId user_id);
      ("summary", summary);
      ("key_points", py_or key_points (VList []));
      ("decisions_made", py_or decisions_made (VList []));
      ("action_items", py_or action_items (VList []));
      ("participants_mentioned", py_or participants_mentioned (VList []));
      ("topics_discussed", py_or topics_discussed (VList []));
      ("next_meeting", next_meeting);
      ("created_at", VDatetime created_at);
      ("updated_at", VDatetime updated_at) ] in
  o <- Store.insert_one meeting_summaries summary_doc ;;
  ret (Dict.set "_id" (VObjectId o) summary_doc).

Definition update_task_id (env : Env) (meeting_id : oid)
           (action_item_index : nat) (task_id : oid) : M unit :=
  now <- utcnow env ;;
  Store.update_task_id_one [("meeting_id", VObjectId meeting_id)]
                           action_item_index task_id now.

End MeetingSummary.

(* ------------------------------------------------------------------ *)
(** * app/services                                                      *)
(* ------------------------------------------------------------------ *)

Module GmailService.

(** The dict [parse_email] returns. *)
Record email_data : Type := mkEmailData {
  message_id : string;
  subject : string;
  from_ : string;
  date : string;
  body : string;
  thread_id : value
}.

(** [next((h['value'] for h in headers if h['name'] == name), '')]. *)
Fixpoint header (name : string) (headers : list (string * string)) : string :=
  match headers with
  | [] => ""
  | (n, v) :: headers' => if String.eqb n name then v else header name headers'
  end.

Definition parse_email (message : gmail_message) : email_data :=
  mkEmailData (msg_id message)
              (header "Subject" (msg_headers message))
              (header "From" (msg_headers message))
              (header "Date" (msg_headers message))
              (msg_body message)
              (msg_thread_id message).

(** The rest of a match of [(.+?)>] after the first character of the
    group: the group ends at the first [>]; no character of it is a line
    feed. [acc] is the group so far, reversed. *)
Fixpoint lazy_group (s acc : string) : option string :=
  match s with
  | EmptyString => None
  | String c s' =>
      if Ascii.eqb c ">"%char then Some (Text.rev acc)
      else if Ascii.eqb c "010"%char then None
      else lazy_group s' (String c acc)
  end.

(** [re.search(r'<(.+?)>', s)], the group of the leftmost match. *)
Fixpoint search_angle (s : string) : option string :=
  match s with
  | EmptyString => None
  | String c s' =>
      if Ascii.eqb c "<"%char then
        match s' with
        | String c1 s'' =>
            if Ascii.eqb c1 "010"%char then search_angle s'
            else match lazy_group s'' (String c1 EmptyString) with
                 | Some g => Some g
                 | None => search_angle s'
                 end
        | EmptyString => None
        end
      else search_angle s'
  end.

Definition extract_sender_email (from_header : string) : string :=
  match search_angle from_header with
  | Some g => g
  | None => Text.strip from_header
  end.

Definition get_service_for_user (env : Env) (user : dict) : M (option value) :=
  if negb (truthy (Dict.get "gmail_refresh_token" VNone user)) then ret None
  else
    refresh_token <- lift (Dict.item "gmail_refresh_token" user) ;;
    let credentials :=
      VDict [("refresh_token", refresh_token); ("access_token", VNone)] in
    call (GmailService_new env credentials) ;;;
    ret (Some credentials).

Definition get_emails_since (env : Env) (self : value) (since_date : value)
  : M (list gmail_message) :=
  call (gmail_get_emails_since env self since_date).

End GmailService.

Module CalendarService.

Definition get_service_for_user (env : Env) (user : dict) : M (option value) :=
  if negb (truthy (Dict.get "calendar_tokens" VNone user)) then ret None
  else
    try_except
      (tokens <- lift (Dict.item "calendar_tokens" user) ;;
       call (CalendarService_new env tokens) ;;;
       ret (Some tokens))
      (fun _ => ret None).

Definition get_past_meet_events_with_recordings (env : Env) (self : value)
  : M (list dict) :=
  call (calendar_get_past_meet_events env self).

End CalendarService.

Module DriveService.

Definition get_service_for_user (env : Env) (user : dict) : M (option value) :=
  if negb (truthy (Dict.get "calendar_tokens" VNone user)) then ret None
  else
    try_except
      (tokens <- lift (Dict.item "calendar_tokens" user) ;;
       call (DriveService_new env tokens) ;;;
       ret (Some tokens))
      (fun _ => ret None).

(** Every exception is caught inside: the answer is a file or [None]. *)
Definition find_meeting_recording (env : Env) (self : value)
           (meeting_title meeting_date : value) : M (option dict) :=
  call (fun n => Ok (drive_find_meeting_recording env self meeting_title
                                                  meeting_date n)).

Definition get_document_text (env : Env) (self : value) (file_id : value)
  : M (option string) :=
  call (fun n => Ok (drive_get_document_text env self file_id n)).

End DriveService.

Module GeminiService.

Definition valid_priorities : list string := ["low"; "medium"; "high"].

(** [v in valid_priorities]. *)
Definition in_valid_priorities (v : value) : bool :=
  match v with
  | VStr s => existsb (String.eqb s) valid_priorities
  | _ => false
  end.

(** The four lines that remove the markdown code fence. *)
Definition clean (response_text : string) : string :=
  let cleaned_text := Text.strip response_text in
  let cleaned_text := Text.sub_leading "```json" cleaned_text in
  let cleaned_text := Text.sub_leading "```" cleaned_text in
  let cleaned_text := Text.sub_trailing_fence cleaned_text in
  Text.strip cleaned_text.

Open Scope result_scope.

(** The body of the loop of [_parse_gemini_response] over one task:
    [None] when the loop goes on without keeping it. *)
Definition validate_task (task : value) : result (option value) :=
  title <-? py_get task "title" VNone ;;
  if negb (truthy title) then Ok None else
  description <-? py_get task "description" VNone ;;
  if negb (truthy description) then Ok None else
  priority <-? py_get task "priority" VNone ;;
  task <-? (if in_valid_priorities priority then Ok task
            else py_setitem task "priority" (VStr "medium")) ;;
  deadline <-? py_get task "deadline" VNone ;;
  task <-? (if truthy deadline then
              raw <-? py_item task "deadline" ;;
              match Strptime.strptime raw with
              | Ok deadline => py_setitem task "deadline" (VDatetime deadline)
              | Raise e =>
                  if is_value_error e then py_setitem task "deadline" VNone
                  else Raise e
              end
            else py_setitem task "deadline" VNone) ;;
  Ok (Some task).

Fixpoint validate_tasks (tasks : list value) : result (list value) :=
  match tasks with
  | [] => Ok []
  | task :: tasks' =>
      r <-? validate_task task ;;
      validated_tasks <-? validate_tasks tasks' ;;
      Ok (match r with
          | Some task' => task' :: validated_tasks
          | None => validated_tasks
          end)
  end.

(** The [try] block of [_parse_gemini_response]. *)
Definition parse_gemini_response_body (env : Env) (response_text : string)
  : result (option dict) :=
  response_data <-? json_loads env (clean response_text) ;;
  match response_data with
  | VDict response_data =>
      if negb (truthy (Dict.get "has_tasks" (VBool false) response_data))
      then Ok None
      else
        match Dict.get "tasks" (VList []) response_data with
        | VList (t :: ts) =>
            validated_tasks <-? validate_tasks (t :: ts) ;;
            match validated_tasks with
            | first :: _ =>
                title <-? py_item first "title" ;;
                description <-? py_item first "description" ;;
                priority <-? py_item first "priority" ;;
                deadline <-? py_item first "deadline" ;;
                Ok (Some [ ("has_task", VBool true);
                           ("has_tasks", VBool true);
                           ("tasks", VList validated_tasks);
                           ("title", title);
                           ("description", description);
                           ("priority", priority);
                           ("deadline", deadline) ])
            | [] => Ok None
            end
        | _ => Ok None
        end
  | _ => Ok None
  end.

Definition _parse_gemini_response (env : Env) (response_text : string)
  : option dict :=
  match parse_gemini_response_body env response_text with
  | Ok r => r
  | Raise _ => None
  end.

(** The body of the loop of [_parse_meeting_summary_response] over one
    action item. *)
Definition normalize_action_item (item : value) : result value :=
  priority <-? py_get item "priority" VNone ;;
  item <-? (if in_valid_priorities priority then Ok item
            else py_setitem item "priority" (VStr "medium")) ;;
  deadline <-? py_get item "deadline" VNone ;;
  if truthy deadline then
    raw <-? py_item item "deadline" ;;
    match Strptime.strptime raw with
    | Ok _ => Ok item
    | Raise e =>
        if is_value_error e then py_setitem item "deadline" VNone
        else Raise e
    end
  else Ok item.

Definition required_fields : list string :=
  ["summary"; "key_points"; "action_items"].

(** The first loop: [false] when a required field is missing. *)
Fixpoint has_required (fields : list string) (summary_data : value)
  : result bool :=
  match fields with
  | [] => Ok true
  | field :: fields' =>
      present <-? py_contains field summary_data ;;
      if present then has_required fields' summary_data else Ok false
  end.

(** The [try] block of [_parse_meeting_summary_response]. The loop
    changes the items in place, inside the list [summary_data] holds. *)
Definition parse_meeting_summary_body (env : Env) (response_text : string)
  : result (option dict) :=
  summary_data <-? json_loads env (clean response_text) ;;
  ok <-? has_required required_fields summary_data ;;
  if negb ok then Ok None else
  action_items <-? py_get summary_data "action_items" (VList []) ;;
  items <-? py_iter action_items ;;
  items' <-? result_map normalize_action_item items ;;
  match summary_data, action_items with
  | VDict d, VList _ => Ok (Some (Dict.set "action_items" (VList items') d))
  | VDict d, _ => Ok (Some d)
  | _, _ => Raise (mkExn AttributeError "object has no attribute 'get'")
  end.

Definition _parse_meeting_summary_response (env : Env) (response_text : string)
  : option dict :=
  match parse_meeting_summary_body env response_text with
  | Ok r => r
  | Raise _ => None
  end.

Close Scope result_scope.

Definition extract_task_from_email (env : Env) (email_subject email_body : string)
  : M (option dict) :=
  let prompt := build_extraction_prompt env email_subject email_body in
  try_except
    (response <- call (generate_content env prompt) ;;
     ret (_parse_gemini_response env response))
    (fun _ => ret None).

(** [', '.join(names)]. *)
Fixpoint join_names (names : list string) : string :=
  match names with
  | [] => ""
  | [n] => n
  | n :: names' => String.append n (String.append ", " (join_names names'))
  end.

(** [', '.join([a.get('name', a.get('email', '')) for a in (attendees or [])])]:
    the names are read first, then joined, and only texts join. *)
Definition attendees_list (attendees : value) : result string :=
  (items <-? py_iter (py_or attendees (VList [])) ;;
   names <-? result_map (fun a => email <-? py_get a "email" (VStr "") ;;
                                  py_get a "name" email) items ;;
   texts <-? result_map (fun n => match n with
                                  | VStr s => Ok s
                                  | _ => Raise (mkExn TypeError "expected str instance")
                                  end) names ;;
   Ok (join_names texts))%result.

Definition summarize_meeting_transcript (env : Env) (transcript_text : string)
           (meeting_title attendees : value) : M (option dict) :=
  attendees_list <- lift (attendees_list attendees) ;;
  let prompt := build_summary_prompt env meeting_title attendees_list
                                     transcript_text in
  try_except
    (response <- call (generate_content env prompt) ;;
     ret (_parse_meeting_summary_response env response))
    (fun _ => ret None).

End GeminiService.

(** [v[:n]]. *)
Definition py_slice_to (n : nat) (v : value) : result value :=
  match v with
  | VStr s => Ok (VStr (Text.take n s))
  | VList l => Ok (VList (firstn n l))
  | _ => Raise (mkExn TypeError "object is not subscriptable")
  end.

(** [s.lower()] on a value. *)
Definition py_lower (v : value) : result string :=
  match v with
  | VStr s => Ok (Text.lower s)
  | _ => Raise (mkExn AttributeError "object has no attribute 'lower'")
  end.

(** [if d:] on the answer of [find_one] and the like. *)
Definition found (r : option dict) : bool :=
  match r with
  | Some d => truthy (VDict d)
  | None => false
  end.

Module EmailPollingService.

(** The task to create when [tasks] is empty. *)
Definition single_task (subject : string) (task_data : dict) : value :=
  VDict [ ("title", Dict.get "title" (VStr subject) task_data);
          ("description", Dict.get "description" (VStr "") task_data);
          ("priority", Dict.get "priority" (VStr "medium") task_data);
          ("deadline", Dict.get "deadline" VNone task_data) ].

(** One turn of the loop that creates the tasks, with its [try]. *)
Definition create_task (env : Env) (email_data : GmailService.email_data)
           (sender_email : string) (user : dict) (user_id : oid)
           (task_data : dict) (task_info : value) (created_count : Z) : M Z :=
  try_except
    (title <- lift (py_get task_info "title"
                           (VStr (GmailService.subject email_data))) ;;
     description <- lift (py_get task_info "description" (VStr "")) ;;
     priority <- lift (py_get task_info "priority" (VStr "medium")) ;;
     deadline <- lift (py_get task_info "deadline" VNone) ;;
     Task.create env
       (Task.mkArgs title description priority deadline
                    (Some user_id) (Some user_id) (VStr "pending")
                    (VStr (GmailService.message_id email_data))
                    (VStr sender_email)
                    (Dict.get "labels" (VList []) task_data)
                    (VStr "email") None VNone VNone
                    (Dict.get "email" VNone user)) ;;;
     ret (created_count + 1)%Z)
    (fun _ => ret created_count).

Definition _process_email_for_tasks (env : Env) (email_msg : gmail_message)
           (user : dict) (gmail_service : value) : M bool :=
  try_except
    (let email_data := GmailService.parse_email email_msg in
     let email_id := GmailService.message_id email_data in
     user_id <- lift (doc_id user) ;;
     let sender_email :=
       GmailService.extract_sender_email (GmailService.from_ email_data) in
     own <- lift (py_lower (Dict.get "email" (VStr "") user)) ;;
     if String.eqb (Text.lower sender_email) own then ret false
     else
       processed <- ProcessedEmail.is_processed email_id user_id ;;
       if processed then ret false
       else
         call (GeminiService_new env) ;;;
         task_data <- GeminiService.extract_task_from_email env
                        (GmailService.subject email_data)
                        (GmailService.body email_data) ;;
         match task_data with
         | None =>
             ProcessedEmail.mark_as_processed env email_id user_id 0 ;;;
             ret false
         | Some task_data =>
             if negb (truthy (VDict task_data))
                || negb (truthy (Dict.get "has_task" (VBool false) task_data))
             then
               ProcessedEmail.mark_as_processed env email_id user_id 0 ;;;
               ret false
             else
               let tasks_to_create :=
                 py_or (Dict.get "tasks" (VList []) task_data)
                       (VList [single_task (GmailService.subject email_data)
                                           task_data]) in
               items <- lift (py_iter tasks_to_create) ;;
               created_count <-
                 for_each items
                          (create_task env email_data sender_email user
                                       user_id task_data) 0%Z ;;
               ProcessedEmail.mark_as_processed env email_id user_id
                                                created_count ;;;
               ret (0 <? created_count)%Z
         end)
    (fun _ => ret false).

(** The lower bound of the fetch. *)
Definition last_check (env : Env) (user : dict) : M value :=
  let last_check := Dict.get "last_email_check" VNone user in
  if negb (truthy last_check) then
    now <- utcnow env ;;
    ret (VDatetime (datetime_minus_seconds env now 300))
  else
    match last_check with
    | VStr s =>
        t <- lift (fromisoformat env (Text.replace_Z s)) ;;
        ret (VDatetime t)
    | _ => ret last_check
    end.

(** One turn of the loop over the fetched mails, with its [try]. *)
Definition process_one (env : Env) (user : dict) (gmail_service : value)
           (email_msg : gmail_message) (new_tasks_count : Z) : M Z :=
  try_except
    (task_created <- _process_email_for_tasks env email_msg user gmail_service ;;
     ret (if task_created then new_tasks_count + 1 else new_tasks_count)%Z)
    (fun _ => ret new_tasks_count).

Definition _check_user_emails (env : Env) (user : dict) : M unit :=
  try_except
    (gmail_service <- GmailService.get_service_for_user env user ;;
     match gmail_service with
     | None => ret tt
     | Some gmail_service =>
         last_check <- last_check env user ;;
         emails <- GmailService.get_emails_since env gmail_service last_check ;;
         match emails with
         | [] => ret tt
         | _ :: _ =>
             for_each emails (process_one env user gmail_service) 0%Z ;;;
             user_id <- lift (doc_id user) ;;
             User.update_last_email_check env user_id ;;;
             ret tt
         end
     end)
    (fun _ => ret tt).

(** One turn of the loop over the users, with its [try]. *)
Definition check_one (env : Env) (user : dict) (_ : unit) : M unit :=
  try_except (_check_user_emails env user) (fun _ => ret tt).

Definition _check_all_users_for_new_emails (env : Env) : M unit :=
  try_except
    (users <- User.get_users_with_gmail_tokens ;;
     match users with
     | [] => ret tt
     | _ :: _ => for_each users (check_one env) tt
     end)
    (fun _ => ret tt).

End EmailPollingService.

Module MeetingPollingService.

(** The lower bound the routine computes (and does not use). *)
Definition last_check (env : Env) (user : dict) : M value :=
  let last_check := Dict.get "last_meeting_check" VNone user in
  if negb (truthy last_check) then
    now <- utcnow env ;;
    ret (VDatetime (datetime_minus_seconds env now (7 * 86400)))
  else
    match last_check with
    | VStr s =>
        t <- lift (fromisoformat env (Text.replace_Z s)) ;;
        ret (VDatetime t)
    | _ => ret last_check
    end.

(** One turn of the loop over the fetched events, with its [try]. *)
Definition add_meeting (env : Env) (user : dict) (meeting_data : dict)
           (new_meetings_count : Z) : M Z :=
  try_except
    (calendar_event_id <- lift (Dict.item "calendar_event_id" meeting_data) ;;
     user_id <- lift (doc_id user) ;;
     existing <- Meeting.find_by_calendar_event_id calendar_event_id user_id ;;
     if found existing then ret new_meetings_count
     else
       calendar_event_id <- lift (Dict.item "calendar_event_id" meeting_data) ;;
       user_id <- lift (doc_id user) ;;
       title <- lift (Dict.item "title" meeting_data) ;;
       description <- lift (Dict.item "description" meeting_data) ;;
       start_time <- lift (Dict.item "start_time" meeting_data) ;;
       end_time <- lift (Dict.item "end_time" meeting_data) ;;
       attendees <- lift (Dict.item "attendees" meeting_data) ;;
       meet_link <- lift (Dict.item "meet_link" meeting_data) ;;
       Meeting.create env calendar_event_id user_id title description
                      start_time end_time attendees meet_link ;;;
       _ <- lift (Dict.item "title" meeting_data) ;;
       ret (new_meetings_count + 1)%Z)
    (fun _ => ret new_meetings_count).

Definition _check_user_meetings (env : Env) (user : dict) : M unit :=
  try_except
    (calendar_service <- CalendarService.get_service_for_user env user ;;
     match calendar_service with
     | None => ret tt
     | Some calendar_service =>
         last_check env user ;;;
         meetings <- CalendarService.get_past_meet_events_with_recordings
                       env calendar_service ;;
         match meetings with
         | [] =>
             user_id <- lift (doc_id user) ;;
             User.update_last_meeting_check env user_id ;;;
             ret tt
         | _ :: _ =>
             for_each meetings (add_meeting env user) 0%Z ;;;
             user_id <- lift (doc_id user) ;;
             User.update_last_meeting_check env user_id ;;;
             ret tt
         end
     end)
    (fun _ => ret tt).

(** [if not self.gemini_service: self.gemini_service = GeminiService()]. *)
Definition init_gemini (env : Env) : M unit :=
  fun w =>
    if gemini_service w then (Ok tt, w)
    else
      match call (GeminiService_new env) w with
      | (Ok _, w') =>
          (Ok tt, mkWorld (db w') (indexes w') (next_oid w') (ticks w')
                          (trace w') true)
      | (Raise e, w') => (Raise e, w')
      end.

(** One turn of the loop over the action items, with its [try]; the
    loop variables are the index and the count of created tasks. *)
Definition create_task (env : Env) (meeting user : dict)
           (meeting_id user_id : oid) (action_item : value)
           (acc : nat * Z) : M (nat * Z) :=
  let (idx, tasks_created) := acc in
  try_except
    (description <- lift (py_item action_item "description") ;;
     title <- lift (py_slice_to 100 description) ;;
     description <- lift (py_item action_item "description") ;;
     context <- lift (py_get action_item "context" description) ;;
     priority <- lift (py_get action_item "priority" (VStr "medium")) ;;
     deadline <- lift (py_get action_item "deadline" VNone) ;;
     meeting_title <- lift (Dict.item "title" meeting) ;;
     meeting_date <- lift (Dict.item "start_time" meeting) ;;
     task <- Task.create env
               (Task.mkArgs title context priority deadline
                            (Some user_id) (Some user_id) (VStr "pending")
                            VNone VNone VNone (VStr "meeting")
                            (Some meeting_id) meeting_title meeting_date
                            (Dict.get "email" VNone user)) ;;
     task_id <- lift (doc_id task) ;;
     MeetingSummary.update_task_id env meeting_id idx task_id ;;;
     ret (S idx, (tasks_created + 1)%Z))
    (fun _ => ret (S idx, tasks_created)).

(** The [try] block of [process_meeting] from the lookup of the Drive
    service on, for the user that owns the meeting. *)
Definition process_for_user (env : Env) (meeting : dict)
           (meeting_id user_id : oid) (user : dict) : M bool :=
  drive_service <- DriveService.get_service_for_user env user ;;
  match drive_service with
  | None =>
      Meeting.update_status env meeting_id (VStr "failed") VNone
                            (VStr "Drive service not available") ;;;
      ret false
  | Some drive_service =>
      start_time <- lift (Dict.item "start_time" meeting) ;;
      meeting_date <-
        match start_time with
        | VStr s =>
            t <- lift (fromisoformat env (Text.replace_Z s)) ;;
            ret (VDatetime t)
        | _ => ret start_time
        end ;;
      meeting_title <- lift (Dict.item "title" meeting) ;;
      transcript_file <- DriveService.find_meeting_recording
                           env drive_service meeting_title meeting_date ;;
      if negb (found transcript_file) then
        _ <- lift (Dict.item "title" meeting) ;;
        Meeting.update_status env meeting_id (VStr "failed") VNone
          (VStr "No transcript or Gemini notes found in Google Drive") ;;;
        ret false
      else
        let transcript_file :=
          match transcript_file with Some f => f | None => [] end in
        _ <- lift (Dict.item "name" transcript_file) ;;
        file_id <- lift (Dict.item "id" transcript_file) ;;
        transcript_text <- DriveService.get_document_text
                             env drive_service file_id ;;
        match transcript_text with
        | None | Some EmptyString =>
            Meeting.update_status env meeting_id (VStr "failed") VNone
              (VStr "Failed to read transcript/notes content") ;;;
            ret false
        | Some transcript_text =>
            MeetingTranscript.create env meeting_id user_id
              (VStr transcript_text) (VList []) (VStr "en-US")
              (VFloat PrimFloat.one) ;;;
            meeting_title <- lift (Dict.item "title" meeting) ;;
            summary_data <- GeminiService.summarize_meeting_transcript
                              env transcript_text meeting_title
                              (Dict.get "attendees" (VList []) meeting) ;;
            if negb (found summary_data)
            then raise (mkExn Exception_ "Failed to generate summary")
            else
              let summary_data :=
                match summary_data with Some d => d | None => [] end in
              summary <- lift (Dict.item "summary" summary_data) ;;
              MeetingSummary.create env meeting_id user_id summary
                (Dict.get "key_points" (VList []) summary_data)
                (Dict.get "decisions_made" (VList []) summary_data)
                (Dict.get "action_items" (VList []) summary_data)
                (Dict.get "participants_mentioned" (VList []) summary_data)
                (Dict.get "topics_discussed" (VList []) summary_data)
                (Dict.get "next_meeting" VNone summary_data) ;;;
              action_items <-
                lift (py_iter (Dict.get "action_items" (VList [])
                                        summary_data)) ;;
              for_each action_items
                       (create_task env meeting user meeting_id user_id)
                       (O, 0%Z) ;;;
              now <- utcnow env ;;
              Meeting.update_status env meeting_id (VStr "completed")
                                    (VDatetime now) VNone ;;;
              ret true
        end
  end.

(** The [try] block of [process_meeting]. *)
Definition process_meeting_body (env : Env) (meeting : dict) : M bool :=
  meeting_id <- lift (doc_id meeting) ;;
  user_ref <- lift (Dict.item "user_id" meeting) ;;
  _ <- lift (Dict.item "title" meeting) ;;
  init_gemini env ;;;
  Meeting.update_status env meeting_id (VStr "processing") VNone VNone ;;;
  user_id <- lift (match user_ref with
                   | VObjectId o => Ok o
                   | _ => Raise (mkExn InvalidId "not a valid ObjectId")
                   end) ;;
  user <- User.find_by_id user_id ;;
  if negb (found user)
  then raise (mkExn Exception_ "User not found")
  else
    let user := match user with Some u => u | None => [] end in
    process_for_user env meeting meeting_id user_id user.

(** The handler of [process_meeting]: the status write is itself inside
    a [try] whose handler is [pass]. *)
Definition mark_failed (env : Env) (meeting : dict) (e : exn) : M bool :=
  try_except
    (meeting_id <- lift (doc_id meeting) ;;
     Meeting.update_status env meeting_id (VStr "failed") VNone
                           (VStr (exn_str e)) ;;;
     ret tt)
    (fun _ => ret tt) ;;;
  ret false.

Definition process_meeting (env : Env) (meeting : dict) : M bool :=
  try_except (process_meeting_body env meeting) (mark_failed env meeting).

(** One turn of the loop over the users, with its [try]. *)
Definition check_one (env : Env) (user : dict) (_ : unit) : M unit :=
  try_except (_check_user_meetings env user) (fun _ => ret tt).

Definition _check_all_users_for_meetings (env : Env) : M unit :=
  try_except
    (users <- User.get_users_with_calendar_tokens ;;
     match users with
     | [] => ret tt
     | _ :: _ => for_each users (check_one env) tt
     end)
    (fun _ => ret tt).

End MeetingPollingService.

(* ------------------------------------------------------------------ *)
(** * app/routes/meetings.py                                            *)
(* ------------------------------------------------------------------ *)

Module MeetingProcess.

(** What [post] answers: the JSON body and the HTTP status, and the
    meeting handed to the background thread it started, if any. *)
Record response : Type := mkResponse {
  resp_body : dict;
  resp_status : Z;
  resp_thread : option dict
}.

Definition post (env : Env) (jwt_identity : oid) (meeting_id : oid)
  : M response :=
  try_except
    (meeting <- Meeting.find_by_id meeting_id ;;
     match meeting with
     | None =>
         ret (mkResponse [("success", VBool false);
                          ("error", VStr "Meeting not found")] 404 None)
     | Some meeting =>
         if negb (truthy (VDict meeting)) then
           ret (mkResponse [("success", VBool false);
                            ("error", VStr "Meeting not found")] 404 None)
         else
         owner <- lift (Dict.item "user_id" meeting) ;;
         if negb (value_eqb owner (VObjectId jwt_identity)) then
           ret (mkResponse [("success", VBool false);
                            ("error", VStr "Access denied")] 403 None)
         else if value_eqb (Dict.get "processing_status" VNone meeting)
                           (VStr "processing") then
           ret (mkResponse [("success", VBool false);
                            ("error", VStr "Meeting is already being processed")]
                           400 None)
         else
           Meeting.update_status env meeting_id (VStr "processing")
                                 VNone VNone ;;;
           ret (mkResponse
                  [("success", VBool true);
                   ("message",
                    VStr "Meeting processing started. This may take a few minutes.")]
                  202 (Some meeting))
     end)
    (fun e =>
       ret (mkResponse [("success", VBool false); ("error", VStr (exn_str e))]
                       500 None)).

End MeetingProcess.

(** [MeetingStats.get]: the counts of the caller's meetings, all and by
    processing status. *)
Module MeetingStats.

(** What [get] answers: the JSON body and the HTTP status. *)
Record answer : Type := mkAnswer {
  ans_body : dict;
  ans_status : Z
}.

Definition get (jwt_identity : oid) : M answer :=
  try_except
    (let user_id := jwt_identity in
     total <- Store.count_documents meetings [("user_id", VObjectId user_id)] ;;
     completed <- Store.count_documents meetings
                    [("user_id", VObjectId user_id);
                     ("processing_status", VStr "completed")] ;;
     pending <- Store.count_documents meetings
                  [("user_id", VObjectId user_id);
                   ("processing_status", VStr "pending")] ;;
     processing <- Store.count_documents meetings
                     [("user_id", VObjectId user_id);
                      ("processing_status", VStr "processing")] ;;
     failed <- Store.count_documents meetings
                 [("user_id", VObjectId user_id);
                  ("processing_status", VStr "failed")] ;;
     ret (mkAnswer [("success", VBool true);
                    ("data", VDict [("total", VInt total);
                                    ("completed", VInt completed);
                                    ("pending", VInt pending);
                                    ("processing", VInt processing);
                                    ("failed", VInt failed)])]
                   200))
    (fun e =>
       ret (mkAnswer [("success", VBool false); ("error", VStr (exn_str e))]
                     500)).

End MeetingStats.

(* ------------------------------------------------------------------ *)
(** * Specification vocabulary                                          *)
(* ------------------------------------------------------------------ *)

(** The collections after a list of writes. *)
Definition replay (evs : list event) (dbf : collection -> list dict)
  : collection -> list dict :=
  fold_left (fun f e => Store.apply_event e f) evs dbf.

(** [w'] is [w] after the writes [evs], made in that order and logged;
    the indexes stay. *)
Record journal (w : World) (evs : list event) (w' : World) : Prop := mkJournal {
  journal_trace : trace w' = trace w ++ evs;
  journal_db : db w' = replay evs (db w);
  journal_indexes : indexes w' = indexes w
}.

(** Every run of [m] makes only writes that satisfy [P]. *)
Definition emits {A} (P : event -> Prop) (m : M A) : Prop :=
  forall w r w', m w = (r, w') -> exists evs, journal w evs w' /\ Forall P evs.

(** The unique index of the ledger, [create_indexes]:
    [db.processed_emails.create_index([('email_id', 1), ('user_id', 1)], unique=True)]. *)
Definition ledger_index : index :=
  mkIndex processed_emails ["email_id"; "user_id"] true.

(** The query by which the ledger is read. *)
Definition ledger_key (email_id : string) (user_id : oid) : dict :=
  [("email_id", VStr email_id); ("user_id", VObjectId user_id)].

(** The unique indexes of the ledger are the one [create_indexes] makes. *)
Definition ledger_indexed (w : World) : Prop :=
  forall ix, In ix (indexes w) -> ix_collection ix = processed_emails ->
             ix_unique ix = true -> ix_keys ix = ["email_id"; "user_id"].

(** The query by [_id]. *)
Definition by_id (o : oid) : dict := [("_id", VObjectId o)].

(** The stored meeting with this id, as [Meeting.find_by_id] reads it. *)
Definition stored_meeting (w : World) (meeting_id : oid) : option dict :=
  find (Store.matches (by_id meeting_id)) (db w meetings).

(** A write of a processing status to a meeting. *)
Definition writes_status (status : string) (e : event) : Prop :=
  match e with
  | EvUpdate meetings _ changes =>
      Dict.lookup "processing_status" changes = Some (VStr status)
  | _ => False
  end.

(** A write of a checkpoint of a user. *)
Definition is_checkpoint (field : string) (user_id : oid) (e : event) : bool :=
  match e with
  | EvUpdate users query changes =>
      Store.matches query [("_id", VObjectId user_id)]
      && Dict.mem field changes
  | _ => false
  end.

Definition checkpoint_updates (field : string) (user_id : oid)
           (evs : list event) : nat :=
  List.length (filter (is_checkpoint field user_id) evs).

(** The record [mark_as_processed] builds. *)
Definition ledger_record (email_id : string) (user_id : oid) (n : Z)
           (now : datetime) : dict :=
  [ ("email_id", VStr email_id); ("user_id", VObjectId user_id);
    ("tasks_created", VInt n); ("processed_at", VDatetime now) ].

(** The field [k] of a candidate, null when absent: [v.get(k)]. *)
Definition field_of (k : string) (v : value) : value :=
  match v with
  | VDict d => Dict.get k VNone d
  | _ => VNone
  end.

(** The priority the normalizer gives to a candidate. *)
Definition normal_priority (v : value) : value :=
  if GeminiService.in_valid_priorities (field_of "priority" v)
  then field_of "priority" v else VStr "medium".

(** The deadline the email normalizer gives to a candidate: the date
    read, or null. *)
Definition email_deadline (v : value) : value :=
  if truthy (field_of "deadline" v) then
    match Strptime.strptime (field_of "deadline" v) with
    | Ok t => VDatetime t
    | Raise _ => VNone
    end
  else VNone.

(** The deadline the meeting normalizer gives to a candidate whose
    deadline is present: the text as it is when it reads as a date, or
    null. *)
Definition meeting_deadline (v : value) : value :=
  match Strptime.strptime (field_of "deadline" v) with
  | Ok _ => field_of "deadline" v
  | Raise _ => VNone
  end.

(** [v] is not a text that fails to read as a date. *)
Definition no_invalid_date_text (v : value) : Prop :=
  forall s, v = VStr s -> exists t, Strptime.strptime_ymd s = Ok t.

(** The documents a list of writes inserts into a collection. *)
Definition inserted (c : collection) (evs : list event) : list dict :=
  flat_map (fun e => match e with
                     | EvInsert c' d => if collection_eqb c' c then [d] else []
                     | _ => []
                     end) evs.

(** A write that can only add documents to the collection [c]. *)
Definition appends_only (c : collection) (e : event) : Prop :=
  match e with
  | EvInsert _ _ => True
  | EvUpdate c' _ _ => c' <> c
  | EvSetTaskId _ _ _ _ => c <> meeting_summaries
  end.

(** The writes of the email pipeline for a user: tasks that carry the
    address of the user, and ledger records. *)
Definition email_write (user : dict) (e : event) : Prop :=
  match e with
  | EvInsert tasks d =>
      Dict.lookup "user_email" d = Some (Dict.get "email" VNone user)
  | EvInsert processed_emails _ => True
  | _ => False
  end.

(** The writes of [process_meeting] once the owner is found: status
    updates of meetings, the transcript, the summary and its task ids,
    and tasks that carry the address of the owner. *)
Definition meeting_write (user : dict) (e : event) : Prop :=
  match e with
  | EvInsert tasks d =>
      Dict.lookup "user_email" d = Some (Dict.get "email" VNone user)
  | EvInsert meeting_transcripts _ | EvInsert meeting_summaries _ => True
  | EvInsert _ _ => False
  | EvUpdate meetings _ _ => True
  | EvUpdate _ _ _ => False
  | EvSetTaskId _ _ _ _ => True
  end.

(** A write that keeps every stored meeting findable by its id. *)
Definition keeps_meeting_ids (e : event) : Prop :=
  match e with
  | EvUpdate meetings _ changes => ~ In "_id" (map fst changes)
  | _ => True
  end.

(** A write that does not set a meeting to 'completed'. *)
Definition not_completing (e : event) : Prop :=
  keeps_meeting_ids e /\ ~ writes_status "completed" e.

(** The write [update_status(meeting_id, 'failed', error_message=msg)]. *)
Definition failure_write (meeting_id : oid) (msg : string) (e : event) : Prop :=
  exists now, e = EvUpdate meetings (by_id meeting_id)
                           (Meeting.update_data (VStr "failed") now VNone (VStr msg)).

(** The three messages of the early exits of [process_meeting]. *)
Definition failure_messages : list string :=
  [ "Drive service not available";
    "No transcript or Gemini notes found in Google Drive";
    "Failed to read transcript/notes content" ].

(** What a run of the [try] block of [process_meeting] may be: it ends
    with [True]; or it ends with [False] and its last write sets 'failed'
    with one of the three messages; or it raises; and unless it ends with
    [True] no write of it sets 'completed'. *)
Definition outcome (meeting_id : oid) (r : result bool) (evs : list event) : Prop :=
  match r with
  | Ok true => True
  | Ok false =>
      exists evs0 last msg,
        evs = evs0 ++ [last] /\ Forall not_completing evs0
        /\ failure_write meeting_id msg last /\ In msg failure_messages
  | Raise _ => Forall not_completing evs
  end.

(** Every run of [m] is journalled by writes that, with its result,
    satisfy [Q]. *)
Definition ensures {A} (Q : result A -> list event -> Prop) (m : M A) : Prop :=
  forall w r w', m w = (r, w') -> exists evs, journal w evs w' /\ Q r evs.

(** The Drive of [env] holds no document for any meeting. *)
Definition no_document (env : Env) : Prop :=
  forall self title date n,
    found (drive_find_meeting_recording env self title date n) = false.

(** The Drive of [env] gives no text for any document. *)
Definition unreadable (env : Env) : Prop :=
  forall self file n,
    drive_get_document_text env self file n = None
    \/ drive_get_document_text env self file n = Some EmptyString.


(** A write of [process_meeting]: it can only add tasks, and a task it
    adds carries the address of the stored user the meeting belongs to. *)
Definition owner_write (meeting : dict) (stored_users : list dict) (e : event)
  : Prop :=
  appends_only tasks e
  /\ match e with
     | EvInsert tasks t =>
         exists uid user,
           Dict.lookup "user_id" meeting = Some (VObjectId uid)
           /\ find (Store.matches (by_id uid)) stored_users = Some user
           /\ Dict.lookup "user_email" t = Some (Dict.get "email" VNone user)
     | _ => True
     end.

(** No run of [m] ends with [True]. *)
Definition never_true (m : M bool) : Prop :=
  forall w r w', m w = (r, w') -> r <> Ok true.

(** A meeting with this id is stored. *)
Definition present (meeting_id : oid) (dbf : collection -> list dict) : Prop :=
  exists d, find (Store.matches (by_id meeting_id)) (dbf meetings) = Some d.

(** The deadline of a task of the email pipeline: a date, or null. *)
Definition date_or_null (v : value) : Prop :=
  v = VNone \/ exists t, v = VDatetime t.

(** The deadline of a task of the meeting pipeline: when it is present
    (the test of the code: when it is truthy), it is a text that reads as
    a date. *)
Definition reads_as_date_if_present (v : value) : Prop :=
  truthy v = true -> exists s t, v = VStr s /\ Strptime.strptime_ymd s = Ok t.

(** A write that, when it inserts a task, gives it a deadline that
    satisfies [R]. *)
Definition dated_write (R : value -> Prop) (e : event) : Prop :=
  match e with
  | EvInsert tasks d => exists v, Dict.lookup "deadline" d = Some v /\ R v
  | _ => True
  end.

(** What one run of [_process_email_for_tasks] on a mail writes and
    answers: the tasks it created, in order, and then either nothing
    more, with the answer [False], or one ledger record of the mail for
    the user that counts these tasks, with the answer "some task was
    created". *)
Definition email_run (user : dict) (email_id : string) (r : result bool)
           (evs : list event) : Prop :=
  exists new,
    (evs = map (EvInsert tasks) new /\ r = Ok false)
    \/ (exists record user_id,
          evs = map (EvInsert tasks) new ++ [EvInsert processed_emails record]
          /\ doc_id user = Ok user_id
          /\ Store.matches (ledger_key email_id user_id) record = true
          /\ Dict.lookup "tasks_created" record
             = Some (VInt (Z.of_nat (List.length new)))
          /\ r = Ok (0 <? Z.of_nat (List.length new))%Z).

(** The task [process_meeting] creates from an action item. *)
Definition created_from (meeting_id user_id : oid) (item : value) (t : dict)
  : Prop :=
  exists description title,
    py_item item "description" = Ok description
    /\ py_slice_to 100 description = Ok title
    /\ Dict.lookup "title" t = Some title
    /\ Dict.lookup "source_type" t = Some (VStr "meeting")
    /\ Dict.lookup "meeting_id" t = Some (VObjectId meeting_id)
    /\ Dict.lookup "assigned_to" t = Some (VObjectId user_id).

(** The writes of the loop of [process_meeting] over the action items
    from the index [i] on: for each item nothing, or the task created
    from it, or that task and then the write of its id into the summary
    of the meeting at the index of the item. *)
Inductive task_links (meeting_id user_id : oid)
  : nat -> list value -> list event -> Prop :=
| links_nil : forall i, task_links meeting_id user_id i [] []
| links_skip : forall i item items evs,
    task_links meeting_id user_id (S i) items evs ->
    task_links meeting_id user_id i (item :: items) evs
| links_task : forall i item items evs t,
    created_from meeting_id user_id item t ->
    task_links meeting_id user_id (S i) items evs ->
    task_links meeting_id user_id i (item :: items) (EvInsert tasks t :: evs)
| links_link : forall i item items evs t o now,
    created_from meeting_id user_id item t ->
    doc_id t = Ok o ->
    task_links meeting_id user_id (S i) items evs ->
    task_links meeting_id user_id i (item :: items)
               (EvInsert tasks t
                :: EvSetTaskId [("meeting_id", VObjectId meeting_id)] i o now
                :: evs).

(** The writes of a run of [process_meeting] that ends with [True]:
    the status 'processing', the transcript, the summary, the writes of
    the loop over the action items of the summary, and the status
    'completed' with its time. *)
Definition completed_run (meeting_id user_id : oid) (evs : list event) : Prop :=
  exists now0 transcript summary action_items items loop now1 now2,
    evs = [EvUpdate meetings (by_id meeting_id)
                    (Meeting.update_data (VStr "processing") now0 VNone VNone);
           EvInsert meeting_transcripts transcript;
           EvInsert meeting_summaries summary]
          ++ loop
          ++ [EvUpdate meetings (by_id meeting_id)
                       (Meeting.update_data (VStr "completed") now2
                                            (VDatetime now1) VNone)]
    /\ Dict.lookup "meeting_id" transcript = Some (VObjectId meeting_id)
    /\ Dict.lookup "meeting_id" summary = Some (VObjectId meeting_id)
    /\ Dict.lookup "action_items" summary = Some (py_or action_items (VList []))
    /\ py_iter action_items = Ok items
    /\ task_links meeting_id user_id 0 items loop.

(** The character [c] occurs in [s]. *)
Fixpoint occurs (c : ascii) (s : string) : bool :=
  match s with
  | EmptyString => false
  | String c' s' => Ascii.eqb c' c || occurs c s'
  end.

(** A text that neither starts nor ends with white space or a
    backtick, as the text of a JSON object or array does. *)
Definition bare (body : string) : bool :=
  match body, Text.rev body with
  | String first _, String last _ =>
      negb (Text.isspace first) && negb (Ascii.eqb first "`")
      && negb (Text.isspace last) && negb (Ascii.eqb last "`")
  | _, _ => false
  end.

(** A candidate the email normalizer keeps: it has a title and a
    description. *)
Definition complete (t : value) : bool :=
  truthy (field_of "title" t) && truthy (field_of "description" t).

(** The documents of the page [page] of [Task.get_all], none when the
    call raises. *)
Definition task_page (sorted : list dict -> list dict) (query : dict -> bool)
           (per_page : Z) (w : World) (page : nat) : list dict :=
  match fst (Task.get_all sorted query (Z.of_nat page) per_page w) with
  | Ok r => Task.listed r
  | Raise _ => []
  end.

(** The unique index of the users, [create_indexes]:
    [db.users.create_index('email', unique=True)]. *)
Definition users_email_index : index := mkIndex users ["email"] true.

(** The number of the documents that match a query. *)
Definition count (query : dict) (docs : list dict) : Z :=
  Z.of_nat (List.length (filter (Store.matches query) docs)).

(** The documents of the page [page] of [Meeting.get_user_meetings],
    none when the call raises. *)
Definition meeting_page (sorted : list dict -> list dict) (user_id : oid)
           (status : value) (per_page : Z) (w : World) (page : nat) : list dict :=
  match fst (Meeting.get_user_meetings sorted user_id status
                                        (Z.of_nat page) per_page w) with
  | Ok r => Meeting.listed r
  | Raise _ => []
  end.

(** The priorities of the specification. *)
Definition low_medium_high : list value :=
  [VStr "low"; VStr "medium"; VStr "high"].

(** What the specification asks of the priority of a candidate [t], read
    on the candidate [t'] the normalizer returns for it: kept when it is
    one of low, medium and high, and 'medium' when it is anything else
    (absent included: an absent field reads as null). *)
Definition priority_normalized (t t' : value) : Prop :=
  (In (field_of "priority" t) low_medium_high ->
   field_of "priority" t' = field_of "priority" t)
  /\ (~ In (field_of "priority" t) low_medium_high ->
      field_of "priority" t' = VStr "medium").

(** A candidate the loops of the normalizers go through without an
    exception: an object whose deadline, when it is truthy, is a text. *)
Definition workable (v : value) : Prop :=
  (exists d, v = VDict d)
  /\ (truthy (field_of "deadline" v) = true ->
      exists s, field_of "deadline" v = VStr s).

(* ------------------------------------------------------------------ *)
(** * Fixtures                                                          *)
(* ------------------------------------------------------------------ *)

(** A decoder for a fragment of JSON (null, booleans, integers, texts
    with the escapes of the quote and the backslash, arrays, objects),
    enough for the examples. The theorems hold for every decoder. *)
Module Json.

Definition is_ws (c : ascii) : bool :=
  let n := Text.code c in ((n =? 32) || (n =? 9) || (n =? 10) || (n =? 13))%N.

Fixpoint skip (s : string) : string :=
  match s with
  | String c s' => if is_ws c then skip s' else s
  | EmptyString => EmptyString
  end.

Fixpoint string_body (s acc : string) : option (string * string) :=
  match s with
  | EmptyString => None
  | String c r =>
      if Ascii.eqb c "034"%char then Some (Text.rev acc, r)
      else if Ascii.eqb c "092"%char then
        match r with
        | String e r' =>
            if Ascii.eqb e "034"%char || Ascii.eqb e "092"%char
            then string_body r' (String e acc) else None
        | EmptyString => None
        end
      else string_body r (String c acc)
  end.

Fixpoint digits (s : string) (acc : Z) : Z * string :=
  match s with
  | String c r =>
      match Strptime.digit c with
      | Some d => digits r (10 * acc + d)%Z
      | None => (acc, s)
      end
  | EmptyString => (acc, s)
  end.

Definition number (s : string) : option (value * string) :=
  let (neg, s1) := match s with
                   | String "-" r => (true, r)
                   | _ => (false, s)
                   end in
  match s1 with
  | String c _ =>
      if Text.isdigit c then
        let (n, r) := digits s1 0%Z in
        match r with
        | String "." _ | String "e" _ | String "E" _ => None
        | _ => Some (VInt (if neg then - n else n)%Z, r)
        end
      else None
  | EmptyString => None
  end.

Fixpoint parse_value (fuel : nat) (s : string) : option (value * string) :=
  match fuel with
  | O => None
  | S fuel' =>
      match skip s with
      | String "n" (String "u" (String "l" (String "l" r))) => Some (VNone, r)
      | String "t" (String "r" (String "u" (String "e" r))) =>
          Some (VBool true, r)
      | String "f" (String "a" (String "l" (String "s" (String "e" r)))) =>
          Some (VBool false, r)
      | String "034" r =>
          match string_body r EmptyString with
          | Some (t, r') => Some (VStr t, r')
          | None => None
          end
      | String "[" r =>
          match skip r with
          | String "]" r' => Some (VList [], r')
          | _ => match parse_elements fuel' r with
                 | Some (vs, r') => Some (VList vs, r')
                 | None => None
                 end
          end
      | String "{" r =>
          match skip r with
          | String "}" r' => Some (VDict [], r')
          | _ => match parse_members fuel' r with
                 | Some (kvs, r') =>
                     Some (VDict (fold_left (fun d kv => Dict.set (fst kv) (snd kv) d)
                                            kvs []), r')
                 | None => None
                 end
          end
      | s' => number s'
      end
  end
with parse_elements (fuel : nat) (s : string) : option (list value * string) :=
  match fuel with
  | O => None
  | S fuel' =>
      match parse_value fuel' s with
      | Some (v, r) =>
          match skip r with
          | String "," r' =>
              match parse_elements fuel' r' with
              | Some (vs, r'') => Some (v :: vs, r'')
              | None => None
              end
          | String "]" r' => Some ([v], r')
          | _ => None
          end
      | None => None
      end
  end
with parse_members (fuel : nat) (s : string)
     : option (list (string * value) * string) :=
  match fuel with
  | O => None
  | S fuel' =>
      match skip s with
      | String "034" r =>
          match string_body r EmptyString with
          | Some (k, r1) =>
              match skip r1 with
              | String ":" r2 =>
                  match parse_value fuel' r2 with
                  | Some (v, r3) =>
                      match skip r3 with
                      | String "," r4 =>
                          match parse_members fuel' r4 with
                          | Some (kvs, r5) => Some ((k, v) :: kvs, r5)
                          | None => None
                          end
                      | String "}" r4 => Some ([(k, v)], r4)
                      | _ => None
                      end
                  | None => None
                  end
              | _ => None
              end
          | None => None
          end
      | _ => None
      end
  end.

Definition loads (s : string) : result value :=
  match parse_value (S (2 * String.length s)) s with
  | Some (v, r) =>
      match skip r with
      | EmptyString => Ok v
      | _ => Raise (mkExn JSONDecodeError "Extra data")
      end
  | None => Raise (mkExn JSONDecodeError "Expecting value")
  end.

(** The text with every apostrophe turned into a quotation mark, to
    write JSON texts down. *)
Fixpoint q (s : string) : string :=
  match s with
  | EmptyString => EmptyString
  | String c s' =>
      String (if Ascii.eqb c "039"%char then "034"%char else c) (q s')
  end.

End Json.

Module Fixture.

(** The indexes [create_indexes] leaves on the collections of the
    pipeline. *)
Definition app_indexes : list index :=
  [ mkIndex users ["email"] true;
    ledger_index;
    mkIndex processed_emails ["processed_at"] false;
    mkIndex meetings ["calendar_event_id"; "user_id"] true;
    mkIndex meeting_transcripts ["meeting_id"] true;
    mkIndex meeting_summaries ["meeting_id"] true ].

(** An environment where the clock counts the calls, text is decoded
    by [Json.loads], every client can be built, the model answers with
    the text it is given (the body of the mail, the transcript), and
    the mailbox, the calendar and the drive hold what is given here. *)
Definition env (inbox : list gmail_message) (events : list dict)
           (recording : option dict) (text : option string) : Env :=
  mkEnv (fun n => mkDatetime 2025 11 20 9 0 0 (Z.of_nat n))
        Json.loads
        (fun _ => Raise (mkExn ValueError "Invalid isoformat string"))
        (fun t _ => t)
        (fun _ => Ok tt)
        (fun prompt _ => Ok prompt)
        (fun _ email_body => email_body)
        (fun _ _ transcript_text => transcript_text)
        (fun _ _ => Ok tt)
        (fun _ _ _ => Ok inbox)
        (fun _ _ => Ok tt)
        (fun _ _ => Ok events)
        (fun _ _ => Ok tt)
        (fun _ _ _ _ => recording)
        (fun _ _ _ => text).

Definition alice : dict :=
  [ ("_id", VObjectId 1%N);
    ("email", VStr "alice@example.com");
    ("name", VStr "Alice");
    ("gmail_refresh_token", VStr "refresh-a");
    ("calendar_tokens", VDict [("token", VStr "t"); ("refresh_token", VStr "r")]);
    ("last_email_check", VNone);
    ("last_meeting_check", VNone) ].

Definition bob : dict :=
  [ ("_id", VObjectId 2%N);
    ("email", VStr "bob@example.com");
    ("name", VStr "Bob");
    ("gmail_refresh_token", VNone);
    ("calendar_tokens", VNone) ].

(** A meeting of Alice, in the given status. *)
Definition standup (status : string) (error_message : value) : dict :=
  [ ("_id", VObjectId 10%N);
    ("calendar_event_id", VStr "evt-1");
    ("user_id", VObjectId 1%N);
    ("title", VStr "Weekly standup");
    ("description", VStr "");
    ("start_time", VDatetime (mkDatetime 2025 11 19 10 0 0 0));
    ("end_time", VDatetime (mkDatetime 2025 11 19 10 30 0 0));
    ("attendees", VList [VDict [("email", VStr "bob@example.com");
                                ("name", VStr "Bob");
                                ("response_status", VStr "accepted")]]);
    ("meet_link", VStr "https://meet.google.com/abc-defg-hij");
    ("recording_url", VStr "");
    ("recording_id", VStr "");
    ("processing_status", VStr status);
    ("processed_at", VNone);
    ("error_message", error_message);
    ("created_at", VDatetime (mkDatetime 2025 11 19 11 0 0 0));
    ("updated_at", VDatetime (mkDatetime 2025 11 19 11 0 0 0)) ].

Definition world (stored_meetings ledger : list dict) : World :=
  mkWorld (fun c => match c with
                    | users => [alice; bob]
                    | meetings => stored_meetings
                    | processed_emails => ledger
                    | _ => []
                    end)
          app_indexes 100%N 0 [] false.

Definition mail (id from_header body : string) : gmail_message :=
  mkMessage id [("From", from_header); ("Subject", "Weekly report")] body VNone.

(** A response of the model in a markdown fence, with one task whose
    priority and deadline are not valid and one that has no title. *)
Definition fenced_tasks : string :=
  Json.q "```json
{'has_tasks': true, 'tasks': [
{'title': 'Send report', 'description': 'Send the report', 'priority': 'urgent', 'deadline': 'Friday'},
{'title': '', 'description': 'nothing'},
{'title': 'Update dashboard', 'description': 'Update it', 'priority': 'high', 'deadline': '2025-11-21'}]}
```".

(** A summary of the model with two action items. *)
Definition summary_text : string :=
  Json.q "{'summary': 'Planning', 'key_points': [], 'action_items': [
{'description': 'Update API documentation', 'priority': 'asap', 'deadline': 'next week'},
{'description': 'Finalize API design', 'priority': 'low', 'deadline': '2025-11-22'}]}".

Definition notes_file : dict :=
  [("id", VStr "doc-1"); ("name", VStr "Weekly standup - Notes by Gemini")].

(** Nothing in the mailbox, the calendar and the drive. *)
Definition empty_env : Env := env [] [] None None.

Definition empty_world : World := world [] [].

(** A mail of Bob to Alice whose body is the fenced response. *)
Definition task_mail : gmail_message :=
  mail "msg-3" "Bob <bob@example.com>" fenced_tasks.

(** A mail Alice sent to herself, with the same body. *)
Definition own_mail : gmail_message :=
  mail "msg-2" "Alice <ALICE@Example.com>" fenced_tasks.

(** A mail of Bob whose body is no JSON. *)
Definition chatty_text : string := "Sure! Here are the tasks I found: none.".

Definition chatty_mail : gmail_message :=
  mail "msg-1" "Bob <bob@example.com>" chatty_text.

(** A drive that holds the notes of the standup, with the summary as
    their text. *)
Definition notes_env : Env := env [] [] (Some notes_file) (Some summary_text).

Definition calendar_event : dict :=
  [ ("calendar_event_id", VStr "evt-2");
    ("title", VStr "Planning");
    ("description", VStr "");
    ("start_time", VDatetime (mkDatetime 2025 11 18 10 0 0 0));
    ("end_time", VDatetime (mkDatetime 2025 11 18 11 0 0 0));
    ("attendees", VList []);
    ("meet_link", VStr "https://meet.google.com/xyz") ].

(** A world where the standup failed after its transcript was stored. *)
Definition world_with_transcript : World :=
  mkWorld (fun c => match c with
                    | users => [alice; bob]
                    | meetings => [standup "failed" (VStr "Failed to generate summary")]
                    | meeting_transcripts =>
                        [[ ("_id", VObjectId 20%N);
                           ("meeting_id", VObjectId 10%N);
                           ("user_id", VObjectId 1%N);
                           ("transcript_text", VStr "notes") ]]
                    | _ => []
                    end)
          app_indexes 100%N 0 [] false.

(** A world with four tasks: two of Alice, one assigned to Alice that
    carries the address of Bob, and one of Bob. *)
Definition task_of (id owner : N) (user_email : value) (status : string) : dict :=
  [ ("_id", VObjectId id);
    ("title", VStr "Send the report");
    ("status", VStr status);
    ("priority", VStr "medium");
    ("assigned_to", VObjectId owner);
    ("source_type", VStr "email");
    ("user_email", user_email) ].

Definition world_with_tasks : World :=
  mkWorld (fun c => match c with
                    | users => [Fixture.alice; Fixture.bob]
                    | tasks =>
                        [ task_of 30 1 (VStr "alice@example.com") "pending";
                          task_of 31 1 (VStr "bob@example.com") "pending";
                          task_of 32 2 (VStr "bob@example.com") "pending";
                          task_of 33 1 (VStr "alice@example.com") "completed";
                          [ ("_id", VObjectId 34%N);
                            ("title", VStr "Old task");
                            ("status", VStr "pending");
                            ("assigned_to", VObjectId 1%N) ] ]
                    | _ => []
                    end)
          Fixture.app_indexes 100%N 0 [] false.

(** A response with a task that has no priority, one whose priority is
    not valid and whose deadline is the empty text, and one of low
    priority. *)
Definition loose_tasks : string :=
  Json.q "{'has_tasks': true, 'tasks': [
{'title': 'Call Bob', 'description': 'Call Bob back'},
{'title': 'Send report', 'description': 'Send the report', 'priority': 'urgent', 'deadline': ''},
{'title': 'Update dashboard', 'description': 'Update it', 'priority': 'low'}]}".

(** A summary with the same three cases among its action items. *)
Definition loose_summary : string :=
  Json.q "{'summary': 'Planning', 'key_points': [], 'action_items': [
{'description': 'Book the room'},
{'description': 'Update API documentation', 'priority': 'asap', 'deadline': ''},
{'description': 'Finalize API design', 'priority': 'high', 'deadline': '2025-11-22'}]}".

(** A drive that holds the notes of the standup, with that summary as
    their text. *)
Definition loose_env : Env :=
  env [] [] (Some notes_file) (Some loose_summary).

End Fixture.

(* ------------------------------------------------------------------ *)
(** * Dicts and the store: basic facts                                  *)
(* ------------------------------------------------------------------ *)

Lemma lookup_set_eq : forall k v d, Dict.lookup k (Dict.set k v d) = Some v.
Proof.
  intros k v d; induction d as [|[k' v'] d IH]; simpl.
  - now rewrite String.eqb_refl.
  - destruct (String.eqb k k') eqn:E; simpl; rewrite E; auto.
Qed.

Lemma lookup_set_neq : forall k k' v d,
  k' <> k -> Dict.lookup k' (Dict.set k v d) = Dict.lookup k' d.
Proof.
  intros k k' v d Hne; induction d as [|[k0 v0] d IH]; simpl.
  - apply String.eqb_neq in Hne. now rewrite Hne.
  - destruct (String.eqb k k0) eqn:E; simpl.
    + apply String.eqb_eq in E; subst k0.
      apply String.eqb_neq in Hne. now rewrite Hne.
    + destruct (String.eqb k' k0); auto.
Qed.

Lemma lookup_update_notin : forall changes k d,
  ~ In k (map fst changes) ->
  Dict.lookup k (Dict.update changes d) = Dict.lookup k d.
Proof.
  unfold Dict.update.
  induction changes as [|[k0 v0] changes IH]; intros k d Hn; simpl; auto.
  rewrite IH by (intro; apply Hn; simpl; auto).
  apply lookup_set_neq. intro; subst. apply Hn; simpl; auto.
Qed.

Lemma field_update_notin : forall changes k d,
  ~ In k (map fst changes) ->
  Store.field k (Dict.update changes d) = Store.field k d.
Proof.
  intros. unfold Store.field, Dict.get. now rewrite lookup_update_notin.
Qed.

Lemma matches_update_notin : forall query changes d,
  (forall k, In k (map fst query) -> ~ In k (map fst changes)) ->
  Store.matches query (Dict.update changes d) = Store.matches query d.
Proof.
  unfold Store.matches.
  induction query as [|[k v] query IH]; intros changes d H; simpl; auto.
  rewrite field_update_notin by (apply H; simpl; auto).
  f_equal. apply IH. intros; apply H; simpl; auto.
Qed.

Lemma collection_eqb_refl : forall c, collection_eqb c c = true.
Proof. destruct c; reflexivity. Qed.

Lemma collection_eqb_eq : forall a b, collection_eqb a b = true -> a = b.
Proof. destruct a, b; simpl; congruence. Qed.

Lemma collection_eqb_neq : forall a b, a <> b -> collection_eqb a b = false.
Proof. destruct a, b; simpl; congruence. Qed.

Lemma length_update_first : forall p f docs,
  List.length (Store.update_first p f docs) = List.length docs.
Proof.
  induction docs as [|d docs IH]; simpl; auto.
  destruct (p d); simpl; auto.
Qed.

Lemma nth_update_first : forall p f docs i d,
  nth_error docs i = Some d ->
  nth_error (Store.update_first p f docs) i = Some d \/
  nth_error (Store.update_first p f docs) i = Some (f d).
Proof.
  induction docs as [|d0 docs IH]; intros [|i] d H; simpl in *; try discriminate.
  - inversion H; subst. destruct (p d); simpl; auto.
  - destruct (p d0); simpl; auto.
Qed.

(** After [update_one], the first match is the image of the old first
    match, when the query still selects it. *)
Lemma find_update_first : forall p f docs d,
  find p docs = Some d -> p (f d) = true ->
  find p (Store.update_first p f docs) = Some (f d).
Proof.
  induction docs as [|d0 docs IH]; intros d H Hp; simpl in *; try discriminate.
  destruct (p d0) eqn:E.
  - inversion H; subst. simpl. now rewrite Hp.
  - simpl. rewrite E. auto.
Qed.

Lemma find_update_first_none : forall p f docs,
  find p docs = None -> Store.update_first p f docs = docs.
Proof.
  induction docs as [|d0 docs IH]; intros H; simpl in *; auto.
  destruct (p d0); try discriminate. now rewrite IH.
Qed.

(* ------------------------------------------------------------------ *)
(** * [Meeting.update_status] changes two fields                        *)
(* ------------------------------------------------------------------ *)

(** C10. A call of [Meeting.update_status] with a status only leaves
    every other collection as it is, keeps the number and the order of
    the meetings, and in every meeting keeps every field other than
    [processing_status] and [updated_at]: in particular [processed_at]
    and [error_message] are not cleared, so a failed meeting that
    re-enters 'processing' still carries its old error message. *)
Theorem update_status_only_status_frame :
  forall (env : Env) (meeting_id : oid) (status : value) (w : World),
    let w' := snd (Meeting.update_status env meeting_id status VNone VNone w) in
    (forall c, c <> meetings -> db w' c = db w c) /\
    List.length (db w' meetings) = List.length (db w meetings) /\
    (forall i d, nth_error (db w meetings) i = Some d ->
       exists d', nth_error (db w' meetings) i = Some d' /\
         (forall k, k <> "processing_status" -> k <> "updated_at" ->
                    Dict.lookup k d' = Dict.lookup k d) /\
         Dict.lookup "processed_at" d' = Dict.lookup "processed_at" d /\
         Dict.lookup "error_message" d' = Dict.lookup "error_message" d).
Proof.
  intros env meeting_id status w. cbn.
  split; [|split].
  - intros c Hc. now rewrite collection_eqb_neq.
  - apply length_update_first.
  - intros i d Hd.
    match goal with
    | |- context [Store.update_first ?p ?f _] =>
        destruct (nth_update_first p f _ _ Hd) as [H|H]
    end.
    + exists d. repeat split; auto.
    + eexists. split; [exact H|].
      assert (Hk : forall k, k <> "processing_status" -> k <> "updated_at" ->
                Dict.lookup k (Dict.update
                   (Meeting.update_data status (utcnow_at env (ticks w)) VNone VNone) d)
                = Dict.lookup k d).
      { intros k H1 H2. apply lookup_update_notin. simpl. intuition. }
      repeat split; [exact Hk| |]; apply Hk; discriminate.
Qed.

(* ------------------------------------------------------------------ *)
(** * The ledger                                                        *)
(* ------------------------------------------------------------------ *)

Lemma ledger_key_of_record : forall email_id user_id n now d o,
  Store.keys_eqb (Store.key_of (ix_keys ledger_index) d)
                 (Store.key_of (ix_keys ledger_index)
                               (ledger_record email_id user_id n now))
  = Store.matches (ledger_key email_id user_id) d
  /\ Store.matches (ledger_key email_id user_id)
                   (Dict.set "_id" (VObjectId o)
                             (ledger_record email_id user_id n now)) = true.
Proof.
  intros. split; [reflexivity|].
  cbn. now rewrite String.eqb_refl, N.eqb_refl.
Qed.

Lemma violates_recorded : forall w email_id user_id n now d,
  In ledger_index (indexes w) ->
  find (Store.matches (ledger_key email_id user_id)) (db w processed_emails)
    = Some d ->
  Store.violates w processed_emails (ledger_record email_id user_id n now) = true.
Proof.
  intros w email_id user_id n now d Hix Hd.
  unfold Store.violates. apply existsb_exists.
  exists ledger_index. split; [exact Hix|].
  change (ix_unique ledger_index) with true.
  change (collection_eqb (ix_collection ledger_index) processed_emails) with true.
  cbn [andb]. apply existsb_exists.
  apply find_some in Hd. destruct Hd as [Hin Hm].
  exists d. split; [exact Hin|].
  now rewrite (proj1 (ledger_key_of_record email_id user_id n now d 0%N)).
Qed.

Lemma not_violates_unrecorded : forall w email_id user_id n now,
  In ledger_index (indexes w) ->
  Store.violates w processed_emails (ledger_record email_id user_id n now) = false ->
  filter (Store.matches (ledger_key email_id user_id)) (db w processed_emails) = [].
Proof.
  intros w email_id user_id n now Hix Hv.
  destruct (filter _ _) as [|d l] eqn:E; [reflexivity|].
  assert (Hin : In d (filter (Store.matches (ledger_key email_id user_id))
                             (db w processed_emails)))
    by (rewrite E; simpl; auto).
  apply filter_In in Hin. destruct Hin as [Hin Hm].
  assert (Hf : find (Store.matches (ledger_key email_id user_id))
                    (db w processed_emails) <> None).
  { intro Hn. eapply find_none in Hn; eauto. congruence. }
  destruct (find _ _) as [d'|] eqn:Ef; [|congruence].
  rewrite (violates_recorded w email_id user_id n now Hix Ef) in Hv. discriminate.
Qed.

(** A second [mark_as_processed] for a recorded pair is refused and
    writes nothing. *)
Lemma mark_as_processed_recorded : forall env email_id user_id n w d,
  In ledger_index (indexes w) ->
  find (Store.matches (ledger_key email_id user_id)) (db w processed_emails)
    = Some d ->
  exists e w',
    ProcessedEmail.mark_as_processed env email_id user_id n w = (Raise e, w')
    /\ exn_cls e = DuplicateKeyError
    /\ db w' = db w /\ trace w' = trace w.
Proof.
  intros env email_id user_id n w d Hix Hd.
  unfold ProcessedEmail.mark_as_processed, bind, utcnow, call, Store.insert_one.
  cbn [fst snd].
  match goal with
  | |- context [Store.violates ?w1 _ ?doc] =>
      assert (Hv : Store.violates w1 processed_emails doc = true)
        by (eapply (violates_recorded w1 email_id user_id n); [exact Hix|exact Hd]);
      rewrite Hv
  end.
  eexists _, _. repeat split.
Qed.

(** C1. With the unique index of the ledger in place: a call of
    [mark_as_processed] for a pair (item, user) that already has a record
    is refused with a uniqueness violation and stores nothing; and after
    a first call that succeeded, a second call for the same pair is
    refused likewise, the ledger then holds one record for the pair, and
    its [tasks_created] is the count of the first call. *)
Theorem mark_as_processed_at_most_once :
  forall (env : Env) (email_id : string) (user_id : oid) (w : World),
    In ledger_index (indexes w) ->
    (forall n d,
        find (Store.matches (ledger_key email_id user_id))
             (db w processed_emails) = Some d ->
        exists e w',
          ProcessedEmail.mark_as_processed env email_id user_id n w = (Raise e, w')
          /\ exn_cls e = DuplicateKeyError
          /\ db w' = db w /\ trace w' = trace w)
    /\
    (forall n1 n2 r1 w1,
        ProcessedEmail.mark_as_processed env email_id user_id n1 w = (Ok r1, w1) ->
        exists e w2,
          ProcessedEmail.mark_as_processed env email_id user_id n2 w1 = (Raise e, w2)
          /\ exn_cls e = DuplicateKeyError
          /\ db w2 = db w1
          /\ filter (Store.matches (ledger_key email_id user_id))
                    (db w2 processed_emails) = [r1]
          /\ Dict.lookup "tasks_created" r1 = Some (VInt n1)).
Proof.
  intros env email_id user_id w Hix. split.
  - intros n d Hd. eapply mark_as_processed_recorded; eauto.
  - intros n1 n2 r1 w1 H1.
    unfold ProcessedEmail.mark_as_processed, bind, utcnow, call,
      Store.insert_one in H1.
    cbn [fst snd] in H1.
    match type of H1 with
    | context [Store.violates ?w0 _ ?doc] =>
        destruct (Store.violates w0 processed_emails doc) eqn:Hv
    end; [discriminate|].
    unfold ret in H1. inversion H1; subst r1 w1; clear H1.
    apply (not_violates_unrecorded _ email_id user_id n1 _ Hix) in Hv.
    cbn [db] in Hv.
    match goal with
    | |- context [Store.commit (EvInsert _ ?d) ?w0] =>
        set (r1 := d); set (w1 := Store.commit (EvInsert processed_emails r1) w0)
    end.
    assert (Hdb : db w1 processed_emails = db w processed_emails ++ [r1])
      by reflexivity.
    assert (Hm : Store.matches (ledger_key email_id user_id) r1 = true)
      by (cbn; now rewrite String.eqb_refl, N.eqb_refl).
    assert (Hfilter : filter (Store.matches (ledger_key email_id user_id))
                             (db w1 processed_emails) = [r1]).
    { rewrite Hdb, filter_app, Hv. cbn [app filter]. now rewrite Hm. }
    assert (Hfind : find (Store.matches (ledger_key email_id user_id))
                         (db w1 processed_emails) = Some r1).
    { destruct (find _ _) as [d|] eqn:Ef.
      - pose proof (find_some _ _ Ef) as [Hin Hmd].
        assert (In d [r1]) as [->|[]]; [|reflexivity].
        rewrite <- Hfilter. apply filter_In. auto.
      - eapply find_none in Ef; [|rewrite Hdb; apply in_or_app; right; simpl; eauto].
        congruence. }
    destruct (mark_as_processed_recorded env email_id user_id n2 w1 (d:=r1))
      as (e & w2 & Hr & Hc & Hdb2 & _); [exact Hix|exact Hfind|].
    exists e, w2. repeat split; auto.
    rewrite Hdb2. exact Hfilter.
Qed.

(* ------------------------------------------------------------------ *)
(** * The normalizer                                                    *)
(* ------------------------------------------------------------------ *)

Lemma item_of_truthy_get : forall k d,
  truthy (Dict.get k VNone d) = true -> Dict.item k d = Ok (Dict.get k VNone d).
Proof.
  intros k d. unfold Dict.get, Dict.item.
  destruct (Dict.lookup k d); simpl; [reflexivity|discriminate].
Qed.

Lemma get_set_eq : forall k v default d, Dict.get k default (Dict.set k v d) = v.
Proof. intros. unfold Dict.get. now rewrite lookup_set_eq. Qed.

Lemma get_set_neq : forall k k' v default d,
  k' <> k -> Dict.get k' default (Dict.set k v d) = Dict.get k' default d.
Proof. intros. unfold Dict.get. now rewrite lookup_set_neq. Qed.

(** What the loop of [_parse_gemini_response] does to a task it keeps. *)
Lemma validate_task_kept : forall t t',
  GeminiService.validate_task t = Ok (Some t') ->
  field_of "priority" t' = normal_priority t
  /\ field_of "deadline" t' = email_deadline t
  /\ field_of "title" t' = field_of "title" t
  /\ field_of "description" t' = field_of "description" t
  /\ truthy (field_of "title" t) = true
  /\ truthy (field_of "description" t) = true.
Proof.
  intros t t' H. destruct t as [| | | | |l|d| |]; try discriminate H.
  unfold GeminiService.validate_task in H. cbn [py_get result_bind] in H.
  destruct (truthy (Dict.get "title" VNone d)) eqn:Ht; [|discriminate].
  destruct (truthy (Dict.get "description" VNone d)) eqn:Hd; [|discriminate].
  cbn [negb] in H.
  unfold normal_priority, email_deadline. cbn [field_of].
  set (d1 := if GeminiService.in_valid_priorities (Dict.get "priority" VNone d)
             then d else Dict.set "priority" (VStr "medium") d).
  assert (H1 : (if GeminiService.in_valid_priorities (Dict.get "priority" VNone d)
                then Ok (VDict d)
                else py_setitem (VDict d) "priority" (VStr "medium"))
               = Ok (VDict d1)).
  { unfold d1. destruct (GeminiService.in_valid_priorities _); reflexivity. }
  rewrite H1 in H. cbn [result_bind py_get py_item py_setitem] in H.
  assert (Hdl : Dict.get "deadline" VNone d1 = Dict.get "deadline" VNone d).
  { unfold d1. destruct (GeminiService.in_valid_priorities _); auto.
    apply get_set_neq. discriminate. }
  assert (Hti : Dict.get "title" VNone d1 = Dict.get "title" VNone d).
  { unfold d1. destruct (GeminiService.in_valid_priorities _); auto.
    apply get_set_neq. discriminate. }
  assert (Hde : Dict.get "description" VNone d1 = Dict.get "description" VNone d).
  { unfold d1. destruct (GeminiService.in_valid_priorities _); auto.
    apply get_set_neq. discriminate. }
  assert (Hpr : Dict.get "priority" VNone d1
                = if GeminiService.in_valid_priorities (Dict.get "priority" VNone d)
                  then Dict.get "priority" VNone d else VStr "medium").
  { unfold d1. destruct (GeminiService.in_valid_priorities _); auto.
    apply get_set_eq. }
  rewrite Hdl in H.
  assert (Hfinal : forall x, t' = VDict (Dict.set "deadline" x d1) ->
            Dict.get "priority" VNone (Dict.set "deadline" x d1)
            = (if GeminiService.in_valid_priorities (Dict.get "priority" VNone d)
               then Dict.get "priority" VNone d else VStr "medium")
            /\ Dict.get "deadline" VNone (Dict.set "deadline" x d1) = x
            /\ Dict.get "title" VNone (Dict.set "deadline" x d1)
               = Dict.get "title" VNone d
            /\ Dict.get "description" VNone (Dict.set "deadline" x d1)
               = Dict.get "description" VNone d).
  { intros x _. rewrite get_set_eq.
    rewrite !get_set_neq by discriminate. rewrite Hpr, Hti, Hde. auto. }
  destruct (truthy (Dict.get "deadline" VNone d)) eqn:Htd.
  - rewrite <- Hdl in Htd. rewrite (item_of_truthy_get _ _ Htd), Hdl in H.
    cbn [result_bind] in H.
    destruct (Strptime.strptime (Dict.get "deadline" VNone d)) as [dt|e] eqn:Hs.
    + cbn in H. inversion H; subst t'. cbn [field_of].
      destruct (Hfinal (VDatetime dt) eq_refl) as (A & B & C & D). auto 6.
    + destruct (is_value_error e); [|discriminate].
      cbn in H. inversion H; subst t'. cbn [field_of].
      destruct (Hfinal VNone eq_refl) as (A & B & C & D). auto 6.
  - cbn in H. inversion H; subst t'. cbn [field_of].
    destruct (Hfinal VNone eq_refl) as (A & B & C & D). auto 6.
Qed.

(** The tasks [validate_tasks] keeps are images of tasks of the input. *)
Lemma validate_tasks_kept : forall candidates validated,
  GeminiService.validate_tasks candidates = Ok validated ->
  Forall (fun t' => exists t, In t candidates
                              /\ GeminiService.validate_task t = Ok (Some t'))
         validated.
Proof.
  induction candidates as [|t candidates IH]; intros validated H; simpl in H.
  - inversion H. constructor.
  - destruct (GeminiService.validate_task t) as [[t'|]|e] eqn:Ht;
      cbn [result_bind] in H; try discriminate;
      destruct (GeminiService.validate_tasks candidates) as [vs|e] eqn:Hvs;
      cbn [result_bind] in H; try discriminate;
      inversion H; subst validated; clear H;
      specialize (IH vs eq_refl).
    + constructor.
      * exists t. simpl; auto.
      * eapply Forall_impl; [|exact IH].
        intros a (t0 & Hin & Hv). exists t0. simpl; auto.
    + eapply Forall_impl; [|exact IH].
      intros a (t0 & Hin & Hv). exists t0. simpl; auto.
Qed.

(** The shape of a response [_parse_gemini_response] accepts. *)
Lemma parse_gemini_response_some : forall env text r,
  GeminiService._parse_gemini_response env text = Some r ->
  exists data candidates validated,
    json_loads env (GeminiService.clean text) = Ok (VDict data)
    /\ Dict.get "tasks" (VList []) data = VList candidates
    /\ GeminiService.validate_tasks candidates = Ok validated
    /\ validated <> []
    /\ Dict.lookup "tasks" r = Some (VList validated)
    /\ Dict.lookup "has_task" r = Some (VBool true).
Proof.
  intros env text r H.
  unfold GeminiService._parse_gemini_response,
    GeminiService.parse_gemini_response_body in H.
  destruct (json_loads env (GeminiService.clean text)) as [v|e] eqn:Hj;
    cbn [result_bind] in H; [|discriminate].
  destruct v as [| | | | |l|data| |]; try discriminate H.
  destruct (negb (truthy (Dict.get "has_tasks" (VBool false) data)));
    [discriminate|].
  destruct (Dict.get "tasks" (VList []) data) as [| | | | |[|t ts]|d'| |] eqn:Ht;
    try discriminate H.
  destruct (GeminiService.validate_tasks (t :: ts)) as [validated|e] eqn:Hv;
    cbn [result_bind] in H; [|discriminate].
  destruct validated as [|first rest]; [discriminate|].
  destruct (py_item first "title") as [x1|]; cbn [result_bind] in H; [|discriminate].
  destruct (py_item first "description") as [x2|]; cbn [result_bind] in H;
    [|discriminate].
  destruct (py_item first "priority") as [x3|]; cbn [result_bind] in H;
    [|discriminate].
  destruct (py_item first "deadline") as [x4|]; cbn [result_bind] in H;
    [|discriminate].
  inversion H; subst r.
  exists data, (t :: ts), (first :: rest). repeat split; auto. discriminate.
Qed.

Lemma result_map_Forall2 : forall (A B : Type) (f : A -> result B) l l',
  result_map f l = Ok l' -> Forall2 (fun x y => f x = Ok y) l l'.
Proof.
  induction l as [|x l IH]; intros l' H; simpl in H.
  - inversion H. constructor.
  - destruct (f x) as [y|] eqn:Hx; [|discriminate].
    destruct (result_map f l) as [ys|]; [|discriminate].
    inversion H; subst. constructor; auto.
Qed.

(** What the loop of [_parse_meeting_summary_response] does to an
    action item. *)
Lemma normalize_action_item_ok : forall i i',
  GeminiService.normalize_action_item i = Ok i' ->
  field_of "priority" i' = normal_priority i
  /\ (truthy (field_of "deadline" i) = true ->
      field_of "deadline" i' = meeting_deadline i)
  /\ (truthy (field_of "deadline" i) = false ->
      field_of "deadline" i' = field_of "deadline" i)
  /\ field_of "description" i' = field_of "description" i.
Proof.
  intros i i' H. destruct i as [| | | | |l|d| |]; try discriminate H.
  unfold GeminiService.normalize_action_item in H. cbn [py_get result_bind] in H.
  unfold normal_priority, meeting_deadline. cbn [field_of].
  set (d1 := if GeminiService.in_valid_priorities (Dict.get "priority" VNone d)
             then d else Dict.set "priority" (VStr "medium") d).
  assert (H1 : (if GeminiService.in_valid_priorities (Dict.get "priority" VNone d)
                then Ok (VDict d)
                else py_setitem (VDict d) "priority" (VStr "medium"))
               = Ok (VDict d1)).
  { unfold d1. destruct (GeminiService.in_valid_priorities _); reflexivity. }
  rewrite H1 in H. cbn [result_bind py_get py_item py_setitem] in H.
  assert (Hdl : Dict.get "deadline" VNone d1 = Dict.get "deadline" VNone d).
  { unfold d1. destruct (GeminiService.in_valid_priorities _); auto.
    apply get_set_neq. discriminate. }
  assert (Hde : Dict.get "description" VNone d1 = Dict.get "description" VNone d).
  { unfold d1. destruct (GeminiService.in_valid_priorities _); auto.
    apply get_set_neq. discriminate. }
  assert (Hpr : Dict.get "priority" VNone d1
                = if GeminiService.in_valid_priorities (Dict.get "priority" VNone d)
                  then Dict.get "priority" VNone d else VStr "medium").
  { unfold d1. destruct (GeminiService.in_valid_priorities _); auto.
    apply get_set_eq. }
  rewrite Hdl in H.
  destruct (truthy (Dict.get "deadline" VNone d)) eqn:Htd.
  - rewrite <- Hdl in Htd. rewrite (item_of_truthy_get _ _ Htd), Hdl in H.
    cbn [result_bind] in H.
    destruct (Strptime.strptime (Dict.get "deadline" VNone d)) as [dt|e] eqn:Hs.
    + rewrite Hdl in Htd. inversion H; subst i'. cbn [field_of].
      rewrite Hpr, Hdl, Hde. repeat split; auto; intros; congruence.
    + rewrite Hdl in Htd. destruct (is_value_error e); [|discriminate].
      cbn in H. inversion H; subst i'. cbn [field_of].
      rewrite get_set_eq, !get_set_neq by discriminate.
      rewrite Hpr, Hde. repeat split; auto; intros; congruence.
  - inversion H; subst i'. cbn [field_of].
    rewrite Hpr, Hdl, Hde. repeat split; auto; intros; congruence.
Qed.

Lemma normalize_texts_nil : forall (A : Type) (f : A -> value) l items',
  (forall x, exists s, f x = VStr s) ->
  result_map GeminiService.normalize_action_item (map f l) = Ok items' ->
  l = [] /\ items' = [].
Proof.
  intros A f l items' Hf H. destruct l as [|x l]; simpl in H.
  - inversion H; auto.
  - destruct (Hf x) as [s Hs]. rewrite Hs in H. discriminate.
Qed.

(** The shape of a response [_parse_meeting_summary_response] accepts. *)
Lemma parse_meeting_summary_some : forall env text r,
  GeminiService._parse_meeting_summary_response env text = Some r ->
  exists data items items',
    json_loads env (GeminiService.clean text) = Ok (VDict data)
    /\ py_iter (Dict.get "action_items" (VList []) data) = Ok items
    /\ py_iter (Dict.get "action_items" (VList []) r) = Ok items'
    /\ Forall2 (fun i i' => GeminiService.normalize_action_item i = Ok i')
               items items'
    /\ (forall k, k <> "action_items" -> Dict.lookup k r = Dict.lookup k data).
Proof.
  intros env text r H.
  unfold GeminiService._parse_meeting_summary_response,
    GeminiService.parse_meeting_summary_body in H.
  destruct (json_loads env (GeminiService.clean text)) as [v|e] eqn:Hj;
    cbn [result_bind] in H; [|discriminate].
  destruct (GeminiService.has_required GeminiService.required_fields v)
    as [[|]|]; cbn [result_bind negb] in H; try discriminate.
  destruct v as [| | | | |l|data| |]; try discriminate H.
  cbn [py_get result_bind] in H.
  destruct (py_iter (Dict.get "action_items" (VList []) data)) as [items|] eqn:Hi;
    cbn [result_bind] in H; [|discriminate].
  destruct (result_map GeminiService.normalize_action_item items)
    as [items'|] eqn:Hm; cbn [result_bind] in H; [|discriminate].
  exists data, items, items'.
  pose proof (result_map_Forall2 _ _ Hm) as HF.
  destruct (Dict.get "action_items" (VList []) data)
    as [| | | |s|l|d'| |] eqn:Ha; try discriminate Hi;
    inversion H; subst r; clear H.
  - (* a text *)
    simpl in Hi. inversion Hi; subst items.
    apply normalize_texts_nil in Hm; [|intros; eauto]. destruct Hm as [Hl ->].
    rewrite Ha. simpl. rewrite Hl in *. repeat split; auto.
  - (* a list *)
    simpl in Hi. inversion Hi; subst items.
    rewrite get_set_eq. repeat split; auto.
    intros k Hk. now apply lookup_set_neq.
  - (* a dict *)
    simpl in Hi. inversion Hi; subst items.
    apply normalize_texts_nil in Hm; [|intros; eauto]. destruct Hm as [Hl ->].
    rewrite Ha. simpl. rewrite Hl in *. repeat split; auto.
Qed.

Lemma normal_priority_valid : forall v,
  GeminiService.in_valid_priorities (normal_priority v) = true.
Proof.
  intros v. unfold normal_priority.
  destruct (GeminiService.in_valid_priorities (field_of "priority" v)) eqn:E; auto.
Qed.

Lemma normal_priority_medium : forall v,
  GeminiService.in_valid_priorities (field_of "priority" v) = false ->
  normal_priority v = VStr "medium".
Proof. intros v H. unfold normal_priority. now rewrite H. Qed.

Lemma strptime_text : forall s t,
  Strptime.strptime (VStr s) = Ok t -> Strptime.strptime_ymd s = Ok t.
Proof. intros s t H; exact H. Qed.

Lemma email_deadline_cases : forall v,
  (email_deadline v = VNone
   \/ exists t, email_deadline v = VDatetime t
                /\ Strptime.strptime (field_of "deadline" v) = Ok t)
  /\ no_invalid_date_text (email_deadline v).
Proof.
  intros v. unfold email_deadline, no_invalid_date_text.
  destruct (truthy (field_of "deadline" v)).
  - destruct (Strptime.strptime (field_of "deadline" v)) as [t|e] eqn:E.
    + split; [right; eauto|]. intros s Hs; discriminate.
    + split; [auto|]. intros s Hs; discriminate.
  - split; [auto|]. intros s Hs; discriminate.
Qed.

Lemma meeting_deadline_cases : forall v,
  (meeting_deadline v = VNone
   \/ exists s t, meeting_deadline v = VStr s /\ field_of "deadline" v = VStr s
                  /\ Strptime.strptime_ymd s = Ok t)
  /\ no_invalid_date_text (meeting_deadline v).
Proof.
  intros v. unfold meeting_deadline, no_invalid_date_text.
  destruct (Strptime.strptime (field_of "deadline" v)) as [t|e] eqn:E.
  - destruct (field_of "deadline" v) as [| | | |s| | | |]; try discriminate E.
    split; [right; exists s, t; auto|].
    intros s' Hs; inversion Hs; subst; eauto.
  - split; [auto|]. intros s Hs; discriminate.
Qed.

Lemma task_create_stores : forall env a w r w',
  Task.create env a w = (Ok r, w') ->
  Dict.lookup "deadline" r = Some (Task.deadline a)
  /\ Dict.lookup "priority" r = Some (Task.priority a)
  /\ Dict.lookup "user_email" r = Some (Task.user_email a).
Proof.
  intros env a w r w' H.
  unfold Task.create, bind, utcnow, call, Store.insert_one, ret in H.
  cbn [fst snd] in H.
  match type of H with
  | context [Store.violates ?w0 ?c ?d] => destruct (Store.violates w0 c d)
  end; [discriminate|].
  injection H as <- _. repeat split.
Qed.

(** The deadlines in the output of the normalizer. *)
Lemma normalizer_reads_deadlines :
  forall (env : Env) (text : string),
    (forall r,
        GeminiService._parse_gemini_response env text = Some r ->
        exists data candidates validated,
          json_loads env (GeminiService.clean text) = Ok (VDict data)
          /\ Dict.get "tasks" (VList []) data = VList candidates
          /\ Dict.lookup "tasks" r = Some (VList validated)
          /\ Forall (fun t' =>
                       exists t, In t candidates
                                 /\ GeminiService.validate_task t = Ok (Some t')
                                 /\ field_of "deadline" t' = email_deadline t)
                    validated)
    /\
    (forall r,
        GeminiService._parse_meeting_summary_response env text = Some r ->
        exists data items items',
          json_loads env (GeminiService.clean text) = Ok (VDict data)
          /\ py_iter (Dict.get "action_items" (VList []) data) = Ok items
          /\ py_iter (Dict.get "action_items" (VList []) r) = Ok items'
          /\ Forall2 (fun i i' => truthy (field_of "deadline" i) = true ->
                                  field_of "deadline" i' = meeting_deadline i)
                     items items')
    /\
    (forall v,
        no_invalid_date_text (email_deadline v)
        /\ no_invalid_date_text (meeting_deadline v)
        /\ (forall e, Strptime.strptime (field_of "deadline" v) = Raise e ->
                      email_deadline v = VNone /\ meeting_deadline v = VNone)
        /\ (forall t, truthy (field_of "deadline" v) = true ->
                      Strptime.strptime (field_of "deadline" v) = Ok t ->
                      email_deadline v = VDatetime t
                      /\ meeting_deadline v = field_of "deadline" v))
    /\
    (forall a w r w',
        Task.create env a w = (Ok r, w') ->
        Dict.lookup "deadline" r = Some (Task.deadline a)).
Proof.
  intros env text. split; [|split; [|split]].
  - intros r H.
    destruct (parse_gemini_response_some _ _ H)
      as (data & candidates & validated & Hj & Ht & Hv & _ & Hr & _).
    exists data, candidates, validated. repeat split; auto.
    eapply Forall_impl; [|exact (validate_tasks_kept _ Hv)].
    intros t' (t & Hin & Hk). exists t. repeat split; auto.
    apply (validate_task_kept _ Hk).
  - intros r H.
    destruct (parse_meeting_summary_some _ _ H)
      as (data & items & items' & Hj & Hi & Hi' & HF & _).
    exists data, items, items'. repeat split; auto.
    eapply Forall2_impl; [|exact HF].
    intros i i' Hn. apply (normalize_action_item_ok _ Hn).
  - intros v. split; [apply email_deadline_cases|].
    split; [apply meeting_deadline_cases|]. split.
    + intros e He. unfold email_deadline, meeting_deadline. rewrite He.
      destruct (truthy _); auto.
    + intros t Ht Hs. unfold email_deadline, meeting_deadline.
      rewrite Ht, Hs. auto.
  - intros a w r w' H. apply (task_create_stores _ _ _ H).
Qed.

(* ------------------------------------------------------------------ *)
(** * Journals: what a run writes                                       *)
(* ------------------------------------------------------------------ *)

Lemma replay_app : forall a b dbf, replay (a ++ b) dbf = replay b (replay a dbf).
Proof. intros. unfold replay. apply fold_left_app. Qed.

Lemma journal_refl : forall w, journal w [] w.
Proof. intros w. split; auto. now rewrite app_nil_r. Qed.

Lemma journal_trans : forall w a w1 b w2,
  journal w a w1 -> journal w1 b w2 -> journal w (a ++ b) w2.
Proof.
  intros w a w1 b w2 [T1 D1 I1] [T2 D2 I2]. split.
  - now rewrite T2, T1, app_assoc.
  - now rewrite D2, D1, replay_app.
  - congruence.
Qed.

Lemma journal_tick : forall w o n g,
  journal w [] (mkWorld (db w) (indexes w) o n (trace w) g).
Proof. intros. split; cbn; [now rewrite app_nil_r|reflexivity|reflexivity]. Qed.

Lemma journal_commit : forall e w, journal w [e] (Store.commit e w).
Proof. intros e w. split; reflexivity. Qed.

Lemma call_run : forall (A : Type) (f : nat -> result A) w r w',
  call f w = (r, w') -> r = f (ticks w) /\ journal w [] w'.
Proof.
  intros A f w r w' H. unfold call in H. inversion H; subst.
  split; auto. split; cbn; auto. now rewrite app_nil_r.
Qed.

Lemma insert_one_run : forall c d w r w',
  Store.insert_one c d w = (r, w') ->
  (exists e, r = Raise e /\ exn_cls e = DuplicateKeyError
             /\ Store.violates w c d = true /\ w' = w)
  \/ (exists o, r = Ok o /\ Store.violates w c d = false
                /\ journal w [EvInsert c (Dict.set "_id" (VObjectId o) d)] w').
Proof.
  intros c d w r w' H. unfold Store.insert_one in H.
  destruct (Store.violates w c d) eqn:Hv; inversion H; subst.
  - left. eexists. repeat split.
  - right. eexists. repeat split.
Qed.

Lemma update_one_run : forall c query changes w r w',
  Store.update_one c query changes w = (r, w') ->
  r = Ok tt /\ journal w [EvUpdate c query changes] w'.
Proof.
  intros c query changes w r w' H. unfold Store.update_one in H.
  inversion H; subst. split; auto. apply journal_commit.
Qed.

Lemma emits_weaken : forall (A : Type) (P Q : event -> Prop) (m : M A),
  (forall e, P e -> Q e) -> emits P m -> emits Q m.
Proof.
  intros A P Q m HPQ Hm w r w' H.
  destruct (Hm _ _ _ H) as (evs & J & F).
  exists evs. split; auto. eapply Forall_impl; eauto.
Qed.

Lemma emits_ret : forall (A : Type) P (a : A), emits P (ret a).
Proof.
  intros A P a w r w' H. inversion H; subst.
  exists []. split; [apply journal_refl|constructor].
Qed.

Lemma emits_raise : forall (A : Type) P e, emits P (@raise A e).
Proof.
  intros A P e w r w' H. inversion H; subst.
  exists []. split; [apply journal_refl|constructor].
Qed.

Lemma emits_lift : forall (A : Type) P (x : result A), emits P (lift x).
Proof.
  intros A P x w r w' H. inversion H; subst.
  exists []. split; [apply journal_refl|constructor].
Qed.

Lemma emits_call : forall (A : Type) P (f : nat -> result A), emits P (call f).
Proof.
  intros A P f w r w' H. apply call_run in H. destruct H as [_ J].
  exists []. split; [exact J|constructor].
Qed.

Lemma emits_bind : forall (A B : Type) P (m : M A) (k : A -> M B),
  emits P m -> (forall a, emits P (k a)) -> emits P (bind m k).
Proof.
  intros A B P m k Hm Hk w r w' H. unfold bind in H.
  destruct (m w) as [[a|e] w1] eqn:E.
  - destruct (Hm _ _ _ E) as (evs1 & J1 & F1).
    destruct (Hk a _ _ _ H) as (evs2 & J2 & F2).
    exists (evs1 ++ evs2). split; [eapply journal_trans; eauto|].
    apply Forall_app; auto.
  - inversion H; subst. eauto.
Qed.

Lemma emits_try : forall (A : Type) P (m : M A) (h : exn -> M A),
  emits P m -> (forall e, emits P (h e)) -> emits P (try_except m h).
Proof.
  intros A P m h Hm Hh w r w' H. unfold try_except in H.
  destruct (m w) as [[a|e] w1] eqn:E.
  - inversion H; subst. eauto.
  - destruct (Hm _ _ _ E) as (evs1 & J1 & F1).
    destruct (Hh e _ _ _ H) as (evs2 & J2 & F2).
    exists (evs1 ++ evs2). split; [eapply journal_trans; eauto|].
    apply Forall_app; auto.
Qed.

Lemma emits_for_each : forall (A S : Type) P (l : list A) (body : A -> S -> M S) acc,
  (forall x acc', In x l -> emits P (body x acc')) ->
  emits P (for_each l body acc).
Proof.
  induction l as [|x l IH]; intros body acc Hb; simpl.
  - apply emits_ret.
  - apply emits_bind.
    + apply Hb. simpl; auto.
    + intros a. apply IH. intros; apply Hb; simpl; auto.
Qed.

Lemma emits_find_one : forall P c query, emits P (Store.find_one c query).
Proof.
  intros P c query w r w' H. inversion H; subst.
  exists []. split; [apply journal_refl|constructor].
Qed.

Lemma emits_insert_one : forall (P : event -> Prop) c d,
  (forall o, P (EvInsert c (Dict.set "_id" (VObjectId o) d))) ->
  emits P (Store.insert_one c d).
Proof.
  intros P c d HP w r w' H.
  apply insert_one_run in H. destruct H as [(e & _ & _ & _ & ->)|(o & _ & _ & J)].
  - exists []. split; [apply journal_refl|constructor].
  - eexists. split; [exact J|]. constructor; auto.
Qed.

Lemma emits_update_one : forall (P : event -> Prop) c query changes,
  P (EvUpdate c query changes) -> emits P (Store.update_one c query changes).
Proof.
  intros P c query changes HP w r w' H.
  apply update_one_run in H. destruct H as [_ J].
  eexists. split; [exact J|]. constructor; auto.
Qed.

Lemma emits_update_task_id_one : forall (P : event -> Prop) query idx task now,
  P (EvSetTaskId query idx task now) ->
  emits P (Store.update_task_id_one query idx task now).
Proof.
  intros P query idx task now HP w r w' H. unfold Store.update_task_id_one in H.
  destruct (find _ _); [destruct (Store.set_task_id _ _ _ _)|];
    inversion H; subst;
    try (exists []; split; [apply journal_refl|constructor]).
  eexists. split; [apply journal_commit|]. constructor; auto.
Qed.

Lemma emits_bind_lift : forall (A B : Type) P (x : result A) (k : A -> M B),
  (forall a, x = Ok a -> emits P (k a)) -> emits P (bind (lift x) k).
Proof.
  intros A B P x k Hk w r w' H. unfold bind, lift in H.
  destruct x as [a|e].
  - exact (Hk a eq_refl _ _ _ H).
  - inversion H; subst. exists []. split; [apply journal_refl|constructor].
Qed.

(** A bind whose continuation may use what is known of the value. *)
Lemma emits_bind_with : forall (A B : Type) P (R : A -> Prop)
                               (m : M A) (k : A -> M B),
  (forall w a w', m w = (Ok a, w') -> R a) ->
  emits P m -> (forall a, R a -> emits P (k a)) -> emits P (bind m k).
Proof.
  intros A B P R m k HR Hm Hk w r w' H. unfold bind in H.
  destruct (m w) as [[a|e] w1] eqn:E.
  - destruct (Hm _ _ _ E) as (evs1 & J1 & F1).
    destruct (Hk a (HR _ _ _ E) _ _ _ H) as (evs2 & J2 & F2).
    exists (evs1 ++ evs2). split; [eapply journal_trans; eauto|].
    apply Forall_app; auto.
  - inversion H; subst. eauto.
Qed.

(** One step of the decomposition of a computation into its calls. *)
Ltac emits_step :=
  match goal with
  | |- emits _ (bind (lift _) _) => apply emits_bind_lift; intros ? ?
  | |- emits _ (bind _ _) => apply emits_bind; [|intro]
  | |- emits _ (try_except _ _) => apply emits_try; [|intro]
  | |- emits _ (ret _) => apply emits_ret
  | |- emits _ (raise _) => apply emits_raise
  | |- emits _ (lift _) => apply emits_lift
  | |- emits _ (call _) => apply emits_call
  | |- emits _ (utcnow _) => apply emits_call
  | |- emits _ (Store.find_one _ _) => apply emits_find_one
  | |- emits _ (match ?x with _ => _ end) => destruct x
  end.

(** The writes of the models. *)

Lemma emits_user_update : forall (P : event -> Prop) env user_id update_data,
  (forall now, P (EvUpdate users (by_id user_id)
                           (Dict.set "updated_at" (VDatetime now) update_data))) ->
  emits P (User.update env user_id update_data).
Proof.
  intros P env user_id update_data HP. unfold User.update, User.find_by_id.
  repeat emits_step. apply emits_update_one. apply HP.
Qed.

Lemma emits_mark_as_processed : forall (P : event -> Prop) env email_id user_id n,
  (forall d, Dict.lookup "tasks_created" d = Some (VInt n) ->
             Store.matches (ledger_key email_id user_id) d = true ->
             P (EvInsert processed_emails d)) ->
  emits P (ProcessedEmail.mark_as_processed env email_id user_id n).
Proof.
  intros P env email_id user_id n HP. unfold ProcessedEmail.mark_as_processed.
  repeat emits_step. apply emits_insert_one. intros o. apply HP.
  - reflexivity.
  - cbn. now rewrite String.eqb_refl, N.eqb_refl.
Qed.

Lemma emits_task_create : forall (P : event -> Prop) env a,
  (forall d, Dict.lookup "user_email" d = Some (Task.user_email a) ->
             Dict.lookup "deadline" d = Some (Task.deadline a) ->
             Dict.lookup "priority" d = Some (Task.priority a) ->
             P (EvInsert tasks d)) ->
  emits P (Task.create env a).
Proof.
  intros P env a HP. unfold Task.create.
  repeat emits_step. apply emits_insert_one. intros o. apply HP; reflexivity.
Qed.

Lemma emits_update_status : forall (P : event -> Prop) env meeting_id status pa em,
  (forall now, P (EvUpdate meetings (by_id meeting_id)
                           (Meeting.update_data status now pa em))) ->
  emits P (Meeting.update_status env meeting_id status pa em).
Proof.
  intros P env meeting_id status pa em HP.
  unfold Meeting.update_status, Meeting.find_by_id.
  repeat emits_step. apply emits_update_one. apply HP.
Qed.

Lemma emits_meeting_create : forall (P : event -> Prop) env ce uid t d s e a l,
  (forall doc, P (EvInsert meetings doc)) ->
  emits P (Meeting.create env ce uid t d s e a l).
Proof.
  intros. unfold Meeting.create.
  repeat emits_step. apply emits_insert_one. auto.
Qed.

Lemma emits_transcript_create : forall (P : event -> Prop) env mid uid t s l c,
  (forall doc, P (EvInsert meeting_transcripts doc)) ->
  emits P (MeetingTranscript.create env mid uid t s l c).
Proof.
  intros. unfold MeetingTranscript.create.
  repeat emits_step. apply emits_insert_one. auto.
Qed.

Lemma emits_summary_create : forall (P : event -> Prop) env mid uid s k d a p t n,
  (forall doc, P (EvInsert meeting_summaries doc)) ->
  emits P (MeetingSummary.create env mid uid s k d a p t n).
Proof.
  intros. unfold MeetingSummary.create.
  repeat emits_step. apply emits_insert_one. auto.
Qed.

Lemma emits_update_task_id : forall (P : event -> Prop) env mid idx task,
  (forall q i t now, P (EvSetTaskId q i t now)) ->
  emits P (MeetingSummary.update_task_id env mid idx task).
Proof.
  intros. unfold MeetingSummary.update_task_id.
  repeat emits_step. apply emits_update_task_id_one. auto.
Qed.

Lemma emits_extract_task : forall P env s b,
  emits P (GeminiService.extract_task_from_email env s b).
Proof.
  intros. unfold GeminiService.extract_task_from_email. repeat emits_step.
Qed.

Lemma emits_summarize : forall P env t title a,
  emits P (GeminiService.summarize_meeting_transcript env t title a).
Proof.
  intros. unfold GeminiService.summarize_meeting_transcript. repeat emits_step.
Qed.

(* ------------------------------------------------------------------ *)
(** * The email pipeline                                                *)
(* ------------------------------------------------------------------ *)

(** C6. A mail whose sender address, as [extract_sender_email] reads it
    from the From header, equals the address of the owning user up to
    case is skipped: [_process_email_for_tasks] answers [False] and leaves
    the world as it was, so it creates no Task and no ledger record,
    whatever the mail holds. *)
Theorem own_mail_creates_nothing :
  forall (env : Env) (email_msg : gmail_message) (user : dict)
         (gmail_service : value) (w : World) (address : string),
    Dict.lookup "email" user = Some (VStr address) ->
    Text.lower (GmailService.extract_sender_email
                  (GmailService.from_ (GmailService.parse_email email_msg)))
    = Text.lower address ->
    EmailPollingService._process_email_for_tasks env email_msg user gmail_service w
    = (Ok false, w).
Proof.
  intros env email_msg user gmail_service w address Hmail Hsame.
  unfold EmailPollingService._process_email_for_tasks.
  cbv zeta. unfold try_except, bind, lift.
  destruct (doc_id user) as [user_id|e]; [|reflexivity].
  unfold Dict.get. rewrite Hmail. cbn [py_lower].
  rewrite Hsame, String.eqb_refl. reflexivity.
Qed.

Lemma ledger_free : forall w email_id user_id n now,
  ledger_indexed w ->
  find (Store.matches (ledger_key email_id user_id)) (db w processed_emails)
    = None ->
  Store.violates w processed_emails (ledger_record email_id user_id n now) = false.
Proof.
  intros w email_id user_id n now Hix Hfree.
  destruct (Store.violates _ _ _) eqn:Hv; [|reflexivity].
  unfold Store.violates in Hv. apply existsb_exists in Hv.
  destruct Hv as (ix & Hin & Hv).
  apply andb_prop in Hv. destruct Hv as [Hv Hdocs].
  apply andb_prop in Hv. destruct Hv as [Hu Hc].
  apply collection_eqb_eq in Hc.
  pose proof (Hix ix Hin Hc Hu) as Hk. rewrite Hk in Hdocs.
  apply existsb_exists in Hdocs. destruct Hdocs as (d & Hd & Hm).
  eapply find_none in Hfree; [|exact Hd].
  change (Store.matches (ledger_key email_id user_id) d = true) in Hm.
  congruence.
Qed.

(** C3. A response that is not valid JSON once the markdown fence is
    removed gives no candidates, in email mode and in meeting mode: the
    normalizer answers [None] and does not raise. When the email pipeline
    gets such a response for a mail that is not the user's own and not
    yet in the ledger, it still records the mail in the ledger, with
    [tasks_created = 0], creates no Task and answers [False]. *)
Theorem malformed_response_is_no_task :
  forall (env : Env) (text : string) (e : exn),
    json_loads env (GeminiService.clean text) = Raise e ->
    GeminiService._parse_gemini_response env text = None
    /\ GeminiService._parse_meeting_summary_response env text = None
    /\ forall (email_msg : gmail_message) (user : dict) (gmail_service : value)
              (w : World) (user_id : oid) (own : string),
        let email_data := GmailService.parse_email email_msg in
        doc_id user = Ok user_id ->
        py_lower (Dict.get "email" (VStr "") user) = Ok own ->
        String.eqb (Text.lower (GmailService.extract_sender_email
                                  (GmailService.from_ email_data))) own = false ->
        ledger_indexed w ->
        find (Store.matches (ledger_key (GmailService.message_id email_data) user_id))
             (db w processed_emails) = None ->
        GeminiService_new env (ticks w) = Ok tt ->
        generate_content env
          (build_extraction_prompt env (GmailService.subject email_data)
                                   (GmailService.body email_data))
          (S (ticks w)) = Ok text ->
        exists w' record,
          EmailPollingService._process_email_for_tasks env email_msg user
                                                       gmail_service w
          = (Ok false, w')
          /\ journal w [EvInsert processed_emails record] w'
          /\ Dict.lookup "tasks_created" record = Some (VInt 0)
          /\ Store.matches (ledger_key (GmailService.message_id email_data) user_id)
                           record = true
          /\ db w' tasks = db w tasks
          /\ db w' processed_emails = db w processed_emails ++ [record].
Proof.
  intros env text e Hjson.
  assert (Hnone : GeminiService._parse_gemini_response env text = None).
  { unfold GeminiService._parse_gemini_response,
      GeminiService.parse_gemini_response_body. now rewrite Hjson. }
  split; [exact Hnone|]. split.
  { unfold GeminiService._parse_meeting_summary_response,
      GeminiService.parse_meeting_summary_body. now rewrite Hjson. }
  intros email_msg user gmail_service w user_id own email_data
         Hid Hown Hother Hix Hfree Hnew Hgen.
  unfold EmailPollingService._process_email_for_tasks.
  fold email_data. cbv zeta.
  unfold try_except, bind, lift. rewrite Hid, Hown, Hother.
  unfold ProcessedEmail.is_processed, bind, Store.find_one, ret.
  fold (ledger_key (GmailService.message_id email_data) user_id).
  rewrite Hfree.
  unfold call at 1. rewrite Hnew.
  unfold GeminiService.extract_task_from_email, try_except, bind, call, ret.
  cbn [ticks]. rewrite Hgen, Hnone.
  unfold ProcessedEmail.mark_as_processed, bind, utcnow, call, Store.insert_one, ret.
  cbn [ticks db indexes next_oid trace gemini_service].
  fold (ledger_record (GmailService.message_id email_data) user_id 0
                      (utcnow_at env (S (S (ticks w))))).
  match goal with
  | |- context [Store.violates ?w0 _ ?d] =>
      replace (Store.violates w0 processed_emails d) with false
        by (symmetry; apply ledger_free; assumption)
  end.
  eexists _, _. split; [reflexivity|].
  split; [split; reflexivity|].
  split; [reflexivity|]. split; [|split; reflexivity].
  cbn. now rewrite String.eqb_refl, N.eqb_refl.
Qed.

(* ------------------------------------------------------------------ *)
(** * The manual trigger                                                *)
(* ------------------------------------------------------------------ *)

(** C8 as stated fails: a request for a meeting in 'processing' made by
    a user who does not own it is answered 403, not 400. *)
Lemma process_request_of_non_owner_is_403 :
  exists r,
    stored_meeting (Fixture.world [Fixture.standup "processing" VNone] []) 10%N
    = Some (Fixture.standup "processing" VNone)
    /\ MeetingProcess.post (Fixture.env [] [] None None) 2%N 10%N
         (Fixture.world [Fixture.standup "processing" VNone] [])
       = (Ok r, Fixture.world [Fixture.standup "processing" VNone] [])
    /\ MeetingProcess.resp_status r = 403%Z
    /\ (MeetingProcess.resp_status r =? 400)%Z = false.
Proof. eexists. repeat split. Qed.

(** C8, amended. A manual process request for a meeting whose stored
    status is 'processing' starts no processing run, writes nothing and
    answers [success: false]; when the requester owns the meeting the
    answer is the conflict response, HTTP 400. *)
Theorem process_request_while_processing_is_rejected :
  forall (env : Env) (jwt_identity meeting_id : oid) (w : World) (meeting : dict),
    stored_meeting w meeting_id = Some meeting ->
    Dict.lookup "processing_status" meeting = Some (VStr "processing") ->
    exists r,
      MeetingProcess.post env jwt_identity meeting_id w = (Ok r, w)
      /\ MeetingProcess.resp_thread r = None
      /\ Dict.lookup "success" (MeetingProcess.resp_body r) = Some (VBool false)
      /\ (Dict.lookup "user_id" meeting = Some (VObjectId jwt_identity) ->
          MeetingProcess.resp_status r = 400%Z
          /\ MeetingProcess.resp_body r
             = [("success", VBool false);
                ("error", VStr "Meeting is already being processed")]).
Proof.
  intros env jwt_identity meeting_id w meeting Hstored Hstatus.
  unfold MeetingProcess.post, try_except, bind, Meeting.find_by_id,
    Store.find_one, lift, ret.
  unfold stored_meeting, by_id in Hstored. rewrite Hstored.
  assert (Htruthy : truthy (VDict meeting) = true)
    by (destruct meeting; [discriminate Hstatus|reflexivity]).
  rewrite Htruthy. cbn [negb].
  unfold Dict.item, Dict.get. rewrite Hstatus.
  destruct (Dict.lookup "user_id" meeting) as [owner|] eqn:Howner.
  - destruct (value_eqb owner (VObjectId jwt_identity)) eqn:Heq; cbn [negb].
    + eexists. repeat split.
    + eexists. split; [reflexivity|]. repeat split;
        inversion H; subst owner; cbn in Heq; rewrite N.eqb_refl in Heq;
        discriminate.
  - eexists. split; [reflexivity|]. repeat split; discriminate.
Qed.

(* ------------------------------------------------------------------ *)
(** * Ownership of the created tasks                                    *)
(* ------------------------------------------------------------------ *)

Lemma replay_appends : forall c evs dbf,
  Forall (appends_only c) evs -> replay evs dbf c = dbf c ++ inserted c evs.
Proof.
  intros c evs. induction evs as [|e evs IH]; intros dbf H.
  - simpl. now rewrite app_nil_r.
  - inversion H as [|? ? He Hevs]; subst.
    change (replay (e :: evs) dbf) with (replay evs (Store.apply_event e dbf)).
    rewrite (IH _ Hevs).
    change (inserted c (e :: evs))
      with ((match e with
             | EvInsert c' d => if collection_eqb c' c then [d] else []
             | _ => []
             end) ++ inserted c evs).
    rewrite app_assoc. f_equal.
    destruct e as [c' d|c' q ch|q i t now]; simpl in *.
    + destruct (collection_eqb c c') eqn:E.
      * apply collection_eqb_eq in E; subst c'.
        now rewrite collection_eqb_refl.
      * rewrite collection_eqb_neq; [now rewrite app_nil_r|].
        intro; subst; rewrite collection_eqb_refl in E; discriminate.
    + rewrite collection_eqb_neq by congruence. now rewrite app_nil_r.
    + rewrite collection_eqb_neq by congruence. now rewrite app_nil_r.
Qed.

Lemma inserted_Forall : forall c (P : event -> Prop) (R : dict -> Prop) evs,
  (forall d, P (EvInsert c d) -> R d) ->
  Forall P evs -> Forall R (inserted c evs).
Proof.
  intros c P R evs HPR H. induction H as [|e evs He Hevs IH]; simpl.
  - constructor.
  - apply Forall_app. split; [|exact IH].
    destruct e as [c' d| |]; try constructor.
    destruct (collection_eqb c' c) eqn:E; constructor; [|constructor].
    apply collection_eqb_eq in E; subst. auto.
Qed.

Lemma email_write_appends : forall user e,
  email_write user e -> appends_only tasks e.
Proof. intros user [c d|c q ch|q i t now]; simpl; tauto. Qed.

Lemma meeting_write_appends : forall user e,
  meeting_write user e -> appends_only tasks e /\ appends_only users e.
Proof.
  intros user [c d|c q ch|q i t now]; simpl; try tauto.
  - destruct c; simpl; intuition congruence.
  - split; discriminate.
Qed.

Lemma emits_email_create_task : forall env email_data sender user user_id
                                       task_data task_info n,
  emits (email_write user)
        (EmailPollingService.create_task env email_data sender user user_id
                                         task_data task_info n).
Proof.
  intros. unfold EmailPollingService.create_task.
  repeat emits_step. apply emits_task_create. intros d Hemail _ _. exact Hemail.
Qed.

Lemma emits_process_email : forall env email_msg user gmail_service,
  emits (email_write user)
        (EmailPollingService._process_email_for_tasks env email_msg user
                                                      gmail_service).
Proof.
  intros. unfold EmailPollingService._process_email_for_tasks,
    ProcessedEmail.is_processed.
  cbv zeta.
  repeat first
    [ emits_step
    | apply emits_extract_task
    | apply emits_mark_as_processed; intros; exact I
    | apply emits_for_each; intros
    | apply emits_email_create_task ].
Qed.

Lemma emits_init_gemini : forall P env, emits P (MeetingPollingService.init_gemini env).
Proof.
  intros P env w r w' H. unfold MeetingPollingService.init_gemini, call in H.
  exists []. split; [|constructor].
  destruct (gemini_service w); [inversion H; subst; apply journal_refl|].
  destruct (GeminiService_new env (ticks w)); inversion H; subst;
    split; cbn; auto; now rewrite app_nil_r.
Qed.

Lemma emits_drive_service : forall P env user,
  emits P (DriveService.get_service_for_user env user).
Proof.
  intros. unfold DriveService.get_service_for_user. repeat emits_step.
Qed.

Lemma emits_meeting_create_task : forall env meeting user meeting_id user_id
                                         action_item acc,
  emits (meeting_write user)
        (MeetingPollingService.create_task env meeting user meeting_id user_id
                                           action_item acc).
Proof.
  intros. unfold MeetingPollingService.create_task.
  repeat first
    [ emits_step
    | apply emits_task_create; intros d Hemail _ _; exact Hemail
    | apply emits_update_task_id; intros; exact I ].
Qed.

Lemma emits_process_for_user : forall env meeting meeting_id user_id user,
  emits (meeting_write user)
        (MeetingPollingService.process_for_user env meeting meeting_id user_id user).
Proof.
  intros. unfold MeetingPollingService.process_for_user,
    DriveService.find_meeting_recording, DriveService.get_document_text.
  cbv zeta.
  repeat first
    [ emits_step
    | apply emits_drive_service
    | apply emits_update_status; intros; exact I
    | apply emits_transcript_create; intros; exact I
    | apply emits_summary_create; intros; exact I
    | apply emits_summarize
    | apply emits_for_each; intros
    | apply emits_meeting_create_task ].
Qed.

Lemma bind_run : forall (A B : Type) (m : M A) (k : A -> M B) w r w',
  bind m k w = (r, w') ->
  (exists a w1, m w = (Ok a, w1) /\ k a w1 = (r, w'))
  \/ (exists e, m w = (Raise e, w') /\ r = Raise e).
Proof.
  intros A B m k w r w' H. unfold bind in H.
  destruct (m w) as [[a|e] w1]; [left; eauto|right].
  inversion H; subst. eauto.
Qed.

Lemma bind_lift_run : forall (A B : Type) (x : result A) (k : A -> M B) w r w',
  bind (lift x) k w = (r, w') ->
  (exists a, x = Ok a /\ k a w = (r, w'))
  \/ (exists e, x = Raise e /\ r = Raise e /\ w' = w).
Proof.
  intros A B x k w r w' H. unfold bind, lift in H.
  destruct x as [a|e]; [left; eauto|right].
  inversion H; subst. eauto.
Qed.

Lemma try_run : forall (A : Type) (m : M A) (h : exn -> M A) w r w',
  try_except m h w = (r, w') ->
  (exists a, m w = (Ok a, w') /\ r = Ok a)
  \/ (exists e w1, m w = (Raise e, w1) /\ h e w1 = (r, w')).
Proof.
  intros A m h w r w' H. unfold try_except in H.
  destruct (m w) as [[a|e] w1]; [left|right; eauto].
  inversion H; subst. eauto.
Qed.

Lemma replay_other : forall c evs dbf,
  Forall (fun e => match e with
                   | EvInsert c' _ | EvUpdate c' _ _ => c' <> c
                   | EvSetTaskId _ _ _ _ => c <> meeting_summaries
                   end) evs ->
  replay evs dbf c = dbf c.
Proof.
  intros c evs. induction evs as [|e evs IH]; intros dbf H; [reflexivity|].
  inversion H as [|? ? He Hevs]; subst.
  change (replay (e :: evs) dbf) with (replay evs (Store.apply_event e dbf)).
  rewrite (IH _ Hevs).
  destruct e; simpl; rewrite collection_eqb_neq; congruence.
Qed.

Lemma emits_mark_failed : forall (P : event -> Prop) env meeting e,
  (forall meeting_id now,
      P (EvUpdate meetings (by_id meeting_id)
                  (Meeting.update_data (VStr "failed") now VNone
                                       (VStr (exn_str e))))) ->
  emits P (MeetingPollingService.mark_failed env meeting e).
Proof.
  intros P env meeting e HP. unfold MeetingPollingService.mark_failed.
  repeat first [ emits_step | apply emits_update_status; intros; apply HP ].
Qed.

(** The writes of a whole run of [process_meeting]. *)
Lemma process_meeting_owner_writes : forall env meeting w r w',
  MeetingPollingService.process_meeting env meeting w = (r, w') ->
  exists evs, journal w evs w'
              /\ Forall (owner_write meeting (db w users)) evs.
Proof.
  intros env meeting w r w' H.
  assert (Hq : forall e, (exists q ch, e = EvUpdate meetings q ch) ->
                         owner_write meeting (db w users) e).
  { intros e (q & ch & ->). split; simpl; auto. discriminate. }
  assert (Hbody : forall rb wb,
             MeetingPollingService.process_meeting_body env meeting w = (rb, wb) ->
             exists evs, journal w evs wb
                         /\ Forall (owner_write meeting (db w users)) evs).
  { clear H. intros rb wb H.
    unfold MeetingPollingService.process_meeting_body in H.
    apply bind_lift_run in H.
    destruct H as [(meeting_id & Hid & H)|(e & _ & _ & ->)];
      [|exists []; split; [apply journal_refl|constructor]].
    apply bind_lift_run in H.
    destruct H as [(user_ref & Href & H)|(e & _ & _ & ->)];
      [|exists []; split; [apply journal_refl|constructor]].
    apply bind_lift_run in H.
    destruct H as [(title & _ & H)|(e & _ & _ & ->)];
      [|exists []; split; [apply journal_refl|constructor]].
    apply bind_run in H.
    destruct H as [(u & w1 & H1 & H)|(e & H1 & _)];
      [|apply (emits_init_gemini (owner_write meeting (db w users))) in H1;
        exact H1].
    apply (emits_init_gemini (fun _ => False)) in H1.
    destruct H1 as (evs1 & J1 & F1).
    assert (evs1 = []) by (destruct F1; [reflexivity|contradiction]). subst evs1.
    apply bind_run in H.
    assert (Hup : emits (fun e => exists q ch, e = EvUpdate meetings q ch)
                        (Meeting.update_status env meeting_id (VStr "processing")
                                               VNone VNone))
      by (apply emits_update_status; intros; eauto).
    destruct H as [(m2 & w2 & H2 & H)|(e & H2 & _)].
    2:{ apply Hup in H2. destruct H2 as (evs2 & J2 & F2).
        exists ([] ++ evs2). split; [eapply journal_trans; eauto|].
        eapply Forall_impl; [|exact F2]. auto. }
    apply Hup in H2. destruct H2 as (evs2 & J2 & F2).
    assert (J : journal w evs2 w2)
      by (change evs2 with ([] ++ evs2); eapply journal_trans; eauto).
    assert (Husers : db w2 users = db w users).
    { rewrite (journal_db J). apply replay_other.
      eapply Forall_impl; [|exact F2].
      intros e (q & ch & ->). discriminate. }
    apply bind_lift_run in H.
    destruct H as [(user_id & Huid & H)|(e & _ & _ & ->)].
    2:{ exists evs2. split; [exact J|]. eapply Forall_impl; [|exact F2]. auto. }
    destruct user_ref as [| | | | | | | |uid]; try discriminate Huid.
    inversion Huid; subst uid.
    apply bind_run in H.
    destruct H as [(user & w3 & H3 & H)|(e & H3 & _)]; [|discriminate H3].
    unfold User.find_by_id, Store.find_one in H3.
    inversion H3; subst user w3; clear H3. rewrite Husers in H.
    destruct (find (Store.matches [("_id", VObjectId user_id)]) (db w users))
      as [user|] eqn:Hfind.
    2:{ cbn in H. inversion H; subst.
        exists evs2. split; [exact J|]. eapply Forall_impl; [|exact F2]. auto. }
    cbv zeta in H.
    destruct (negb (found (Some user))).
    { inversion H; subst.
      exists evs2. split; [exact J|]. eapply Forall_impl; [|exact F2]. auto. }
    apply emits_process_for_user in H. destruct H as (evs3 & J3 & F3).
    exists (evs2 ++ evs3). split; [eapply journal_trans; eauto|].
    apply Forall_app. split; [eapply Forall_impl; [|exact F2]; auto|].
    eapply Forall_impl; [|exact F3].
    intros e He. split; [apply (meeting_write_appends _ _ He)|].
    destruct e as [c d| |]; auto. destruct c; auto.
    exists user_id, user. unfold Dict.item in Href.
    destruct (Dict.lookup "user_id" meeting); inversion Href; subst.
    repeat split; auto. }
  unfold MeetingPollingService.process_meeting in H.
  apply try_run in H.
  destruct H as [(a & H & _)|(e & w1 & H & Hh)]; [eauto|].
  destruct (Hbody _ _ H) as (evs1 & J1 & F1).
  apply (@emits_mark_failed (fun e => exists q ch, e = EvUpdate meetings q ch))
    in Hh; [|intros; eauto].
  destruct Hh as (evs2 & J2 & F2).
  exists (evs1 ++ evs2). split; [eapply journal_trans; eauto|].
  apply Forall_app. split; [exact F1|].
  eapply Forall_impl; [|exact F2]. auto.
Qed.

(** C9. Every Task the pipeline creates carries in [user_email] the
    address of the owning user: the tasks [_process_email_for_tasks] adds
    carry the address of the user whose mailbox is polled, and the tasks
    [process_meeting] adds carry the address of the stored user the
    meeting belongs to; neither run changes or removes a task. *)
Theorem created_tasks_carry_owner_email :
  forall (env : Env) (w : World),
    (forall email_msg user gmail_service,
        exists new,
          db (snd (EmailPollingService._process_email_for_tasks
                     env email_msg user gmail_service w)) tasks
          = db w tasks ++ new
          /\ Forall (fun t => Dict.lookup "user_email" t
                              = Some (Dict.get "email" VNone user)) new)
    /\
    (forall meeting,
        exists new,
          db (snd (MeetingPollingService.process_meeting env meeting w)) tasks
          = db w tasks ++ new
          /\ Forall (fun t =>
                       exists uid user,
                         Dict.lookup "user_id" meeting = Some (VObjectId uid)
                         /\ find (Store.matches (by_id uid)) (db w users)
                            = Some user
                         /\ Dict.lookup "user_email" t
                            = Some (Dict.get "email" VNone user)) new).
Proof.
  intros env w. split.
  - intros email_msg user gmail_service.
    destruct (EmailPollingService._process_email_for_tasks
                env email_msg user gmail_service w) as [r w'] eqn:H.
    apply emits_process_email in H. destruct H as (evs & J & F).
    exists (inserted tasks evs). cbn [snd]. split.
    + rewrite (journal_db J). apply replay_appends.
      eapply Forall_impl; [|exact F]. apply email_write_appends.
    + eapply inserted_Forall; [|exact F]. intros d Hd. exact Hd.
  - intros meeting.
    destruct (MeetingPollingService.process_meeting env meeting w)
      as [r w'] eqn:H.
    apply process_meeting_owner_writes in H. destruct H as (evs & J & F).
    exists (inserted tasks evs). cbn [snd]. split.
    + rewrite (journal_db J). apply replay_appends.
      eapply Forall_impl; [|exact F]. intros e He; apply He.
    + eapply inserted_Forall; [|exact F]. intros d Hd. apply Hd.
Qed.

(* ------------------------------------------------------------------ *)
(** * The meeting state machine                                         *)
(* ------------------------------------------------------------------ *)

Lemma update_data_keys : forall status now pa em,
  ~ In "_id" (map fst (Meeting.update_data status now pa em)).
Proof.
  intros. unfold Meeting.update_data.
  destruct (truthy pa), (truthy em); cbn; intuition discriminate.
Qed.

Lemma update_data_status : forall status now pa em d,
  Dict.lookup "processing_status"
              (Dict.update (Meeting.update_data status now pa em) d)
  = Some status.
Proof.
  intros. unfold Meeting.update_data.
  destruct (truthy pa), (truthy em); cbn;
    rewrite ?lookup_set_neq by discriminate; apply lookup_set_eq.
Qed.

Lemma update_data_writes : forall status now pa em,
  Dict.lookup "processing_status" (Meeting.update_data status now pa em)
  = Some status.
Proof.
  intros. unfold Meeting.update_data.
  destruct (truthy pa), (truthy em); reflexivity.
Qed.

Lemma update_data_message : forall status now pa em d,
  truthy em = true ->
  Dict.lookup "error_message"
              (Dict.update (Meeting.update_data status now pa em) d)
  = Some em.
Proof.
  intros status now pa em d H. unfold Meeting.update_data. rewrite H.
  destruct (truthy pa); cbn;
    rewrite ?lookup_set_neq by discriminate; apply lookup_set_eq.
Qed.

Lemma not_completing_update : forall meeting_id status now pa em,
  status <> VStr "completed" ->
  not_completing (EvUpdate meetings (by_id meeting_id)
                           (Meeting.update_data status now pa em)).
Proof.
  intros. split; simpl.
  - apply update_data_keys.
  - rewrite update_data_writes. congruence.
Qed.

Lemma not_completing_other : forall e,
  match e with EvUpdate _ _ _ => False | _ => True end -> not_completing e.
Proof. intros [c d|c q ch|q i t now] H; split; simpl; tauto. Qed.

(** Decomposition of a computation whose writes never complete a
    meeting. *)
Ltac quiet :=
  repeat first
    [ emits_step
    | apply emits_init_gemini
    | apply emits_drive_service
    | apply emits_summarize
    | apply emits_for_each; intros
    | apply emits_update_status; intros;
      apply not_completing_update; discriminate
    | apply emits_transcript_create; intros; apply not_completing_other; exact I
    | apply emits_summary_create; intros; apply not_completing_other; exact I
    | apply emits_task_create; intros; apply not_completing_other; exact I
    | apply emits_update_task_id; intros; apply not_completing_other; exact I ].

Lemma quiet_create_task : forall env meeting user meeting_id user_id item acc,
  emits not_completing
        (MeetingPollingService.create_task env meeting user meeting_id user_id
                                           item acc).
Proof. intros. unfold MeetingPollingService.create_task. quiet. Qed.

Lemma outcome_prefix : forall meeting_id r evs1 evs2,
  Forall not_completing evs1 -> outcome meeting_id r evs2 ->
  outcome meeting_id r (evs1 ++ evs2).
Proof.
  intros meeting_id [[|]|e] evs1 evs2 H1 H2; simpl in *; auto.
  - destruct H2 as (evs0 & last & msg & -> & F & W & I).
    exists (evs1 ++ evs0), last, msg. rewrite app_assoc.
    repeat split; auto. apply Forall_app; auto.
  - apply Forall_app; auto.
Qed.

Lemma outcome_bind : forall (A : Type) meeting_id (m : M A) (k : A -> M bool),
  emits not_completing m ->
  (forall a, ensures (outcome meeting_id) (k a)) ->
  ensures (outcome meeting_id) (bind m k).
Proof.
  intros A meeting_id m k Hm Hk w r w' H.
  apply bind_run in H. destruct H as [(a & w1 & H1 & H)|(e & H1 & ->)].
  - destruct (Hm _ _ _ H1) as (evs1 & J1 & F1).
    destruct (Hk a _ _ _ H) as (evs2 & J2 & Q2).
    exists (evs1 ++ evs2). split; [eapply journal_trans; eauto|].
    apply outcome_prefix; auto.
  - destruct (Hm _ _ _ H1) as (evs1 & J1 & F1). exists evs1. auto.
Qed.

Lemma outcome_raise : forall meeting_id e,
  ensures (outcome meeting_id) (raise e).
Proof.
  intros meeting_id e w r w' H. inversion H; subst.
  exists []. split; [apply journal_refl|constructor].
Qed.

Lemma outcome_fail : forall env meeting_id msg,
  In msg failure_messages ->
  ensures (outcome meeting_id)
          (bind (Meeting.update_status env meeting_id (VStr "failed") VNone
                                       (VStr msg))
                (fun _ => ret false)).
Proof.
  intros env meeting_id msg Hmsg w r w' H.
  unfold bind, Meeting.update_status, utcnow, call, Store.update_one,
    Meeting.find_by_id, Store.find_one, ret in H.
  cbn [fst snd] in H. inversion H; subst r w'; clear H.
  eexists. split.
  - eapply journal_trans; [|apply journal_commit].
    apply journal_tick.
  - simpl. exists [], (EvUpdate meetings (by_id meeting_id)
                         (Meeting.update_data (VStr "failed")
                                              (utcnow_at env (ticks w))
                                              VNone (VStr msg))), msg.
    repeat split; auto. eexists; reflexivity.
Qed.

Lemma outcome_complete : forall env meeting_id,
  ensures (outcome meeting_id)
          (bind (utcnow env)
                (fun now =>
                   bind (Meeting.update_status env meeting_id (VStr "completed")
                                               (VDatetime now) VNone)
                        (fun _ => ret true))).
Proof.
  intros env meeting_id w r w' H.
  unfold bind, Meeting.update_status, utcnow, call, Store.update_one,
    Meeting.find_by_id, Store.find_one, ret in H.
  cbn [fst snd] in H. inversion H; subst r w'; clear H.
  eexists. split; [|exact I].
  eapply journal_trans; [|apply journal_commit].
  apply journal_tick.
Qed.

Ltac outcome_step :=
  match goal with
  | |- ensures _ (bind (Meeting.update_status _ _ (VStr "failed") _ _) _) =>
      apply outcome_fail; simpl; tauto
  | |- ensures _ (bind (utcnow _) _) => apply outcome_complete
  | |- ensures _ (bind _ _) =>
      apply outcome_bind; [quiet; try apply quiet_create_task|intro]
  | |- ensures _ (raise _) => apply outcome_raise
  | |- ensures _ (match ?x with _ => _ end) => destruct x
  end.

Lemma outcome_process_for_user : forall env meeting meeting_id user_id user,
  ensures (outcome meeting_id)
          (MeetingPollingService.process_for_user env meeting meeting_id
                                                  user_id user).
Proof.
  intros. unfold MeetingPollingService.process_for_user,
    DriveService.find_meeting_recording, DriveService.get_document_text.
  cbv zeta. repeat outcome_step.
Qed.

Lemma never_true_bind : forall (A : Type) (m : M A) (k : A -> M bool),
  (forall a, never_true (k a)) -> never_true (bind m k).
Proof.
  intros A m k Hk w r w' H.
  apply bind_run in H. destruct H as [(a & w1 & _ & H)|(e & _ & ->)].
  - eapply Hk; eauto.
  - discriminate.
Qed.

Lemma never_true_bind_call : forall (A : Type) (g : nat -> A) (k : A -> M bool),
  (forall n, never_true (k (g n))) ->
  never_true (bind (call (fun n => Ok (g n))) k).
Proof.
  intros A g k Hk w r w' H. unfold bind, call in H. eapply Hk; eauto.
Qed.

Lemma never_true_false : never_true (ret false).
Proof. intros w r w' H. inversion H; subst. discriminate. Qed.

Lemma never_true_raise : forall e, never_true (raise e).
Proof. intros e w r w' H. inversion H; subst. discriminate. Qed.

Ltac never_true_step :=
  match goal with
  | |- never_true (bind _ _) => apply never_true_bind; intro
  | |- never_true (ret false) => apply never_true_false
  | |- never_true (raise _) => apply never_true_raise
  end.

Lemma no_document_never_completes : forall env meeting meeting_id user_id user,
  no_document env ->
  never_true (MeetingPollingService.process_for_user env meeting meeting_id
                                                     user_id user).
Proof.
  intros env meeting meeting_id user_id user Hnd.
  unfold MeetingPollingService.process_for_user,
    DriveService.find_meeting_recording.
  cbv zeta. never_true_step. destruct a as [drive_service|].
  2:{ repeat never_true_step. }
  do 3 never_true_step.
  apply never_true_bind_call. intros n. rewrite Hnd. cbn [negb].
  repeat never_true_step.
Qed.

Lemma unreadable_never_completes : forall env meeting meeting_id user_id user,
  unreadable env ->
  never_true (MeetingPollingService.process_for_user env meeting meeting_id
                                                     user_id user).
Proof.
  intros env meeting meeting_id user_id user Hur.
  unfold MeetingPollingService.process_for_user,
    DriveService.find_meeting_recording, DriveService.get_document_text.
  cbv zeta. never_true_step. destruct a as [drive_service|].
  2:{ repeat never_true_step. }
  do 4 never_true_step.
  destruct (negb (found a2)).
  { repeat never_true_step. }
  do 2 never_true_step.
  apply never_true_bind_call. intros n.
  destruct (Hur drive_service a4 n) as [-> | ->]; repeat never_true_step.
Qed.

Lemma find_app_some : forall (A : Type) (p : A -> bool) l l' x,
  find p l = Some x -> find p (l ++ l') = Some x.
Proof.
  induction l as [|a l IH]; intros l' x H; simpl in *; [discriminate|].
  destruct (p a); auto.
Qed.

Lemma find_update_first_kept : forall p q f docs d,
  (forall x, p (f x) = p x) ->
  find p docs = Some d ->
  exists d', find p (Store.update_first q f docs) = Some d'.
Proof.
  intros p q f docs d Hp. induction docs as [|d0 docs IH]; intros H;
    simpl in *; [discriminate|].
  destruct (q d0); simpl.
  - rewrite Hp. destruct (p d0); eauto.
  - destruct (p d0); eauto.
Qed.

Lemma present_apply : forall meeting_id e dbf,
  keeps_meeting_ids e -> present meeting_id dbf ->
  present meeting_id (Store.apply_event e dbf).
Proof.
  intros meeting_id e dbf He [d Hd]. unfold present.
  destruct e as [c doc|c q ch|q i t now]; simpl.
  - destruct c; simpl; eauto. exists d. now apply find_app_some.
  - destruct c; simpl; eauto.
    eapply find_update_first_kept; [|exact Hd].
    intros x. apply matches_update_notin.
    intros k [<-|[]]. exact He.
  - eauto.
Qed.

Lemma present_replay : forall meeting_id evs dbf,
  Forall keeps_meeting_ids evs -> present meeting_id dbf ->
  present meeting_id (replay evs dbf).
Proof.
  intros meeting_id evs. induction evs as [|e evs IH]; intros dbf H Hp; auto.
  inversion H; subst.
  change (replay (e :: evs) dbf) with (replay evs (Store.apply_event e dbf)).
  apply IH; auto. now apply present_apply.
Qed.

(** The stored meeting after the write of a failure. *)
Lemma failure_write_status : forall meeting_id msg last dbf,
  present meeting_id dbf -> failure_write meeting_id msg last ->
  exists d,
    find (Store.matches (by_id meeting_id)) (Store.apply_event last dbf meetings)
    = Some d
    /\ Dict.lookup "processing_status" d = Some (VStr "failed")
    /\ (msg <> "" -> Dict.lookup "error_message" d = Some (VStr msg)).
Proof.
  intros meeting_id msg last dbf [d Hd] [now ->]. simpl.
  eexists. split; [|split].
  - apply find_update_first; [exact Hd|].
    rewrite matches_update_notin.
    + apply find_some in Hd. apply Hd.
    + intros k [<-|[]]. apply update_data_keys.
  - apply update_data_status.
  - intros Hmsg. apply update_data_message. simpl.
    destruct (String.eqb msg "") eqn:E; auto.
    apply String.eqb_eq in E. contradiction.
Qed.

Lemma failure_write_quiet : forall meeting_id msg last,
  failure_write meeting_id msg last -> not_completing last.
Proof.
  intros meeting_id msg last [now ->].
  apply not_completing_update. discriminate.
Qed.

Lemma ensures_bind_lift_ok : forall (A B : Type) (Q : result B -> list event -> Prop)
                                    (a : A) (k : A -> M B),
  ensures Q (k a) -> ensures Q (bind (lift (Ok a)) k).
Proof. intros A B Q a k H w r w' Hr. exact (H w r w' Hr). Qed.

Lemma never_true_bind_lift_ok : forall (A : Type) (a : A) (k : A -> M bool),
  never_true (k a) -> never_true (bind (lift (Ok a)) k).
Proof. intros A a k H w r w' Hr. exact (H w r w' Hr). Qed.

Lemma outcome_process_meeting_body : forall env meeting meeting_id,
  doc_id meeting = Ok meeting_id ->
  ensures (outcome meeting_id)
          (MeetingPollingService.process_meeting_body env meeting).
Proof.
  intros env meeting meeting_id Hid.
  unfold MeetingPollingService.process_meeting_body, User.find_by_id.
  rewrite Hid. apply ensures_bind_lift_ok.
  cbv zeta. repeat outcome_step; apply outcome_process_for_user.
Qed.

Lemma never_completes_process_meeting_body : forall env meeting,
  no_document env \/ unreadable env ->
  never_true (MeetingPollingService.process_meeting_body env meeting).
Proof.
  intros env meeting Henv.
  unfold MeetingPollingService.process_meeting_body.
  cbv zeta. repeat never_true_step.
  destruct (negb (found a5)); [apply never_true_raise|].
  destruct Henv; [now apply no_document_never_completes
                 |now apply unreadable_never_completes].
Qed.

(** The handler of [process_meeting] on a meeting with an id. *)
Lemma mark_failed_run : forall env meeting meeting_id e w,
  doc_id meeting = Ok meeting_id ->
  exists last,
    MeetingPollingService.mark_failed env meeting e w
    = (Ok false, Store.commit last
                   (mkWorld (db w) (indexes w) (next_oid w) (S (ticks w))
                            (trace w) (gemini_service w)))
    /\ failure_write meeting_id (exn_str e) last.
Proof.
  intros env meeting meeting_id e w Hid.
  unfold MeetingPollingService.mark_failed, try_except, bind, lift.
  rewrite Hid.
  unfold Meeting.update_status, bind, utcnow, call, Store.update_one,
    Meeting.find_by_id, Store.find_one, ret.
  cbn [fst snd]. eexists. split; [reflexivity|]. eexists. reflexivity.
Qed.

Lemma failure_messages_nonempty : forall msg,
  In msg failure_messages -> msg <> "".
Proof. intros msg [<-|[<-|[<-|[]]]]; discriminate. Qed.

(** C5. For a stored meeting, whenever the processing routine does not
    run to its end (no transcript or notes document is found, its text
    cannot be read, the Drive service is missing, or an exception escapes
    the [try] block) [process_meeting] answers [False], the stored status
    of the meeting is 'failed', and no write of the run sets 'completed'.
    The early exits record one of their three messages as
    [error_message], and the handler records the text of the exception
    when it has one. When the Drive holds no document, or gives no text,
    the routine never runs to its end. *)
Theorem failed_processing_never_completes :
  forall (env : Env) (meeting : dict) (meeting_id : oid) (w : World),
    doc_id meeting = Ok meeting_id ->
    present meeting_id (db w) ->
    let rb := fst (MeetingPollingService.process_meeting_body env meeting w) in
    let r := fst (MeetingPollingService.process_meeting env meeting w) in
    let w' := snd (MeetingPollingService.process_meeting env meeting w) in
    (no_document env \/ unreadable env -> rb <> Ok true)
    /\ (rb <> Ok true ->
        r = Ok false
        /\ exists evs d,
            journal w evs w'
            /\ Forall (fun e => ~ writes_status "completed" e) evs
            /\ stored_meeting w' meeting_id = Some d
            /\ Dict.lookup "processing_status" d = Some (VStr "failed")
            /\ (rb = Ok false ->
                exists msg, In msg failure_messages
                            /\ Dict.lookup "error_message" d = Some (VStr msg))
            /\ (forall e, rb = Raise e -> exn_str e <> "" ->
                          Dict.lookup "error_message" d
                          = Some (VStr (exn_str e)))).
Proof.
  intros env meeting meeting_id w Hid Hpresent rb r w'.
  subst rb r w'. unfold MeetingPollingService.process_meeting, try_except.
  destruct (MeetingPollingService.process_meeting_body env meeting w)
    as [rb wb] eqn:Hb.
  cbn [fst]. split.
  { intros Henv. eapply never_completes_process_meeting_body; eauto. }
  intros Hrb.
  destruct (@outcome_process_meeting_body env meeting meeting_id Hid _ _ _ Hb)
    as (evs & J & Hout).
  destruct rb as [[|]|e]; [congruence| |]; cbn [fst snd].
  - (* an early exit *)
    split; [reflexivity|].
    destruct Hout as (evs0 & last & msg & -> & F0 & Hlast & Hmsg).
    assert (Hp0 : present meeting_id (replay evs0 (db w))).
    { apply present_replay; auto.
      eapply Forall_impl; [|exact F0]. intros x Hx; apply Hx. }
    destruct (@failure_write_status meeting_id _ last _ Hp0 Hlast)
      as (d & Hd & Hs & Hm).
    exists (evs0 ++ [last]), d. split; [exact J|].
    split; [|split; [|split; [exact Hs|split]]].
    + apply Forall_app. split.
      * eapply Forall_impl; [|exact F0]. intros x Hx; apply Hx.
      * constructor; [|constructor]. apply (@failure_write_quiet meeting_id _ last Hlast).
    + unfold stored_meeting. rewrite (journal_db J), replay_app. exact Hd.
    + intros _. exists msg. split; [exact Hmsg|].
      apply Hm. now apply failure_messages_nonempty.
    + intros e He; discriminate.
  - (* an exception *)
    destruct (@mark_failed_run env meeting meeting_id e wb Hid)
      as (last & Hrun & Hlast).
    rewrite Hrun. cbn [fst snd]. split; [reflexivity|].
    assert (Hp0 : present meeting_id (replay evs (db w))).
    { apply present_replay; auto.
      eapply Forall_impl; [|exact Hout]. intros x Hx; apply Hx. }
    destruct (@failure_write_status meeting_id _ last _ Hp0 Hlast)
      as (d & Hd & Hs & Hm).
    exists (evs ++ [last]), d.
    split; [|split; [|split; [|split; [exact Hs|split]]]].
    + eapply journal_trans; [exact J|].
      eapply journal_trans with (a := []); [apply journal_tick|apply journal_commit].
    + apply Forall_app. split.
      * eapply Forall_impl; [|exact Hout]. intros x Hx; apply Hx.
      * constructor; [|constructor]. apply (@failure_write_quiet meeting_id _ last Hlast).
    + unfold stored_meeting. cbn [db Store.commit].
      rewrite (journal_db J). exact Hd.
    + intros He; discriminate.
    + intros e' He' Hne. inversion He'; subst e'. now apply Hm.
Qed.

(* ------------------------------------------------------------------ *)
(** * The checkpoints                                                   *)
(* ------------------------------------------------------------------ *)

Lemma emits_bind_call : forall (A B : Type) P (f : nat -> result A) (k : A -> M B),
  (forall n, match f n with Ok a => emits P (k a) | Raise _ => True end) ->
  emits P (bind (call f) k).
Proof.
  intros A B P f k Hk w r w' H. unfold bind, call in H.
  specialize (Hk (ticks w)).
  destruct (f (ticks w)) as [a|e].
  - destruct (Hk _ _ _ H) as (evs & J & F).
    exists evs. split; auto.
    change evs with ([] ++ evs).
    eapply journal_trans; [apply journal_tick|exact J].
  - inversion H; subst. exists []. split; [apply journal_tick|constructor].
Qed.

Lemma emits_gmail_service : forall P env user,
  emits P (GmailService.get_service_for_user env user).
Proof.
  intros. unfold GmailService.get_service_for_user. repeat emits_step.
Qed.

Lemma emits_email_last_check : forall P env user,
  emits P (EmailPollingService.last_check env user).
Proof.
  intros. unfold EmailPollingService.last_check. cbv zeta. repeat emits_step.
Qed.

Lemma emits_nothing : forall (A : Type) (m : M A) w r w',
  emits (fun _ => False) m -> m w = (r, w') ->
  trace w' = trace w /\ db w' = db w.
Proof.
  intros A m w r w' Hm H. destruct (Hm _ _ _ H) as (evs & [T D _] & F).
  destruct F as [|e evs He _]; [|contradiction].
  rewrite T, D, app_nil_r. auto.
Qed.

(** C2, the email routine on an empty fetch. Whenever the fetch of the
    mailbox returns no message, [_check_user_emails] returns before the
    line that updates [last_email_check]: the pass writes nothing, so the
    checkpoint is not updated, where the claim asks for one update. *)
Theorem empty_fetch_leaves_email_checkpoint :
  forall (env : Env) (user : dict) (w : World),
    (forall self since n, gmail_get_emails_since env self since n = Ok []) ->
    let w' := snd (EmailPollingService._check_user_emails env user w) in
    trace w' = trace w
    /\ db w' = db w
    /\ forall user_id,
        checkpoint_updates "last_email_check" user_id (trace w')
        = checkpoint_updates "last_email_check" user_id (trace w).
Proof.
  intros env user w Hempty w'. subst w'.
  destruct (EmailPollingService._check_user_emails env user w) as [r w'] eqn:H.
  cbn [snd].
  assert (Hm : emits (fun _ => False)
                     (EmailPollingService._check_user_emails env user)).
  { unfold EmailPollingService._check_user_emails,
      GmailService.get_emails_since.
    apply emits_try; [|intro; apply emits_ret].
    apply emits_bind; [apply emits_gmail_service|intros [gmail_service|]];
      [|apply emits_ret].
    apply emits_bind; [apply emits_email_last_check|intros last_check].
    apply emits_bind_call. intros n. rewrite Hempty. apply emits_ret. }
  destruct (@emits_nothing _ _ _ _ _ Hm H) as [HT HD].
  rewrite HT. auto.
Qed.

Lemma bind_ok : forall (A B : Type) (m : M A) (k : A -> M B) w a w1,
  m w = (Ok a, w1) -> bind m k w = k a w1.
Proof. intros A B m k w a w1 H. unfold bind. now rewrite H. Qed.

Lemma checkpoint_updates_app : forall field user_id a b,
  checkpoint_updates field user_id (a ++ b)
  = checkpoint_updates field user_id a + checkpoint_updates field user_id b.
Proof.
  intros. unfold checkpoint_updates. now rewrite filter_app, length_app.
Qed.

Lemma checkpoint_updates_none : forall field user_id evs,
  Forall (fun e => is_checkpoint field user_id e = false) evs ->
  checkpoint_updates field user_id evs = 0.
Proof.
  intros field user_id evs H. unfold checkpoint_updates.
  induction H as [|e evs He _ IH]; simpl; auto. now rewrite He.
Qed.

(** A loop whose turns catch every exception does not raise. *)
Lemma for_each_total : forall (A S : Type) (l : list A) (body : A -> S -> M S) acc w,
  (forall x acc' w0, exists acc'' w1, body x acc' w0 = (Ok acc'', w1)) ->
  exists acc' w', for_each l body acc w = (Ok acc', w').
Proof.
  induction l as [|x l IH]; intros body acc w Hb; simpl.
  - unfold ret. eauto.
  - destruct (Hb x acc w) as (acc1 & w1 & E).
    rewrite (@bind_ok _ _ _ _ _ _ _ E). apply IH. exact Hb.
Qed.

Lemma try_total : forall (A : Type) (m : M A) (a : A) w,
  exists a' w', try_except m (fun _ => ret a) w = (Ok a', w').
Proof.
  intros A m a w. unfold try_except, ret.
  destruct (m w) as [[x|e] w1]; eauto.
Qed.

Lemma update_last_meeting_check_run : forall env user_id w,
  exists r w' e,
    User.update_last_meeting_check env user_id w = (Ok r, w')
    /\ journal w [e] w'
    /\ is_checkpoint "last_meeting_check" user_id e = true.
Proof.
  intros env user_id w.
  unfold User.update_last_meeting_check, User.update, User.find_by_id, bind,
    utcnow, call, Store.update_one, Store.find_one.
  cbn [fst snd]. eexists _, _, _. split; [reflexivity|]. split.
  - change [?e] with ([] ++ [e]).
    eapply journal_trans; [apply journal_tick|apply journal_commit].
  - cbn. now rewrite N.eqb_refl.
Qed.

Lemma update_last_email_check_run : forall env user_id w,
  exists r w' e,
    User.update_last_email_check env user_id w = (Ok r, w')
    /\ journal w [e] w'
    /\ is_checkpoint "last_email_check" user_id e = true.
Proof.
  intros env user_id w.
  unfold User.update_last_email_check, User.update, User.find_by_id, bind,
    utcnow, call, Store.update_one, Store.find_one.
  cbn [fst snd]. eexists _, _, _. split; [reflexivity|]. split.
  - change [?e] with ([] ++ [e]).
    eapply journal_trans; [apply journal_tick|apply journal_commit].
  - cbn. now rewrite N.eqb_refl.
Qed.

Lemma calendar_service_run : forall env user w,
  truthy (Dict.get "calendar_tokens" VNone user) = true ->
  (forall tokens n, CalendarService_new env tokens n = Ok tt) ->
  exists tokens w1,
    CalendarService.get_service_for_user env user w = (Ok (Some tokens), w1)
    /\ journal w [] w1.
Proof.
  intros env user w Htok Hnew.
  unfold CalendarService.get_service_for_user. rewrite Htok. cbn [negb].
  unfold try_except, bind, lift, call, ret.
  rewrite (item_of_truthy_get _ _ Htok), Hnew.
  eexists _, _. split; [reflexivity|apply journal_tick].
Qed.

Lemma gmail_service_run : forall env user w,
  truthy (Dict.get "gmail_refresh_token" VNone user) = true ->
  (forall credentials n, GmailService_new env credentials n = Ok tt) ->
  exists self w1,
    GmailService.get_service_for_user env user w = (Ok (Some self), w1)
    /\ journal w [] w1.
Proof.
  intros env user w Htok Hnew.
  unfold GmailService.get_service_for_user. rewrite Htok. cbn [negb].
  unfold bind, lift, call, ret.
  rewrite (item_of_truthy_get _ _ Htok), Hnew.
  eexists _, _. split; [reflexivity|apply journal_tick].
Qed.

Lemma meeting_last_check_run : forall env user w,
  (forall s, exists t, fromisoformat env s = Ok t) ->
  exists v w1,
    MeetingPollingService.last_check env user w = (Ok v, w1) /\ journal w [] w1.
Proof.
  intros env user w Hiso. unfold MeetingPollingService.last_check. cbv zeta.
  destruct (negb (truthy (Dict.get "last_meeting_check" VNone user))).
  - unfold bind, utcnow, call, ret. eexists _, _.
    split; [reflexivity|apply journal_tick].
  - destruct (Dict.get "last_meeting_check" VNone user);
      try (unfold ret; eexists _, _; split; [reflexivity|apply journal_refl]).
    destruct (Hiso (Text.replace_Z s)) as [t Ht].
    unfold bind, lift, ret. rewrite Ht.
    eexists _, _; split; [reflexivity|apply journal_refl].
Qed.

Lemma email_last_check_run : forall env user w,
  (forall s, exists t, fromisoformat env s = Ok t) ->
  exists v w1,
    EmailPollingService.last_check env user w = (Ok v, w1) /\ journal w [] w1.
Proof.
  intros env user w Hiso. unfold EmailPollingService.last_check. cbv zeta.
  destruct (negb (truthy (Dict.get "last_email_check" VNone user))).
  - unfold bind, utcnow, call, ret. eexists _, _.
    split; [reflexivity|apply journal_tick].
  - destruct (Dict.get "last_email_check" VNone user);
      try (unfold ret; eexists _, _; split; [reflexivity|apply journal_refl]).
    destruct (Hiso (Text.replace_Z s)) as [t Ht].
    unfold bind, lift, ret. rewrite Ht.
    eexists _, _; split; [reflexivity|apply journal_refl].
Qed.

Lemma emits_add_meeting : forall env user meeting_data n,
  emits (fun e => exists d, e = EvInsert meetings d)
        (MeetingPollingService.add_meeting env user meeting_data n).
Proof.
  intros. unfold MeetingPollingService.add_meeting,
    Meeting.find_by_calendar_event_id.
  repeat first [ emits_step | apply emits_meeting_create; intros; eauto ].
Qed.

(** The meeting routine, for a user whose Calendar client can be built
    and whose fetch answers: one pass updates [last_meeting_check] once,
    whether or not the fetch found events and whatever happens to each
    event. *)
Lemma meeting_pass_updates_checkpoint_once :
  forall (env : Env) (user : dict) (user_id : oid) (w : World),
    doc_id user = Ok user_id ->
    truthy (Dict.get "calendar_tokens" VNone user) = true ->
    (forall tokens n, CalendarService_new env tokens n = Ok tt) ->
    (forall s, exists t, fromisoformat env s = Ok t) ->
    (forall self n, exists l, calendar_get_past_meet_events env self n = Ok l) ->
    exists evs,
      journal w evs (snd (MeetingPollingService._check_user_meetings env user w))
      /\ checkpoint_updates "last_meeting_check" user_id evs = 1.
Proof.
  intros env user user_id w Hid Htok Hnew Hiso Hfetch.
  unfold MeetingPollingService._check_user_meetings, try_except.
  destruct (calendar_service_run env user w Htok Hnew) as (self & w1 & E1 & J1).
  rewrite (@bind_ok _ _ _ _ _ _ _ E1).
  destruct (meeting_last_check_run env user w1 Hiso) as (v & w2 & E2 & J2).
  rewrite (@bind_ok _ _ _ _ _ _ _ E2).
  unfold CalendarService.get_past_meet_events_with_recordings.
  unfold bind at 1. unfold call at 1.
  destruct (Hfetch self (ticks w2)) as [l Hl]. rewrite Hl.
  set (w3 := mkWorld (db w2) (indexes w2) (next_oid w2) (S (ticks w2))
                     (trace w2) (gemini_service w2)).
  assert (J3 : journal w [] w3).
  { change (@nil event) with (([] ++ []) ++ @nil event).
    eapply journal_trans; [eapply journal_trans; eauto|apply journal_tick]. }
  destruct l as [|m l].
  - unfold bind at 1, lift at 1. rewrite Hid.
    destruct (update_last_meeting_check_run env user_id w3)
      as (r & w4 & e & E4 & J4 & C4).
    rewrite (@bind_ok _ _ _ _ _ _ _ E4). unfold ret. cbn [snd].
    exists [e]. split.
    + change [e] with ([] ++ [e]). eapply journal_trans; eauto.
    + unfold checkpoint_updates. simpl. now rewrite C4.
  - destruct (@for_each_total _ _ (m :: l)
                (MeetingPollingService.add_meeting env user) 0%Z w3)
      as (acc & w4 & E4).
    { intros x acc' w0. unfold MeetingPollingService.add_meeting.
      apply try_total. }
    rewrite (@bind_ok _ _ _ _ _ _ _ E4).
    pose proof (@emits_for_each _ _
                  (fun e => exists d, e = EvInsert meetings d) (m :: l)
                  (MeetingPollingService.add_meeting env user) 0%Z
                  (fun x acc' _ => emits_add_meeting env user x acc')) as Hloop.
    destruct (Hloop _ _ _ E4) as (evs4 & J4 & F4).
    unfold bind at 1, lift at 1. rewrite Hid.
    destruct (update_last_meeting_check_run env user_id w4)
      as (r & w5 & e & E5 & J5 & C5).
    rewrite (@bind_ok _ _ _ _ _ _ _ E5). unfold ret. cbn [snd].
    exists (evs4 ++ [e]). split.
    + change (evs4 ++ [e]) with ([] ++ evs4 ++ [e]).
      eapply journal_trans; [exact J3|]. eapply journal_trans; eauto.
    + rewrite checkpoint_updates_app, checkpoint_updates_none.
      * unfold checkpoint_updates. simpl. now rewrite C5.
      * eapply Forall_impl; [|exact F4]. intros x [d ->]. reflexivity.
Qed.

(** The email routine, for a user whose Gmail client can be built and
    whose fetch returns at least one message: one pass updates
    [last_email_check] once, whatever happens to each message. *)
Lemma email_pass_updates_checkpoint_once_when_mail :
  forall (env : Env) (user : dict) (user_id : oid) (w : World),
    doc_id user = Ok user_id ->
    truthy (Dict.get "gmail_refresh_token" VNone user) = true ->
    (forall credentials n, GmailService_new env credentials n = Ok tt) ->
    (forall s, exists t, fromisoformat env s = Ok t) ->
    (forall self since n,
        exists m l, gmail_get_emails_since env self since n = Ok (m :: l)) ->
    exists evs,
      journal w evs (snd (EmailPollingService._check_user_emails env user w))
      /\ checkpoint_updates "last_email_check" user_id evs = 1.
Proof.
  intros env user user_id w Hid Htok Hnew Hiso Hfetch.
  unfold EmailPollingService._check_user_emails, try_except.
  destruct (gmail_service_run env user w Htok Hnew) as (self & w1 & E1 & J1).
  rewrite (@bind_ok _ _ _ _ _ _ _ E1).
  destruct (email_last_check_run env user w1 Hiso) as (v & w2 & E2 & J2).
  rewrite (@bind_ok _ _ _ _ _ _ _ E2).
  unfold GmailService.get_emails_since.
  unfold bind at 1. unfold call at 1.
  destruct (Hfetch self v (ticks w2)) as (m & l & Hl). rewrite Hl.
  set (w3 := mkWorld (db w2) (indexes w2) (next_oid w2) (S (ticks w2))
                     (trace w2) (gemini_service w2)).
  assert (J3 : journal w [] w3).
  { change (@nil event) with (([] ++ []) ++ @nil event).
    eapply journal_trans; [eapply journal_trans; eauto|apply journal_tick]. }
  destruct (@for_each_total _ _ (m :: l)
              (EmailPollingService.process_one env user self) 0%Z w3)
    as (acc & w4 & E4).
  { intros x acc' w0. unfold EmailPollingService.process_one.
    apply try_total. }
  rewrite (@bind_ok _ _ _ _ _ _ _ E4).
  assert (Hone : forall x acc',
             emits (email_write user)
                   (EmailPollingService.process_one env user self x acc')).
  { intros x acc'. unfold EmailPollingService.process_one.
    repeat first [ emits_step | apply emits_process_email ]. }
  pose proof (@emits_for_each _ _ (email_write user) (m :: l)
                (EmailPollingService.process_one env user self) 0%Z
                (fun x acc' _ => Hone x acc')) as Hloop.
  destruct (Hloop _ _ _ E4) as (evs4 & J4 & F4).
  unfold bind at 1, lift at 1. rewrite Hid.
  destruct (update_last_email_check_run env user_id w4)
    as (r & w5 & e & E5 & J5 & C5).
  rewrite (@bind_ok _ _ _ _ _ _ _ E5). unfold ret. cbn [snd].
  exists (evs4 ++ [e]). split.
  - change (evs4 ++ [e]) with ([] ++ evs4 ++ [e]).
    eapply journal_trans; [exact J3|]. eapply journal_trans; eauto.
  - rewrite checkpoint_updates_app, checkpoint_updates_none.
    + unfold checkpoint_updates. simpl. now rewrite C5.
    + eapply Forall_impl; [|exact F4].
      intros [c d|c q ch|q i t now] Hx; simpl in *; auto.
      destruct c; contradiction || reflexivity.
Qed.

(* ------------------------------------------------------------------ *)
(** * The deadlines of the created tasks                                *)
(* ------------------------------------------------------------------ *)

Lemma extract_task_result : forall env s b w a w',
  GeminiService.extract_task_from_email env s b w = (Ok a, w') ->
  a = None \/ exists text, a = GeminiService._parse_gemini_response env text.
Proof.
  intros env s b w a w' H.
  unfold GeminiService.extract_task_from_email, try_except, bind, call, ret in H.
  destruct (generate_content env _ _) as [text|e]; inversion H; subst; eauto.
Qed.

Lemma summarize_result : forall env t title att w a w',
  GeminiService.summarize_meeting_transcript env t title att w = (Ok a, w') ->
  a = None
  \/ exists text, a = GeminiService._parse_meeting_summary_response env text.
Proof.
  intros env t title att w a w' H.
  unfold GeminiService.summarize_meeting_transcript, try_except, bind, lift,
    call, ret in H.
  destruct (GeminiService.attendees_list att); [|discriminate].
  destruct (generate_content env _ _) as [text|e]; inversion H; subst; eauto.
Qed.

Lemma py_get_field_of : forall v k x,
  py_get v k VNone = Ok x -> x = field_of k v.
Proof.
  intros v k x H. destruct v; try discriminate H.
  inversion H. reflexivity.
Qed.

Lemma emits_email_create_task_dated : forall env email_data sender user user_id
                                             task_data task_info n,
  date_or_null (field_of "deadline" task_info) ->
  emits (dated_write date_or_null)
        (EmailPollingService.create_task env email_data sender user user_id
                                         task_data task_info n).
Proof.
  intros env email_data sender user user_id task_data task_info n Hdate.
  unfold EmailPollingService.create_task.
  repeat emits_step. apply emits_task_create. intros d _ Hd _.
  cbn [Task.deadline] in Hd.
  match goal with
  | Hg : py_get task_info "deadline" VNone = Ok ?x |- _ =>
      exists x; split; [exact Hd|]; rewrite (py_get_field_of _ _ Hg)
  end.
  exact Hdate.
Qed.

(** The tasks of a response the email normalizer accepts. *)
Lemma parsed_tasks_dated : forall env text r,
  GeminiService._parse_gemini_response env text = Some r ->
  truthy (Dict.get "has_task" (VBool false) r) = true
  /\ exists validated,
      py_iter (py_or (Dict.get "tasks" (VList []) r)
                     (VList [EmailPollingService.single_task "" r]))
      = Ok validated
      /\ Forall (fun t' => date_or_null (field_of "deadline" t')) validated.
Proof.
  intros env text r H.
  destruct (parse_gemini_response_some _ _ H)
    as (data & candidates & validated & _ & _ & Hv & Hne & Hr & Hh).
  unfold Dict.get. rewrite Hr, Hh. split; [reflexivity|].
  exists validated. split.
  - unfold py_or. destruct validated; [congruence|reflexivity].
  - eapply Forall_impl; [|exact (validate_tasks_kept _ Hv)].
    intros t' (t & _ & Hk).
    destruct (validate_task_kept _ Hk) as (_ & Hd & _). rewrite Hd.
    destruct (email_deadline_cases t) as [[Hn|(t0 & Ht & _)] _];
      [left|right]; eauto.
Qed.

Lemma single_task_subject : forall subject r validated,
  Dict.lookup "tasks" r = Some (VList validated) -> validated <> [] ->
  py_or (Dict.get "tasks" (VList []) r)
        (VList [EmailPollingService.single_task subject r])
  = VList validated.
Proof.
  intros subject r validated Hr Hne. unfold Dict.get, py_or. rewrite Hr.
  destruct validated; [congruence|reflexivity].
Qed.

Lemma emits_process_email_dated : forall env email_msg user gmail_service,
  emits (dated_write date_or_null)
        (EmailPollingService._process_email_for_tasks env email_msg user
                                                      gmail_service).
Proof.
  intros. unfold EmailPollingService._process_email_for_tasks,
    ProcessedEmail.is_processed.
  cbv zeta.
  apply emits_try; [|intro; apply emits_ret].
  do 2 emits_step.
  emits_step; [emits_step|].
  emits_step; [repeat emits_step|].
  emits_step; [emits_step|].
  emits_step; [emits_step|].
  apply emits_bind_with
    with (R := fun a => a = None
                        \/ exists text,
                            a = GeminiService._parse_gemini_response env text);
    [apply extract_task_result|apply emits_extract_task|].
  intros [task_data|] HR.
  2:{ repeat first [ emits_step | apply emits_mark_as_processed; intros; exact I ]. }
  destruct HR as [HR|(text & HR)]; [discriminate|]. symmetry in HR.
  destruct (parse_gemini_response_some _ _ HR)
    as (data & candidates & validated & _ & _ & Hv & Hne & Hr & Hh).
  rewrite (single_task_subject _ _ Hr Hne). cbn [py_iter].
  emits_step.
  { repeat first [ emits_step | apply emits_mark_as_processed; intros; exact I ]. }
  apply emits_bind_lift. intros items Hitems. inversion Hitems; subst items.
  emits_step.
  - apply emits_for_each. intros x acc' Hin.
    apply emits_email_create_task_dated.
    destruct (proj1 (Forall_forall _ _) (validate_tasks_kept _ Hv) x Hin)
      as (t & _ & Hk).
    destruct (validate_task_kept _ Hk) as (_ & Hd & _). rewrite Hd.
    destruct (email_deadline_cases t) as [[Hn|(t0 & Ht & _)] _];
      [left|right]; eauto.
  - repeat first [ emits_step | apply emits_mark_as_processed; intros; exact I ].
Qed.

Lemma emits_meeting_create_task_dated : forall env meeting user meeting_id user_id
                                               action_item acc,
  reads_as_date_if_present (field_of "deadline" action_item) ->
  emits (dated_write reads_as_date_if_present)
        (MeetingPollingService.create_task env meeting user meeting_id user_id
                                           action_item acc).
Proof.
  intros env meeting user meeting_id user_id action_item acc Hdate.
  unfold MeetingPollingService.create_task.
  repeat first
    [ emits_step
    | apply emits_update_task_id; intros; exact I
    | apply emits_task_create; intros d _ Hd _; cbn [Task.deadline] in Hd;
      match goal with
      | Hg : py_get action_item "deadline" VNone = Ok ?x |- _ =>
          exists x; split; [exact Hd|]; rewrite (py_get_field_of _ _ Hg);
          exact Hdate
      end ].
Qed.

(** The action items of a response the meeting normalizer accepts. *)
Lemma parsed_items_dated : forall env text r,
  GeminiService._parse_meeting_summary_response env text = Some r ->
  exists items',
    py_iter (Dict.get "action_items" (VList []) r) = Ok items'
    /\ Forall (fun i' => reads_as_date_if_present (field_of "deadline" i')) items'.
Proof.
  intros env text r H.
  destruct (parse_meeting_summary_some _ _ H)
    as (data & items & items' & _ & _ & Hi' & HF & _).
  exists items'. split; [exact Hi'|].
  clear Hi'. induction HF as [|i i' items items' Hn _ IH]; constructor; auto.
  destruct (normalize_action_item_ok _ Hn) as (_ & Hpresent & Habsent & _).
  unfold reads_as_date_if_present.
  destruct (truthy (field_of "deadline" i)) eqn:Ht.
  - rewrite (Hpresent eq_refl).
    destruct (meeting_deadline_cases i) as [[Hnone|(s & t & Hs & _ & Hok)] _].
    + rewrite Hnone. discriminate.
    + rewrite Hs. eauto.
  - rewrite (Habsent eq_refl), Ht. discriminate.
Qed.

Ltac dated_step :=
  first
    [ match goal with
      | |- emits _ (bind (GeminiService.summarize_meeting_transcript _ _ _ _) _) =>
          fail 2
      end
    | emits_step
    | apply emits_drive_service
    | apply emits_update_status; intros; exact I
    | apply emits_transcript_create; intros; exact I
    | apply emits_summary_create; intros; exact I ].

Lemma emits_process_for_user_dated : forall env meeting meeting_id user_id user,
  emits (dated_write reads_as_date_if_present)
        (MeetingPollingService.process_for_user env meeting meeting_id user_id user).
Proof.
  intros. unfold MeetingPollingService.process_for_user,
    DriveService.find_meeting_recording, DriveService.get_document_text.
  cbv zeta. repeat dated_step.
  apply emits_bind_with
    with (R := fun a =>
                 a = None
                 \/ exists text,
                     a = GeminiService._parse_meeting_summary_response env text);
    [apply summarize_result|apply emits_summarize|].
  intros [summary_data|] HR.
  2:{ cbn [found negb]. apply emits_raise. }
  destruct HR as [HR|(text & HR)]; [discriminate|]. symmetry in HR.
  destruct (parsed_items_dated _ _ HR) as (items' & Hi' & HF).
  emits_step; [apply emits_raise|].
  dated_step. dated_step; [dated_step|].
  rewrite Hi'. apply emits_bind_lift. intros items Hitems.
  inversion Hitems; subst items.
  emits_step.
  - apply emits_for_each. intros x acc' Hin.
    apply emits_meeting_create_task_dated.
    exact (proj1 (Forall_forall _ _) HF x Hin).
  - repeat dated_step.
Qed.

Lemma emits_process_meeting_dated : forall env meeting,
  emits (dated_write reads_as_date_if_present)
        (MeetingPollingService.process_meeting env meeting).
Proof.
  intros. unfold MeetingPollingService.process_meeting,
    MeetingPollingService.process_meeting_body, User.find_by_id.
  cbv zeta.
  repeat first
    [ dated_step
    | apply emits_init_gemini
    | apply emits_process_for_user_dated
    | apply emits_mark_failed; intros; exact I ].
Qed.

(** What the normalizers do with a deadline that is truthy, and the
    deadlines of the tasks. In the output of the normalizer, in email
    mode a candidate carries the date read or null, and in meeting mode a
    candidate whose deadline was truthy carries the text that reads as a
    date or null. The deadline of every Task the email pipeline creates
    is a date or null; the deadline of a Task the meeting pipeline
    creates, when it is truthy, is a text that reads as a date. A
    deadline that is not truthy is not covered here: the meeting
    normalizer leaves it as it is. *)
Lemma truthy_deadline_is_read_as_a_date :
  forall (env : Env) (w : World),
    (* the normalizer *)
    (forall text r,
        GeminiService._parse_gemini_response env text = Some r ->
        exists data candidates validated,
          json_loads env (GeminiService.clean text) = Ok (VDict data)
          /\ Dict.get "tasks" (VList []) data = VList candidates
          /\ Dict.lookup "tasks" r = Some (VList validated)
          /\ Forall (fun t' =>
                       exists t, In t candidates
                                 /\ GeminiService.validate_task t = Ok (Some t')
                                 /\ field_of "deadline" t' = email_deadline t)
                    validated)
    /\
    (forall text r,
        GeminiService._parse_meeting_summary_response env text = Some r ->
        exists data items items',
          json_loads env (GeminiService.clean text) = Ok (VDict data)
          /\ py_iter (Dict.get "action_items" (VList []) data) = Ok items
          /\ py_iter (Dict.get "action_items" (VList []) r) = Ok items'
          /\ Forall2 (fun i i' => truthy (field_of "deadline" i) = true ->
                                  field_of "deadline" i' = meeting_deadline i)
                     items items')
    /\
    (forall v,
        no_invalid_date_text (email_deadline v)
        /\ no_invalid_date_text (meeting_deadline v)
        /\ (forall e, Strptime.strptime (field_of "deadline" v) = Raise e ->
                      email_deadline v = VNone /\ meeting_deadline v = VNone)
        /\ (forall t, truthy (field_of "deadline" v) = true ->
                      Strptime.strptime (field_of "deadline" v) = Ok t ->
                      email_deadline v = VDatetime t
                      /\ meeting_deadline v = field_of "deadline" v))
    /\
    (* the tasks *)
    (forall email_msg user gmail_service,
        exists new,
          db (snd (EmailPollingService._process_email_for_tasks
                     env email_msg user gmail_service w)) tasks
          = db w tasks ++ new
          /\ Forall (fun t => exists v, Dict.lookup "deadline" t = Some v
                                        /\ date_or_null v) new)
    /\
    (forall meeting,
        exists new,
          db (snd (MeetingPollingService.process_meeting env meeting w)) tasks
          = db w tasks ++ new
          /\ Forall (fun t => exists v, Dict.lookup "deadline" t = Some v
                                        /\ reads_as_date_if_present v) new).
Proof.
  intros env w.
  split; [intros text r H; apply (normalizer_reads_deadlines env text); exact H|].
  split; [intros text r H; apply (normalizer_reads_deadlines env text); exact H|].
  split; [intros v; apply (normalizer_reads_deadlines env "")|].
  split.
  - intros email_msg user gmail_service.
    destruct (EmailPollingService._process_email_for_tasks
                env email_msg user gmail_service w) as [r w'] eqn:H.
    pose proof H as H'.
    apply emits_process_email in H. destruct H as (evs & J & F).
    apply emits_process_email_dated in H'. destruct H' as (evs' & J' & F').
    assert (evs' = evs).
    { eapply app_inv_head. rewrite <- (journal_trace J), <- (journal_trace J').
      reflexivity. }
    subst evs'.
    exists (inserted tasks evs). cbn [snd]. split.
    + rewrite (journal_db J). apply replay_appends.
      eapply Forall_impl; [|exact F]. apply email_write_appends.
    + eapply inserted_Forall; [|exact F']. intros d Hd. exact Hd.
  - intros meeting.
    destruct (MeetingPollingService.process_meeting env meeting w)
      as [r w'] eqn:H.
    pose proof H as H'.
    apply process_meeting_owner_writes in H. destruct H as (evs & J & F).
    apply emits_process_meeting_dated in H'. destruct H' as (evs' & J' & F').
    assert (evs' = evs).
    { eapply app_inv_head. rewrite <- (journal_trace J), <- (journal_trace J').
      reflexivity. }
    subst evs'.
    exists (inserted tasks evs). cbn [snd]. split.
    + rewrite (journal_db J). apply replay_appends.
      eapply Forall_impl; [|exact F]. intros e He; apply He.
    + eapply inserted_Forall; [|exact F']. intros d Hd. exact Hd.
Qed.

(* ------------------------------------------------------------------ *)
(** * The theorems on the fixtures                                      *)
(* ------------------------------------------------------------------ *)

Lemma fixture_ledger_indexed : forall ms ledger,
  ledger_indexed (Fixture.world ms ledger).
Proof.
  intros ms ledger ix Hin Hc Hu. simpl in Hin.
  destruct Hin as [<-|[<-|[<-|[<-|[<-|[<-|[]]]]]]]; simpl in *;
    congruence.
Qed.

(** A second record for the same mail and user is refused, and the
    ledger keeps the count of the first. *)
Lemma mark_as_processed_at_most_once_witness :
  In ledger_index (indexes Fixture.empty_world)
  /\ exists r1 w1 e w2,
      ProcessedEmail.mark_as_processed Fixture.empty_env "msg-1" 1%N 2
                                       Fixture.empty_world = (Ok r1, w1)
      /\ ProcessedEmail.mark_as_processed Fixture.empty_env "msg-1" 1%N 5 w1
         = (Raise e, w2)
      /\ exn_cls e = DuplicateKeyError
      /\ filter (Store.matches (ledger_key "msg-1" 1%N)) (db w2 processed_emails)
         = [r1]
      /\ Dict.lookup "tasks_created" r1 = Some (VInt 2).
Proof.
  assert (H : In ledger_index (indexes Fixture.empty_world)) by (simpl; auto).
  split; [exact H|].
  destruct (mark_as_processed_at_most_once Fixture.empty_env "msg-1" 1%N
              Fixture.empty_world H) as [_ H2].
  destruct (ProcessedEmail.mark_as_processed Fixture.empty_env "msg-1" 1%N 2
                                             Fixture.empty_world)
    as [[r1|e1] w1] eqn:E1; [|cbv in E1; discriminate E1].
  destruct (H2 2%Z 5%Z r1 w1 E1) as (e & w2 & Hr & Hc & _ & Hf & Ht).
  exists r1, w1, e, w2. split; [reflexivity|].
  split; [exact Hr|]. split; [exact Hc|]. split; [exact Hf|exact Ht].
Defined.

(** Alice is polled, her mailbox has nothing new, and her checkpoint
    stays as it was. *)
Lemma empty_fetch_leaves_email_checkpoint_witness :
  (forall self since n,
      gmail_get_emails_since Fixture.empty_env self since n = Ok [])
  /\ fst (GmailService.get_service_for_user Fixture.empty_env Fixture.alice
                                            Fixture.empty_world)
     = Ok (Some (VDict [("refresh_token", VStr "refresh-a");
                        ("access_token", VNone)]))
  /\ trace (snd (EmailPollingService._check_user_emails
                   Fixture.empty_env Fixture.alice Fixture.empty_world)) = []
  /\ checkpoint_updates "last_email_check" 1%N
       (trace (snd (EmailPollingService._check_user_emails
                      Fixture.empty_env Fixture.alice Fixture.empty_world))) = 0.
Proof.
  assert (H : forall self since n,
             gmail_get_emails_since Fixture.empty_env self since n = Ok [])
    by (intros; reflexivity).
  split; [exact H|]. split; [reflexivity|].
  destruct (empty_fetch_leaves_email_checkpoint Fixture.empty_env Fixture.alice
              Fixture.empty_world H) as (T & _ & C).
  split; [exact T|]. rewrite (C 1%N). reflexivity.
Defined.

(** The sibling routine on the same situation: the calendar has no
    event, and [last_meeting_check] is updated once. *)
Example meeting_checkpoint_on_empty_fetch :
  checkpoint_updates "last_meeting_check" 1%N
    (trace (snd (MeetingPollingService._check_user_meetings
                   Fixture.empty_env Fixture.alice Fixture.empty_world))) = 1.
Proof. reflexivity. Qed.

(** The email routine when the mailbox has a message: two tasks, one
    ledger record, one update of [last_email_check]. *)
Example email_checkpoint_on_mail :
  let w' := snd (EmailPollingService._check_user_emails
                   (Fixture.env [Fixture.task_mail] [] None None)
                   Fixture.alice Fixture.empty_world) in
  checkpoint_updates "last_email_check" 1%N (trace w') = 1
  /\ List.length (db w' tasks) = 2
  /\ map (Dict.lookup "tasks_created") (db w' processed_emails) = [Some (VInt 2)].
Proof. repeat split. Qed.

(** The meeting routine when the calendar has an event: one meeting in
    'pending', one update of [last_meeting_check]. *)
Example meeting_checkpoint_on_event :
  let w' := snd (MeetingPollingService._check_user_meetings
                   (Fixture.env [] [Fixture.calendar_event] None None)
                   Fixture.alice Fixture.empty_world) in
  checkpoint_updates "last_meeting_check" 1%N (trace w') = 1
  /\ map (Dict.lookup "processing_status") (db w' meetings)
     = [Some (VStr "pending")].
Proof. repeat split. Qed.

(** A chatty answer of the model: no candidates, and the mail goes to
    the ledger with no task. *)
Lemma malformed_response_is_no_task_witness :
  json_loads Fixture.empty_env (GeminiService.clean Fixture.chatty_text)
  = Raise (mkExn JSONDecodeError "Expecting value")
  /\ GeminiService._parse_gemini_response Fixture.empty_env Fixture.chatty_text
     = None
  /\ exists w' record,
      EmailPollingService._process_email_for_tasks
        Fixture.empty_env Fixture.chatty_mail Fixture.alice VNone
        Fixture.empty_world = (Ok false, w')
      /\ Dict.lookup "tasks_created" record = Some (VInt 0)
      /\ db w' tasks = []
      /\ db w' processed_emails = [record].
Proof.
  assert (H : json_loads Fixture.empty_env
                         (GeminiService.clean Fixture.chatty_text)
              = Raise (mkExn JSONDecodeError "Expecting value"))
    by reflexivity.
  split; [exact H|].
  destruct (malformed_response_is_no_task Fixture.empty_env Fixture.chatty_text H)
    as (Hnone & _ & Hpipe).
  split; [exact Hnone|].
  destruct (Hpipe Fixture.chatty_mail Fixture.alice VNone Fixture.empty_world
                  1%N "alice@example.com" eq_refl eq_refl eq_refl
                  (@fixture_ledger_indexed [] []) eq_refl eq_refl eq_refl)
    as (w' & record & Hrun & _ & Hcount & _ & Htasks & Hledger).
  exists w', record. auto.
Defined.

(** The fenced response of the fixtures: the candidate without a title
    is dropped, 'urgent' becomes 'medium', 'Friday' becomes null. *)
Example fenced_response_normalized :
  match GeminiService._parse_gemini_response Fixture.empty_env
                                             Fixture.fenced_tasks with
  | Some r =>
      match Dict.lookup "tasks" r with
      | Some (VList validated) =>
          map (field_of "title") validated
          = [VStr "Send report"; VStr "Update dashboard"]
          /\ map (field_of "priority") validated = [VStr "medium"; VStr "high"]
          /\ map (field_of "deadline") validated
             = [VNone; VDatetime (mkDatetime 2025 11 21 0 0 0 0)]
      | _ => False
      end
  | None => False
  end.
Proof. cbv. auto. Qed.

(** The summary of the fixtures: 'asap' becomes 'medium', 'next week'
    becomes null, the date stays the text it was. *)
Example summary_response_normalized :
  match GeminiService._parse_meeting_summary_response Fixture.empty_env
                                                      Fixture.summary_text with
  | Some r =>
      match Dict.lookup "action_items" r with
      | Some (VList items) =>
          map (field_of "priority") items = [VStr "medium"; VStr "low"]
          /\ map (field_of "deadline") items = [VNone; VStr "2025-11-22"]
      | _ => False
      end
  | None => False
  end.
Proof. cbv. auto. Qed.

Lemma truthy_deadline_is_read_as_a_date_on_mail :
  exists new,
    db (snd (EmailPollingService._process_email_for_tasks
               Fixture.empty_env Fixture.task_mail Fixture.alice VNone
               Fixture.empty_world)) tasks = new
    /\ List.length new = 2
    /\ Forall (fun t => exists v, Dict.lookup "deadline" t = Some v
                                  /\ date_or_null v) new.
Proof.
  destruct (truthy_deadline_is_read_as_a_date Fixture.empty_env Fixture.empty_world)
    as (_ & _ & _ & Hemail & _).
  destruct (Hemail Fixture.task_mail Fixture.alice VNone) as (new & Hdb & HF).
  exists new. split; [exact Hdb|]. split; [|exact HF].
  cbv in Hdb. inversion Hdb. reflexivity.
Defined.

(** A meeting whose notes are not on the drive ends 'failed', with the
    message of the lookup. *)
Lemma failed_processing_never_completes_witness :
  doc_id (Fixture.standup "pending" VNone) = Ok 10%N
  /\ present 10%N (db (Fixture.world [Fixture.standup "pending" VNone] []))
  /\ no_document Fixture.empty_env
  /\ fst (MeetingPollingService.process_meeting
            Fixture.empty_env (Fixture.standup "pending" VNone)
            (Fixture.world [Fixture.standup "pending" VNone] [])) = Ok false
  /\ exists d,
      stored_meeting
        (snd (MeetingPollingService.process_meeting
                Fixture.empty_env (Fixture.standup "pending" VNone)
                (Fixture.world [Fixture.standup "pending" VNone] []))) 10%N
      = Some d
      /\ Dict.lookup "processing_status" d = Some (VStr "failed")
      /\ exists msg, In msg failure_messages
                     /\ Dict.lookup "error_message" d = Some (VStr msg).
Proof.
  assert (Hid : doc_id (Fixture.standup "pending" VNone) = Ok 10%N)
    by reflexivity.
  assert (Hp : present 10%N (db (Fixture.world [Fixture.standup "pending" VNone] [])))
    by (eexists; reflexivity).
  assert (Hnd : no_document Fixture.empty_env) by (intros ? ? ? ?; reflexivity).
  split; [exact Hid|]. split; [exact Hp|]. split; [exact Hnd|].
  destruct (@failed_processing_never_completes Fixture.empty_env
              (Fixture.standup "pending" VNone) 10%N
              (Fixture.world [Fixture.standup "pending" VNone] []) Hid Hp)
    as [Hnever Hfail].
  destruct (Hfail (Hnever (or_introl Hnd)))
    as (Hr & evs & d & _ & _ & Hd & Hs & Hm & _).
  split; [exact Hr|]. exists d. split; [exact Hd|]. split; [exact Hs|].
  apply Hm. reflexivity.
Defined.

(** The same meeting when the notes are there: two tasks for Alice and
    the status 'completed'. *)
Example processing_completes_with_notes :
  let w' := snd (MeetingPollingService.process_meeting
                   Fixture.notes_env (Fixture.standup "pending" VNone)
                   (Fixture.world [Fixture.standup "pending" VNone] [])) in
  map (Dict.lookup "processing_status") (db w' meetings)
  = [Some (VStr "completed")]
  /\ map (Dict.lookup "user_email") (db w' tasks)
     = [Some (VStr "alice@example.com"); Some (VStr "alice@example.com")]
  /\ map (Dict.lookup "deadline") (db w' tasks)
     = [Some VNone; Some (VStr "2025-11-22")].
Proof. cbv. auto. Qed.

Lemma own_mail_creates_nothing_witness :
  Dict.lookup "email" Fixture.alice = Some (VStr "alice@example.com")
  /\ Text.lower (GmailService.extract_sender_email
                   (GmailService.from_ (GmailService.parse_email Fixture.own_mail)))
     = Text.lower "alice@example.com"
  /\ EmailPollingService._process_email_for_tasks
       Fixture.empty_env Fixture.own_mail Fixture.alice VNone Fixture.empty_world
     = (Ok false, Fixture.empty_world).
Proof.
  split; [reflexivity|]. split; [reflexivity|].
  exact (@own_mail_creates_nothing Fixture.empty_env Fixture.own_mail
           Fixture.alice VNone Fixture.empty_world "alice@example.com"
           eq_refl eq_refl).
Defined.

Lemma process_request_while_processing_is_rejected_witness :
  stored_meeting (Fixture.world [Fixture.standup "processing" VNone] []) 10%N
  = Some (Fixture.standup "processing" VNone)
  /\ exists r,
      MeetingProcess.post Fixture.empty_env 1%N 10%N
        (Fixture.world [Fixture.standup "processing" VNone] [])
      = (Ok r, Fixture.world [Fixture.standup "processing" VNone] [])
      /\ MeetingProcess.resp_thread r = None
      /\ MeetingProcess.resp_status r = 400%Z.
Proof.
  split; [reflexivity|].
  destruct (@process_request_while_processing_is_rejected
              Fixture.empty_env 1%N 10%N
              (Fixture.world [Fixture.standup "processing" VNone] [])
              (Fixture.standup "processing" VNone) eq_refl eq_refl)
    as (r & Hrun & Hthread & _ & Howner).
  exists r. split; [exact Hrun|]. split; [exact Hthread|].
  apply (Howner eq_refl).
Defined.

Lemma created_tasks_carry_owner_email_witness :
  exists new,
    db (snd (EmailPollingService._process_email_for_tasks
               Fixture.empty_env Fixture.task_mail Fixture.alice VNone
               Fixture.empty_world)) tasks = new
    /\ List.length new = 2
    /\ Forall (fun t => Dict.lookup "user_email" t
                        = Some (VStr "alice@example.com")) new.
Proof.
  destruct (created_tasks_carry_owner_email Fixture.empty_env Fixture.empty_world)
    as (Hemail & _).
  destruct (Hemail Fixture.task_mail Fixture.alice VNone) as (new & Hdb & HF).
  exists new. split; [exact Hdb|]. split; [|exact HF].
  cbv in Hdb. inversion Hdb. reflexivity.
Defined.

(** A failed meeting that re-enters 'processing' keeps its message. *)
Lemma update_status_only_status_frame_witness :
  exists d',
    nth_error (db (snd (Meeting.update_status
                          Fixture.empty_env 10%N (VStr "processing") VNone VNone
                          (Fixture.world [Fixture.standup "failed" (VStr "boom")] [])))
                  meetings) 0 = Some d'
    /\ Dict.lookup "processing_status" d' = Some (VStr "processing")
    /\ Dict.lookup "error_message" d' = Some (VStr "boom").
Proof.
  destruct (update_status_only_status_frame
              Fixture.empty_env 10%N (VStr "processing")
              (Fixture.world [Fixture.standup "failed" (VStr "boom")] []))
    as (_ & _ & Hframe).
  destruct (Hframe 0 (Fixture.standup "failed" (VStr "boom")) eq_refl)
    as (d' & Hd & _ & _ & Hmsg).
  exists d'. split; [exact Hd|]. split; [|rewrite Hmsg; reflexivity].
  cbv in Hd. inversion Hd. reflexivity.
Defined.

(* ------------------------------------------------------------------ *)
(** * The pollers and the ledger: further properties                    *)
(* ------------------------------------------------------------------ *)

Lemma guarded_unit_run : forall (m : M unit) w,
  try_except m (fun _ => ret tt) w
  = (Ok tt, snd (try_except m (fun _ => ret tt) w)).
Proof.
  intros m w. unfold try_except. destruct (m w) as [[[]|e] w']; reflexivity.
Qed.

Lemma guarded_loop_run : forall (A : Type) (body : A -> M unit) (l : list A) w,
  for_each l (fun x _ => try_except (body x) (fun _ => ret tt)) tt w
  = (Ok tt, fold_left (fun w0 x => snd (try_except (body x) (fun _ => ret tt) w0)) l w).
Proof.
  intros A body l. induction l as [|x l IH]; intros w; simpl.
  - reflexivity.
  - unfold bind at 1. rewrite guarded_unit_run. apply IH.
Qed.

Lemma fold_left_ext_snd : forall (A : Type) (f g : World -> A -> World) l w,
  (forall w0 x, f w0 x = g w0 x) -> fold_left f l w = fold_left g l w.
Proof.
  intros A f g l. induction l as [|x l IH]; intros w H; simpl; [reflexivity|].
  rewrite H. now apply IH.
Qed.

(** X1. One pass of each poller never raises, and is the per-user check run
    once for every stored user whose token field is present and not
    null, in the order of the store, each on the world the check before
    it left: whatever happens inside the check of one user, the users
    after it are still checked. *)
Theorem polling_pass_checks_every_eligible_user :
  forall (env : Env) (w : World),
    EmailPollingService._check_all_users_for_new_emails env w
    = (Ok tt,
       fold_left (fun w0 user =>
                    snd (EmailPollingService._check_user_emails env user w0))
                 (filter (Store.set_and_not_null "gmail_refresh_token")
                         (db w users)) w)
    /\ MeetingPollingService._check_all_users_for_meetings env w
       = (Ok tt,
          fold_left (fun w0 user =>
                       snd (MeetingPollingService._check_user_meetings env user w0))
                    (filter (Store.set_and_not_null "calendar_tokens")
                            (db w users)) w).
Proof.
  intros env w. split.
  - unfold EmailPollingService._check_all_users_for_new_emails,
      User.get_users_with_gmail_tokens, Store.find_where, try_except, bind.
    destruct (filter _ (db w users)) as [|u l] eqn:E; [reflexivity|].
    unfold EmailPollingService.check_one.
    rewrite (@guarded_loop_run _ (fun user => EmailPollingService._check_user_emails env user)).
    f_equal. apply fold_left_ext_snd. intros w0 x.
    unfold EmailPollingService._check_user_emails.
    unfold try_except at 1.
    match goal with |- snd (match ?t with _ => _ end) = _ =>
      destruct t as [[[]|e] w'] eqn:E' end; reflexivity.
  - unfold MeetingPollingService._check_all_users_for_meetings,
      User.get_users_with_calendar_tokens, Store.find_where, try_except, bind.
    destruct (filter _ (db w users)) as [|u l] eqn:E; [reflexivity|].
    unfold MeetingPollingService.check_one.
    rewrite (@guarded_loop_run _ (fun user => MeetingPollingService._check_user_meetings env user)).
    f_equal. apply fold_left_ext_snd. intros w0 x.
    unfold MeetingPollingService._check_user_meetings.
    unfold try_except at 1.
    match goal with |- snd (match ?t with _ => _ end) = _ =>
      destruct t as [[[]|e] w'] eqn:E' end; reflexivity.
Qed.


Lemma task_create_run : forall env a w r w',
  Task.create env a w = (r, w') ->
  (exists e, r = Raise e /\ journal w [] w')
  \/ (exists d, r = Ok d /\ journal w [EvInsert tasks d] w'
                /\ Dict.lookup "_id" d <> None).
Proof.
  intros env a w r w' H. unfold Task.create in H.
  apply bind_run in H. destruct H as [(t1 & w1 & H1 & H)|(e & H1 & _)];
    [|cbv in H1; discriminate].
  apply call_run in H1. destruct H1 as [_ J1].
  apply bind_run in H. destruct H as [(t2 & w2 & H2 & H)|(e & H2 & _)];
    [|cbv in H2; discriminate].
  apply call_run in H2. destruct H2 as [_ J2].
  apply bind_run in H. destruct H as [(o & w3 & H3 & H)|(e & H3 & ->)].
  - apply insert_one_run in H3.
    destruct H3 as [(e & He & _)|(o' & Ho & _ & J3)]; [discriminate|].
    inversion Ho; subst o'. inversion H; subst. right.
    eexists. split; [reflexivity|]. split.
    + exact (journal_trans (journal_trans J1 J2) J3).
    + cbn. discriminate.
  - apply insert_one_run in H3.
    destruct H3 as [(e' & He & _ & _ & ->)|(o' & Ho & _)]; [|discriminate].
    left. eexists. split; [reflexivity|].
    exact (journal_trans J1 J2).
Qed.

Lemma email_create_task_run : forall env ed sender user uid td ti n w r w',
  EmailPollingService.create_task env ed sender user uid td ti n w = (r, w') ->
  (r = Ok n /\ journal w [] w')
  \/ (exists d, r = Ok (n + 1)%Z /\ journal w [EvInsert tasks d] w').
Proof.
  intros env ed sender user uid td ti n w r w' H.
  unfold EmailPollingService.create_task in H.
  apply try_run in H. destruct H as [(a & H & ->)|(e & w1 & H & Hh)].
  - repeat (apply bind_lift_run in H;
            destruct H as [(? & _ & H)|(? & _ & ? & _)]; [|discriminate]).
    apply bind_run in H. destruct H as [(d & w1 & H1 & H)|(e & _ & ?)];
      [|discriminate].
    inversion H; subst. apply task_create_run in H1.
    destruct H1 as [(e & ? & _)|(d' & Hd & J & _)]; [discriminate|].
    right. eauto.
  - inversion Hh; subst. left. split; [reflexivity|].
    repeat (apply bind_lift_run in H;
            destruct H as [(? & _ & H)|(? & _ & _ & ->)];
            [|apply journal_refl]).
    apply bind_run in H. destruct H as [(d & w1 & H1 & H)|(e' & H1 & _)];
      [inversion H|].
    apply task_create_run in H1.
    destruct H1 as [(? & _ & J)|(d' & ? & _)]; [exact J|discriminate].
Qed.

Lemma email_loop_run : forall env ed sender user uid td items n w r w',
  for_each items (EmailPollingService.create_task env ed sender user uid td) n w
  = (r, w') ->
  exists new, r = Ok (n + Z.of_nat (List.length new))%Z
              /\ journal w (map (EvInsert tasks) new) w'.
Proof.
  intros env ed sender user uid td items.
  induction items as [|ti items IH]; intros n w r w' H; simpl in H.
  - inversion H; subst. exists []. split; [f_equal; simpl; lia|apply journal_refl].
  - apply bind_run in H. destruct H as [(n1 & w1 & H1 & H)|(e & H1 & _)].
    + apply IH in H. destruct H as (new & -> & J).
      apply email_create_task_run in H1.
      destruct H1 as [[Hn J1]|(d & Hn & J1)]; inversion Hn; subst.
      * exists new. split; [reflexivity|]. exact (journal_trans J1 J).
      * exists (d :: new). split; [f_equal; simpl List.length; lia|].
        exact (journal_trans J1 J).
    + apply email_create_task_run in H1.
      destruct H1 as [[? _]|(? & ? & _)]; discriminate.
Qed.

Lemma silent_run : forall (A : Type) (m : M A) w r w',
  emits (fun _ => False) m -> m w = (r, w') -> journal w [] w'.
Proof.
  intros A m w r w' Hm H. destruct (Hm w r w' H) as (evs & J & F).
  destruct evs as [|e evs]; [exact J|]. inversion F; contradiction.
Qed.

Lemma mark_as_processed_run : forall env email_id uid n w r w',
  ProcessedEmail.mark_as_processed env email_id uid n w = (r, w') ->
  (exists e, r = Raise e /\ journal w [] w')
  \/ (exists record,
        r = Ok record /\ journal w [EvInsert processed_emails record] w'
        /\ Store.matches (ledger_key email_id uid) record = true
        /\ Dict.lookup "tasks_created" record = Some (VInt n)
        /\ exists o now,
             record = Dict.set "_id" (VObjectId o)
                               (ledger_record email_id uid n now)).
Proof.
  intros env email_id uid n w r w' H. unfold ProcessedEmail.mark_as_processed in H.
  apply bind_run in H. destruct H as [(t1 & w1 & H1 & H)|(e & H1 & _)];
    [|cbv in H1; discriminate].
  apply call_run in H1. destruct H1 as [_ J1].
  apply bind_run in H. destruct H as [(o & w3 & H3 & H)|(e & H3 & ->)].
  - apply insert_one_run in H3.
    destruct H3 as [(e & He & _)|(o' & Ho & _ & J3)]; [discriminate|].
    inversion Ho; subst o'. inversion H; subst. right.
    eexists. split; [reflexivity|]. split; [exact (journal_trans J1 J3)|].
    split; [|split].
    + apply (ledger_key_of_record email_id uid n t1 [] o).
    + reflexivity.
    + exists o, t1. reflexivity.
  - apply insert_one_run in H3.
    destruct H3 as [(e' & He & _ & _ & ->)|(o' & Ho & _)]; [|discriminate].
    left. eexists. split; [reflexivity|exact J1].
Qed.

Lemma is_processed_run : forall email_id uid w,
  ProcessedEmail.is_processed email_id uid w
  = (Ok (match find (Store.matches (ledger_key email_id uid))
                    (db w processed_emails) with
         | Some _ => true | None => false end), w).
Proof. reflexivity. Qed.

Lemma extract_task_silent : forall env s b w r w',
  GeminiService.extract_task_from_email env s b w = (r, w') -> journal w [] w'.
Proof.
  intros. eapply silent_run; [apply emits_extract_task|eassumption].
Qed.

(** The [try] block of [_process_email_for_tasks]. *)
Lemma process_email_body_run : forall env email_msg user gmail_service w r w',
  EmailPollingService._process_email_for_tasks env email_msg user gmail_service w
  = (r, w') ->
  exists evs, journal w evs w' /\ email_run user (msg_id email_msg) r evs.
Proof.
  intros env email_msg user gs w r w' H.
  unfold EmailPollingService._process_email_for_tasks in H.
  assert (Hfalse : forall w0 new, journal w (map (EvInsert tasks) new) w0 ->
            exists evs, journal w evs w0
                        /\ email_run user (msg_id email_msg) (Ok false) evs).
  { intros w0 new J. eexists. split; [exact J|]. exists new. left. auto. }
  assert (Hmark : forall n w0 w1 w2 new rm,
            doc_id user = Ok n ->
            journal w (map (EvInsert tasks) new) w1 ->
            ProcessedEmail.mark_as_processed env (msg_id email_msg) n
              (Z.of_nat (List.length new)) w1 = (rm, w2) ->
            (forall rec, rm = Ok rec -> w0 = w2) ->
            (forall e, rm = Raise e -> w0 = w2) ->
            exists evs, journal w evs w0
              /\ ((exists e, rm = Raise e)
                    -> email_run user (msg_id email_msg) (Ok false) evs)
              /\ (forall rec, rm = Ok rec ->
                    email_run user (msg_id email_msg)
                              (Ok (0 <? Z.of_nat (List.length new))%Z) evs)).
  { intros n w0 w1 w2 new rm Hid J Hm Hok Hraise.
    apply mark_as_processed_run in Hm.
    destruct Hm as [(e & -> & J2)|(rec & -> & J2 & Hk & Hc & _)].
    - rewrite (Hraise e eq_refl). eexists. split; [exact (journal_trans J J2)|].
      rewrite app_nil_r. split.
      + intros _. exists new. left. auto.
      + intros rec Hrec. discriminate.
    - rewrite (Hok rec eq_refl). eexists. split; [exact (journal_trans J J2)|].
      split.
      + intros (e & He). discriminate.
      + intros rec' _. exists new. right. exists rec, n. auto. }
  apply try_run in H. destruct H as [(b & H & ->)|(e & w1 & H & Hh)].
  - (* the block returns *)
    apply bind_lift_run in H. destruct H as [(uid & Hid & H)|(? & _ & ? & _)];
      [|discriminate].
    apply bind_lift_run in H. destruct H as [(own & Hown & H)|(? & _ & ? & _)];
      [|discriminate].
    destruct (String.eqb _ own).
    { inversion H; subst. apply (Hfalse w' []), journal_refl. }
    apply bind_run in H. rewrite is_processed_run in H.
    destruct H as [(p & w1 & Hp & H)|(? & Hp & _)]; [|discriminate].
    inversion Hp; subst w1 p. clear Hp.
    destruct (find _ _).
    { inversion H; subst. apply (Hfalse w' []), journal_refl. }
    apply bind_run in H. destruct H as [(? & w1 & Hg & H)|(? & _ & ?)];
      [|discriminate].
    apply call_run in Hg. destruct Hg as [_ Jg].
    apply bind_run in H. destruct H as [(td & w2 & He & H)|(? & _ & ?)];
      [|discriminate].
    apply extract_task_silent in He.
    pose proof (journal_trans Jg He) as J2. simpl in J2.
    assert (Hzero : forall k,
              bind (ProcessedEmail.mark_as_processed env (msg_id email_msg) uid 0)
                   k w2 = (Ok b, w') ->
              (forall x, k x = ret false) ->
              exists evs, journal w evs w'
                          /\ email_run user (msg_id email_msg) (Ok b) evs).
    { intros k Hk Hret. apply bind_run in Hk.
      destruct Hk as [(rec & w3 & Hm & Hk)|(? & _ & ?)]; [|discriminate].
      rewrite Hret in Hk. inversion Hk; subst.
      destruct (Hmark uid w' w2 w' [] (Ok rec) Hid J2 Hm) as (evs & J & _ & Hr);
        [auto|discriminate|].
      exists evs. split; [exact J|]. exact (Hr rec eq_refl). }
    destruct td as [td|]; [|apply (Hzero _ H); reflexivity].
    destruct (negb (truthy (VDict td)) || _);
      [apply (Hzero _ H); reflexivity|].
    apply bind_lift_run in H. destruct H as [(items & _ & H)|(? & _ & ? & _)];
      [|discriminate].
    apply bind_run in H. destruct H as [(cnt & w3 & Hl & H)|(? & _ & ?)];
      [|discriminate].
    apply email_loop_run in Hl. destruct Hl as (new & Hcnt & Jl).
    inversion Hcnt; subst cnt. clear Hcnt.
    apply bind_run in H. destruct H as [(rec & w4 & Hm & H)|(? & _ & ?)];
      [|discriminate].
    inversion H; subst. try rewrite Z.add_0_l in *.
    pose proof (journal_trans J2 Jl) as J3. simpl in J3.
    destruct (Hmark uid w' w3 w' new (Ok rec) Hid J3 Hm) as (evs & J & _ & Hr);
      [auto|discriminate|].
    exists evs. split; [exact J|]. exact (Hr rec eq_refl).
  - (* the block raises *)
    unfold ret in Hh. injection Hh as <- <-. rename w1 into wz.
    apply bind_lift_run in H. destruct H as [(uid & Hid & H)|(? & _ & _ & ->)];
      [|apply (Hfalse w []), journal_refl].
    apply bind_lift_run in H. destruct H as [(own & Hown & H)|(? & _ & _ & ->)];
      [|apply (Hfalse w []), journal_refl].
    destruct (String.eqb _ own); [discriminate|].
    apply bind_run in H. rewrite is_processed_run in H.
    destruct H as [(p & w1 & Hp & H)|(? & Hp & _)]; [|discriminate].
    inversion Hp; subst w1 p. clear Hp.
    destruct (find _ _); [discriminate|].
    apply bind_run in H. destruct H as [(? & w1 & Hg & H)|(? & Hg & _)];
      [|apply call_run in Hg; apply (Hfalse wz []), Hg].
    apply call_run in Hg. destruct Hg as [_ Jg].
    apply bind_run in H. destruct H as [(td & w2 & He & H)|(? & He & _)];
      [|apply extract_task_silent in He;
        apply (Hfalse wz []); exact (journal_trans Jg He)].
    apply extract_task_silent in He.
    pose proof (journal_trans Jg He) as J2. simpl in J2.
    assert (Hzero : forall k,
              bind (ProcessedEmail.mark_as_processed env (msg_id email_msg) uid 0)
                   k w2 = (Raise e, wz) ->
              (forall x, k x = ret false) ->
              exists evs, journal w evs wz
                          /\ email_run user (msg_id email_msg) (Ok false) evs).
    { intros k Hk Hret. apply bind_run in Hk.
      destruct Hk as [(rec & w3 & Hm & Hk)|(e' & Hm & _)];
        [rewrite Hret in Hk; discriminate|].
      destruct (Hmark uid wz w2 wz [] (Raise e') Hid J2 Hm) as (evs & J & Hr & _);
        [discriminate|auto|].
      exists evs. split; [exact J|]. apply Hr. eauto. }
    destruct td as [td|]; [|apply (Hzero _ H); reflexivity].
    destruct (negb (truthy (VDict td)) || _);
      [apply (Hzero _ H); reflexivity|].
    apply bind_lift_run in H. destruct H as [(items & _ & H)|(? & _ & _ & ->)];
      [|apply (Hfalse w2 []); exact J2].
    apply bind_run in H. destruct H as [(cnt & w3 & Hl & H)|(? & Hl & _)];
      [|apply email_loop_run in Hl; destruct Hl as (? & ? & _); discriminate].
    apply email_loop_run in Hl. destruct Hl as (new & Hcnt & Jl).
    inversion Hcnt; subst cnt. clear Hcnt.
    pose proof (journal_trans J2 Jl) as J3. simpl in J3.
    apply bind_run in H. destruct H as [(rec & w4 & Hm & H)|(e' & Hm & _)];
      [discriminate|].
    try rewrite Z.add_0_l in *.
    destruct (Hmark uid wz w3 wz new (Raise e') Hid J3 Hm) as (evs & J & Hr & _);
      [discriminate|auto|].
    exists evs. split; [exact J|]. apply Hr. eauto.
Qed.

Lemma inserted_app : forall c a b, inserted c (a ++ b) = inserted c a ++ inserted c b.
Proof. intros. unfold inserted. apply flat_map_app. Qed.

Lemma inserted_map_same : forall c new, inserted c (map (EvInsert c) new) = new.
Proof.
  intros c new. induction new as [|d new IH]; simpl; [reflexivity|].
  rewrite collection_eqb_refl. simpl. now rewrite IH.
Qed.

Lemma inserted_map_other : forall c c' new,
  c' <> c -> inserted c (map (EvInsert c') new) = [].
Proof.
  intros c c' new Hc. induction new as [|d new IH]; simpl; [reflexivity|].
  now rewrite (collection_eqb_neq Hc), IH.
Qed.

Lemma Forall_inserts_append : forall c evs,
  Forall (fun e => exists c' d, e = EvInsert c' d) evs -> Forall (appends_only c) evs.
Proof.
  intros c evs H. induction H as [|e evs (c' & d & ->) _ IH]; constructor; simpl; auto.
Qed.

Lemma replay_inserts : forall evs dbf c,
  Forall (fun e => exists c' d, e = EvInsert c' d) evs ->
  replay evs dbf c = dbf c ++ inserted c evs.
Proof. intros. apply replay_appends. now apply Forall_inserts_append. Qed.

Lemma Forall_map_inserts : forall c new,
  Forall (fun e => exists c' d, e = EvInsert c' d) (map (EvInsert c) new).
Proof. intros c new. apply Forall_forall. intros e H. apply in_map_iff in H.
  destruct H as (d & <- & _). eauto. Qed.

(** X2. A run of [_process_email_for_tasks] only appends: tasks, and at
    most one ledger record, and no other collection changes. When it
    writes the ledger record, the record is the one of this mail and
    this user, its [tasks_created] is the number of tasks the run added,
    and the answer is [True] exactly when that number is not zero; when
    it writes none, the answer is [False]. *)
Theorem ledger_counts_tasks_created :
  forall (env : Env) (email_msg : gmail_message) (user : dict)
         (gmail_service : value) (w : World),
    let run := EmailPollingService._process_email_for_tasks
                 env email_msg user gmail_service w in
    exists new,
      db (snd run) tasks = db w tasks ++ new
      /\ ((db (snd run) processed_emails = db w processed_emails
           /\ fst run = Ok false)
          \/ exists record user_id,
               db (snd run) processed_emails = db w processed_emails ++ [record]
               /\ doc_id user = Ok user_id
               /\ Store.matches (ledger_key (msg_id email_msg) user_id) record = true
               /\ Dict.lookup "tasks_created" record
                  = Some (VInt (Z.of_nat (List.length new)))
               /\ fst run = Ok (0 <? Z.of_nat (List.length new))%Z)
      /\ (forall c, c <> tasks -> c <> processed_emails ->
                    db (snd run) c = db w c).
Proof.
  intros env email_msg user gs w run.
  destruct run as [r w'] eqn:E. unfold run in E. simpl.
  apply process_email_body_run in E. destruct E as (evs & J & new & Hr).
  exists new. rewrite (journal_db J).
  destruct Hr as [[-> ->]|(rec & uid & -> & Hid & Hk & Hc & ->)].
  - split; [|split].
    + rewrite replay_inserts by apply Forall_map_inserts.
      now rewrite inserted_map_same.
    + left. split; [|reflexivity].
      rewrite replay_inserts by apply Forall_map_inserts.
      rewrite inserted_map_other by discriminate. apply app_nil_r.
    + intros c H1 H2. rewrite replay_inserts by apply Forall_map_inserts.
      rewrite inserted_map_other by congruence. apply app_nil_r.
  - assert (F : Forall (fun e => exists c' d, e = EvInsert c' d)
                       (map (EvInsert tasks) new ++ [EvInsert processed_emails rec])).
    { apply Forall_app. split; [apply Forall_map_inserts|].
      constructor; [eauto|constructor]. }
    split; [|split].
    + rewrite (replay_inserts _ _ F), inserted_app, inserted_map_same.
      simpl. now rewrite app_nil_r.
    + right. exists rec, uid. repeat split; auto.
      rewrite (replay_inserts _ _ F), inserted_app.
      rewrite inserted_map_other by discriminate. reflexivity.
    + intros c H1 H2. rewrite (replay_inserts _ _ F), inserted_app.
      rewrite inserted_map_other by congruence. simpl.
      destruct c; try congruence; simpl; apply app_nil_r.
Qed.

Lemma recorded_mail_is_skipped : forall env email_msg user gs w uid,
  doc_id user = Ok uid ->
  fst (ProcessedEmail.is_processed (msg_id email_msg) uid w) = Ok true ->
  EmailPollingService._process_email_for_tasks env email_msg user gs w
  = (Ok false, w).
Proof.
  intros env email_msg user gs w uid Hid Hp.
  rewrite is_processed_run in Hp. simpl in Hp.
  unfold EmailPollingService._process_email_for_tasks, try_except.
  unfold bind at 1. unfold lift at 1. rewrite Hid.
  unfold bind at 1. unfold lift at 1.
  destruct (py_lower _) as [own|e]; [|reflexivity].
  destruct (String.eqb _ own); [reflexivity|].
  unfold bind at 1. rewrite is_processed_run. cbn [GmailService.message_id GmailService.parse_email].
  destruct (find _ _); [reflexivity|discriminate].
Qed.

(** X3. A mail that produced tasks is not processed twice: when
    [_process_email_for_tasks] answers [True], the ledger holds the mail
    for the user afterwards, and on every world where [is_processed]
    holds for it (with any clients) a run on the same mail answers
    [False] and leaves the world as it is. *)
Theorem mail_that_made_tasks_is_skipped_afterwards :
  forall (env : Env) (email_msg : gmail_message) (user : dict)
         (gmail_service : value) (w w1 : World),
    EmailPollingService._process_email_for_tasks env email_msg user gmail_service w
    = (Ok true, w1) ->
    exists user_id,
      doc_id user = Ok user_id
      /\ ProcessedEmail.is_processed (msg_id email_msg) user_id w1 = (Ok true, w1)
      /\ forall env' gmail_service' w2,
          fst (ProcessedEmail.is_processed (msg_id email_msg) user_id w2) = Ok true ->
          EmailPollingService._process_email_for_tasks
            env' email_msg user gmail_service' w2
          = (Ok false, w2).
Proof.
  intros env email_msg user gs w w1 H.
  apply process_email_body_run in H. destruct H as (evs & J & new & Hr).
  destruct Hr as [[_ Hr]|(rec & uid & -> & Hid & Hk & Hc & Hr)]; [discriminate|].
  exists uid. split; [exact Hid|]. split.
  - rewrite is_processed_run. f_equal.
    rewrite (journal_db J).
    assert (F : Forall (fun e => exists c' d, e = EvInsert c' d)
                       (map (EvInsert tasks) new ++ [EvInsert processed_emails rec])).
    { apply Forall_app. split; [apply Forall_map_inserts|].
      constructor; [eauto|constructor]. }
    rewrite (replay_inserts _ _ F), inserted_app.
    rewrite inserted_map_other by discriminate. simpl.
    destruct (find _ (db w processed_emails ++ [rec])) eqn:Hf; [reflexivity|].
    exfalso. assert (Hn := find_none _ _ Hf rec).
    rewrite Hk in Hn. discriminate Hn. apply in_or_app; right; left; reflexivity.
  - intros env' gs' w2 Hp. now apply recorded_mail_is_skipped with (uid := uid).
Qed.

Lemma filter_snoc : forall (A : Type) (p : A -> bool) l x,
  filter p (l ++ [x]) = filter p l ++ (if p x then [x] else []).
Proof. intros. rewrite filter_app. reflexivity. Qed.

Lemma find_snoc_false : forall (A : Type) (p : A -> bool) l x,
  p x = false -> find p (l ++ [x]) = find p l.
Proof.
  intros A p l x H. induction l as [|y l IH]; simpl; [now rewrite H|].
  destruct (p y); [reflexivity|exact IH].
Qed.

Lemma find_snoc_true : forall (A : Type) (p : A -> bool) l x,
  p x = true -> exists y, find p (l ++ [x]) = Some y.
Proof.
  intros A p l x H. induction l as [|y l IH]; simpl; [rewrite H; eauto|].
  destruct (p y); eauto.
Qed.

(** X4. The ledger read after a write: once [mark_as_processed] has
    returned, [is_processed] holds for that mail and user and is
    unchanged for every other mail or user, and [get_processed_count]
    is one more for that user and unchanged for the others. *)
Theorem marked_mail_is_processed :
  forall (env : Env) (email_id : string) (user_id : oid) (n : Z)
         (w w1 : World) (record : dict),
    ProcessedEmail.mark_as_processed env email_id user_id n w = (Ok record, w1) ->
    fst (ProcessedEmail.is_processed email_id user_id w1) = Ok true
    /\ (forall email_id' user_id',
           email_id' <> email_id \/ user_id' <> user_id ->
           fst (ProcessedEmail.is_processed email_id' user_id' w1)
           = fst (ProcessedEmail.is_processed email_id' user_id' w))
    /\ (exists c,
           fst (ProcessedEmail.get_processed_count user_id w) = Ok c
           /\ fst (ProcessedEmail.get_processed_count user_id w1) = Ok (c + 1)%Z)
    /\ (forall user_id',
           user_id' <> user_id ->
           fst (ProcessedEmail.get_processed_count user_id' w1)
           = fst (ProcessedEmail.get_processed_count user_id' w)).
Proof.
  intros env email_id user_id n w w1 record H.
  apply mark_as_processed_run in H.
  destruct H as [(e & He & _)|(rec & Hr & J & Hk & _ & o & now & Hrec)];
    [discriminate|].
  injection Hr as E; subst rec.
  assert (Hdb : db w1 processed_emails = db w processed_emails ++ [record]).
  { rewrite (journal_db J). simpl. reflexivity. }
  split; [|split; [|split]].
  - rewrite is_processed_run. cbn [fst]. rewrite Hdb.
    destruct (find_snoc_true _ (db w processed_emails) _ Hk) as (y & ->).
    reflexivity.
  - intros email_id' user_id' Hne. rewrite !is_processed_run. cbn [fst].
    rewrite Hdb, find_snoc_false; [reflexivity|].
    subst record. cbn.
    destruct Hne as [Hne|Hne].
    + apply String.eqb_neq in Hne. rewrite String.eqb_sym in Hne. now rewrite Hne.
    + apply N.eqb_neq in Hne. rewrite N.eqb_sym in Hne. rewrite Hne.
      now rewrite andb_false_r.
  - eexists. split; [reflexivity|].
    unfold ProcessedEmail.get_processed_count, Store.count_documents. cbn [fst].
    rewrite Hdb, filter_snoc.
    replace (Store.matches [("user_id", VObjectId user_id)] record) with true
      by (subst record; cbn; now rewrite N.eqb_refl).
    rewrite length_app. simpl List.length. f_equal. lia.
  - intros user_id' Hne.
    unfold ProcessedEmail.get_processed_count, Store.count_documents. cbn [fst].
    rewrite Hdb, filter_snoc.
    replace (Store.matches [("user_id", VObjectId user_id')] record) with false
      by (subst record; cbn; apply N.eqb_neq in Hne; rewrite N.eqb_sym in Hne;
          now rewrite Hne).
    now rewrite app_nil_r.
Qed.

(** Bob's mail with two valid tasks makes Alice two tasks; a second run
    on the world it leaves does nothing. *)
Lemma mail_that_made_tasks_is_skipped_afterwards_witness :
  exists w1,
    EmailPollingService._process_email_for_tasks
      (Fixture.env [Fixture.task_mail] [] None None) Fixture.task_mail
      Fixture.alice VNone Fixture.empty_world = (Ok true, w1)
    /\ List.length (db w1 tasks) = 2
    /\ EmailPollingService._process_email_for_tasks
         (Fixture.env [Fixture.task_mail] [] None None) Fixture.task_mail
         Fixture.alice VNone w1 = (Ok false, w1).
Proof.
  destruct (EmailPollingService._process_email_for_tasks
              (Fixture.env [Fixture.task_mail] [] None None) Fixture.task_mail
              Fixture.alice VNone Fixture.empty_world) as [r w1] eqn:E.
  assert (Hr : r = Ok true /\ List.length (db w1 tasks) = 2).
  { cbv in E. injection E as <- <-. split; reflexivity. }
  destruct Hr as [-> Hn]. exists w1. split; [reflexivity|]. split; [exact Hn|].
  destruct (@mail_that_made_tasks_is_skipped_afterwards
              _ _ _ _ _ _ E) as (uid & _ & Hp & Hskip).
  apply Hskip. rewrite Hp. reflexivity.
Defined.

Lemma marked_mail_is_processed_witness :
  exists record w1,
    ProcessedEmail.mark_as_processed Fixture.empty_env "msg-1" 1%N 2
                                     Fixture.empty_world = (Ok record, w1)
    /\ fst (ProcessedEmail.is_processed "msg-1" 1%N w1) = Ok true
    /\ fst (ProcessedEmail.is_processed "msg-1" 2%N w1) = Ok false
    /\ fst (ProcessedEmail.get_processed_count 1%N w1) = Ok 1%Z.
Proof.
  destruct (ProcessedEmail.mark_as_processed Fixture.empty_env "msg-1" 1%N 2
                                             Fixture.empty_world)
    as [[record|e] w1] eqn:E; [|cbv in E; discriminate E].
  exists record, w1. split; [reflexivity|].
  destruct (@marked_mail_is_processed _ _ _ _ _ _ _ E)
    as (Hp & Hother & (c & Hc & Hc1) & _).
  split; [exact Hp|]. split.
  - rewrite (Hother "msg-1" 2%N) by (right; discriminate). reflexivity.
  - rewrite Hc1. cbv in Hc. injection Hc as <-. reflexivity.
Defined.

(* ------------------------------------------------------------------ *)
(** * Meetings: the calendar, the processing run, the manual trigger    *)
(* ------------------------------------------------------------------ *)

Lemma update_status_run : forall env mid st pa em w r w',
  Meeting.update_status env mid st pa em w = (r, w') ->
  exists d now,
    r = Ok d
    /\ journal w [EvUpdate meetings (by_id mid) (Meeting.update_data st now pa em)] w'.
Proof.
  intros env mid st pa em w r w' H. unfold Meeting.update_status in H.
  apply bind_run in H. destruct H as [(now & w1 & H1 & H)|(e & H1 & _)];
    [|cbv in H1; discriminate].
  apply call_run in H1. destruct H1 as [Hn J1].
  apply bind_run in H. destruct H as [(u & w2 & H2 & H)|(e & H2 & _)];
    [|cbv in H2; discriminate].
  apply update_one_run in H2. destruct H2 as [_ J2].
  unfold Meeting.find_by_id, Store.find_one in H. inversion H; subst.
  do 2 eexists. split; [reflexivity|]. exact (journal_trans J1 J2).
Qed.

Lemma insert_doc_run : forall env c (mk : datetime -> datetime -> dict) w r w',
  (created_at <- utcnow env ;;
   updated_at <- utcnow env ;;
   o <- Store.insert_one c (mk created_at updated_at) ;;
   ret (Dict.set "_id" (VObjectId o) (mk created_at updated_at))) w = (r, w') ->
  (exists e, r = Raise e /\ journal w [] w')
  \/ (exists o t1 t2,
        r = Ok (Dict.set "_id" (VObjectId o) (mk t1 t2))
        /\ journal w [EvInsert c (Dict.set "_id" (VObjectId o) (mk t1 t2))] w'
        /\ Store.violates w c (mk t1 t2) = false).
Proof.
  intros env c mk w r w' H.
  apply bind_run in H. destruct H as [(t1 & w1 & H1 & H)|(e & H1 & _)];
    [|cbv in H1; discriminate].
  pose proof (call_run H1) as [_ J1].
  apply bind_run in H. destruct H as [(t2 & w2 & H2 & H)|(e & H2 & _)];
    [|cbv in H2; discriminate].
  pose proof (call_run H2) as [_ J2].
  apply bind_run in H. destruct H as [(o & w3 & H3 & H)|(e & H3 & ->)].
  - apply insert_one_run in H3.
    destruct H3 as [(e & He & _)|(o' & Ho & Hv & J3)]; [discriminate|].
    injection Ho as <-. unfold ret in H. injection H as <- <-. right.
    exists o, t1, t2. split; [reflexivity|].
    split; [exact (journal_trans (journal_trans J1 J2) J3)|].
    unfold call in H1, H2. injection H1 as _ <-. injection H2 as _ <-.
    exact Hv.
  - apply insert_one_run in H3.
    destruct H3 as [(e' & He & _ & _ & ->)|(o' & Ho & _)]; [|discriminate].
    left. eexists. split; [reflexivity|].
    exact (journal_trans J1 J2).
Qed.

Lemma update_task_id_run : forall env mid idx o w r w',
  MeetingSummary.update_task_id env mid idx o w = (r, w') ->
  journal w [] w'
  \/ (exists now,
        r = Ok tt
        /\ journal w [EvSetTaskId [("meeting_id", VObjectId mid)] idx o now] w').
Proof.
  intros env mid idx o w r w' H. unfold MeetingSummary.update_task_id in H.
  apply bind_run in H. destruct H as [(now & w1 & H1 & H)|(e & H1 & _)];
    [|cbv in H1; discriminate].
  apply call_run in H1. destruct H1 as [_ J1].
  unfold Store.update_task_id_one in H.
  destruct (find _ _) as [d|]; [|injection H as _ <-; left; exact J1].
  destruct (Store.set_task_id idx o now d).
  - injection H as <- <-. right. exists now. split; [reflexivity|].
    exact (journal_trans J1 (journal_commit _ _)).
  - injection H as _ <-. left. exact J1.
Qed.

Lemma meeting_create_task_run : forall env meeting user mid uid item idx n w r w',
  MeetingPollingService.create_task env meeting user mid uid item (idx, n) w
  = (r, w') ->
  exists n',
    r = Ok (S idx, n')
    /\ (journal w [] w'
        \/ (exists t, created_from mid uid item t
                      /\ journal w [EvInsert tasks t] w')
        \/ (exists t o now,
              created_from mid uid item t /\ doc_id t = Ok o
              /\ journal w [EvInsert tasks t;
                            EvSetTaskId [("meeting_id", VObjectId mid)] idx o now]
                         w')).
Proof.
  intros env meeting user mid uid item idx n w r w' H.
  unfold MeetingPollingService.create_task in H.
  apply try_run in H.
  assert (Hcreated : forall description title context priority deadline
                            meeting_title meeting_date o t1 t2,
            py_item item "description" = Ok description ->
            py_slice_to 100 description = Ok title ->
            created_from mid uid item
              (Dict.set "_id" (VObjectId o)
                 [ ("title", title);
                   ("description", py_or context (VStr ""));
                   ("priority", priority);
                   ("status", VStr "pending");
                   ("deadline", deadline);
                   ("assigned_to", oid_or_none (Some uid));
                   ("created_by", oid_or_none (Some uid));
                   ("email_id", VNone);
                   ("sender_email", VNone);
                   ("user_email", Dict.get "email" VNone user);
                   ("labels", py_or VNone (VList []));
                   ("source_type", VStr "meeting");
                   ("meeting_id", oid_or_none (Some mid));
                   ("meeting_title", meeting_title);
                   ("meeting_date", meeting_date);
                   ("created_at", VDatetime t1);
                   ("updated_at", VDatetime t2) ])).
  { intros. exists description, title. repeat split; assumption || reflexivity. }
  destruct H as [(a & H & ->)|(e & w1 & H & Hh)].
  - apply bind_lift_run in H. destruct H as [(d1 & Hd1 & H)|(? & _ & ? & _)];
      [|discriminate].
    apply bind_lift_run in H. destruct H as [(ti & Hti & H)|(? & _ & ? & _)];
      [|discriminate].
    do 6 (apply bind_lift_run in H;
          destruct H as [(? & _ & H)|(? & _ & ? & _)]; [|discriminate]).
    apply bind_run in H. destruct H as [(task & w1 & H1 & H)|(? & _ & ?)];
      [|discriminate].
    unfold Task.create in H1. cbn [Task.title Task.description Task.priority
      Task.status Task.deadline Task.assigned_to Task.created_by Task.email_id
      Task.sender_email Task.user_email Task.labels Task.source_type
      Task.meeting_id Task.meeting_title Task.meeting_date] in H1.
    apply (@insert_doc_run env tasks
             (fun created_at updated_at =>
                [ ("title", ti); ("description", py_or x0 (VStr ""));
                  ("priority", x1); ("status", VStr "pending");
                  ("deadline", x2);
                  ("assigned_to", oid_or_none (Some uid));
                  ("created_by", oid_or_none (Some uid));
                  ("email_id", VNone); ("sender_email", VNone);
                  ("user_email", Dict.get "email" VNone user);
                  ("labels", py_or VNone (VList []));
                  ("source_type", VStr "meeting");
                  ("meeting_id", oid_or_none (Some mid));
                  ("meeting_title", x3); ("meeting_date", x4);
                  ("created_at", VDatetime created_at);
                  ("updated_at", VDatetime updated_at) ])) in H1.
    destruct H1 as [(? & ? & _)|(o & t1 & t2 & Ht & J1 & _)]; [discriminate|].
    injection Ht as ->.
    apply bind_lift_run in H. destruct H as [(o' & Ho & H)|(? & _ & ? & _)];
      [|discriminate].
    apply bind_run in H. destruct H as [([] & w2 & H2 & H)|(? & _ & ?)];
      [|discriminate].
    unfold ret in H. injection H as <- <-.
    exists (n + 1)%Z. split; [reflexivity|].
    apply update_task_id_run in H2. destruct H2 as [J2|(now & _ & J2)].
    + right. left. eexists. split; [eapply Hcreated; eassumption|].
      exact (journal_trans J1 J2).
    + right. right. eexists. exists o', now. split; [eapply Hcreated; eassumption|].
      split; [exact Ho|]. exact (journal_trans J1 J2).
  - unfold ret in Hh. injection Hh as <- <-. exists n. split; [reflexivity|].
    apply bind_lift_run in H. destruct H as [(d1 & Hd1 & H)|(? & _ & _ & ->)];
      [|left; apply journal_refl].
    apply bind_lift_run in H. destruct H as [(ti & Hti & H)|(? & _ & _ & ->)];
      [|left; apply journal_refl].
    do 6 (apply bind_lift_run in H;
          destruct H as [(? & _ & H)|(? & _ & _ & ->)];
          [|left; apply journal_refl]).
    apply bind_run in H. destruct H as [(task & w2 & H1 & H)|(? & H1 & _)].
    + unfold Task.create in H1. cbn [Task.title Task.description Task.priority
        Task.status Task.deadline Task.assigned_to Task.created_by Task.email_id
        Task.sender_email Task.user_email Task.labels Task.source_type
        Task.meeting_id Task.meeting_title Task.meeting_date] in H1.
      apply (@insert_doc_run env tasks
               (fun created_at updated_at =>
                  [ ("title", ti); ("description", py_or x0 (VStr ""));
                    ("priority", x1); ("status", VStr "pending");
                    ("deadline", x2);
                    ("assigned_to", oid_or_none (Some uid));
                    ("created_by", oid_or_none (Some uid));
                    ("email_id", VNone); ("sender_email", VNone);
                    ("user_email", Dict.get "email" VNone user);
                    ("labels", py_or VNone (VList []));
                    ("source_type", VStr "meeting");
                    ("meeting_id", oid_or_none (Some mid));
                    ("meeting_title", x3); ("meeting_date", x4);
                    ("created_at", VDatetime created_at);
                    ("updated_at", VDatetime updated_at) ])) in H1.
      destruct H1 as [(? & ? & _)|(o & t1 & t2 & Ht & J1 & _)]; [discriminate|].
      injection Ht as ->.
      apply bind_lift_run in H. destruct H as [(o' & Ho & H)|(? & _ & _ & ->)].
      * apply bind_run in H. destruct H as [([] & w3 & H2 & H)|(? & H2 & _)];
          [discriminate|].
        apply update_task_id_run in H2. destruct H2 as [J2|(now & ? & _)];
          [|discriminate].
        right. left. eexists. split; [eapply Hcreated; eassumption|].
        exact (journal_trans J1 J2).
      * right. left. eexists. split; [eapply Hcreated; eassumption|exact J1].
    + apply task_create_run in H1.
      destruct H1 as [(? & _ & J)|(? & ? & _)]; [|discriminate]. left. exact J.
Qed.

Lemma meeting_loop_run : forall env meeting user mid uid items idx n w r w',
  for_each items (MeetingPollingService.create_task env meeting user mid uid)
           (idx, n) w = (r, w') ->
  exists acc evs,
    r = Ok acc /\ journal w evs w' /\ task_links mid uid idx items evs.
Proof.
  intros env meeting user mid uid items.
  induction items as [|item items IH]; intros idx n w r w' H; simpl in H.
  - unfold ret in H. injection H as <- <-.
    exists (idx, n), []. split; [reflexivity|].
    split; [apply journal_refl|constructor].
  - apply bind_run in H. destruct H as [(acc1 & w1 & H1 & H)|(e & H1 & _)].
    + apply meeting_create_task_run in H1. destruct H1 as (n' & Hacc & Hev).
      injection Hacc as ->.
      apply IH in H. destruct H as (acc & evs & -> & J & L).
      exists acc.
      destruct Hev as [J1|[(t & Ht & J1)|(t & o & now & Ht & Ho & J1)]].
      * exists evs. split; [reflexivity|].
        split; [exact (journal_trans J1 J)|now constructor].
      * exists (EvInsert tasks t :: evs). split; [reflexivity|].
        split; [exact (journal_trans J1 J)|now constructor].
      * eexists. split; [reflexivity|].
        split; [exact (journal_trans J1 J)|]. simpl. now constructor.
    + apply meeting_create_task_run in H1. destruct H1 as (? & ? & _).
      discriminate.
Qed.

Ltac silent H :=
  eapply silent_run in H;
  [|first [ apply emits_init_gemini | apply emits_drive_service
          | apply emits_summarize | apply emits_call
          | apply emits_find_one | apply emits_lift ]].

Lemma process_for_user_success : forall env meeting mid uid user w w',
  MeetingPollingService.process_for_user env meeting mid uid user w = (Ok true, w') ->
  exists transcript summary action_items items loop now1 now2,
    journal w ([EvInsert meeting_transcripts transcript;
                EvInsert meeting_summaries summary]
               ++ loop
               ++ [EvUpdate meetings (by_id mid)
                            (Meeting.update_data (VStr "completed") now2
                                                 (VDatetime now1) VNone)]) w'
    /\ Dict.lookup "meeting_id" transcript = Some (VObjectId mid)
    /\ Dict.lookup "meeting_id" summary = Some (VObjectId mid)
    /\ Dict.lookup "action_items" summary = Some (py_or action_items (VList []))
    /\ py_iter action_items = Ok items
    /\ task_links mid uid 0 items loop
    /\ exists wk body,
         db wk = db w /\ indexes wk = indexes w
         /\ Store.violates wk meeting_transcripts body = false
         /\ Dict.lookup "meeting_id" body = Some (VObjectId mid).
Proof.
  intros env meeting mid uid user w w' H.
  unfold MeetingPollingService.process_for_user in H.
  apply bind_run in H. destruct H as [(ds & w1 & Hd & H)|(? & _ & ?)];
    [|discriminate].
  silent Hd.
  destruct ds as [ds|].
  2:{ apply bind_run in H. destruct H as [(? & ? & _ & H)|(? & _ & ?)];
      discriminate. }
  apply bind_lift_run in H. destruct H as [(st & _ & H)|(? & _ & ? & _)];
    [|discriminate].
  apply bind_run in H. destruct H as [(md & w2 & Hmd & H)|(? & _ & ?)];
    [|discriminate].
  assert (J2 : journal w1 [] w2).
  { destruct st; try (unfold ret in Hmd; injection Hmd as _ <-; apply journal_refl).
    apply bind_lift_run in Hmd.
    destruct Hmd as [(? & _ & Hmd)|(? & _ & ? & _)]; [|discriminate].
    unfold ret in Hmd. injection Hmd as _ <-. apply journal_refl. }
  apply bind_lift_run in H. destruct H as [(mt & _ & H)|(? & _ & ? & _)];
    [|discriminate].
  apply bind_run in H. destruct H as [(tf & w3 & Htf & H)|(? & _ & ?)];
    [|discriminate].
  silent Htf.
  destruct (negb (found tf)).
  { apply bind_lift_run in H. destruct H as [(? & _ & H)|(? & _ & ? & _)];
      [|discriminate].
    apply bind_run in H. destruct H as [(? & ? & _ & H)|(? & _ & ?)];
      discriminate. }
  apply bind_lift_run in H. destruct H as [(? & _ & H)|(? & _ & ? & _)];
    [|discriminate].
  apply bind_lift_run in H. destruct H as [(fid & _ & H)|(? & _ & ? & _)];
    [|discriminate].
  apply bind_run in H. destruct H as [(tt & w4 & Htt & H)|(? & _ & ?)];
    [|discriminate].
  silent Htt.
  destruct tt as [[|c text]|];
    try (apply bind_run in H; destruct H as [(? & ? & _ & H)|(? & _ & ?)];
         discriminate).
  apply bind_run in H. destruct H as [(tr & w5 & Htr & H)|(? & _ & ?)];
    [|discriminate].
  unfold MeetingTranscript.create in Htr.
  apply (@insert_doc_run env meeting_transcripts
           (fun created_at updated_at =>
              [ ("meeting_id", VObjectId mid); ("user_id", VObjectId uid);
                ("transcript_text", VStr (String c text));
                ("transcript_segments", py_or (VList []) (VList []));
                ("language", VStr "en-US");
                ("confidence", VFloat PrimFloat.one);
                ("created_at", VDatetime created_at);
                ("updated_at", VDatetime updated_at) ])) in Htr.
  destruct Htr as [(? & ? & _)|(o1 & t1 & t2 & Htr & J5 & Hv)]; [discriminate|].
  apply bind_lift_run in H. destruct H as [(mt2 & _ & H)|(? & _ & ? & _)];
    [|discriminate].
  apply bind_run in H. destruct H as [(sd & w6 & Hsd & H)|(? & _ & ?)];
    [|discriminate].
  silent Hsd.
  destruct (negb (found sd)); [discriminate|].
  apply bind_lift_run in H. destruct H as [(sm & _ & H)|(? & _ & ? & _)];
    [|discriminate].
  apply bind_run in H. destruct H as [(sdoc & w7 & Hsm & H)|(? & _ & ?)];
    [|discriminate].
  unfold MeetingSummary.create in Hsm.
  set (data := match sd with Some d => d | None => [] end) in *.
  apply (@insert_doc_run env meeting_summaries
           (fun created_at updated_at =>
              [ ("meeting_id", VObjectId mid); ("user_id", VObjectId uid);
                ("summary", sm);
                ("key_points", py_or (Dict.get "key_points" (VList []) data) (VList []));
                ("decisions_made",
                 py_or (Dict.get "decisions_made" (VList []) data) (VList []));
                ("action_items",
                 py_or (Dict.get "action_items" (VList []) data) (VList []));
                ("participants_mentioned",
                 py_or (Dict.get "participants_mentioned" (VList []) data) (VList []));
                ("topics_discussed",
                 py_or (Dict.get "topics_discussed" (VList []) data) (VList []));
                ("next_meeting", Dict.get "next_meeting" VNone data);
                ("created_at", VDatetime created_at);
                ("updated_at", VDatetime updated_at) ])) in Hsm.
  destruct Hsm as [(? & ? & _)|(o2 & t3 & t4 & Hsm & J7 & _)]; [discriminate|].
  apply bind_lift_run in H. destruct H as [(items & Hitems & H)|(? & _ & ? & _)];
    [|discriminate].
  apply bind_run in H. destruct H as [(acc & w8 & Hl & H)|(? & _ & ?)];
    [|discriminate].
  apply meeting_loop_run in Hl. destruct Hl as (acc' & loop & _ & J8 & L).
  apply bind_run in H. destruct H as [(now1 & w9 & Hn & H)|(? & _ & ?)];
    [|discriminate].
  apply call_run in Hn. destruct Hn as [_ J9].
  apply bind_run in H. destruct H as [(? & w10 & Hu & H)|(? & _ & ?)];
    [|discriminate].
  apply update_status_run in Hu. destruct Hu as (? & now2 & _ & J10).
  unfold ret in H. injection H as <-.
  do 3 eexists. exists items, loop, now1, now2.
  split.
  - pose proof (journal_trans Hd (journal_trans J2 (journal_trans Htf
        (journal_trans Htt (journal_trans J5 (journal_trans Hsd
        (journal_trans J7 (journal_trans J8 (journal_trans J9 J10)))))))))
      as J.
    simpl in J. simpl. exact J.
  - split; [reflexivity|]. split; [reflexivity|]. split; [reflexivity|].
    split; [exact Hitems|]. split; [exact L|].
    pose proof (journal_trans Hd (journal_trans J2 (journal_trans Htf Htt))) as J4.
    simpl in J4. eexists. eexists. split; [exact (journal_db J4)|].
    split; [exact (journal_indexes J4)|]. split; [exact Hv|reflexivity].
Qed.

Lemma mark_failed_false : forall env meeting e w r w',
  MeetingPollingService.mark_failed env meeting e w = (r, w') -> r = Ok false.
Proof.
  intros env meeting e w r w' H. unfold MeetingPollingService.mark_failed in H.
  apply bind_run in H. destruct H as [(? & ? & _ & H)|(e' & H & _)].
  - unfold ret in H. now injection H as <- _.
  - apply try_run in H. destruct H as [(? & ? & ?)|(? & ? & _ & H)]; discriminate.
Qed.

Lemma process_meeting_success : forall env meeting w w',
  MeetingPollingService.process_meeting env meeting w = (Ok true, w') ->
  exists mid uid evs,
    doc_id meeting = Ok mid
    /\ Dict.lookup "user_id" meeting = Some (VObjectId uid)
    /\ journal w evs w'
    /\ completed_run mid uid evs
    /\ exists wk body,
         db wk meeting_transcripts = db w meeting_transcripts
         /\ indexes wk = indexes w
         /\ Store.violates wk meeting_transcripts body = false
         /\ Dict.lookup "meeting_id" body = Some (VObjectId mid).
Proof.
  intros env meeting w w' H. unfold MeetingPollingService.process_meeting in H.
  apply try_run in H. destruct H as [(a & H & Ha)|(e & w1 & _ & H)];
    [|apply mark_failed_false in H; discriminate].
  injection Ha as <-.
  unfold MeetingPollingService.process_meeting_body in H.
  apply bind_lift_run in H. destruct H as [(mid & Hmid & H)|(? & _ & ? & _)];
    [|discriminate].
  apply bind_lift_run in H. destruct H as [(uref & Huref & H)|(? & _ & ? & _)];
    [|discriminate].
  apply bind_lift_run in H. destruct H as [(? & _ & H)|(? & _ & ? & _)];
    [|discriminate].
  apply bind_run in H. destruct H as [(? & w1 & Hg & H)|(? & _ & ?)];
    [|discriminate].
  silent Hg.
  apply bind_run in H. destruct H as [(? & w2 & Hu & H)|(? & _ & ?)];
    [|discriminate].
  apply update_status_run in Hu. destruct Hu as (? & now0 & _ & J2).
  apply bind_lift_run in H. destruct H as [(uid & Huid & H)|(? & _ & ? & _)];
    [|discriminate].
  destruct uref; try discriminate. injection Huid as ->.
  apply bind_run in H. destruct H as [(user & w3 & Hf & H)|(? & _ & ?)];
    [|discriminate].
  silent Hf.
  destruct (negb (found user)); [discriminate|].
  apply process_for_user_success in H.
  destruct H as (tr & sm & ai & items & loop & now1 & now2 & J & H1 & H2 & H3 & H4 & H5
                 & wk & body & Hk1 & Hk2 & Hk3 & Hk4).
  exists mid, uid. eexists. split; [exact Hmid|]. split.
  - unfold Dict.item in Huref. destruct (Dict.lookup "user_id" meeting); [|discriminate].
    now injection Huref as ->.
  - split; [|split].
    + exact (journal_trans Hg (journal_trans J2 (journal_trans Hf J))).
    + exists now0, tr, sm, ai, items, loop, now1, now2. simpl.
      repeat split; assumption.
    + pose proof (journal_trans Hg (journal_trans J2 Hf)) as J3. simpl in J3.
      exists wk, body. split; [|split; [|split; [exact Hk3|exact Hk4]]].
      * rewrite Hk1, (journal_db J3). reflexivity.
      * rewrite Hk2. exact (journal_indexes J3).
Qed.

Lemma links_inserted : forall mid uid i items evs c,
  task_links mid uid i items evs -> c <> tasks -> inserted c evs = [].
Proof.
  intros mid uid i items evs c L Hc.
  induction L; auto; destruct c; try congruence; simpl; auto.
Qed.

Lemma links_keep_ids : forall mid uid i items evs,
  task_links mid uid i items evs -> Forall keeps_meeting_ids evs.
Proof. intros mid uid i items evs L. induction L; repeat constructor; auto. Qed.

Lemma links_append : forall mid uid i items evs c,
  task_links mid uid i items evs -> c <> meeting_summaries ->
  Forall (appends_only c) evs.
Proof.
  intros mid uid i items evs c L Hc. induction L; repeat constructor; auto.
Qed.

Lemma links_tasks : forall mid uid i items evs,
  task_links mid uid i items evs ->
  (forall t, In (EvInsert tasks t) evs ->
             exists k item, nth_error items k = Some item
                            /\ created_from mid uid item t)
  /\ (forall q j o now, In (EvSetTaskId q j o now) evs ->
        q = [("meeting_id", VObjectId mid)] /\ i <= j
        /\ exists item t,
            nth_error items (j - i) = Some item
            /\ In (EvInsert tasks t) evs /\ doc_id t = Ok o
            /\ created_from mid uid item t)
  /\ List.length (inserted tasks evs) <= List.length items.
Proof.
  intros mid uid i items evs L.
  induction L as [i|i item items evs L (IH1 & IH2 & IH3)
                   |i item items evs t Ht L (IH1 & IH2 & IH3)
                   |i item items evs t o now Ht Ho L (IH1 & IH2 & IH3)].
  - split; [|split]; simpl; [intros t []|intros q j o now []|lia].
  - split; [|split].
    + intros t Hin. destruct (IH1 t Hin) as (k & it & Hk & Hc).
      exists (S k), it. auto.
    + intros q j o now Hin.
      destruct (IH2 q j o now Hin) as (Hq & Hle & it & t & Hn & Hi & Hd & Hc).
      split; [exact Hq|]. split; [lia|]. exists it, t.
      replace (j - i) with (S (j - S i)) by lia. auto.
    + simpl. lia.
  - split; [|split].
    + intros t' [Heq|Hin].
      * injection Heq as <-. exists 0, item. auto.
      * destruct (IH1 t' Hin) as (k & it & Hk & Hc). exists (S k), it. auto.
    + intros q j o now [Heq|Hin]; [discriminate|].
      destruct (IH2 q j o now Hin) as (Hq & Hle & it & t' & Hn & Hi & Hd & Hc).
      split; [exact Hq|]. split; [lia|]. exists it, t'.
      replace (j - i) with (S (j - S i)) by lia. simpl. auto.
    + simpl. lia.
  - split; [|split].
    + intros t' [Heq|[Heq|Hin]]; [|discriminate|].
      * injection Heq as <-. exists 0, item. auto.
      * destruct (IH1 t' Hin) as (k & it & Hk & Hc). exists (S k), it. auto.
    + intros q j o' now' [Heq|[Heq|Hin]]; [discriminate| |].
      * injection Heq as <- <- <- <-. split; [reflexivity|]. split; [lia|].
        exists item, t. rewrite Nat.sub_diag. simpl. auto.
      * destruct (IH2 q j o' now' Hin) as (Hq & Hle & it & t' & Hn & Hi & Hd & Hc).
        split; [exact Hq|]. split; [lia|]. exists it, t'.
        replace (j - i) with (S (j - S i)) by lia. simpl. auto.
    + simpl. lia.
Qed.

Lemma update_data_processed : forall status now pa em d,
  truthy pa = true ->
  Dict.lookup "processed_at"
              (Dict.update (Meeting.update_data status now pa em) d)
  = Some pa.
Proof.
  intros status now pa em d H. unfold Meeting.update_data. rewrite H.
  destruct (truthy em); cbn;
    rewrite ?lookup_set_neq by discriminate; apply lookup_set_eq.
Qed.

(** X5. A run of [process_meeting] that answers [True] has stored one
    transcript and one summary, both of this meeting, and has left the
    meeting, when it is in the store, in the status 'completed' with
    [processed_at] set to a time. *)
Theorem completed_meeting_is_recorded :
  forall (env : Env) (meeting : dict) (w w' : World),
    MeetingPollingService.process_meeting env meeting w = (Ok true, w') ->
    exists meeting_id evs transcript summary,
      doc_id meeting = Ok meeting_id
      /\ journal w evs w'
      /\ inserted meeting_transcripts evs = [transcript]
      /\ Dict.lookup "meeting_id" transcript = Some (VObjectId meeting_id)
      /\ db w' meeting_transcripts = db w meeting_transcripts ++ [transcript]
      /\ inserted meeting_summaries evs = [summary]
      /\ Dict.lookup "meeting_id" summary = Some (VObjectId meeting_id)
      /\ (present meeting_id (db w) ->
          exists d now,
            stored_meeting w' meeting_id = Some d
            /\ Dict.lookup "processing_status" d = Some (VStr "completed")
            /\ Dict.lookup "processed_at" d = Some (VDatetime now)).
Proof.
  intros env meeting w w' H. apply process_meeting_success in H.
  destruct H as (mid & uid & evs & Hmid & _ & J & (now0 & tr & sm & ai & items
                 & loop & now1 & now2 & -> & H1 & H2 & _ & _ & L) & _).
  exists mid. eexists. exists tr, sm. split; [exact Hmid|]. split; [exact J|].
  assert (Hmt : inserted meeting_transcripts
                  ([EvUpdate meetings (by_id mid)
                      (Meeting.update_data (VStr "processing") now0 VNone VNone);
                    EvInsert meeting_transcripts tr; EvInsert meeting_summaries sm]
                   ++ loop
                   ++ [EvUpdate meetings (by_id mid)
                         (Meeting.update_data (VStr "completed") now2
                                              (VDatetime now1) VNone)]) = [tr]).
  { rewrite !inserted_app. rewrite (links_inserted (c := meeting_transcripts) L)
      by discriminate. reflexivity. }
  split; [exact Hmt|]. split; [exact H1|]. split; [|split; [|split; [exact H2|]]].
  - rewrite (journal_db J), replay_appends, Hmt; [reflexivity|].
    apply Forall_app. split; [repeat constructor; discriminate|].
    apply Forall_app. split; [|repeat constructor; discriminate].
    apply (links_append L). discriminate.
  - rewrite !inserted_app. rewrite (links_inserted (c := meeting_summaries) L)
      by discriminate. reflexivity.
  - intros Hp. unfold stored_meeting. rewrite (journal_db J).
    rewrite app_assoc, replay_app.
    assert (Hp' : present mid
                    (replay ([EvUpdate meetings (by_id mid)
                                (Meeting.update_data (VStr "processing") now0
                                                     VNone VNone);
                              EvInsert meeting_transcripts tr;
                              EvInsert meeting_summaries sm] ++ loop) (db w))).
    { apply present_replay; [|exact Hp]. apply Forall_app. split.
      - constructor; [exact (@update_data_keys _ _ _ _)|repeat constructor].
      - apply (links_keep_ids L). }
    destruct Hp' as [d Hd]. simpl. eexists. exists now1. split; [|split].
    + apply find_update_first; [exact Hd|].
      rewrite matches_update_notin.
      * apply find_some in Hd. apply Hd.
      * intros k [<-|[]]. apply update_data_keys.
    + apply update_data_status.
    + apply update_data_processed. reflexivity.
Qed.

(** X6. In a run of [process_meeting] that answers [True], every task
    created comes from an action item of the summary stored (its title
    is the first 100 characters of the description of the item, its
    source is 'meeting', it belongs to this meeting and is assigned to
    its owner), there are no more tasks than items, and every task id
    written into the summary is written for this meeting, at the index
    of the item the task was created from. *)
Theorem created_tasks_are_linked_to_action_items :
  forall (env : Env) (meeting : dict) (w w' : World),
    MeetingPollingService.process_meeting env meeting w = (Ok true, w') ->
    exists meeting_id user_id evs summary action_items items,
      doc_id meeting = Ok meeting_id
      /\ Dict.lookup "user_id" meeting = Some (VObjectId user_id)
      /\ journal w evs w'
      /\ inserted meeting_summaries evs = [summary]
      /\ Dict.lookup "action_items" summary = Some (py_or action_items (VList []))
      /\ py_iter action_items = Ok items
      /\ (forall t, In t (inserted tasks evs) ->
            exists i item, nth_error items i = Some item
                           /\ created_from meeting_id user_id item t)
      /\ (forall query i o now, In (EvSetTaskId query i o now) evs ->
            query = [("meeting_id", VObjectId meeting_id)]
            /\ exists item t,
                nth_error items i = Some item
                /\ In t (inserted tasks evs) /\ doc_id t = Ok o
                /\ created_from meeting_id user_id item t)
      /\ List.length (inserted tasks evs) <= List.length items.
Proof.
  intros env meeting w w' H. apply process_meeting_success in H.
  destruct H as (mid & uid & evs & Hmid & Huid & J & (now0 & tr & sm & ai & items
                 & loop & now1 & now2 & -> & H1 & H2 & H3 & H4 & L) & _).
  exists mid, uid. eexists. exists sm, ai, items.
  split; [exact Hmid|]. split; [exact Huid|]. split; [exact J|].
  destruct (links_tasks L) as (Ht & Hl & Hn).
  assert (Hins : inserted tasks
                   ([EvUpdate meetings (by_id mid)
                       (Meeting.update_data (VStr "processing") now0 VNone VNone);
                     EvInsert meeting_transcripts tr; EvInsert meeting_summaries sm]
                    ++ loop
                    ++ [EvUpdate meetings (by_id mid)
                          (Meeting.update_data (VStr "completed") now2
                                               (VDatetime now1) VNone)])
                 = inserted tasks loop).
  { rewrite !inserted_app. simpl. now rewrite app_nil_r. }
  assert (Hin : forall t, In t (inserted tasks loop) <-> In (EvInsert tasks t) loop).
  { intros t. unfold inserted. rewrite in_flat_map. split.
    - intros (e & He & Hi). destruct e as [c d| |]; try contradiction.
      destruct c; simpl in Hi; try contradiction.
      destruct Hi as [<-|[]]. exact He.
    - intros Hi. exists (EvInsert tasks t). split; [exact Hi|]. simpl. auto. }
  split; [|split; [exact H3|split; [exact H4|split; [|split]]]].
  - rewrite !inserted_app. rewrite (links_inserted (c := meeting_summaries) L)
      by discriminate. reflexivity.
  - intros t Hi. rewrite Hins in Hi. apply Hin in Hi. exact (Ht t Hi).
  - intros q i o now Hi.
    assert (Hi' : In (EvSetTaskId q i o now) loop).
    { simpl in Hi. destruct Hi as [Hi|[Hi|[Hi|Hi]]]; try discriminate.
      apply in_app_or in Hi. destruct Hi as [Hi|[Hi|[]]]; [exact Hi|discriminate]. }
    destruct (Hl q i o now Hi') as (Hq & _ & it & t & Hnth & Hti & Hd & Hc).
    split; [exact Hq|]. exists it, t. rewrite Nat.sub_0_r in Hnth.
    repeat split; auto. rewrite Hins. now apply Hin.
  - rewrite Hins. exact Hn.
Qed.


Lemma matched_is_found : forall q v d,
  Store.matches (q ++ [("user_id", VObjectId v)]) d = true -> found (Some d) = true.
Proof.
  intros q v d H. unfold Store.matches in H. rewrite forallb_app in H.
  apply andb_prop in H. destruct H as [_ H]. simpl in H.
  destruct d as [|kv d]; [discriminate H|]. reflexivity.
Qed.

Lemma find_by_event_run : forall ce uid w,
  Meeting.find_by_calendar_event_id ce uid w
  = (Ok (find (Store.matches [("calendar_event_id", ce); ("user_id", VObjectId uid)])
              (db w meetings)), w).
Proof. reflexivity. Qed.

Lemma stored_event_skipped : forall env user event n w ce uid d,
  Dict.lookup "calendar_event_id" event = Some ce ->
  doc_id user = Ok uid ->
  fst (Meeting.find_by_calendar_event_id ce uid w) = Ok (Some d) ->
  MeetingPollingService.add_meeting env user event n w = (Ok n, w).
Proof.
  intros env user event n w ce uid d Hce Hid Hf.
  rewrite find_by_event_run in Hf. cbn [fst] in Hf. injection Hf as Hf.
  unfold MeetingPollingService.add_meeting, try_except.
  unfold bind at 1, lift at 1. unfold Dict.item at 1. rewrite Hce.
  unfold bind at 1, lift at 1. rewrite Hid.
  unfold bind at 1. rewrite find_by_event_run, Hf.
  rewrite (@matched_is_found [("calendar_event_id", ce)] uid d).
  - reflexivity.
  - apply find_some in Hf. apply Hf.
Qed.

(** X7. A calendar event is stored once per user: [add_meeting] on an
    event that [find_by_calendar_event_id] finds for the user writes
    nothing and keeps the count; and when [add_meeting] counts the event
    as new, it was not found before, it is stored in the status
    'pending', it is found afterwards, and [add_meeting] on the same
    event writes nothing from then on. *)
Theorem stored_event_is_not_stored_again :
  forall (env : Env) (user event : dict) (n : Z) (w : World) (s : string),
    Dict.lookup "calendar_event_id" event = Some (VStr s) ->
    (forall user_id d,
        doc_id user = Ok user_id ->
        fst (Meeting.find_by_calendar_event_id (VStr s) user_id w) = Ok (Some d) ->
        MeetingPollingService.add_meeting env user event n w = (Ok n, w))
    /\ (forall w1,
          MeetingPollingService.add_meeting env user event n w
          = (Ok (n + 1)%Z, w1) ->
          exists user_id doc,
            doc_id user = Ok user_id
            /\ journal w [EvInsert meetings doc] w1
            /\ Dict.lookup "calendar_event_id" doc = Some (VStr s)
            /\ Dict.lookup "user_id" doc = Some (VObjectId user_id)
            /\ Dict.lookup "processing_status" doc = Some (VStr "pending")
            /\ fst (Meeting.find_by_calendar_event_id (VStr s) user_id w) = Ok None
            /\ (exists d, fst (Meeting.find_by_calendar_event_id (VStr s) user_id w1)
                          = Ok (Some d))
            /\ forall env' n',
                MeetingPollingService.add_meeting env' user event n' w1
                = (Ok n', w1)).
Proof.
  intros env user event n w s Hce. split.
  - intros uid d Hid Hf. now apply stored_event_skipped with (ce := VStr s) (uid := uid) (d := d).
  - intros w1 H. unfold MeetingPollingService.add_meeting in H.
    apply try_run in H. destruct H as [(a & H & Ha)|(e & w2 & _ & H)].
    2:{ unfold ret in H. injection H as H _. lia. }
    injection Ha as <-.
    apply bind_lift_run in H. destruct H as [(ce & Hce' & H)|(? & _ & ? & _)];
      [|discriminate].
    unfold Dict.item in Hce'. rewrite Hce in Hce'. injection Hce' as <-.
    apply bind_lift_run in H. destruct H as [(uid & Hid & H)|(? & _ & ? & _)];
      [|discriminate].
    apply bind_run in H. rewrite find_by_event_run in H.
    destruct H as [(ex & w2 & Hex & H)|(? & Hex & _)]; [|discriminate].
    injection Hex as <- <-.
    destruct (find _ (db w meetings)) as [d|] eqn:Hfind.
    { rewrite (@matched_is_found [("calendar_event_id", VStr s)] uid d) in H
        by (apply find_some in Hfind; apply Hfind).
      unfold ret in H. injection H as H _. lia. }
    simpl found in H. cbn match in H.
    apply bind_lift_run in H. destruct H as [(ce2 & Hce2 & H)|(? & _ & ? & _)];
      [|discriminate].
    unfold Dict.item in Hce2. rewrite Hce in Hce2. injection Hce2 as <-.
    apply bind_lift_run in H. destruct H as [(uid2 & Hid2 & H)|(? & _ & ? & _)];
      [|discriminate].
    rewrite Hid in Hid2. injection Hid2 as <-.
    apply bind_lift_run in H. destruct H as [(ti & _ & H)|(? & _ & ? & _)];
      [|discriminate].
    apply bind_lift_run in H. destruct H as [(de & _ & H)|(? & _ & ? & _)];
      [|discriminate].
    apply bind_lift_run in H. destruct H as [(st & _ & H)|(? & _ & ? & _)];
      [|discriminate].
    apply bind_lift_run in H. destruct H as [(en & _ & H)|(? & _ & ? & _)];
      [|discriminate].
    apply bind_lift_run in H. destruct H as [(att & _ & H)|(? & _ & ? & _)];
      [|discriminate].
    apply bind_lift_run in H. destruct H as [(ml & _ & H)|(? & _ & ? & _)];
      [|discriminate].
    apply bind_run in H. destruct H as [(m & w3 & Hm & H)|(? & _ & ?)];
      [|discriminate].
    apply bind_lift_run in H. destruct H as [(? & _ & H)|(? & _ & ? & _)];
      [|discriminate].
    unfold ret in H. injection H as ->.
    unfold Meeting.create in Hm.
    apply (@insert_doc_run env meetings
             (fun created_at updated_at =>
                [ ("calendar_event_id", VStr s);
                  ("user_id", VObjectId uid);
                  ("title", ti);
                  ("description", py_or de (VStr ""));
                  ("start_time", st);
                  ("end_time", en);
                  ("attendees", py_or att (VList []));
                  ("meet_link", ml);
                  ("recording_url", VStr "");
                  ("recording_id", VStr "");
                  ("processing_status", VStr "pending");
                  ("processed_at", VNone);
                  ("error_message", VNone);
                  ("created_at", VDatetime created_at);
                  ("updated_at", VDatetime updated_at) ])) in Hm.
    destruct Hm as [(? & ? & _)|(o & t1 & t2 & _ & J & _)]; [discriminate|].
    exists uid. eexists. split; [exact Hid|]. split; [exact J|].
    split; [reflexivity|]. split; [reflexivity|]. split; [reflexivity|].
    split; [rewrite find_by_event_run; cbn [fst]; now rewrite Hfind|].
    assert (Hdb : exists d,
               find (Store.matches [("calendar_event_id", VStr s);
                                    ("user_id", VObjectId uid)])
                    (db w1 meetings) = Some d).
    { rewrite (journal_db J). simpl. apply find_snoc_true. cbn.
      now rewrite String.eqb_refl, N.eqb_refl. }
    destruct Hdb as (d & Hd).
    split.
    + exists d. rewrite find_by_event_run. cbn [fst]. now rewrite Hd.
    + intros env' n'.
      apply stored_event_skipped with (ce := VStr s) (uid := uid) (d := d); auto.
      rewrite find_by_event_run. cbn [fst]. now rewrite Hd.
Qed.


Lemma value_eqb_oid : forall v o, value_eqb v (VObjectId o) = true -> v = VObjectId o.
Proof.
  intros v o H. destruct v; try discriminate H. simpl in H.
  apply N.eqb_eq in H. now subst.
Qed.

Lemma post_when_processing : forall env jwt mid w d,
  stored_meeting w mid = Some d ->
  Dict.lookup "user_id" d = Some (VObjectId jwt) ->
  Dict.lookup "processing_status" d = Some (VStr "processing") ->
  forall jwt', exists r,
    MeetingProcess.post env jwt' mid w = (Ok r, w)
    /\ MeetingProcess.resp_thread r = None
    /\ MeetingProcess.resp_status r = (if N.eqb jwt' jwt then 400 else 403)%Z.
Proof.
  intros env jwt mid w d Hd Hu Hs jwt'.
  unfold MeetingProcess.post, try_except, bind, Meeting.find_by_id, Store.find_one.
  unfold stored_meeting, by_id in Hd. rewrite Hd.
  assert (Ht : truthy (VDict d) = true).
  { destruct d; [discriminate Hu|reflexivity]. }
  rewrite Ht. cbn [negb]. unfold lift, Dict.item. rewrite Hu.
  cbn [value_eqb]. rewrite N.eqb_sym.
  destruct (N.eqb jwt' jwt) eqn:E; cbn [negb].
  - unfold Dict.get. rewrite Hs. cbn. eexists. repeat split.
  - eexists. repeat split.
Qed.

(** X8. The manual trigger never raises; it writes nothing and starts no
    run unless it answers 202; and when it answers 202 the requester
    owns the stored meeting, the meeting handed to the background run is
    the one read before the status write, the only write sets the status
    to 'processing', and every request for the meeting on the world it
    leaves starts nothing and is answered 400 to the owner and 403 to
    anyone else. *)
Theorem accepted_process_request_blocks_the_next :
  forall (env : Env) (jwt_identity meeting_id : oid) (w : World),
    let run := MeetingProcess.post env jwt_identity meeting_id w in
    exists r,
      fst run = Ok r
      /\ (MeetingProcess.resp_status r <> 202%Z ->
          snd run = w /\ MeetingProcess.resp_thread r = None)
      /\ (MeetingProcess.resp_status r = 202%Z ->
          exists meeting now,
            stored_meeting w meeting_id = Some meeting
            /\ MeetingProcess.resp_thread r = Some meeting
            /\ Dict.lookup "user_id" meeting = Some (VObjectId jwt_identity)
            /\ journal w [EvUpdate meetings (by_id meeting_id)
                            (Meeting.update_data (VStr "processing") now VNone VNone)]
                       (snd run)
            /\ forall env' jwt_identity',
                exists r',
                  MeetingProcess.post env' jwt_identity' meeting_id (snd run)
                  = (Ok r', snd run)
                  /\ MeetingProcess.resp_thread r' = None
                  /\ MeetingProcess.resp_status r'
                     = (if N.eqb jwt_identity' jwt_identity then 400 else 403)%Z).
Proof.
  intros env jwt mid w run. subst run.
  destruct (MeetingProcess.post env jwt mid w) as [r0 w1] eqn:E. cbn [fst snd].
  unfold MeetingProcess.post in E.
  unfold try_except, bind at 1, Meeting.find_by_id at 1, Store.find_one in E.
  destruct (find (Store.matches [("_id", VObjectId mid)]) (db w meetings))
    as [d|] eqn:Hd.
  2:{ injection E as <- <-. eexists. split; [reflexivity|]. split; [auto|].
      cbn. discriminate. }
  destruct (truthy (VDict d)) eqn:Ht; cbn [negb] in E.
  2:{ injection E as <- <-. eexists. split; [reflexivity|]. split; [auto|].
      cbn. discriminate. }
  unfold bind at 1, lift in E.
  destruct (Dict.item "user_id" d) as [owner|e] eqn:Ho.
  2:{ injection E as <- <-. eexists. split; [reflexivity|]. split; [auto|].
      cbn. discriminate. }
  destruct (value_eqb owner (VObjectId jwt)) eqn:Hown; cbn [negb] in E.
  2:{ injection E as <- <-. eexists. split; [reflexivity|]. split; [auto|].
      cbn. discriminate. }
  destruct (value_eqb (Dict.get "processing_status" VNone d) (VStr "processing")).
  { injection E as <- <-. eexists. split; [reflexivity|]. split; [auto|].
    cbn. discriminate. }
  destruct (Meeting.update_status env mid (VStr "processing") VNone VNone w)
    as [ru w2] eqn:Hu.
  pose proof Hu as Hu'. apply update_status_run in Hu'.
  destruct Hu' as (d1 & now & -> & J).
  unfold bind in E. rewrite Hu in E. unfold ret in E. injection E as <- <-.
  eexists. split; [reflexivity|]. split; [intros H; cbn in H; congruence|].
  intros _. exists d, now. split; [exact Hd|]. split; [reflexivity|].
  apply value_eqb_oid in Hown. subst owner.
  assert (Huid : Dict.lookup "user_id" d = Some (VObjectId jwt)).
  { unfold Dict.item in Ho. destruct (Dict.lookup "user_id" d); [|discriminate].
    now injection Ho as ->. }
  split; [exact Huid|]. split; [exact J|].
  intros env' jwt'.
  apply post_when_processing
    with (d := Dict.update (Meeting.update_data (VStr "processing") now VNone VNone) d).
  - unfold stored_meeting. rewrite (journal_db J).
    change (find (Store.matches (by_id mid))
                 (Store.update_first (Store.matches (by_id mid))
                    (Dict.update (Meeting.update_data (VStr "processing") now
                                                      VNone VNone))
                    (db w meetings))
            = Some (Dict.update (Meeting.update_data (VStr "processing") now
                                                     VNone VNone) d)).
    apply find_update_first; [exact Hd|].
    rewrite matches_update_notin.
    + apply find_some in Hd. apply Hd.
    + intros k [<-|[]]. apply update_data_keys.
  - rewrite lookup_update_notin; [exact Huid|]. cbn. intuition discriminate.
  - apply update_data_status.
Qed.


(** X9. With the unique index on the [meeting_id] of the transcripts, a
    meeting that already has a stored transcript cannot be processed
    again: the [try] block of [process_meeting] never ends with [True],
    and [process_meeting] answers [False]. *)
Theorem stored_transcript_blocks_reprocessing :
  forall (env : Env) (meeting : dict) (meeting_id : oid) (w : World) (t : dict),
    doc_id meeting = Ok meeting_id ->
    In (mkIndex meeting_transcripts ["meeting_id"] true) (indexes w) ->
    In t (db w meeting_transcripts) ->
    Dict.lookup "meeting_id" t = Some (VObjectId meeting_id) ->
    fst (MeetingPollingService.process_meeting_body env meeting w) <> Ok true
    /\ fst (MeetingPollingService.process_meeting env meeting w) = Ok false.
Proof.
  intros env meeting mid w t Hid Hix Ht Hm.
  assert (Hno : forall w', MeetingPollingService.process_meeting env meeting w
                           <> (Ok true, w')).
  { intros w' H. apply process_meeting_success in H.
    destruct H as (mid' & uid & evs & Hmid & _ & _ & _ & wk & body & Hdb & Hi & Hv & Hb).
    rewrite Hid in Hmid. injection Hmid as <-.
    unfold Store.violates in Hv. rewrite Hi, Hdb in Hv.
    assert (Hex : existsb
                    (fun ix => ix_unique ix
                               && collection_eqb (ix_collection ix) meeting_transcripts
                               && existsb (fun d' =>
                                             Store.keys_eqb
                                               (Store.key_of (ix_keys ix) d')
                                               (Store.key_of (ix_keys ix) body))
                                          (db w meeting_transcripts))
                    (indexes w) = true).
    { apply existsb_exists. eexists. split; [exact Hix|]. cbn.
      apply existsb_exists. exists t. split; [exact Ht|].
      unfold Store.field, Dict.get. rewrite Hm, Hb. cbn.
      now rewrite N.eqb_refl. }
    rewrite Hex in Hv. discriminate. }
  destruct (MeetingPollingService.process_meeting env meeting w) as [r w'] eqn:E.
  unfold MeetingPollingService.process_meeting, try_except in E.
  destruct (MeetingPollingService.process_meeting_body env meeting w)
    as [[[|]|e] wb] eqn:Eb; cbn [fst].
  - injection E as <- <-. exfalso. exact (Hno wb eq_refl).
  - injection E as <- _. split; [discriminate|reflexivity].
  - apply mark_failed_false in E. split; [discriminate|exact E].
Qed.

(** The standup with its notes on the Drive completes. *)
Lemma completed_meeting_is_recorded_witness :
  exists w' d,
    MeetingPollingService.process_meeting
      Fixture.notes_env (Fixture.standup "pending" VNone)
      (Fixture.world [Fixture.standup "pending" VNone] []) = (Ok true, w')
    /\ stored_meeting w' 10%N = Some d
    /\ Dict.lookup "processing_status" d = Some (VStr "completed")
    /\ List.length (db w' meeting_transcripts) = 1.
Proof.
  destruct (MeetingPollingService.process_meeting
              Fixture.notes_env (Fixture.standup "pending" VNone)
              (Fixture.world [Fixture.standup "pending" VNone] []))
    as [r w'] eqn:E.
  assert (Hr : r = Ok true) by (cbv in E; injection E as <- _; reflexivity).
  subst r.
  destruct (@completed_meeting_is_recorded _ _ _ _ E)
    as (mid & evs & tr & sm & Hid & _ & _ & _ & Hdb & _ & _ & Hst).
  cbv in Hid. injection Hid as <-.
  destruct Hst as (d & now & Hd & Hs & _); [eexists; reflexivity|].
  exists w', d. split; [reflexivity|]. split; [exact Hd|]. split; [exact Hs|].
  rewrite Hdb. reflexivity.
Defined.

Lemma created_tasks_are_linked_to_action_items_witness :
  exists w' evs,
    MeetingPollingService.process_meeting
      Fixture.notes_env (Fixture.standup "pending" VNone)
      (Fixture.world [Fixture.standup "pending" VNone] []) = (Ok true, w')
    /\ journal (Fixture.world [Fixture.standup "pending" VNone] []) evs w'
    /\ exists items,
        List.length (inserted tasks evs) <= List.length items
        /\ forall t, In t (inserted tasks evs) ->
                     exists i item, nth_error items i = Some item
                                    /\ created_from 10%N 1%N item t.
Proof.
  destruct (MeetingPollingService.process_meeting
              Fixture.notes_env (Fixture.standup "pending" VNone)
              (Fixture.world [Fixture.standup "pending" VNone] []))
    as [r w'] eqn:E.
  assert (Hr : r = Ok true) by (cbv in E; injection E as <- _; reflexivity).
  subst r.
  destruct (@created_tasks_are_linked_to_action_items _ _ _ _ E)
    as (mid & uid & evs & sm & ai & items & Hid & Hu & J & _ & _ & _ & Ht & _ & Hn).
  cbv in Hid. injection Hid as <-. cbv in Hu. injection Hu as <-.
  exists w', evs. split; [reflexivity|]. split; [exact J|].
  exists items. split; [exact Hn|exact Ht].
Defined.

(** An event of the calendar is added to Alice's meetings once. *)
Lemma stored_event_is_not_stored_again_witness :
  Dict.lookup "calendar_event_id" Fixture.calendar_event = Some (VStr "evt-2")
  /\ exists w1,
      MeetingPollingService.add_meeting
        Fixture.empty_env Fixture.alice Fixture.calendar_event 0%Z
        Fixture.empty_world = (Ok 1%Z, w1)
      /\ MeetingPollingService.add_meeting
           Fixture.empty_env Fixture.alice Fixture.calendar_event 1%Z w1
         = (Ok 1%Z, w1).
Proof.
  split; [reflexivity|].
  destruct (MeetingPollingService.add_meeting
              Fixture.empty_env Fixture.alice Fixture.calendar_event 0%Z
              Fixture.empty_world) as [r w1] eqn:E.
  assert (Hr : r = Ok 1%Z) by (cbv in E; injection E as <- _; reflexivity).
  subst r. exists w1. split; [reflexivity|].
  destruct (@stored_event_is_not_stored_again
              Fixture.empty_env Fixture.alice Fixture.calendar_event 0%Z
              Fixture.empty_world "evt-2" eq_refl) as (_ & Hnew).
  destruct (Hnew w1 E) as (uid & doc & _ & _ & _ & _ & _ & _ & _ & Hagain).
  apply Hagain.
Defined.

(** The standup whose transcript is stored fails again, although its
    notes are on the Drive. *)
Lemma stored_transcript_blocks_reprocessing_witness :
  doc_id (Fixture.standup "failed" VNone) = Ok 10%N
  /\ In (mkIndex meeting_transcripts ["meeting_id"] true)
        (indexes Fixture.world_with_transcript)
  /\ fst (MeetingPollingService.process_meeting
            Fixture.notes_env (Fixture.standup "failed" VNone)
            Fixture.world_with_transcript) = Ok false.
Proof.
  split; [reflexivity|]. split; [cbn; tauto|].
  eapply (@stored_transcript_blocks_reprocessing
            Fixture.notes_env (Fixture.standup "failed" VNone) 10%N
            Fixture.world_with_transcript
            [ ("_id", VObjectId 20%N); ("meeting_id", VObjectId 10%N);
              ("user_id", VObjectId 1%N); ("transcript_text", VStr "notes") ]).
  - reflexivity.
  - cbn. tauto.
  - cbn. tauto.
  - reflexivity.
Defined.

(* ------------------------------------------------------------------ *)
(** * Texts: the sender of a mail, the fence, the two normalizers       *)
(* ------------------------------------------------------------------ *)

Lemma rev_append_rev_append : forall a acc b,
  Text.rev_append (Text.rev_append a acc) b
  = Text.rev_append acc (String.append a b).
Proof.
  induction a as [|c a IH]; intros acc b; simpl; [reflexivity|].
  rewrite IH. reflexivity.
Qed.

Lemma append_nil_r : forall s : string, String.append s "" = s.
Proof. induction s as [|c s IH]; simpl; [reflexivity|now rewrite IH]. Qed.

Lemma append_assoc : forall a b c : string,
  String.append (String.append a b) c = String.append a (String.append b c).
Proof. induction a as [|x a IH]; intros; simpl; [reflexivity|now rewrite IH]. Qed.

Lemma rev_rev_append : forall a acc,
  Text.rev (Text.rev_append a acc) = Text.rev_append acc a.
Proof.
  intros a acc. unfold Text.rev. rewrite rev_append_rev_append.
  now rewrite append_nil_r.
Qed.

Lemma lazy_group_reads : forall a rest acc,
  occurs ">" a = false -> occurs "010" a = false ->
  GmailService.lazy_group (String.append a (String ">" rest)) acc
  = Some (Text.rev (Text.rev_append a acc)).
Proof.
  induction a as [|c a IH]; intros rest acc H1 H2; simpl.
  - reflexivity.
  - simpl in H1, H2. apply orb_false_elim in H1. destruct H1 as [H1 H1'].
    apply orb_false_elim in H2. destruct H2 as [H2 H2'].
    rewrite H1, H2. now apply IH.
Qed.

Lemma search_angle_skips : forall name s,
  occurs "<" name = false ->
  GmailService.search_angle (String.append name s) = GmailService.search_angle s.
Proof.
  induction name as [|c name IH]; intros s H; simpl; [reflexivity|].
  simpl in H. apply orb_false_elim in H. destruct H as [H H'].
  rewrite H. now apply IH.
Qed.

Lemma search_angle_none : forall s,
  occurs "<" s = false -> GmailService.search_angle s = None.
Proof.
  induction s as [|c s IH]; intros H; simpl; [reflexivity|].
  simpl in H. apply orb_false_elim in H. destruct H as [H H'].
  rewrite H. now apply IH.
Qed.

(** X10. [extract_sender_email] reads the address between the first pair of
    angle brackets: for a header made of a display name with no [<], an
    address in brackets that is not empty and holds no [>] and no line
    feed, and anything after, the answer is the address; and a header
    with no [<] at all is answered stripped of its white space. *)
Theorem extract_sender_email_reads_the_address :
  forall (name addr rest : string),
    occurs "<" name = false ->
    addr <> "" ->
    occurs ">" addr = false ->
    occurs "010" addr = false ->
    GmailService.extract_sender_email
      (String.append name (String "<" (String.append addr (String ">" rest))))
    = addr
    /\ (occurs "<" rest = false ->
        GmailService.extract_sender_email (String.append name rest)
        = Text.strip (String.append name rest)).
Proof.
  intros name addr rest Hname Hne Hgt Hnl. split.
  - unfold GmailService.extract_sender_email.
    rewrite search_angle_skips by exact Hname.
    destruct addr as [|c1 addr]; [congruence|].
    simpl in Hgt, Hnl.
    apply orb_false_elim in Hgt. destruct Hgt as [_ Hgt].
    apply orb_false_elim in Hnl. destruct Hnl as [Hc1 Hnl].
    cbn [String.append GmailService.search_angle Ascii.eqb Bool.eqb].
    rewrite Hc1.
    rewrite lazy_group_reads by assumption.
    now rewrite rev_rev_append.
  - intros Hrest. unfold GmailService.extract_sender_email.
    rewrite search_angle_skips by exact Hname.
    rewrite search_angle_none by exact Hrest.
    reflexivity.
Qed.


Lemma rev_append_app : forall a acc,
  Text.rev_append a acc = String.append (Text.rev a) acc.
Proof.
  induction a as [|c a IH]; intros acc; simpl; [reflexivity|].
  unfold Text.rev. simpl. rewrite IH, (IH (String c "")), append_assoc.
  reflexivity.
Qed.

Lemma rev_app : forall a b,
  Text.rev (String.append a b) = String.append (Text.rev b) (Text.rev a).
Proof.
  induction a as [|c a IH]; intros b; simpl.
  - now rewrite append_nil_r.
  - unfold Text.rev at 1 3. simpl. rewrite !rev_append_app, IH, append_assoc.
    reflexivity.
Qed.

Lemma rev_involutive : forall s, Text.rev (Text.rev s) = s.
Proof. intros s. unfold Text.rev at 2. now rewrite rev_rev_append. Qed.

Lemma lstrip_blank_app : forall ws s,
  Text.lstrip ws = "" -> Text.lstrip (String.append ws s) = Text.lstrip s.
Proof.
  induction ws as [|c ws IH]; intros s H; simpl; [reflexivity|].
  simpl in H. destruct (Text.isspace c); [now apply IH|discriminate].
Qed.

Lemma lstrip_blank_rev_append : forall a acc,
  Text.lstrip a = "" -> Text.lstrip acc = "" ->
  Text.lstrip (Text.rev_append a acc) = "".
Proof.
  induction a as [|c a IH]; intros acc Ha Hacc; simpl; [exact Hacc|].
  simpl in Ha. destruct (Text.isspace c) eqn:E; [|discriminate].
  apply IH; [exact Ha|]. simpl. now rewrite E.
Qed.

Lemma lstrip_blank_rev : forall ws,
  Text.lstrip ws = "" -> Text.lstrip (Text.rev ws) = "".
Proof. intros ws H. now apply lstrip_blank_rev_append. Qed.

Lemma drop_prefix_app : forall p r, Text.drop_prefix p (String.append p r) = Some r.
Proof.
  induction p as [|c p IH]; intros r; simpl; [reflexivity|].
  now rewrite Ascii.eqb_refl.
Qed.

(** A text between blanks that starts and ends with no white space is
    what [strip] leaves. *)
Lemma strip_core : forall before after x f xs l sx,
  Text.lstrip before = "" -> Text.lstrip after = "" ->
  x = String f xs -> Text.rev x = String l sx ->
  Text.isspace f = false -> Text.isspace l = false ->
  Text.strip (String.append before (String.append x after)) = x.
Proof.
  intros before after x f xs l sx Hb Ha Hx Hr Hf Hl.
  unfold Text.strip, Text.rstrip.
  rewrite lstrip_blank_app by exact Hb.
  assert (H1 : Text.lstrip (String.append x after) = String.append x after).
  { rewrite Hx. simpl. now rewrite Hf. }
  rewrite H1, rev_app, lstrip_blank_app by (now apply lstrip_blank_rev).
  rewrite Hr. simpl. rewrite Hl, <- Hr. apply rev_involutive.
Qed.

Lemma bare_ends : forall body,
  bare body = true ->
  exists f xs l sx,
    body = String f xs /\ Text.rev body = String l sx
    /\ Text.isspace f = false /\ Ascii.eqb f "`" = false
    /\ Text.isspace l = false /\ Ascii.eqb l "`" = false.
Proof.
  intros body H. unfold bare in H.
  destruct body as [|f xs]; [discriminate|].
  destruct (Text.rev (String f xs)) as [|l sx] eqn:E; [discriminate|].
  apply andb_prop in H. destruct H as [H H4].
  apply andb_prop in H. destruct H as [H H3].
  apply andb_prop in H. destruct H as [H1 H2].
  apply negb_true_iff in H1, H2, H3, H4.
  exists f, xs, l, sx. repeat split; assumption.
Qed.

Lemma strip_bare : forall body, bare body = true -> Text.strip body = body.
Proof.
  intros body H. destruct (@bare_ends _ H) as (f & xs & l & sx & Hb & Hr & Hf & _ & Hl & _).
  rewrite <- (append_nil_r body) at 1.
  change (String.append body "") with (String.append "" (String.append body "")).
  now apply strip_core with (f := f) (xs := xs) (l := l) (sx := sx).
Qed.

Lemma no_fence_at_start : forall fence f xs,
  Ascii.eqb f "`" = false ->
  Text.sub_leading (String "`" fence) (String f xs) = String f xs.
Proof.
  intros fence f xs H. unfold Text.sub_leading. cbn [Text.drop_prefix].
  rewrite Ascii.eqb_sym, H. reflexivity.
Qed.

Lemma no_fence_at_end : forall s l sx,
  Text.rev s = String l sx -> Text.isspace l = false -> Ascii.eqb l "`" = false ->
  Text.sub_trailing_fence s = s.
Proof.
  intros s l sx Hr Hs Hl. unfold Text.sub_trailing_fence. rewrite Hr.
  destruct l as [[] [] [] [] [] [] [] []]; try reflexivity; discriminate.
Qed.

Lemma fence_at_end : forall body gap l sx,
  Text.rev body = String l sx -> Text.isspace l = false ->
  Text.lstrip gap = "" ->
  Text.sub_trailing_fence (String.append body (String.append gap "```")) = body.
Proof.
  intros body gap l sx Hr Hl Hg. unfold Text.sub_trailing_fence.
  rewrite !rev_app. cbn [Text.rev Text.rev_append String.append].
  rewrite lstrip_blank_app by (now apply lstrip_blank_rev).
  rewrite Hr. simpl Text.lstrip. rewrite Hl, <- Hr. apply rev_involutive.
Qed.

(** The unwrapped body of a fenced text, once the opening fence is gone. *)
Lemma clean_after_fence : forall gap1 body gap2,
  Text.lstrip gap1 = "" -> Text.lstrip gap2 = "" -> bare body = true ->
  Text.strip
    (Text.sub_trailing_fence
       (Text.sub_leading "```"
          (Text.lstrip (String.append gap1
                          (String.append body (String.append gap2 "```"))))))
  = body.
Proof.
  intros gap1 body gap2 H1 H2 Hb.
  destruct (@bare_ends _ Hb) as (f & xs & l & sx & Hbody & Hr & Hf & Hf' & Hl & Hl').
  rewrite lstrip_blank_app by exact H1.
  assert (E : Text.lstrip (String.append body (String.append gap2 "```"))
              = String.append body (String.append gap2 "```")).
  { rewrite Hbody. simpl. now rewrite Hf. }
  rewrite E.
  assert (E2 : Text.sub_leading "```" (String.append body (String.append gap2 "```"))
               = String.append body (String.append gap2 "```")).
  { rewrite Hbody. simpl String.append. now apply no_fence_at_start. }
  rewrite E2, (@fence_at_end body gap2 _ _ Hr Hl H2).
  now apply strip_bare.
Qed.

Lemma fenced_strip : forall before after fence inner,
  Text.lstrip before = "" -> Text.lstrip after = "" ->
  Text.strip (String.append before
                (String.append (String "`" (String.append fence
                                  (String.append inner "```"))) after))
  = String "`" (String.append fence (String.append inner "```")).
Proof.
  intros before after fence inner Hb Ha.
  set (x := String "`" (String.append fence (String.append inner "```"))).
  assert (Hr : exists sx, Text.rev x = String "`" sx).
  { unfold x. change (String "`" (String.append fence (String.append inner "```")))
      with (String.append "`" (String.append fence (String.append inner "```"))).
    rewrite !rev_app. cbn. eauto. }
  destruct Hr as (sx & Hr).
  apply strip_core with (f := "`"%char)
                        (xs := String.append fence (String.append inner "```"))
                        (l := "`"%char) (sx := sx); auto.
Qed.

(** X11. The four lines that remove the markdown fence give back the body
    as it is: for a body that neither starts nor ends with white space
    or a backtick, wrapped in a fence that opens with three backticks
    and json, or with three backticks alone (not followed at once by a
    j), with any white space around the fence and between the fence and
    the body; and a body with no fence is only stripped. *)
Theorem clean_unwraps_a_fenced_response :
  forall (before gap1 body gap2 after : string),
    Text.lstrip before = "" -> Text.lstrip gap1 = "" ->
    Text.lstrip gap2 = "" -> Text.lstrip after = "" ->
    bare body = true ->
    GeminiService.clean
      (String.append before
         (String.append "```json"
            (String.append gap1
               (String.append body
                  (String.append gap2 (String.append "```" after))))))
    = body
    /\ (Text.drop_prefix "j" (String.append gap1 body) = None ->
        GeminiService.clean
          (String.append before
             (String.append "```"
                (String.append gap1
                   (String.append body
                      (String.append gap2 (String.append "```" after))))))
        = body)
    /\ GeminiService.clean (String.append before (String.append body after))
       = body.
Proof.
  intros before gap1 body gap2 after Hb H1 H2 Ha Hbare.
  destruct (@bare_ends _ Hbare) as (f & xs & l & sx & Hbody & Hr & Hf & Hf' & Hl & Hl').
  split; [|split].
  - unfold GeminiService.clean.
    replace (String.append before
               (String.append "```json"
                  (String.append gap1
                     (String.append body
                        (String.append gap2 (String.append "```" after))))))
      with (String.append before
              (String.append
                 (String "`" (String.append "``json"
                    (String.append
                       (String.append gap1 (String.append body gap2)) "```")))
                 after))
      by (cbn [String.append]; now rewrite !append_assoc).
    rewrite fenced_strip by assumption.
    change (String "`" (String.append "``json"
              (String.append (String.append gap1 (String.append body gap2)) "```")))
      with (String.append "```json"
              (String.append (String.append gap1 (String.append body gap2)) "```")).
    unfold Text.sub_leading at 2. rewrite drop_prefix_app.
    rewrite !append_assoc. now apply clean_after_fence.
  - intros Hj. unfold GeminiService.clean.
    replace (String.append before
               (String.append "```"
                  (String.append gap1
                     (String.append body
                        (String.append gap2 (String.append "```" after))))))
      with (String.append before
              (String.append
                 (String "`" (String.append "``"
                    (String.append
                       (String.append gap1 (String.append body gap2)) "```")))
                 after))
      by (cbn [String.append]; now rewrite !append_assoc).
    rewrite fenced_strip by assumption.
    assert (Hnj : Text.sub_leading "```json"
                    (String "`" (String.append "``"
                       (String.append
                          (String.append gap1 (String.append body gap2)) "```")))
                  = String "`" (String.append "``"
                       (String.append
                          (String.append gap1 (String.append body gap2)) "```"))).
    { unfold Text.sub_leading. cbn [String.append Text.drop_prefix].
      rewrite !Ascii.eqb_refl. rewrite !append_assoc.
      destruct (String.append gap1 (String.append body (String.append gap2 "```")))
        as [|c r] eqn:E; [reflexivity|].
      assert (Hc : Ascii.eqb "j" c = false).
      { destruct gap1 as [|g gap1].
        - rewrite Hbody in E, Hj. cbn [String.append] in E.
          cbn [String.append Text.drop_prefix] in Hj.
          injection E as E1 E2. subst c.
          destruct (Ascii.eqb "j" f); [discriminate|reflexivity].
        - cbn [String.append] in E. cbn [String.append Text.drop_prefix] in Hj.
          injection E as E1 E2. subst c.
          destruct (Ascii.eqb "j" g); [discriminate|reflexivity]. }
      cbn [Text.drop_prefix]. now rewrite Hc. }
    rewrite Hnj.
    change (String "`" (String.append "``"
              (String.append (String.append gap1 (String.append body gap2)) "```")))
      with (String.append "```"
              (String.append (String.append gap1 (String.append body gap2)) "```")).
    unfold Text.sub_leading at 1. rewrite drop_prefix_app.
    rewrite !append_assoc.
    pose proof (@clean_after_fence gap1 body gap2 H1 H2 Hbare) as Hc.
    rewrite lstrip_blank_app in Hc |- * by exact H1.
    assert (E : Text.lstrip (String.append body (String.append gap2 "```"))
                = String.append body (String.append gap2 "```")).
    { rewrite Hbody. simpl. now rewrite Hf. }
    rewrite E in Hc |- *.
    assert (E2 : Text.sub_leading "```" (String.append body (String.append gap2 "```"))
                 = String.append body (String.append gap2 "```")).
    { rewrite Hbody. simpl String.append. now apply no_fence_at_start. }
    rewrite E2 in Hc. exact Hc.
  - unfold GeminiService.clean.
    rewrite (@strip_core before after body _ _ _ _ Hb Ha Hbody Hr Hf Hl).
    rewrite Hbody at 1 2. rewrite !no_fence_at_start by exact Hf'.
    rewrite <- Hbody.
    rewrite (@no_fence_at_end body _ _ Hr Hl Hl').
    now apply strip_bare.
Qed.


Lemma validate_task_dropped : forall t,
  GeminiService.validate_task t = Ok None -> complete t = false.
Proof.
  intros t H. destruct t as [| | | | |l|d| |]; try discriminate H.
  unfold GeminiService.validate_task in H. cbn [py_get result_bind] in H.
  unfold complete. cbn [field_of].
  destruct (truthy (Dict.get "title" VNone d)) eqn:Ht; [|reflexivity].
  destruct (truthy (Dict.get "description" VNone d)) eqn:Hd; [|reflexivity].
  exfalso. cbn [negb] in H.
  destruct (GeminiService.in_valid_priorities (Dict.get "priority" VNone d));
    cbn [result_bind py_setitem py_get] in H;
    match type of H with
    | context [truthy ?x] => destruct (truthy x)
    end; cbn [result_bind py_item py_setitem] in H;
    repeat match type of H with
           | context [Dict.item ?k ?d'] =>
               destruct (Dict.item k d'); cbn [result_bind] in H
           | context [Strptime.strptime ?x] =>
               destruct (Strptime.strptime x) as [?|e0]; cbn [result_bind py_setitem] in H
           | context [is_value_error ?e0] =>
               destruct (is_value_error e0); cbn [result_bind py_setitem] in H
           end; discriminate H.
Qed.

Lemma validate_tasks_filter : forall candidates validated,
  GeminiService.validate_tasks candidates = Ok validated ->
  Forall2 (fun t t' => GeminiService.validate_task t = Ok (Some t'))
          (filter complete candidates) validated.
Proof.
  induction candidates as [|t candidates IH]; intros validated H; simpl in H.
  - inversion H. constructor.
  - destruct (GeminiService.validate_task t) as [[t'|]|e] eqn:Ht;
      cbn [result_bind] in H; try discriminate;
      destruct (GeminiService.validate_tasks candidates) as [vs|e] eqn:Hvs;
      cbn [result_bind] in H; try discriminate;
      inversion H; subst validated; clear H;
      specialize (IH vs eq_refl); simpl.
    + destruct (validate_task_kept _ Ht) as (_ & _ & _ & _ & H1 & H2).
      unfold complete. rewrite H1, H2. simpl. constructor; assumption.
    + rewrite (validate_task_dropped _ Ht). exact IH.
Qed.

Lemma validate_tasks_all : forall candidates validated t,
  GeminiService.validate_tasks candidates = Ok validated -> In t candidates ->
  exists r, GeminiService.validate_task t = Ok r.
Proof.
  induction candidates as [|t0 candidates IH]; intros validated t H Hin;
    simpl in H; [contradiction|].
  destruct (GeminiService.validate_task t0) as [r0|e] eqn:Ht;
    cbn [result_bind] in H; [|discriminate].
  destruct (GeminiService.validate_tasks candidates) as [vs|e] eqn:Hvs;
    cbn [result_bind] in H; [|discriminate].
  destruct Hin as [<-|Hin]; [eauto|]. eapply IH; eauto.
Qed.

Lemma validate_task_ill_dated : forall t,
  complete t = true ->
  truthy (field_of "deadline" t) = true ->
  (forall s, field_of "deadline" t <> VStr s) ->
  exists e, GeminiService.validate_task t = Raise e.
Proof.
  intros t Hc Ht Hs. destruct t as [| | | | |l|d| |]; try discriminate Hc.
  unfold complete in Hc. cbn [field_of] in *.
  apply andb_prop in Hc. destruct Hc as [H1 H2].
  unfold GeminiService.validate_task. cbn [py_get result_bind].
  rewrite H1, H2. cbn [negb].
  set (d1 := if GeminiService.in_valid_priorities (Dict.get "priority" VNone d)
             then d else Dict.set "priority" (VStr "medium") d).
  assert (E1 : (if GeminiService.in_valid_priorities (Dict.get "priority" VNone d)
                then Ok (VDict d)
                else py_setitem (VDict d) "priority" (VStr "medium"))
               = Ok (VDict d1)).
  { unfold d1. destruct (GeminiService.in_valid_priorities _); reflexivity. }
  rewrite E1. cbn [result_bind py_get py_item].
  assert (Hdl : Dict.get "deadline" VNone d1 = Dict.get "deadline" VNone d).
  { unfold d1. destruct (GeminiService.in_valid_priorities _); auto.
    apply get_set_neq. discriminate. }
  rewrite Hdl, Ht.
  rewrite <- Hdl in Ht. rewrite (item_of_truthy_get _ _ Ht), Hdl.
  cbn [result_bind].
  destruct (Dict.get "deadline" VNone d) eqn:E; cbn; eauto.
  exfalso. exact (Hs _ eq_refl).
Qed.

(** X12. What the email normalizer returns. When it returns a dict, the
    response was an object whose [has_tasks] is truthy, the tasks of the
    dict are the candidates that have a title and a description, in
    their order, each normalized, and the dict is exactly the two flags,
    these tasks, and the title, description, priority and deadline of
    the first of them. It returns [None] when [has_tasks] is falsy, when
    no candidate has both a title and a description, when some candidate
    is not an object, and when some candidate with a title and a
    description has a deadline that is truthy and not a text. *)
Theorem parsed_tasks_are_the_complete_candidates :
  forall (env : Env) (text : string),
    (forall r,
        GeminiService._parse_gemini_response env text = Some r ->
        exists data candidates first rest,
          json_loads env (GeminiService.clean text) = Ok (VDict data)
          /\ truthy (Dict.get "has_tasks" (VBool false) data) = true
          /\ Dict.get "tasks" (VList []) data = VList candidates
          /\ Forall2 (fun t t' => GeminiService.validate_task t = Ok (Some t'))
                     (filter complete candidates) (first :: rest)
          /\ r = [ ("has_task", VBool true);
                   ("has_tasks", VBool true);
                   ("tasks", VList (first :: rest));
                   ("title", field_of "title" first);
                   ("description", field_of "description" first);
                   ("priority", field_of "priority" first);
                   ("deadline", field_of "deadline" first) ])
    /\ (forall data candidates,
           json_loads env (GeminiService.clean text) = Ok (VDict data) ->
           Dict.get "tasks" (VList []) data = VList candidates ->
           (truthy (Dict.get "has_tasks" (VBool false) data) = false
            \/ filter complete candidates = []
            \/ (exists t, In t candidates /\ forall d, t <> VDict d)
            \/ (exists t, In t candidates /\ complete t = true
                          /\ truthy (field_of "deadline" t) = true
                          /\ forall s, field_of "deadline" t <> VStr s)) ->
           GeminiService._parse_gemini_response env text = None).
Proof.
  intros env text. split.
  - intros r H.
    unfold GeminiService._parse_gemini_response,
      GeminiService.parse_gemini_response_body in H.
    destruct (json_loads env (GeminiService.clean text)) as [v|e] eqn:Hj;
      cbn [result_bind] in H; [|discriminate].
    destruct v as [| | | | |l|data| |]; try discriminate H.
    destruct (truthy (Dict.get "has_tasks" (VBool false) data)) eqn:Hh;
      [|discriminate].
    cbn [negb] in H.
    destruct (Dict.get "tasks" (VList []) data) as [| | | | |[|t ts]|d'| |] eqn:Ht;
      try discriminate H.
    destruct (GeminiService.validate_tasks (t :: ts)) as [validated|e] eqn:Hv;
      cbn [result_bind] in H; [|discriminate].
    destruct validated as [|first rest]; [discriminate|].
    pose proof (validate_tasks_filter _ Hv) as HF.
    assert (Hfirst : exists t0 d, GeminiService.validate_task t0 = Ok (Some (VDict d))
                                  /\ first = VDict d).
    { inversion HF as [|t0 f0 l0 l1 H0 _ E1 E2]; subst.
      destruct t0 as [| | | | |l|d0| |]; try discriminate H0.
      pose proof H0 as H0'.
      unfold GeminiService.validate_task in H0. cbn [py_get result_bind] in H0.
      destruct (negb (truthy (Dict.get "title" VNone d0))); [discriminate|].
      destruct (negb (truthy (Dict.get "description" VNone d0))); [discriminate|].
      destruct (GeminiService.in_valid_priorities (Dict.get "priority" VNone d0));
        cbn [result_bind py_setitem py_get] in H0;
        match type of H0 with
        | context [truthy ?x] => destruct (truthy x)
        end; cbn [result_bind py_item py_setitem] in H0;
        repeat match type of H0 with
               | context [Dict.item ?k ?d'] =>
                   destruct (Dict.item k d'); cbn [result_bind] in H0
               | context [Strptime.strptime ?x] =>
                   destruct (Strptime.strptime x) as [?|e0];
                   cbn [result_bind py_setitem] in H0
               | context [is_value_error ?e0] =>
                   destruct (is_value_error e0); cbn [result_bind py_setitem] in H0
               end; try discriminate H0;
        injection H0 as <-; eauto. }
    destruct Hfirst as (t0 & d & Hv0 & ->).
    cbn [py_item] in H. unfold Dict.item in H.
    destruct (Dict.lookup "title" d) as [x1|] eqn:E1; cbn [result_bind] in H;
      [|discriminate].
    destruct (Dict.lookup "description" d) as [x2|] eqn:E2; cbn [result_bind] in H;
      [|discriminate].
    destruct (Dict.lookup "priority" d) as [x3|] eqn:E3; cbn [result_bind] in H;
      [|discriminate].
    destruct (Dict.lookup "deadline" d) as [x4|] eqn:E4; cbn [result_bind] in H;
      [|discriminate].
    injection H as <-.
    exists data, (t :: ts), (VDict d), rest.
    split; [reflexivity|]. split; [exact Hh|]. split; [exact Ht|].
    split; [exact HF|].
    cbn [field_of]. unfold Dict.get. now rewrite E1, E2, E3, E4.
  - intros data candidates Hj Ht Hcase.
    unfold GeminiService._parse_gemini_response,
      GeminiService.parse_gemini_response_body.
    rewrite Hj. cbn [result_bind].
    destruct (truthy (Dict.get "has_tasks" (VBool false) data)) eqn:Hh;
      [|reflexivity].
    cbn [negb]. rewrite Ht.
    destruct candidates as [|t ts]; [reflexivity|].
    destruct (GeminiService.validate_tasks (t :: ts)) as [validated|e] eqn:Hv;
      cbn [result_bind]; [|reflexivity].
    destruct validated as [|first rest]; [reflexivity|].
    exfalso.
    destruct Hcase as [Hc|[Hc|[(t0 & Hin & Hnd)|(t0 & Hin & Hc & Htd & Hs)]]].
    + discriminate.
    + pose proof (validate_tasks_filter _ Hv) as HF. rewrite Hc in HF.
      inversion HF.
    + destruct (validate_tasks_all _ _ Hv Hin) as (r0 & Hr0).
      destruct t0 as [| | | | |l|d0| |]; try discriminate Hr0.
      exact (Hnd d0 eq_refl).
    + destruct (validate_tasks_all _ _ Hv Hin) as (r0 & Hr0).
      destruct (validate_task_ill_dated _ Hc Htd Hs) as (e & He).
      congruence.
Qed.


Lemma normalize_action_item_frame : forall i i',
  GeminiService.normalize_action_item i = Ok i' ->
  (exists d d', i = VDict d /\ i' = VDict d')
  /\ forall k, k <> "priority" -> k <> "deadline" ->
               field_of k i' = field_of k i.
Proof.
  intros i i' H. destruct i as [| | | | |l|d| |]; try discriminate H.
  unfold GeminiService.normalize_action_item in H. cbn [py_get result_bind] in H.
  set (d1 := if GeminiService.in_valid_priorities (Dict.get "priority" VNone d)
             then d else Dict.set "priority" (VStr "medium") d).
  assert (H1 : (if GeminiService.in_valid_priorities (Dict.get "priority" VNone d)
                then Ok (VDict d)
                else py_setitem (VDict d) "priority" (VStr "medium"))
               = Ok (VDict d1)).
  { unfold d1. destruct (GeminiService.in_valid_priorities _); reflexivity. }
  rewrite H1 in H. cbn [result_bind py_get py_item py_setitem] in H.
  assert (Hk : forall k, k <> "priority" ->
                         Dict.get k VNone d1 = Dict.get k VNone d).
  { intros k Hk. unfold d1. destruct (GeminiService.in_valid_priorities _); auto.
    now apply get_set_neq. }
  destruct (truthy (Dict.get "deadline" VNone d1)).
  - destruct (Dict.item "deadline" d1); cbn [result_bind] in H; [|discriminate].
    destruct (Strptime.strptime a) as [dt|e].
    + injection H as <-. split; [eauto|]. intros k K1 K2. cbn [field_of]. auto.
    + destruct (is_value_error e); [|discriminate].
      cbn in H. injection H as <-. split; [eauto|]. intros k K1 K2.
      cbn [field_of]. rewrite get_set_neq by exact K2. auto.
  - injection H as <-. split; [eauto|]. intros k K1 K2. cbn [field_of]. auto.
Qed.

Lemma has_required_dict : forall fields data,
  GeminiService.has_required fields (VDict data)
  = Ok (forallb (fun k => Dict.mem k data) fields).
Proof.
  induction fields as [|k fields IH]; intros data; simpl; [reflexivity|].
  destruct (Dict.mem k data); simpl; [apply IH|reflexivity].
Qed.

(** X13. What the meeting normalizer returns. When it returns a dict, the
    response was an object with the three required fields, every field
    of it other than [action_items] is returned as it was, and the
    action items are as many as before, in their order, each an object
    whose fields other than [priority] and [deadline] are unchanged. It
    returns [None] when the response is not an object, when a required
    field is missing, and when some action item is not an object. *)
Theorem summary_parser_changes_only_priorities_and_deadlines :
  forall (env : Env) (text : string),
    (forall r,
        GeminiService._parse_meeting_summary_response env text = Some r ->
        exists data items items',
          json_loads env (GeminiService.clean text) = Ok (VDict data)
          /\ (forall k, In k GeminiService.required_fields -> Dict.mem k data = true)
          /\ (forall k, k <> "action_items" -> Dict.lookup k r = Dict.lookup k data)
          /\ py_iter (Dict.get "action_items" (VList []) data) = Ok items
          /\ py_iter (Dict.get "action_items" (VList []) r) = Ok items'
          /\ Forall2 (fun i i' =>
                        (exists d d', i = VDict d /\ i' = VDict d')
                        /\ forall k, k <> "priority" -> k <> "deadline" ->
                                     field_of k i' = field_of k i)
                     items items')
    /\ (forall v,
           json_loads env (GeminiService.clean text) = Ok v ->
           (forall d, v <> VDict d) ->
           GeminiService._parse_meeting_summary_response env text = None)
    /\ (forall data k,
           json_loads env (GeminiService.clean text) = Ok (VDict data) ->
           In k GeminiService.required_fields -> Dict.mem k data = false ->
           GeminiService._parse_meeting_summary_response env text = None)
    /\ (forall data items i,
           json_loads env (GeminiService.clean text) = Ok (VDict data) ->
           py_iter (Dict.get "action_items" (VList []) data) = Ok items ->
           In i items -> (forall d, i <> VDict d) ->
           GeminiService._parse_meeting_summary_response env text = None).
Proof.
  intros env text. split; [|split; [|split]].
  - intros r H. pose proof H as H'.
    apply parse_meeting_summary_some in H.
    destruct H as (data & items & items' & Hj & Hi & Hi' & HF & Hk).
    exists data, items, items'. split; [exact Hj|]. split.
    + unfold GeminiService._parse_meeting_summary_response,
        GeminiService.parse_meeting_summary_body in H'.
      rewrite Hj in H'. cbn [result_bind] in H'.
      rewrite has_required_dict in H'. cbn [result_bind] in H'.
      destruct (forallb _ _) eqn:Hall; [|discriminate H'].
      intros k Hin. rewrite forallb_forall in Hall. now apply Hall.
    + split; [exact Hk|]. split; [exact Hi|]. split; [exact Hi'|].
      eapply Forall2_impl; [|exact HF].
      intros a b Hab. now apply normalize_action_item_frame.
  - intros v Hj Hv.
    unfold GeminiService._parse_meeting_summary_response,
      GeminiService.parse_meeting_summary_body.
    rewrite Hj. cbn [result_bind].
    destruct (GeminiService.has_required GeminiService.required_fields v)
      as [[|]|]; cbn [result_bind negb]; try reflexivity.
    destruct v as [| | | | |l|d| |]; try reflexivity.
    exfalso. exact (Hv d eq_refl).
  - intros data k Hj Hin Hm.
    unfold GeminiService._parse_meeting_summary_response,
      GeminiService.parse_meeting_summary_body.
    rewrite Hj. cbn [result_bind]. rewrite has_required_dict.
    cbn [result_bind].
    assert (Hall : forallb (fun k0 => Dict.mem k0 data)
                           GeminiService.required_fields = false).
    { destruct (forallb _ _) eqn:E; [|reflexivity].
      rewrite forallb_forall in E. rewrite (E k Hin) in Hm. discriminate. }
    rewrite Hall. reflexivity.
  - intros data items i Hj Hi Hin Hnd.
    destruct (GeminiService._parse_meeting_summary_response env text) as [r|] eqn:H;
      [|reflexivity].
    exfalso. apply parse_meeting_summary_some in H.
    destruct H as (data' & items0 & items' & Hj' & Hi0 & _ & HF & _).
    rewrite Hj in Hj'. injection Hj' as <-.
    rewrite Hi in Hi0. injection Hi0 as <-.
    clear - HF Hin Hnd. induction HF as [|a b l l' Hab _ IH]; [contradiction|].
    destruct Hin as [<-|Hin]; [|auto].
    destruct a as [| | | | |l0|d0| |]; try discriminate Hab.
    exact (Hnd d0 eq_refl).
Qed.

Lemma extract_sender_email_reads_the_address_witness :
  GmailService.extract_sender_email "Bob Builder <bob@example.com> (work)"
  = "bob@example.com".
Proof.
  apply (@extract_sender_email_reads_the_address
           "Bob Builder " "bob@example.com" " (work)");
    [reflexivity|discriminate|reflexivity|reflexivity].
Defined.

Lemma clean_unwraps_a_fenced_response_witness :
  GeminiService.clean
    (String.append " "
       (String.append "```json"
          (String.append (String "010" "")
             (String.append "{}"
                (String.append (String "010" "") (String.append "```" " "))))))
  = "{}".
Proof.
  apply (@clean_unwraps_a_fenced_response
           " " (String "010" "") "{}" (String "010" "") " ");
    reflexivity.
Defined.

(* ------------------------------------------------------------------ *)
(** * The listing of tasks                                              *)
(* ------------------------------------------------------------------ *)

Lemma get_all_run : forall sorted query page per_page w,
  (1 <= page)%Z -> (1 <= per_page)%Z ->
  Task.get_all sorted query page per_page w
  = (Ok (Task.mkListing
           (firstn (Z.to_nat per_page)
                   (skipn (Z.to_nat ((page - 1) * per_page))
                          (sorted (filter query (db w tasks)))))
           [ ("page", VInt page);
             ("per_page", VInt per_page);
             ("total", VInt (Z.of_nat (List.length (filter query (db w tasks)))));
             ("pages",
              VInt ((Z.of_nat (List.length (filter query (db w tasks)))
                     + per_page - 1) / per_page)) ]), w).
Proof.
  intros sorted query page per_page w Hp Hn.
  unfold Task.get_all, Store.find_where, bind, lift, ret, Store.skip_limit,
    Store.page_count.
  replace ((page - 1) * per_page <? 0)%Z with false by (symmetry; apply Z.ltb_ge; nia).
  replace (per_page =? 0)%Z with false by (symmetry; apply Z.eqb_neq; lia).
  replace (Z.abs_nat per_page) with (Z.to_nat per_page) by lia.
  reflexivity.
Qed.

Lemma chunks_cover : forall (A : Type) k n (l : list A),
  0 < k -> List.length l <= n * k ->
  List.concat (map (fun i => firstn k (skipn (i * k) l)) (seq 0 n)) = l.
Proof.
  intros A k n. induction n as [|n IH]; intros l Hk Hl.
  - simpl in Hl. destruct l; [reflexivity|simpl in Hl; lia].
  - rewrite seq_S, map_app, concat_app. simpl.
    rewrite app_nil_r.
    destruct (Nat.le_gt_cases (List.length l) (n * k)) as [Hle|Hgt].
    + rewrite IH by assumption. rewrite skipn_all2 by exact Hle.
      rewrite firstn_nil. apply app_nil_r.
    + transitivity (firstn (n * k) l ++ skipn (n * k) l);
        [|apply firstn_skipn].
      f_equal.
      * etransitivity;
          [|apply (IH (firstn (n * k) l));
            [assumption|rewrite length_firstn; lia]].
        f_equal. apply map_ext_in. intros i Hi. apply in_seq in Hi.
        rewrite skipn_firstn_comm.
        rewrite firstn_firstn. f_equal.
        assert (i * k + k <= n * k) by nia. lia.
      * apply firstn_all2. rewrite length_skipn. simpl in Hl. lia.
Qed.

Lemma value_eqb_str : forall v s, value_eqb v (VStr s) = true -> v = VStr s.
Proof.
  intros v s H. destruct v; try discriminate H. simpl in H.
  apply String.eqb_eq in H. now subst.
Qed.

Lemma skip_limit_incl : forall skip limit docs page_docs,
  Store.skip_limit skip limit docs = Ok page_docs ->
  forall t, In t page_docs -> In t docs.
Proof.
  intros skip limit docs page_docs H t Ht. unfold Store.skip_limit in H.
  destruct (skip <? 0)%Z; [discriminate|]. injection H as <-.
  assert (Hsk : forall n (l : list dict) x, In x (skipn n l) -> In x l).
  { intros n l x Hx. rewrite <- (firstn_skipn n l). apply in_or_app. now right. }
  assert (Hfi : forall n (l : list dict) x, In x (firstn n l) -> In x l).
  { intros n l x Hx. rewrite <- (firstn_skipn n l). apply in_or_app. now left. }
  destruct (limit =? 0)%Z.
  - eapply Hsk; exact Ht.
  - eapply Hsk. eapply Hfi; exact Ht.
Qed.

Lemma get_all_listed : forall sorted query page per_page w r w',
  (forall l t, In t (sorted l) -> In t l) ->
  Task.get_all sorted query page per_page w = (Ok r, w') ->
  w' = w /\ forall t, In t (Task.listed r) -> In t (db w tasks) /\ query t = true.
Proof.
  intros sorted query page per_page w r w' Hs H.
  unfold Task.get_all, Store.find_where, bind, lift, ret in H.
  destruct (Store.skip_limit _ _ _) as [pg|e] eqn:E; [|discriminate].
  destruct (Store.page_count _ _) as [n|e]; [|discriminate].
  injection H as <- <-. split; [reflexivity|]. cbn [Task.listed].
  intros t Ht. apply (@skip_limit_incl _ _ _ _ E) in Ht. apply Hs in Ht.
  apply filter_In in Ht. exact Ht.
Qed.

(** X14. [Task.get_user_tasks] reads and does not write, and lists only
    stored tasks that are assigned to the user. When the user's document
    has a non-empty address, a listed task carries that address in
    [user_email] or has no such field; and each filter given as a
    non-empty text (status, priority, source type) holds of every listed
    task. *)
Theorem user_listing_holds_only_the_users_tasks :
  forall sorted user_id status priority source_type page per_page w r w',
  (forall l t, In t (sorted l) -> In t l) ->
  Task.get_user_tasks sorted user_id status priority source_type page per_page w
  = (Ok r, w') ->
  w' = w
  /\ forall t, In t (Task.listed r) ->
       In t (db w tasks)
       /\ Store.field "assigned_to" t = VObjectId user_id
       /\ (forall u e, fst (User.find_by_id user_id w) = Ok (Some u) ->
             Dict.lookup "email" u = Some (VStr e) -> e <> "" ->
             Dict.lookup "user_email" t = None
             \/ Dict.lookup "user_email" t = Some (VStr e))
       /\ (forall s, status = VStr s -> s <> "" ->
             Store.field "status" t = VStr s)
       /\ (forall s, priority = VStr s -> s <> "" ->
             Store.field "priority" t = VStr s)
       /\ (forall s, source_type = VStr s -> s <> "" ->
             Store.field "source_type" t = VStr s).
Proof.
  intros sorted user_id status priority source_type page per_page w r w' Hs H.
  unfold Task.get_user_tasks, bind in H.
  unfold User.find_by_id, Store.find_one in *. cbn [fst] in *.
  destruct (@get_all_listed _ _ _ _ _ _ _ Hs H) as [-> Hin].
  split; [reflexivity|]. intros t Ht. destruct (Hin t Ht) as [Hdb Hq].
  split; [exact Hdb|]. unfold Task.user_query in Hq.
  apply andb_prop in Hq. destruct Hq as [Hq Hso].
  apply andb_prop in Hq. destruct Hq as [Hq Hpr].
  apply andb_prop in Hq. destruct Hq as [Hq Hst].
  apply andb_prop in Hq. destruct Hq as [Hq Hem].
  assert (Hne : forall s, s <> "" -> truthy (VStr s) = true).
  { intros s Hs0. cbn. destruct (String.eqb s "") eqn:E; [|reflexivity].
    apply String.eqb_eq in E. contradiction. }
  split.
  { unfold Store.matches in Hq. cbn [forallb fst snd] in Hq.
    rewrite andb_true_r in Hq. apply value_eqb_oid in Hq. exact Hq. }
  split.
  { intros u e Hu He Hn. injection Hu as Hu. rewrite Hu in Hem.
    assert (Ht1 : truthy (VDict u) = true).
    { destruct u; [discriminate He|reflexivity]. }
    rewrite Ht1 in Hem. unfold Dict.get in Hem at 1 2. rewrite He in Hem.
    rewrite (Hne e Hn) in Hem.
    unfold Store.field, Dict.get, Dict.mem in Hem.
    destruct (Dict.lookup "user_email" t) as [v|]; [right|left; reflexivity].
    cbn [negb] in Hem. rewrite orb_false_r in Hem.
    apply value_eqb_str in Hem. now subst. }
  split; [|split].
  - intros s -> Hn. rewrite (Hne s Hn) in Hst. apply value_eqb_str in Hst. exact Hst.
  - intros s -> Hn. rewrite (Hne s Hn) in Hpr. apply value_eqb_str in Hpr. exact Hpr.
  - intros s -> Hn. rewrite (Hne s Hn) in Hso. apply value_eqb_str in Hso. exact Hso.
Qed.

Lemma ceil_covers : forall total k : Z,
  (0 <= total)%Z -> (1 <= k)%Z ->
  (0 <= (total + k - 1) / k)%Z /\ (total <= (total + k - 1) / k * k)%Z.
Proof.
  intros total k Ht Hk.
  assert (H := Z.div_mod (total + k - 1) k ltac:(lia)).
  assert (H2 := Z.mod_pos_bound (total + k - 1) k ltac:(lia)).
  split; [apply Z.div_pos; lia|nia].
Qed.

(** X15. For a page size of at least 1 and an order that keeps the number of
    documents, every page from 1 on of [Task.get_all] is answered
    without a write, holds at most [per_page] tasks and reports the same
    [total] and the same number of [pages]; the pages 1 to [pages], one
    after the other, are the matching tasks in the order of the
    listing: no task is left out and none comes twice. *)
Theorem pages_of_tasks_partition_the_matching_tasks :
  forall sorted query per_page w,
  (forall l, List.length (sorted l) = List.length l) ->
  (1 <= per_page)%Z ->
  exists pages : nat,
    (forall page, (1 <= page)%Z ->
       exists r,
         Task.get_all sorted query page per_page w = (Ok r, w)
         /\ Dict.lookup "pages" (Task.pagination r) = Some (VInt (Z.of_nat pages))
         /\ Dict.lookup "total" (Task.pagination r)
            = Some (VInt (Z.of_nat (List.length (filter query (db w tasks)))))
         /\ (Z.of_nat (List.length (Task.listed r)) <= per_page)%Z)
    /\ List.concat (map (task_page sorted query per_page w) (seq 1 pages))
       = sorted (filter query (db w tasks)).
Proof.
  intros sorted query per_page w Hlen Hk.
  set (l := filter query (db w tasks)).
  destruct (@ceil_covers (Z.of_nat (List.length l)) per_page ltac:(lia) Hk)
    as [Hpos Hcov].
  exists (Z.to_nat ((Z.of_nat (List.length l) + per_page - 1) / per_page)).
  split.
  - intros page Hp. eexists. split; [apply get_all_run; assumption|].
    cbn [Task.pagination Task.listed]. fold l.
    split; [|split].
    + cbn. rewrite Z2Nat.id by exact Hpos. reflexivity.
    + reflexivity.
    + rewrite length_firstn. lia.
  - rewrite <- seq_shift, map_map.
    etransitivity;
      [|apply (@chunks_cover _ (Z.to_nat per_page)
                 (Z.to_nat ((Z.of_nat (List.length l) + per_page - 1) / per_page))
                 (sorted l));
        [lia|rewrite Hlen; nia]].
    f_equal. apply map_ext. intros i. unfold task_page.
    rewrite get_all_run by lia. cbn [fst Task.listed]. fold l.
    f_equal. f_equal. nia.
Qed.

(** Alice's pending tasks: the one that carries Bob's address and Bob's
    own are left out, the old one without an address is listed. *)
Lemma user_listing_holds_only_the_users_tasks_witness :
  exists r,
    Task.get_user_tasks (fun l => l) 1%N (VStr "pending") VNone VNone 1 10
                        Fixture.world_with_tasks
    = (Ok r, Fixture.world_with_tasks)
    /\ map (Dict.get "_id" VNone) (Task.listed r)
       = [VObjectId 30%N; VObjectId 34%N]
    /\ Forall (fun t => Store.field "assigned_to" t = VObjectId 1%N
                        /\ Store.field "status" t = VStr "pending")
              (Task.listed r).
Proof.
  destruct (Task.get_user_tasks (fun l => l) 1%N (VStr "pending") VNone VNone
              1 10 Fixture.world_with_tasks) as [[r|e] w1] eqn:E;
    [|cbv in E; discriminate E].
  destruct (@user_listing_holds_only_the_users_tasks
              (fun l => l) 1%N (VStr "pending") VNone VNone 1%Z 10%Z
              Fixture.world_with_tasks r w1 (fun l t H => H) E) as [-> Hall].
  exists r. split; [reflexivity|]. split.
  - cbv in E. injection E as <-. reflexivity.
  - apply Forall_forall. intros t Ht.
    destruct (Hall t Ht) as (_ & Ha & _ & Hs & _).
    split; [exact Ha|]. apply (Hs "pending"); [reflexivity|discriminate].
Defined.

(** The five tasks of the fixture, two by two. *)
Lemma pages_of_tasks_partition_the_matching_tasks_witness :
  exists pages : nat,
    List.concat (map (task_page (fun l => l) (fun _ => true) 2
                                Fixture.world_with_tasks)
                     (seq 1 pages))
    = db Fixture.world_with_tasks tasks.
Proof.
  destruct (@pages_of_tasks_partition_the_matching_tasks
              (fun l => l) (fun _ => true) 2%Z Fixture.world_with_tasks
              (fun l => eq_refl) ltac:(lia)) as [pages [_ H]].
  exists pages. exact H.
Defined.

(* ------------------------------------------------------------------ *)
(** * Users: addresses and tokens                                       *)
(* ------------------------------------------------------------------ *)

Lemma violates_stored_email : forall w email d user,
  In users_email_index (indexes w) ->
  Store.field "email" user = VStr email ->
  find (Store.matches [("email", VStr email)]) (db w users) = Some d ->
  Store.violates w users user = true.
Proof.
  intros w email d user Hix Hu Hd.
  unfold Store.violates. apply existsb_exists.
  exists users_email_index. split; [exact Hix|].
  cbn [users_email_index ix_unique ix_collection ix_keys collection_eqb andb].
  apply existsb_exists. apply find_some in Hd. destruct Hd as [Hin Hm].
  exists d. split; [exact Hin|].
  unfold Store.key_of. cbn [map Store.keys_eqb]. rewrite Hu.
  unfold Store.matches in Hm. cbn [forallb fst snd] in Hm. exact Hm.
Qed.

Lemma not_violates_no_email : forall w email user,
  In users_email_index (indexes w) ->
  Store.field "email" user = VStr email ->
  Store.violates w users user = false ->
  filter (Store.matches [("email", VStr email)]) (db w users) = [].
Proof.
  intros w email user Hix Hu Hv.
  destruct (filter _ _) as [|d l] eqn:E; [reflexivity|].
  assert (Hin : In d (filter (Store.matches [("email", VStr email)]) (db w users)))
    by (rewrite E; simpl; auto).
  apply filter_In in Hin. destruct Hin as [Hin Hm].
  destruct (find (Store.matches [("email", VStr email)]) (db w users))
    as [d'|] eqn:Ef.
  - rewrite (violates_stored_email w user Hix Hu Ef) in Hv. discriminate.
  - assert (Hn := find_none _ _ Ef _ Hin). congruence.
Qed.

(** X16. With the unique index on the address of a user: [User.create] with
    an address that [find_by_email] finds is refused with a uniqueness
    violation and stores nothing. When it succeeds, no user had the
    address, the new document is appended to the users and is the one
    [find_by_email] returns for the address from then on, the users
    the two pollers visit are the same as before (the new user has no
    token), and a second [create] with the address is refused. *)
Theorem user_create_keeps_addresses_unique :
  forall env email name picture google_id role w,
    In users_email_index (indexes w) ->
    (forall d,
        fst (User.find_by_email (VStr email) w) = Ok (Some d) ->
        exists e w',
          User.create env (VStr email) name picture google_id role w = (Raise e, w')
          /\ exn_cls e = DuplicateKeyError
          /\ db w' = db w /\ trace w' = trace w)
    /\
    (forall u w1,
        User.create env (VStr email) name picture google_id role w = (Ok u, w1) ->
        db w1 users = db w users ++ [u]
        /\ fst (User.find_by_email (VStr email) w) = Ok None
        /\ User.find_by_email (VStr email) w1 = (Ok (Some u), w1)
        /\ filter (Store.matches [("email", VStr email)]) (db w1 users) = [u]
        /\ fst (User.get_users_with_gmail_tokens w1)
           = fst (User.get_users_with_gmail_tokens w)
        /\ fst (User.get_users_with_calendar_tokens w1)
           = fst (User.get_users_with_calendar_tokens w)
        /\ exists e w2,
             User.create env (VStr email) name picture google_id role w1
             = (Raise e, w2)
             /\ exn_cls e = DuplicateKeyError /\ db w2 = db w1).
Proof.
  intros env email name picture google_id role w Hix.
  assert (Hdup : forall w0 d,
    In users_email_index (indexes w0) ->
    find (Store.matches [("email", VStr email)]) (db w0 users) = Some d ->
    exists e w',
      User.create env (VStr email) name picture google_id role w0 = (Raise e, w')
      /\ exn_cls e = DuplicateKeyError
      /\ db w' = db w0 /\ trace w' = trace w0).
  { intros w0 d Hix0 Hd.
    unfold User.create, bind, utcnow, call, Store.insert_one. cbn [fst snd].
    match goal with
    | |- context [Store.violates ?w1 _ ?doc] =>
        assert (Hv : Store.violates w1 users doc = true)
          by (eapply (@violates_stored_email w1 email d doc);
              [exact Hix0|reflexivity|exact Hd]);
        rewrite Hv
    end.
    eexists _, _. repeat split. }
  split.
  - intros d Hd. unfold User.find_by_email, Store.find_one in Hd. cbn [fst] in Hd.
    injection Hd as Hd. eapply Hdup; eauto.
  - intros u w1 H.
    unfold User.create, bind, utcnow, call, Store.insert_one in H.
    cbn [fst snd] in H.
    match type of H with
    | context [Store.violates ?w0 _ ?doc] =>
        destruct (Store.violates w0 users doc) eqn:Hv
    end; [discriminate|].
    unfold ret in H. injection H as Hu Hw.
    match type of Hv with
    | Store.violates ?w0 _ ?doc = false =>
        apply (@not_violates_no_email w0 email doc Hix eq_refl) in Hv
    end.
    cbn [db] in Hv.
    assert (Hdb : db w1 users = db w users ++ [u]).
    { rewrite <- Hw, <- Hu. reflexivity. }
    assert (Hm : Store.matches [("email", VStr email)] u = true).
    { rewrite <- Hu. cbn. now rewrite String.eqb_refl. }
    assert (Hfilter : filter (Store.matches [("email", VStr email)])
                             (db w1 users) = [u]).
    { rewrite Hdb, filter_app, Hv. cbn [app filter]. now rewrite Hm. }
    assert (Hnone : find (Store.matches [("email", VStr email)]) (db w users)
                    = None).
    { destruct (find _ _) as [d|] eqn:Ef; [|reflexivity].
      apply find_some in Ef. destruct Ef as [Hin Hmd].
      assert (Hf : In d (filter (Store.matches [("email", VStr email)])
                                (db w users)))
        by (apply filter_In; auto).
      rewrite Hv in Hf. destruct Hf. }
    assert (Hfind : find (Store.matches [("email", VStr email)]) (db w1 users)
                    = Some u).
    { destruct (find (Store.matches [("email", VStr email)]) (db w1 users))
        as [d|] eqn:Ef.
      - pose proof (find_some _ _ Ef) as [Hin Hmd].
        assert (In d [u]) as [<-|[]]; [|reflexivity].
        rewrite <- Hfilter. apply filter_In. auto.
      - eapply find_none in Ef; [|rewrite Hdb; apply in_or_app; right; simpl; eauto].
        congruence. }
    split; [exact Hdb|].
    split; [unfold User.find_by_email, Store.find_one; cbn [fst]; now rewrite Hnone|].
    split; [unfold User.find_by_email, Store.find_one; now rewrite Hfind|].
    split; [exact Hfilter|].
    assert (Hel : forall k, In k ["gmail_refresh_token"; "calendar_tokens"] ->
                            Store.set_and_not_null k u = false).
    { intros k Hk. rewrite <- Hu.
      destruct Hk as [<-|[<-|[]]]; reflexivity. }
    split; [|split].
    + unfold User.get_users_with_gmail_tokens, Store.find_where. cbn [fst].
      rewrite Hdb, filter_app. cbn [filter].
      rewrite (Hel "gmail_refresh_token") by (simpl; auto).
      now rewrite app_nil_r.
    + unfold User.get_users_with_calendar_tokens, Store.find_where. cbn [fst].
      rewrite Hdb, filter_app. cbn [filter].
      rewrite (Hel "calendar_tokens") by (simpl; auto).
      now rewrite app_nil_r.
    + destruct (@Hdup w1 u) as (e & w2 & Hr & Hc & Hdb2 & _).
      * rewrite <- Hw. exact Hix.
      * exact Hfind.
      * exists e, w2. auto.
Qed.

Lemma keys_set : forall k v d k',
  In k' (map fst (Dict.set k v d)) -> k' = k \/ In k' (map fst d).
Proof.
  intros k v d k'. induction d as [|[k0 v0] d IH]; simpl.
  - intros [H|[]]; auto.
  - destruct (String.eqb k k0) eqn:E; simpl; intros [H|H]; auto.
    destruct (IH H); auto.
Qed.

Lemma in_update_first_unmatched : forall p f docs (d : dict),
  p d = false -> (forall x, p x = true -> p (f x) = true) ->
  (In d (Store.update_first p f docs) <-> In d docs).
Proof.
  intros p f docs d Hd Hf. induction docs as [|d0 docs IH]; simpl; [tauto|].
  destruct (p d0) eqn:E; simpl.
  - split; intros [H|H]; auto.
    + subst d. rewrite (Hf _ E) in Hd. discriminate.
    + subst d. congruence.
  - rewrite IH. tauto.
Qed.

Lemma in_update_first_image : forall p f docs (d : dict),
  find p docs = Some d -> In (f d) (Store.update_first p f docs).
Proof.
  intros p f docs d. induction docs as [|d0 docs IH]; simpl; [discriminate|].
  destruct (p d0) eqn:E; intros H.
  - injection H as ->. simpl. auto.
  - simpl. auto.
Qed.

Lemma user_update_run : forall env user_id changes w u,
  ~ In "_id" (map fst changes) ->
  find (Store.matches (by_id user_id)) (db w users) = Some u ->
  let now := utcnow_at env (ticks w) in
  let changes' := Dict.set "updated_at" (VDatetime now) changes in
  exists w1,
    User.update env user_id changes w = (Ok (Some (Dict.update changes' u)), w1)
    /\ db w1 users
       = Store.update_first (Store.matches (by_id user_id))
                            (Dict.update changes') (db w users)
    /\ (forall c, c <> users -> db w1 c = db w c)
    /\ indexes w1 = indexes w.
Proof.
  intros env user_id changes w u Hid Hu now changes'.
  destruct (User.update env user_id changes w) as [r w1] eqn:E.
  exists w1.
  unfold User.update, bind, utcnow, call, Store.update_one,
    User.find_by_id, Store.find_one in E.
  cbn [fst snd] in E. injection E as <- <-.
  cbn [db Store.commit Store.apply_event collection_eqb indexes].
  fold now. fold changes'.
  change [("_id", VObjectId user_id)] with (by_id user_id).
  split; [|split; [reflexivity|split; [|reflexivity]]].
  - rewrite (@find_update_first _ _ _ u Hu); [reflexivity|].
    rewrite matches_update_notin.
    + apply find_some in Hu. apply Hu.
    + intros k [<-|[]]. unfold changes'. intro Hin.
      apply keys_set in Hin. destruct Hin as [Hin|Hin]; [discriminate|auto].
  - intros c Hc. now rewrite (collection_eqb_neq Hc).
Qed.

Lemma value_eqb_none : forall v, value_eqb v VNone = true <-> v = VNone.
Proof.
  intros v. destruct v; simpl; split; intros H; try discriminate; reflexivity.
Qed.

Lemma token_update : forall env user_id k v w u,
  k <> "_id" -> k <> "updated_at" ->
  find (Store.matches (by_id user_id)) (db w users) = Some u ->
  exists u' w1,
    User.update env user_id [(k, v)] w = (Ok (Some u'), w1)
    /\ Dict.lookup k u' = Some v
    /\ Dict.lookup "_id" u' = Dict.lookup "_id" u
    /\ (In u' (filter (Store.set_and_not_null k) (db w1 users)) <-> v <> VNone)
    /\ (forall d, Store.matches (by_id user_id) d = false ->
          (In d (filter (Store.set_and_not_null k) (db w1 users))
           <-> In d (filter (Store.set_and_not_null k) (db w users))))
    /\ (forall c, c <> users -> db w1 c = db w c).
Proof.
  intros env user_id k v w u Hk1 Hk2 Hu.
  assert (Hid : ~ In "_id" (map fst [(k, v)])).
  { simpl. intros [H|[]]. congruence. }
  destruct (@user_update_run env user_id [(k, v)] w u Hid Hu)
    as (w1 & Hrun & Hdb & Hother & _).
  set (now := utcnow_at env (ticks w)) in *.
  assert (Hch : Dict.set "updated_at" (VDatetime now) [(k, v)]
                = [(k, v); ("updated_at", VDatetime now)]).
  { assert (E : String.eqb "updated_at" k = false)
      by (apply String.eqb_neq; congruence).
    cbn [Dict.set]. now rewrite E. }
  rewrite Hch in *.
  set (u' := Dict.update [(k, v); ("updated_at", VDatetime now)] u) in *.
  assert (Hl : Dict.lookup k u' = Some v).
  { unfold u', Dict.update. cbn [fold_left fst snd].
    rewrite lookup_set_neq by congruence. apply lookup_set_eq. }
  assert (Hkeep : forall x, Store.matches (by_id user_id) x = true ->
            Store.matches (by_id user_id)
              (Dict.update [(k, v); ("updated_at", VDatetime now)] x) = true).
  { intros x Hx. rewrite matches_update_notin; [exact Hx|].
    intros k0 [<-|[]]. simpl. intros [H|[H|[]]]; congruence. }
  exists u', w1. split; [exact Hrun|]. split; [exact Hl|]. split.
  { unfold u'. apply lookup_update_notin. simpl. intros [H|[H|[]]]; congruence. }
  split; [|split; [|exact Hother]].
  - rewrite filter_In. unfold Store.set_and_not_null at 1. rewrite Hl.
    split.
    + intros [_ H] ->. discriminate.
    + intros Hv. split.
      * rewrite Hdb. apply in_update_first_image. exact Hu.
      * destruct (value_eqb v VNone) eqn:E; [|reflexivity].
        apply value_eqb_none in E. contradiction.
  - intros d Hd. rewrite !filter_In, Hdb.
    rewrite (@in_update_first_unmatched _ _ _ d Hd Hkeep). tauto.
Qed.

(** X17. For a user that [find_by_id] finds, [update_refresh_token] returns
    the user's document with the token stored and the same [_id]; that
    document is among [get_users_with_gmail_tokens] afterwards exactly
    when the token is not null, and the documents of every other id are
    listed as before. The same holds of [update_calendar_tokens] and
    [get_users_with_calendar_tokens]. *)
Theorem stored_tokens_decide_who_is_polled :
  forall env user_id token w u,
    fst (User.find_by_id user_id w) = Ok (Some u) ->
    (exists u' w1 before after,
        User.update_refresh_token env user_id token w = (Ok (Some u'), w1)
        /\ Dict.lookup "gmail_refresh_token" u' = Some token
        /\ Dict.lookup "_id" u' = Dict.lookup "_id" u
        /\ User.get_users_with_gmail_tokens w = (Ok before, w)
        /\ User.get_users_with_gmail_tokens w1 = (Ok after, w1)
        /\ (In u' after <-> token <> VNone)
        /\ (forall d, Store.matches (by_id user_id) d = false ->
              (In d after <-> In d before)))
    /\
    (exists u' w1 before after,
        User.update_calendar_tokens env user_id token w = (Ok (Some u'), w1)
        /\ Dict.lookup "calendar_tokens" u' = Some token
        /\ Dict.lookup "_id" u' = Dict.lookup "_id" u
        /\ User.get_users_with_calendar_tokens w = (Ok before, w)
        /\ User.get_users_with_calendar_tokens w1 = (Ok after, w1)
        /\ (In u' after <-> token <> VNone)
        /\ (forall d, Store.matches (by_id user_id) d = false ->
              (In d after <-> In d before))).
Proof.
  intros env user_id token w u Hu.
  unfold User.find_by_id, Store.find_one in Hu. cbn [fst] in Hu.
  injection Hu as Hu. change [("_id", VObjectId user_id)] with (by_id user_id) in Hu.
  split.
  - destruct (@token_update env user_id "gmail_refresh_token" token w u
                ltac:(discriminate) ltac:(discriminate) Hu)
      as (u' & w1 & Hrun & Hl & Hid & Hin & Hoth & _).
    exists u', w1, (filter (Store.set_and_not_null "gmail_refresh_token") (db w users)),
      (filter (Store.set_and_not_null "gmail_refresh_token") (db w1 users)).
    repeat (split; [first [exact Hrun|exact Hl|exact Hid|reflexivity]|]).
    split; [exact Hin|exact Hoth].
  - destruct (@token_update env user_id "calendar_tokens" token w u
                ltac:(discriminate) ltac:(discriminate) Hu)
      as (u' & w1 & Hrun & Hl & Hid & Hin & Hoth & _).
    exists u', w1, (filter (Store.set_and_not_null "calendar_tokens") (db w users)),
      (filter (Store.set_and_not_null "calendar_tokens") (db w1 users)).
    repeat (split; [first [exact Hrun|exact Hl|exact Hid|reflexivity]|]).
    split; [exact Hin|exact Hoth].
Qed.

(** Alice's address is taken. *)
Lemma user_create_keeps_addresses_unique_witness :
  exists e w',
    User.create Fixture.empty_env (VStr "alice@example.com") (VStr "Alice")
                (VStr "") (VStr "g-1") (VStr "user") Fixture.empty_world
    = (Raise e, w')
    /\ exn_cls e = DuplicateKeyError
    /\ db w' = db Fixture.empty_world.
Proof.
  destruct (@user_create_keeps_addresses_unique
              Fixture.empty_env "alice@example.com" (VStr "Alice") (VStr "")
              (VStr "g-1") (VStr "user") Fixture.empty_world
              (or_introl eq_refl)) as [Hdup _].
  destruct (Hdup Fixture.alice eq_refl) as (e & w' & Hr & Hc & Hdb & _).
  exists e, w'. split; [exact Hr|]. split; [exact Hc|exact Hdb].
Defined.

(** Bob connects his mailbox. *)
Lemma stored_tokens_decide_who_is_polled_witness :
  exists u' w1 after,
    User.update_refresh_token Fixture.empty_env 2%N (VStr "refresh-b")
                              Fixture.empty_world = (Ok (Some u'), w1)
    /\ User.get_users_with_gmail_tokens w1 = (Ok after, w1)
    /\ In u' after.
Proof.
  destruct (@stored_tokens_decide_who_is_polled
              Fixture.empty_env 2%N (VStr "refresh-b") Fixture.empty_world
              Fixture.bob eq_refl)
    as [(u' & w1 & before & after & Hrun & _ & _ & _ & Hafter & Hin & _) _].
  exists u', w1, after. split; [exact Hrun|]. split; [exact Hafter|].
  apply Hin. discriminate.
Defined.

(* ------------------------------------------------------------------ *)
(** * From the store to the listing                                     *)
(* ------------------------------------------------------------------ *)

Lemma some_page_lists : forall sorted query per_page w t,
  (forall l x, In x (sorted l) <-> In x l) ->
  (forall l, List.length (sorted l) = List.length l) ->
  (1 <= per_page)%Z ->
  In t (db w tasks) -> query t = true ->
  exists page r,
    (1 <= page)%Z
    /\ Task.get_all sorted query page per_page w = (Ok r, w)
    /\ In t (Task.listed r).
Proof.
  intros sorted query per_page w t Hin Hlen Hk Ht Hq.
  set (l := filter query (db w tasks)).
  destruct (@ceil_covers (Z.of_nat (List.length l)) per_page ltac:(lia) Hk)
    as [Hpos Hcov].
  assert (Hc := @chunks_cover _ (Z.to_nat per_page)
                  (Z.to_nat ((Z.of_nat (List.length l) + per_page - 1) / per_page))
                  (sorted l) ltac:(lia) ltac:(rewrite Hlen; nia)).
  assert (Hs : In t (sorted l)).
  { apply Hin. apply filter_In. auto. }
  rewrite <- Hc in Hs. apply in_concat in Hs. destruct Hs as (chunk & Hch & Htc).
  apply in_map_iff in Hch. destruct Hch as (i & <- & _).
  exists (Z.of_nat (S i)). eexists. split; [lia|].
  split; [apply get_all_run; lia|].
  cbn [Task.listed]. fold l.
  replace (Z.to_nat ((Z.of_nat (S i) - 1) * per_page))
    with (i * Z.to_nat per_page) by nia.
  exact Htc.
Qed.

(** X18. A task that [Task.create] stored for a user, with the address of
    that user in [user_email], is on some page of the user's listing
    without filters, for every page size of at least 1; and no listing
    of another user holds it, whatever the filters and the page. *)
Theorem created_task_is_listed_for_its_user_only :
  forall env a sorted per_page w t w1 uid u e,
    (forall l x, In x (sorted l) <-> In x l) ->
    (forall l, List.length (sorted l) = List.length l) ->
    (1 <= per_page)%Z ->
    fst (User.find_by_id uid w) = Ok (Some u) ->
    Dict.lookup "email" u = Some (VStr e) ->
    Task.assigned_to a = Some uid ->
    Task.user_email a = VStr e ->
    Task.create env a w = (Ok t, w1) ->
    (exists page r,
        (1 <= page)%Z
        /\ Task.get_user_tasks sorted uid VNone VNone VNone page per_page w1
           = (Ok r, w1)
        /\ In t (Task.listed r))
    /\ (forall other status priority source_type page r w2,
          other <> uid ->
          Task.get_user_tasks sorted other status priority source_type
                              page per_page w1 = (Ok r, w2) ->
          ~ In t (Task.listed r)).
Proof.
  intros env a sorted per_page w t w1 uid u e Hin Hlen Hk Hu He Ha Hm Hc.
  unfold Task.create, bind, utcnow, call, Store.insert_one in Hc.
  cbn [fst snd] in Hc.
  match type of Hc with
  | context [Store.violates ?w0 _ ?doc] =>
      destruct (Store.violates w0 tasks doc); [discriminate|]
  end.
  unfold ret in Hc. injection Hc as Ht Hw.
  rewrite Ha, Hm in Ht. cbn [oid_or_none] in Ht.
  assert (Hdb : db w1 tasks = db w tasks ++ [t]).
  { rewrite <- Hw, <- Ht. rewrite Ha, Hm. reflexivity. }
  assert (Husers : db w1 users = db w users) by (rewrite <- Hw; reflexivity).
  assert (Hat : Store.field "assigned_to" t = VObjectId uid)
    by (rewrite <- Ht; reflexivity).
  assert (Hue : Store.field "user_email" t = VStr e)
    by (rewrite <- Ht; reflexivity).
  split.
  - assert (Hq : Task.user_query uid (VStr e) VNone VNone VNone t = true).
    { unfold Task.user_query, Store.matches. cbn [forallb fst snd truthy].
      rewrite Hat, Hue. cbn [value_eqb]. rewrite N.eqb_refl, String.eqb_refl.
      cbn. destruct (negb (String.eqb e "")); reflexivity. }
    destruct (@some_page_lists sorted
                (Task.user_query uid (VStr e) VNone VNone VNone)
                per_page w1 t Hin Hlen Hk) as (page & r & Hp & Hr & Hl).
    { rewrite Hdb. apply in_or_app. right. simpl. auto. }
    { exact Hq. }
    exists page, r. split; [exact Hp|]. split; [|exact Hl].
    unfold Task.get_user_tasks, bind, User.find_by_id, Store.find_one.
    unfold User.find_by_id, Store.find_one in Hu. cbn [fst] in Hu.
    injection Hu as Hu. rewrite Husers, Hu.
    assert (Htr : truthy (VDict u) = true)
      by (destruct u; [discriminate He|reflexivity]).
    rewrite Htr. unfold Dict.get. rewrite He. exact Hr.
  - intros other status priority source_type page r w2 Hne Hr Hl.
    unfold Task.get_user_tasks, bind, User.find_by_id, Store.find_one in Hr.
    apply (@get_all_listed _ _ _ _ _ _ _ (fun l x => proj1 (Hin l x))) in Hr.
    destruct Hr as [_ Hall]. destruct (Hall t Hl) as [_ Hq].
    unfold Task.user_query in Hq.
    repeat (apply andb_prop in Hq; destruct Hq as [Hq _]).
    unfold Store.matches in Hq. cbn [forallb fst snd] in Hq.
    try rewrite andb_true_r in Hq. rewrite Hat in Hq. cbn [value_eqb] in Hq.
    apply N.eqb_eq in Hq. congruence.
Qed.

(** A task made for Alice from a mail of Bob. *)
Lemma created_task_is_listed_for_its_user_only_witness :
  exists t w1 page r,
    Task.create Fixture.empty_env
      (Task.mkArgs (VStr "Book the room") (VStr "") (VStr "high") VNone
                   (Some 1%N) (Some 1%N) (VStr "pending") (VStr "msg-9")
                   (VStr "bob@example.com") VNone (VStr "email") None VNone
                   VNone (VStr "alice@example.com"))
      Fixture.world_with_tasks = (Ok t, w1)
    /\ (1 <= page)%Z
    /\ Task.get_user_tasks (fun l => l) 1%N VNone VNone VNone page 2 w1
       = (Ok r, w1)
    /\ In t (Task.listed r).
Proof.
  set (a := Task.mkArgs (VStr "Book the room") (VStr "") (VStr "high") VNone
                   (Some 1%N) (Some 1%N) (VStr "pending") (VStr "msg-9")
                   (VStr "bob@example.com") VNone (VStr "email") None VNone
                   VNone (VStr "alice@example.com")).
  destruct (Task.create Fixture.empty_env a Fixture.world_with_tasks)
    as [[t|e] w1] eqn:E; [|cbv in E; discriminate E].
  destruct (@created_task_is_listed_for_its_user_only
              Fixture.empty_env a (fun l => l) 2%Z Fixture.world_with_tasks
              t w1 1%N Fixture.alice "alice@example.com"
              (fun l x => iff_refl _) (fun l => eq_refl) ltac:(lia)
              eq_refl eq_refl eq_refl eq_refl E)
    as [(page & r & Hp & Hr & Hl) _].
  exists t, w1, page, r. split; [reflexivity|].
  split; [exact Hp|]. split; [exact Hr|exact Hl].
Defined.

(* ------------------------------------------------------------------ *)
(** * The meetings of a user: the listing and the statistics            *)
(* ------------------------------------------------------------------ *)

Lemma get_user_meetings_run : forall sorted user_id status page per_page w,
  (1 <= page)%Z -> (1 <= per_page)%Z ->
  let l := filter (Meeting.user_query user_id status) (db w meetings) in
  Meeting.get_user_meetings sorted user_id status page per_page w
  = (Ok (Meeting.mkListing
           (firstn (Z.to_nat per_page)
                   (skipn (Z.to_nat ((page - 1) * per_page)) (sorted l)))
           [ ("page", VInt page);
             ("per_page", VInt per_page);
             ("total", VInt (Z.of_nat (List.length l)));
             ("pages",
              VInt ((Z.of_nat (List.length l) + per_page - 1) / per_page)) ]), w).
Proof.
  intros sorted user_id status page per_page w Hp Hn l.
  unfold Meeting.get_user_meetings, Store.find_where, bind, lift, ret,
    Store.skip_limit, Store.page_count.
  fold l.
  replace ((page - 1) * per_page <? 0)%Z with false by (symmetry; apply Z.ltb_ge; nia).
  replace (per_page =? 0)%Z with false by (symmetry; apply Z.eqb_neq; lia).
  replace (Z.abs_nat per_page) with (Z.to_nat per_page) by lia.
  destruct (Z.of_nat (List.length l) >? 0)%Z eqn:E; [reflexivity|].
  assert (H0 : Z.of_nat (List.length l) = 0%Z) by lia.
  rewrite H0. cbn [Z.add]. 
  replace ((per_page - 1) / per_page)%Z with 0%Z
    by (symmetry; apply Z.div_small; lia).
  reflexivity.
Qed.

(** X19. For a page size of at least 1 and an order that keeps the
    documents, every page from 1 on of [Meeting.get_user_meetings] is
    answered without a write, reports the same number of [pages], holds
    at most [per_page] meetings, all of them stored meetings of the
    user and, when a non-empty status is asked for, of that status; the
    pages 1 to [pages], one after the other, are the user's meetings of
    that status in the order of the listing. *)
Theorem user_meetings_are_listed_page_by_page :
  forall sorted user_id status per_page w,
    (forall l x, In x (sorted l) -> In x l) ->
    (forall l, List.length (sorted l) = List.length l) ->
    (1 <= per_page)%Z ->
    exists pages : nat,
      (forall page, (1 <= page)%Z ->
         exists r,
           Meeting.get_user_meetings sorted user_id status page per_page w
           = (Ok r, w)
           /\ Dict.lookup "pages" (Meeting.pagination r)
              = Some (VInt (Z.of_nat pages))
           /\ (Z.of_nat (List.length (Meeting.listed r)) <= per_page)%Z
           /\ (forall d, In d (Meeting.listed r) ->
                 In d (db w meetings)
                 /\ Store.field "user_id" d = VObjectId user_id
                 /\ (forall s, status = VStr s -> s <> "" ->
                       Store.field "processing_status" d = VStr s)))
      /\ List.concat (map (meeting_page sorted user_id status per_page w)
                          (seq 1 pages))
         = sorted (filter (Meeting.user_query user_id status) (db w meetings)).
Proof.
  intros sorted user_id status per_page w Hin Hlen Hk.
  set (l := filter (Meeting.user_query user_id status) (db w meetings)).
  destruct (@ceil_covers (Z.of_nat (List.length l)) per_page ltac:(lia) Hk)
    as [Hpos Hcov].
  exists (Z.to_nat ((Z.of_nat (List.length l) + per_page - 1) / per_page)).
  split.
  - intros page Hp. eexists. split; [apply get_user_meetings_run; assumption|].
    cbn [Meeting.pagination Meeting.listed]. fold l.
    split; [|split].
    + cbn. rewrite Z2Nat.id by exact Hpos. reflexivity.
    + rewrite length_firstn. lia.
    + intros d Hd.
      assert (Hd' : In d l).
      { apply Hin.
        rewrite <- (firstn_skipn (Z.to_nat ((page - 1) * per_page)) (sorted l)).
        apply in_or_app. right.
        rewrite <- (firstn_skipn (Z.to_nat per_page)
                      (skipn (Z.to_nat ((page - 1) * per_page)) (sorted l))).
        apply in_or_app. now left. }
      apply filter_In in Hd'. destruct Hd' as [Hdb Hq].
      split; [exact Hdb|]. unfold Meeting.user_query in Hq.
      apply andb_prop in Hq. destruct Hq as [Hu Hs].
      split.
      * unfold Store.matches in Hu. cbn [forallb fst snd] in Hu.
        rewrite andb_true_r in Hu. apply value_eqb_oid in Hu. exact Hu.
      * intros s -> Hne.
        assert (Ht : truthy (VStr s) = true).
        { cbn. destruct (String.eqb s "") eqn:E; [|reflexivity].
          apply String.eqb_eq in E. contradiction. }
        rewrite Ht in Hs. apply value_eqb_str in Hs. exact Hs.
  - rewrite <- seq_shift, map_map.
    etransitivity;
      [|apply (@chunks_cover _ (Z.to_nat per_page)
                 (Z.to_nat ((Z.of_nat (List.length l) + per_page - 1) / per_page))
                 (sorted l));
        [lia|rewrite Hlen; nia]].
    f_equal. apply map_ext. intros i. unfold meeting_page.
    rewrite get_user_meetings_run by lia. cbn [fst Meeting.listed]. fold l.
    f_equal. f_equal. nia.
Qed.

(** Alice's failed meetings: the standup. *)
Lemma user_meetings_are_listed_page_by_page_witness :
  exists pages : nat,
    List.concat (map (meeting_page (fun l => l) 1%N (VStr "failed") 5
                                   Fixture.world_with_transcript)
                     (seq 1 pages))
    = [Fixture.standup "failed" (VStr "Failed to generate summary")].
Proof.
  destruct (@user_meetings_are_listed_page_by_page
              (fun l => l) 1%N (VStr "failed") 5%Z Fixture.world_with_transcript
              (fun l x H => H) (fun l => eq_refl) ltac:(lia)) as [pages [_ H]].
  exists pages. exact H.
Defined.

Lemma count_cons : forall q d docs,
  count q (d :: docs)
  = ((if Store.matches q d then 1 else 0) + count q docs)%Z.
Proof.
  intros q d docs. unfold count. cbn [filter].
  destruct (Store.matches q d); cbn [List.length]; lia.
Qed.

Lemma matches_status : forall (u : oid) s d,
  Store.matches [("user_id", VObjectId u); ("processing_status", VStr s)] d
  = value_eqb (Store.field "user_id" d) (VObjectId u)
    && value_eqb (Store.field "processing_status" d) (VStr s).
Proof.
  intros. unfold Store.matches. cbn [forallb fst snd]. now rewrite andb_true_r.
Qed.

Lemma matches_owner : forall (u : oid) d,
  Store.matches [("user_id", VObjectId u)] d
  = value_eqb (Store.field "user_id" d) (VObjectId u).
Proof.
  intros. unfold Store.matches. cbn [forallb fst snd]. now rewrite andb_true_r.
Qed.

Lemma status_buckets : forall (u : oid) docs,
  let by_status s :=
    count [("user_id", VObjectId u); ("processing_status", VStr s)] docs in
  let total := count [("user_id", VObjectId u)] docs in
  (0 <= by_status "completed" /\ 0 <= by_status "pending"
   /\ 0 <= by_status "processing" /\ 0 <= by_status "failed")%Z
  /\ (by_status "completed" + by_status "pending" + by_status "processing"
      + by_status "failed" <= total)%Z
  /\ ((forall d, In d docs -> Store.field "user_id" d = VObjectId u ->
         In (Store.field "processing_status" d)
            [VStr "completed"; VStr "pending"; VStr "processing"; VStr "failed"]) ->
      (by_status "completed" + by_status "pending" + by_status "processing"
       + by_status "failed" = total)%Z).
Proof.
  intros u docs by_status total.
  split; [unfold by_status, count; lia|].
  subst by_status total.
  induction docs as [|d docs IH].
  - unfold count. simpl. split; [lia|intros _; lia].
  - destruct IH as [IH1 IH2].
    rewrite !count_cons, !matches_status, matches_owner.
    destruct (value_eqb (Store.field "user_id" d) (VObjectId u)) eqn:Eu;
      cbn [andb].
    + assert (Hx : forall s1 s2, s1 <> s2 ->
                value_eqb (Store.field "processing_status" d) (VStr s1) = true ->
                value_eqb (Store.field "processing_status" d) (VStr s2) = false).
      { intros s1 s2 Hne H1.
        destruct (value_eqb _ (VStr s2)) eqn:H2; [|reflexivity].
        apply value_eqb_str in H1. apply value_eqb_str in H2. congruence. }
      split.
      * destruct (value_eqb (Store.field "processing_status" d) (VStr "completed")) eqn:E1;
          [rewrite (Hx "completed" "pending"), (Hx "completed" "processing"),
             (Hx "completed" "failed") by (congruence || assumption); lia|].
        destruct (value_eqb (Store.field "processing_status" d) (VStr "pending")) eqn:E2;
          [rewrite (Hx "pending" "processing"), (Hx "pending" "failed")
             by (congruence || assumption); lia|].
        destruct (value_eqb (Store.field "processing_status" d) (VStr "processing")) eqn:E3;
          [rewrite (Hx "processing" "failed") by (congruence || assumption); lia|].
        destruct (value_eqb (Store.field "processing_status" d) (VStr "failed")); lia.
      * intros Hall.
        assert (Hd := Hall d (or_introl eq_refl) (value_eqb_oid _ _ Eu)).
        specialize (IH2 (fun d' Hin => Hall d' (or_intror Hin))).
        destruct Hd as [Hd|[Hd|[Hd|[Hd|[]]]]]; rewrite <- Hd;
          cbn [value_eqb String.eqb Ascii.eqb Bool.eqb]; lia.
    + split; [lia|].
      intros Hall. rewrite <- IH2; [lia|]. intros d' Hin. apply Hall. now right.
Qed.

(** X20. [MeetingStats.get] answers 200 and writes nothing; [total] is the
    number of the caller's meetings, no count is negative, and the four
    counts by status add up to at most [total]: no meeting is counted
    under two statuses. They add up to [total] when every meeting of
    the caller has one of the four statuses. *)
Theorem meeting_stats_count_each_meeting_at_most_once :
  forall (jwt_identity : oid) (w : World),
  exists total completed pending processing failed : Z,
    MeetingStats.get jwt_identity w
    = (Ok (MeetingStats.mkAnswer
             [("success", VBool true);
              ("data", VDict [("total", VInt total);
                              ("completed", VInt completed);
                              ("pending", VInt pending);
                              ("processing", VInt processing);
                              ("failed", VInt failed)])]
             200), w)
    /\ total = count [("user_id", VObjectId jwt_identity)] (db w meetings)
    /\ (0 <= completed /\ 0 <= pending /\ 0 <= processing /\ 0 <= failed)%Z
    /\ (completed + pending + processing + failed <= total)%Z
    /\ ((forall d, In d (db w meetings) ->
           Store.field "user_id" d = VObjectId jwt_identity ->
           In (Store.field "processing_status" d)
              [VStr "completed"; VStr "pending"; VStr "processing";
               VStr "failed"]) ->
        (completed + pending + processing + failed = total)%Z).
Proof.
  intros jwt w.
  destruct (@status_buckets jwt (db w meetings)) as (H0 & Hle & Heq).
  eexists _, _, _, _, _. split; [reflexivity|].
  split; [reflexivity|]. split; [exact H0|]. split; [exact Hle|exact Heq].
Qed.

(* ------------------------------------------------------------------ *)
(** * The normalizers on the responses they accept                      *)
(* ------------------------------------------------------------------ *)

Lemma in_valid_priorities_spec : forall v,
  GeminiService.in_valid_priorities v = true <-> In v low_medium_high.
Proof.
  intros v. unfold low_medium_high. split.
  - destruct v; cbn; try discriminate. intros H.
    destruct (String.eqb s "low") eqn:E1.
    { apply String.eqb_eq in E1. subst. auto. }
    destruct (String.eqb s "medium") eqn:E2.
    { apply String.eqb_eq in E2. subst. auto. }
    destruct (String.eqb s "high") eqn:E3.
    { apply String.eqb_eq in E3. subst. auto. }
    discriminate H.
  - intros [<-|[<-|[<-|[]]]]; reflexivity.
Qed.

Lemma normal_priority_normalized : forall t t',
  field_of "priority" t' = normal_priority t -> priority_normalized t t'.
Proof.
  intros t t' H. unfold normal_priority in H. split; intros Hin.
  - apply in_valid_priorities_spec in Hin. now rewrite Hin in H.
  - destruct (GeminiService.in_valid_priorities (field_of "priority" t)) eqn:E.
    + apply in_valid_priorities_spec in E. contradiction.
    + exact H.
Qed.

Lemma strptime_text_error : forall s e,
  Strptime.strptime (VStr s) = Raise e -> is_value_error e = true.
Proof.
  intros s e H. cbn [Strptime.strptime] in H. unfold Strptime.strptime_ymd in H.
  repeat match type of H with
         | match ?x with _ => _ end = _ => destruct x
         | (if ?x then _ else _) = _ => destruct x
         | (let (_, _) := ?x in _) = _ => destruct x
         end;
    try discriminate H; injection H as <-; reflexivity.
Qed.

Lemma normalize_action_item_total : forall i,
  workable i -> exists i', GeminiService.normalize_action_item i = Ok i'.
Proof.
  intros i [[d ->] Hd]. cbn [field_of] in Hd.
  unfold GeminiService.normalize_action_item. cbn [py_get result_bind].
  set (d1 := if GeminiService.in_valid_priorities (Dict.get "priority" VNone d)
             then d else Dict.set "priority" (VStr "medium") d).
  assert (H1 : (if GeminiService.in_valid_priorities (Dict.get "priority" VNone d)
                then Ok (VDict d)
                else py_setitem (VDict d) "priority" (VStr "medium"))
               = Ok (VDict d1)).
  { unfold d1. destruct (GeminiService.in_valid_priorities _); reflexivity. }
  rewrite H1. cbn [result_bind py_get py_item py_setitem].
  assert (Hdl : Dict.get "deadline" VNone d1 = Dict.get "deadline" VNone d).
  { unfold d1. destruct (GeminiService.in_valid_priorities _); auto.
    apply get_set_neq. discriminate. }
  rewrite Hdl.
  destruct (truthy (Dict.get "deadline" VNone d)) eqn:Ht; [|eauto].
  destruct (Hd eq_refl) as [s Hs].
  rewrite <- Hdl in Ht. rewrite (item_of_truthy_get _ _ Ht), Hdl, Hs.
  cbn [result_bind].
  destruct (Strptime.strptime (VStr s)) as [t|e] eqn:E; [eauto|].
  rewrite (@strptime_text_error _ _ E). eauto.
Qed.

Lemma normalize_action_items_total : forall items,
  Forall workable items ->
  exists items', result_map GeminiService.normalize_action_item items = Ok items'.
Proof.
  induction 1 as [|i items Hi _ [items' IH]]; [exists []; reflexivity|].
  destruct (@normalize_action_item_total _ Hi) as [i' Hi'].
  exists (i' :: items'). cbn [result_map]. now rewrite Hi', IH.
Qed.

Lemma parse_meeting_summary_total : forall env text data items,
  json_loads env (GeminiService.clean text) = Ok (VDict data) ->
  (forall k, In k GeminiService.required_fields -> Dict.mem k data = true) ->
  py_iter (Dict.get "action_items" (VList []) data) = Ok items ->
  Forall workable items ->
  exists r, GeminiService._parse_meeting_summary_response env text = Some r.
Proof.
  intros env text data items Hj Hreq Hit Hw.
  unfold GeminiService._parse_meeting_summary_response,
    GeminiService.parse_meeting_summary_body.
  rewrite Hj. cbn [result_bind]. rewrite has_required_dict.
  assert (Hall : forallb (fun k => Dict.mem k data) GeminiService.required_fields
                 = true)
    by (apply forallb_forall; exact Hreq).
  rewrite Hall. cbn [result_bind negb py_get]. rewrite Hit. cbn [result_bind].
  destruct (@normalize_action_items_total _ Hw) as [items' Hn]. rewrite Hn.
  cbn [result_bind].
  destruct (Dict.get "action_items" (VList []) data); eauto.
Qed.

Lemma validate_task_total : forall t,
  workable t ->
  exists r,
    GeminiService.validate_task t = Ok r
    /\ forall t', r = Some t' ->
         forall k, In k ["title"; "description"; "priority"; "deadline"] ->
                   exists v, py_item t' k = Ok v.
Proof.
  intros t [[d ->] Hd]. cbn [field_of] in Hd.
  unfold GeminiService.validate_task. cbn [py_get result_bind].
  destruct (truthy (Dict.get "title" VNone d)) eqn:Hti;
    [|eexists; split; [reflexivity|discriminate]].
  destruct (truthy (Dict.get "description" VNone d)) eqn:Hde;
    [|eexists; split; [reflexivity|discriminate]].
  cbn [negb].
  set (d1 := if GeminiService.in_valid_priorities (Dict.get "priority" VNone d)
             then d else Dict.set "priority" (VStr "medium") d).
  assert (H1 : (if GeminiService.in_valid_priorities (Dict.get "priority" VNone d)
                then Ok (VDict d)
                else py_setitem (VDict d) "priority" (VStr "medium"))
               = Ok (VDict d1)).
  { unfold d1. destruct (GeminiService.in_valid_priorities _); reflexivity. }
  rewrite H1. cbn [result_bind py_get py_item py_setitem].
  assert (Hdl : Dict.get "deadline" VNone d1 = Dict.get "deadline" VNone d).
  { unfold d1. destruct (GeminiService.in_valid_priorities _); auto.
    apply get_set_neq. discriminate. }
  assert (Hkeys : forall x k,
            In k ["title"; "description"; "priority"; "deadline"] ->
            exists v, Dict.item k (Dict.set "deadline" x d1) = Ok v).
  { intros x k Hk. unfold Dict.item.
    assert (Hsome : forall k0, k0 <> "deadline" ->
              truthy (Dict.get k0 VNone d1) = true ->
              exists v, Dict.lookup k0 (Dict.set "deadline" x d1) = Some v).
    { intros k0 Hne Ht. rewrite lookup_set_neq by exact Hne.
      unfold Dict.get in Ht. destruct (Dict.lookup k0 d1); [eauto|discriminate]. }
    assert (Hfrom : forall k0, k0 <> "priority" ->
              Dict.get k0 VNone d1 = Dict.get k0 VNone d).
    { intros k0 Hne. unfold d1.
      destruct (GeminiService.in_valid_priorities _); auto.
      apply get_set_neq. exact Hne. }
    destruct Hk as [<-|[<-|[<-|[<-|[]]]]].
    - destruct (Hsome "title") as [v Hv];
        [discriminate|rewrite Hfrom by discriminate; exact Hti|].
      rewrite Hv. eauto.
    - destruct (Hsome "description") as [v Hv];
        [discriminate|rewrite Hfrom by discriminate; exact Hde|].
      rewrite Hv. eauto.
    - destruct (Hsome "priority") as [v Hv]; [discriminate| |rewrite Hv; eauto].
      unfold d1.
      destruct (GeminiService.in_valid_priorities (Dict.get "priority" VNone d))
        eqn:E.
      + apply in_valid_priorities_spec in E.
        destruct E as [<-|[<-|[<-|[]]]]; reflexivity.
      + rewrite get_set_eq. reflexivity.
    - rewrite lookup_set_eq. eauto. }
  rewrite Hdl.
  destruct (truthy (Dict.get "deadline" VNone d)) eqn:Ht.
  - destruct (Hd eq_refl) as [s Hs].
    rewrite <- Hdl in Ht. rewrite (item_of_truthy_get _ _ Ht), Hdl, Hs.
    cbn [result_bind].
    destruct (Strptime.strptime (VStr s)) as [dt|e] eqn:E.
    + cbn. eexists. split; [reflexivity|].
      intros t' Ht' k Hk. injection Ht' as <-. apply Hkeys, Hk.
    + rewrite (@strptime_text_error _ _ E). cbn.
      eexists. split; [reflexivity|].
      intros t' Ht' k Hk. injection Ht' as <-. apply Hkeys, Hk.
  - cbn. eexists. split; [reflexivity|].
    intros t' Ht' k Hk. injection Ht' as <-. apply Hkeys, Hk.
Qed.

Lemma validate_tasks_total : forall candidates,
  Forall workable candidates ->
  exists validated,
    GeminiService.validate_tasks candidates = Ok validated
    /\ Forall (fun t' =>
                 forall k, In k ["title"; "description"; "priority"; "deadline"] ->
                           exists v, py_item t' k = Ok v) validated.
Proof.
  induction 1 as [|t candidates Ht _ (validated & IH & IHk)];
    [exists []; split; [reflexivity|constructor]|].
  destruct (@validate_task_total _ Ht) as (r & Hr & Hk).
  cbn [GeminiService.validate_tasks]. rewrite Hr, IH. cbn [result_bind].
  destruct r as [t'|]; eexists; (split; [reflexivity|]); auto.
Qed.

Lemma parse_gemini_response_total : forall env text data candidates,
  json_loads env (GeminiService.clean text) = Ok (VDict data) ->
  truthy (Dict.get "has_tasks" (VBool false) data) = true ->
  Dict.get "tasks" (VList []) data = VList candidates ->
  Forall workable candidates ->
  filter complete candidates <> [] ->
  exists r, GeminiService._parse_gemini_response env text = Some r.
Proof.
  intros env text data candidates Hj Hh Ht Hw Hne.
  unfold GeminiService._parse_gemini_response,
    GeminiService.parse_gemini_response_body.
  rewrite Hj. cbn [result_bind]. rewrite Hh. cbn [negb]. rewrite Ht.
  destruct candidates as [|t ts]; [contradiction Hne; reflexivity|].
  destruct (@validate_tasks_total _ Hw) as (validated & Hv & Hk).
  rewrite Hv. cbn [result_bind].
  assert (HF := validate_tasks_filter _ Hv).
  destruct validated as [|first rest].
  { destruct (filter complete (t :: ts)); [contradiction Hne; reflexivity|].
    inversion HF. }
  inversion Hk as [|? ? Hfirst _]; subst.
  destruct (Hfirst "title") as [v1 E1]; [simpl; auto|].
  destruct (Hfirst "description") as [v2 E2]; [simpl; auto|].
  destruct (Hfirst "priority") as [v3 E3]; [simpl; auto|].
  destruct (Hfirst "deadline") as [v4 E4]; [simpl; auto 6|].
  rewrite E1, E2, E3, E4. cbn [result_bind]. eauto.
Qed.

(** C7. The normalizer sets the priority of every candidate that is
    not one of low, medium and high (absent included) to 'medium', and
    keeps a priority that is one of the three. Email mode: a response
    that is an object with a truthy [has_tasks] and a list of workable
    candidates, one at least with a title and a description, is
    answered; and in every answer the tasks returned are the candidates
    with a title and a description, in their order, each with its
    priority so normalized. Meeting mode: a response that is an object
    with the required fields and workable action items is answered; and
    in every answer the action items are those of the response, in their
    order, each with its priority so normalized. *)
Theorem invalid_priority_becomes_medium :
  forall (env : Env) (text : string),
    (forall data candidates,
        json_loads env (GeminiService.clean text) = Ok (VDict data) ->
        truthy (Dict.get "has_tasks" (VBool false) data) = true ->
        Dict.get "tasks" (VList []) data = VList candidates ->
        Forall workable candidates ->
        filter complete candidates <> [] ->
        exists r validated,
          GeminiService._parse_gemini_response env text = Some r
          /\ Dict.lookup "tasks" r = Some (VList validated)
          /\ Forall2 priority_normalized (filter complete candidates) validated)
    /\
    (forall r,
        GeminiService._parse_gemini_response env text = Some r ->
        exists data candidates validated,
          json_loads env (GeminiService.clean text) = Ok (VDict data)
          /\ Dict.get "tasks" (VList []) data = VList candidates
          /\ Dict.lookup "tasks" r = Some (VList validated)
          /\ Forall2 priority_normalized (filter complete candidates) validated)
    /\
    (forall data items,
        json_loads env (GeminiService.clean text) = Ok (VDict data) ->
        (forall k, In k GeminiService.required_fields -> Dict.mem k data = true) ->
        py_iter (Dict.get "action_items" (VList []) data) = Ok items ->
        Forall workable items ->
        exists r items',
          GeminiService._parse_meeting_summary_response env text = Some r
          /\ py_iter (Dict.get "action_items" (VList []) r) = Ok items'
          /\ Forall2 priority_normalized items items')
    /\
    (forall r,
        GeminiService._parse_meeting_summary_response env text = Some r ->
        exists data items items',
          json_loads env (GeminiService.clean text) = Ok (VDict data)
          /\ py_iter (Dict.get "action_items" (VList []) data) = Ok items
          /\ py_iter (Dict.get "action_items" (VList []) r) = Ok items'
          /\ Forall2 priority_normalized items items').
Proof.
  intros env text.
  assert (Hemail : forall r,
    GeminiService._parse_gemini_response env text = Some r ->
    exists data candidates validated,
      json_loads env (GeminiService.clean text) = Ok (VDict data)
      /\ Dict.get "tasks" (VList []) data = VList candidates
      /\ Dict.lookup "tasks" r = Some (VList validated)
      /\ Forall2 priority_normalized (filter complete candidates) validated).
  { intros r H.
    destruct (parse_gemini_response_some _ _ H)
      as (data & candidates & validated & Hj & Ht & Hv & _ & Hr & _).
    exists data, candidates, validated. repeat (split; [assumption|]).
    eapply Forall2_impl; [|exact (validate_tasks_filter _ Hv)].
    intros t t' Hk. apply normal_priority_normalized.
    exact (proj1 (validate_task_kept _ Hk)). }
  assert (Hmeeting : forall r,
    GeminiService._parse_meeting_summary_response env text = Some r ->
    exists data items items',
      json_loads env (GeminiService.clean text) = Ok (VDict data)
      /\ py_iter (Dict.get "action_items" (VList []) data) = Ok items
      /\ py_iter (Dict.get "action_items" (VList []) r) = Ok items'
      /\ Forall2 priority_normalized items items').
  { intros r H.
    destruct (parse_meeting_summary_some _ _ H)
      as (data & items & items' & Hj & Hi & Hi' & HF & _).
    exists data, items, items'. repeat (split; [assumption|]).
    eapply Forall2_impl; [|exact HF].
    intros i i' Hn. apply normal_priority_normalized.
    exact (proj1 (normalize_action_item_ok _ Hn)). }
  split; [|split; [exact Hemail|split; [|exact Hmeeting]]].
  - intros data candidates Hj Hh Ht Hw Hne.
    destruct (@parse_gemini_response_total env text data candidates
                Hj Hh Ht Hw Hne) as [r Hr].
    destruct (Hemail r Hr) as (data' & candidates' & validated & Hj' & Ht' & Hl & HF).
    rewrite Hj in Hj'. injection Hj' as <-.
    rewrite Ht in Ht'. injection Ht' as <-.
    exists r, validated. auto.
  - intros data items Hj Hreq Hi Hw.
    destruct (@parse_meeting_summary_total env text data items Hj Hreq Hi Hw)
      as [r Hr].
    destruct (Hmeeting r Hr) as (data' & items0 & items' & Hj' & Hi0 & Hi' & HF).
    rewrite Hj in Hj'. injection Hj' as <-.
    rewrite Hi in Hi0. injection Hi0 as <-.
    exists r, items'. auto.
Qed.

(** The dict [json.loads] gives for a text of the fixtures. *)
Ltac loaded env text k :=
  let j := eval vm_compute in (json_loads env (GeminiService.clean text)) in
  match j with
  | Ok (VDict ?data) =>
      let H := fresh "Hj" in
      assert (H : json_loads env (GeminiService.clean text) = Ok (VDict data))
        by (vm_compute; reflexivity);
      k data H
  end.

Lemma workable_dict : forall d,
  (truthy (Dict.get "deadline" VNone d) = true ->
   exists s, Dict.get "deadline" VNone d = VStr s) ->
  workable (VDict d).
Proof. intros d H. split; [eauto|exact H]. Qed.

Ltac workable_all :=
  repeat (constructor;
          [apply workable_dict; cbn;
           first [discriminate | intros _; eexists; reflexivity]|]);
  try constructor.

(** Both modes on the loose responses of the fixtures: the priority
    that is absent and the one that is not valid become 'medium', the
    valid one is kept. *)
Lemma invalid_priority_becomes_medium_witness :
  (exists r validated,
      GeminiService._parse_gemini_response Fixture.empty_env Fixture.loose_tasks
      = Some r
      /\ Dict.lookup "tasks" r = Some (VList validated)
      /\ map (field_of "title") validated
         = [VStr "Call Bob"; VStr "Send report"; VStr "Update dashboard"]
      /\ map (field_of "priority") validated
         = [VStr "medium"; VStr "medium"; VStr "low"])
  /\ (exists r items',
         GeminiService._parse_meeting_summary_response
           Fixture.empty_env Fixture.loose_summary = Some r
         /\ py_iter (Dict.get "action_items" (VList []) r) = Ok items'
         /\ map (field_of "description") items'
            = [VStr "Book the room"; VStr "Update API documentation";
               VStr "Finalize API design"]
         /\ map (field_of "priority") items'
            = [VStr "medium"; VStr "medium"; VStr "high"]).
Proof.
  split.
  - destruct (@invalid_priority_becomes_medium
                Fixture.empty_env Fixture.loose_tasks) as (Hemail & _).
    loaded Fixture.empty_env Fixture.loose_tasks ltac:(fun data Hj =>
      destruct (Hemail data _ Hj eq_refl eq_refl) as (r & validated & Hr & Hl & _)).
    + workable_all.
    + discriminate.
    + exists r, validated. split; [exact Hr|]. split; [exact Hl|].
      vm_compute in Hr. injection Hr as <-.
      vm_compute in Hl. injection Hl as <-.
      split; reflexivity.
  - destruct (@invalid_priority_becomes_medium
                Fixture.empty_env Fixture.loose_summary) as (_ & _ & Hmeeting & _).
    loaded Fixture.empty_env Fixture.loose_summary ltac:(fun data Hj =>
      let it := eval vm_compute in
                  (py_iter (Dict.get "action_items" (VList []) data)) in
      match it with
      | Ok ?items =>
          destruct (Hmeeting data items Hj) as (r & items' & Hr & Hi & _)
      end).
    + intros k [<-|[<-|[<-|[]]]]; reflexivity.
    + reflexivity.
    + workable_all.
    + exists r, items'. split; [exact Hr|]. split; [exact Hi|].
      vm_compute in Hr. injection Hr as <-.
      vm_compute in Hi. injection Hi as <-.
      split; reflexivity.
Defined.

Lemma emits_meeting_create_task_deadline :
  forall env meeting user meeting_id user_id action_item acc,
  emits (dated_write (fun v => v = field_of "deadline" action_item))
        (MeetingPollingService.create_task env meeting user meeting_id user_id
                                           action_item acc).
Proof.
  intros env meeting user meeting_id user_id action_item acc.
  unfold MeetingPollingService.create_task.
  repeat first
    [ emits_step
    | apply emits_update_task_id; intros; exact I
    | apply emits_task_create; intros d _ Hd _; cbn [Task.deadline] in Hd;
      match goal with
      | Hg : py_get action_item "deadline" VNone = Ok ?x |- _ =>
          exists x; split; [exact Hd|]; exact (py_get_field_of _ _ Hg)
      end ].
Qed.

(** C4. A deadline that is the empty text is not set to null in meeting
    mode. The meeting normalizer answers a response that is an object
    with the required fields and workable action items, and an action
    item whose deadline is the empty text is returned with that
    deadline; every task [process_meeting] creates from an action item
    carries the deadline of the item as it is; so the empty text, which
    does not read as a date, becomes the deadline of a Task. The email
    normalizer sets the same deadline to null. *)
Theorem empty_deadline_reaches_the_task :
  forall (env : Env),
    (forall text data items,
        json_loads env (GeminiService.clean text) = Ok (VDict data) ->
        (forall k, In k GeminiService.required_fields -> Dict.mem k data = true) ->
        py_iter (Dict.get "action_items" (VList []) data) = Ok items ->
        Forall workable items ->
        exists r items',
          GeminiService._parse_meeting_summary_response env text = Some r
          /\ py_iter (Dict.get "action_items" (VList []) r) = Ok items'
          /\ Forall2 (fun i i' => field_of "deadline" i = VStr "" ->
                                  field_of "deadline" i' = VStr "")
                     items items')
    /\
    (forall meeting user meeting_id user_id action_item acc w r w',
        MeetingPollingService.create_task env meeting user meeting_id user_id
                                          action_item acc w = (r, w') ->
        exists new,
          db w' tasks = db w tasks ++ new
          /\ Forall (fun t => Dict.lookup "deadline" t
                              = Some (field_of "deadline" action_item)) new)
    /\
    (forall t t',
        GeminiService.validate_task t = Ok (Some t') ->
        field_of "deadline" t = VStr "" ->
        field_of "deadline" t' = VNone)
    /\
    (workable (VDict [("deadline", VStr "")])
     /\ ~ no_invalid_date_text (VStr "")).
Proof.
  intros env. split; [|split; [|split]].
  - intros text data items Hj Hreq Hi Hw.
    destruct (@parse_meeting_summary_total env text data items Hj Hreq Hi Hw)
      as [r Hr].
    destruct (parse_meeting_summary_some _ _ Hr)
      as (data' & items0 & items' & Hj' & Hi0 & Hi' & HF & _).
    rewrite Hj in Hj'. injection Hj' as <-.
    rewrite Hi in Hi0. injection Hi0 as <-.
    exists r, items'. split; [exact Hr|]. split; [exact Hi'|].
    eapply Forall2_impl; [|exact HF].
    intros i i' Hn He.
    destruct (normalize_action_item_ok _ Hn) as (_ & _ & Habsent & _).
    rewrite <- He. apply Habsent. rewrite He. reflexivity.
  - intros meeting user meeting_id user_id action_item [idx n] w r w' Hrun.
    destruct (@emits_meeting_create_task_deadline env meeting user meeting_id
                user_id action_item (idx, n) w r w' Hrun) as (evs & J & HF).
    assert (Hsame : forall evs0, journal w evs0 w' -> evs0 = evs).
    { intros evs0 J0. apply (app_inv_head (trace w)).
      rewrite <- (journal_trace J0). exact (journal_trace J). }
    destruct (meeting_create_task_run _ _ _ _ _ _ _ _ _ Hrun)
      as (n' & _ & [J0|[(t & _ & J0)|(t & o & now & _ & _ & J0)]]);
      apply Hsame in J0; subst evs; rewrite (journal_db J).
    + exists []. split; [cbn; now rewrite app_nil_r|constructor].
    + exists [t]. split; [reflexivity|].
      inversion HF as [|? ? Hd _]; subst. cbn in Hd.
      destruct Hd as (v & Hv & ->).
      constructor; [exact Hv|constructor].
    + exists [t]. split; [reflexivity|].
      inversion HF as [|? ? Hd _]; subst. cbn in Hd.
      destruct Hd as (v & Hv & ->).
      constructor; [exact Hv|constructor].
  - intros t t' Hk He.
    destruct (validate_task_kept _ Hk) as (_ & Hd & _).
    rewrite Hd. unfold email_deadline. rewrite He. reflexivity.
  - split.
    + apply workable_dict. cbn. discriminate.
    + intros H. destruct (H "" eq_refl) as [t Ht]. discriminate Ht.
Qed.

(** The standup whose notes hold the loose summary: the run ends with
    [True] and the second of its three tasks has the empty text as its
    deadline; the email normalizer gives null to the same candidate. *)
Lemma empty_deadline_reaches_the_task_witness :
  (exists r items',
      GeminiService._parse_meeting_summary_response
        Fixture.loose_env Fixture.loose_summary = Some r
      /\ py_iter (Dict.get "action_items" (VList []) r) = Ok items'
      /\ map (field_of "deadline") items'
         = [VNone; VStr ""; VStr "2025-11-22"])
  /\ fst (MeetingPollingService.process_meeting
            Fixture.loose_env (Fixture.standup "pending" VNone)
            (Fixture.world [Fixture.standup "pending" VNone] [])) = Ok true
  /\ map (Dict.lookup "deadline")
         (db (snd (MeetingPollingService.process_meeting
                     Fixture.loose_env (Fixture.standup "pending" VNone)
                     (Fixture.world [Fixture.standup "pending" VNone] [])))
             tasks)
     = [Some VNone; Some (VStr ""); Some (VStr "2025-11-22")]
  /\ (exists r validated,
         GeminiService._parse_gemini_response
           Fixture.empty_env Fixture.loose_tasks = Some r
         /\ Dict.lookup "tasks" r = Some (VList validated)
         /\ map (field_of "deadline") validated = [VNone; VNone; VNone]).
Proof.
  split; [|split; [|split]].
  - destruct (@empty_deadline_reaches_the_task Fixture.loose_env)
      as (Hmeeting & _).
    loaded Fixture.loose_env Fixture.loose_summary ltac:(fun data Hj =>
      let it := eval vm_compute in
                  (py_iter (Dict.get "action_items" (VList []) data)) in
      match it with
      | Ok ?items =>
          destruct (Hmeeting Fixture.loose_summary data items Hj)
            as (r & items' & Hr & Hi & _)
      end).
    + intros k [<-|[<-|[<-|[]]]]; reflexivity.
    + reflexivity.
    + workable_all.
    + exists r, items'. split; [exact Hr|]. split; [exact Hi|].
      vm_compute in Hr. injection Hr as <-.
      vm_compute in Hi. injection Hi as <-.
      reflexivity.
  - vm_compute. reflexivity.
  - vm_compute. reflexivity.
  - eexists _, _. split; [vm_compute; reflexivity|].
    split; [vm_compute; reflexivity|]. vm_compute. reflexivity.
Defined.
